(** * Synthetic firmware generator: layout engine, header/trailer generators
      and per-image assembler of [armgen/oracle/firmware].

    A shallow embedding of [config.py], [extractor.py] (the blob index),
    [layout.py], [headers.py] and the worker of [build_firmware.py].

    Conventions of the embedding.
    - Python [int] is [Z]; [bytes]/[bytearray] are lists of byte values
      ([Z] in 0..255); [str] is [string].
    - Python [float] is an exact rational ([Q]): the code only adds,
      multiplies, divides and compares floats, apart from
      [math.log2] and [2 ** x] in [_pick_total_size], which are taken
      as the two functions [log2f] and [exp2f] where they return; where
      they raise ([math.log2] of a size that is not positive, [2 ** x]
      for [x >= 1024]) so does [pick_total_size].
    - [random.Random] is the stream of the raw outputs it will still
      deliver; every method maps the next raw output into its range, so
      a statement over all streams covers every behaviour of the
      generator.  [Random(seed)] is the function [Random_of_seed].
    - [time.time()] is the explicit reading [now] handed to the
      functions that read the clock.
    - A raised exception is [Raised e]. *)

From Stdlib Require Import ZArith QArith Qround Lia Lqa Ascii.
From stdpp Require Import gmap strings list sorting pretty.

Local Open Scope Z_scope.

(** ** Exceptions *)

Inductive result (A : Type) : Type :=
| Ok (a : A)
| Raised (e : string).
Arguments Ok {A} a.
Arguments Raised {A} e.

Definition rbind {A B} (m : result A) (f : A -> result B) : result B :=
  match m with
  | Ok a => f a
  | Raised e => Raised e
  end.

(** ** [random.Random] *)

Module PyRandom.

(** The raw outputs still to come.  An exhausted stream delivers 0. *)
Definition Random := list Z.

Definition next_raw (rng : Random) : Z * Random :=
  match rng with
  | [] => (0, [])
  | x :: rest => (x, rest)
  end.

(** [_randbelow(n)]: a value in [0, n). *)
Definition randbelow (n : Z) (rng : Random) : Z * Random :=
  let '(x, rng) := next_raw rng in (x mod n, rng).

(** [random()]: a multiple of 2^-53 in [0, 1). *)
Definition random (rng : Random) : Q * Random :=
  let '(x, rng) := next_raw rng in
  (Qmake (x mod 2 ^ 53) (2 ^ 53)%positive, rng).

(** [randint(a, b)] = [a + _randbelow(b - a + 1)]. *)
Definition randint (a b : Z) (rng : Random) : Z * Random :=
  let '(k, rng) := randbelow (b - a + 1) rng in (a + k, rng).

(** [choice(seq)] = [seq[_randbelow(len(seq))]].  Python raises
    IndexError on an empty sequence; every call of the modelled code
    passes a literal or a list it has checked to be non-empty, and [d]
    stands for that case. *)
Definition choice {A} (d : A) (seq : list A) (rng : Random) : A * Random :=
  let '(i, rng) := randbelow (Z.of_nat (length seq)) rng in
  (nth (Z.to_nat i) seq d, rng).

(** [uniform(a, b)] = [a + (b - a) * random()]. *)
Definition uniform (a b : Q) (rng : Random) : Q * Random :=
  let '(x, rng) := random rng in ((a + (b - a) * x)%Q, rng).

(** [randbytes(n)]: [n] byte values. *)
Fixpoint randbytes (n : nat) (rng : Random) : list Z * Random :=
  match n with
  | O => ([], rng)
  | S n' =>
      let '(b, rng) := randbelow 256 rng in
      let '(bs, rng) := randbytes n' rng in
      (b :: bs, rng)
  end.

Definition swap {A} (x : list A) (i j : nat) : list A :=
  match x !! i, x !! j with
  | Some a, Some b => <[j := a]> (<[i := b]> x)
  | _, _ => x
  end.

(** [shuffle(x)]: for i in reversed(range(1, len(x))):
    j = _randbelow(i + 1); x[i], x[j] = x[j], x[i]. *)
Fixpoint shuffle_from {A} (i : nat) (x : list A) (rng : Random)
  : list A * Random :=
  match i with
  | O => (x, rng)
  | S i' =>
      let '(j, rng) := randbelow (Z.of_nat (S i)) rng in
      shuffle_from i' (swap x i (Z.to_nat j)) rng
  end.

Definition shuffle {A} (x : list A) (rng : Random) : list A * Random :=
  shuffle_from (length x - 1) x rng.

End PyRandom.
Import PyRandom.

(** ** Floats *)

(** [int(x)]: truncation toward zero. *)
Definition int_of_float (x : Q) : Z := Z.quot (Qnum x) (Z.pos (Qden x)).

(** [a < b] on floats. *)
Definition Qltb (a b : Q) : bool := negb (Qle_bool b a).

(** ** config.py *)

Record IsaFamily := mkIsaFamily {
  name : string;
  endianness : string;
  pointer_width : Z;
  triples : list string;
  header_types : list string;
  typical_base_addr : Z;
  alignment : Z;
}.

Definition ISA_FAMILIES : list (string * IsaFamily) := [
  ("arm32", mkIsaFamily "arm32" "little" 32
     ["arm-unknown-linux-gnueabi"; "arm-unknown-linux-gnueabihf";
      "armv7-unknown-linux-gnueabihf"]
     ["vector_table_arm"; "uboot"; "android_boot"; "bare"] 0x00000000 4);
  ("thumb", mkIsaFamily "thumb" "little" 32
     ["thumbv7m-none-eabi"]
     ["vector_table_cortexm"; "bare"] 0x08000000 2);
  ("aarch64", mkIsaFamily "aarch64" "little" 64
     ["aarch64-unknown-linux-gnu"; "aarch64-unknown-linux-musl"]
     ["uboot"; "android_boot"; "bare"] 0x40000000 4);
  ("x86", mkIsaFamily "x86" "little" 32
     ["i686-unknown-linux-gnu"]
     ["bios_boot"; "uefi_stub"; "bare"] 0x00007C00 1);
  ("x86_64", mkIsaFamily "x86_64" "little" 64
     ["x86_64-unknown-linux-gnu"; "x86_64-unknown-linux-musl"]
     ["uefi_stub"; "bios_boot"; "uboot"; "bare"] 0x00100000 1);
  ("riscv32", mkIsaFamily "riscv32" "little" 32
     ["riscv32-unknown-linux-gnu"; "riscv32-unknown-elf"]
     ["opensbi_stub"; "uboot"; "bare"] 0x80000000 4);
  ("riscv64", mkIsaFamily "riscv64" "little" 64
     ["riscv64-unknown-linux-gnu"; "riscv64-unknown-elf"]
     ["opensbi_stub"; "uboot"; "bare"] 0x80000000 4);
  ("mips32_be", mkIsaFamily "mips32_be" "big" 32
     ["mips-unknown-linux-gnu"]
     ["boot_vector_mips"; "uboot"; "tplink"; "bare"] 0xBFC00000 4);
  ("mips32_le", mkIsaFamily "mips32_le" "little" 32
     ["mipsel-unknown-linux-gnu"]
     ["boot_vector_mips"; "uboot"; "tplink"; "bare"] 0xBFC00000 4);
  ("mips64_be", mkIsaFamily "mips64_be" "big" 64
     ["mips64-unknown-linux-gnuabi64"]
     ["boot_vector_mips"; "uboot"; "bare"] 0xFFFFFFFF80000000 4);
  ("mips64_le", mkIsaFamily "mips64_le" "little" 64
     ["mips64el-unknown-linux-gnuabi64"]
     ["boot_vector_mips"; "uboot"; "bare"] 0xFFFFFFFF80000000 4);
  ("ppc32", mkIsaFamily "ppc32" "big" 32
     ["powerpc-unknown-linux-gnu"] ["uboot"; "bare"] 0x00000000 4);
  ("ppc64_be", mkIsaFamily "ppc64_be" "big" 64
     ["powerpc64-unknown-linux-gnu"] ["uboot"; "bare"] 0x00000000 4);
  ("ppc64_le", mkIsaFamily "ppc64_le" "little" 64
     ["powerpc64le-unknown-linux-gnu"] ["uboot"; "bare"] 0x00000000 4);
  ("sparc32", mkIsaFamily "sparc32" "big" 32
     ["sparc-unknown-linux-gnu"] ["uboot"; "bare"] 0x00000000 4);
  ("sparc64", mkIsaFamily "sparc64" "big" 64
     ["sparc64-unknown-linux-gnu"] ["uboot"; "bare"] 0x00000000 4);
  ("s390x", mkIsaFamily "s390x" "big" 64
     ["s390x-unknown-linux-gnu"] ["uboot"; "bare"] 0x00000000 4);
  ("loongarch64", mkIsaFamily "loongarch64" "little" 64
     ["loongarch64-unknown-linux-gnu"] ["uboot"; "bare"]
     0x9000000000000000 4);
  ("avr", mkIsaFamily "avr" "little" 16
     ["avr-unknown-unknown"] ["avr_vector_table"; "bare"] 0x0000 2);
  ("msp430", mkIsaFamily "msp430" "little" 16
     ["msp430-none-elf"] ["msp430_vector_table"; "bare"] 0xC000 2);
  ("hexagon", mkIsaFamily "hexagon" "little" 32
     ["hexagon-unknown-linux-musl"] ["qualcomm_mbn"; "bare"] 0x00000000 4)
].

(** [d.get(key)] on a dict written as the list of its items. *)
Fixpoint dict_get {V} (d : list (string * V)) (key : string) : option V :=
  match d with
  | [] => None
  | (k, v) :: rest => if String.eqb k key then Some v else dict_get rest key
  end.
Global Arguments dict_get : simpl never.

Definition MULTI_ISA_AFFINITY : list (string * list (string * Q)) := [
  ("arm32", [("thumb", 3#1); ("aarch64", 1#1)]);
  ("thumb", [("arm32", 3#1)]);
  ("aarch64", [("arm32", 2#1); ("thumb", 1#1)]);
  ("x86_64", [("x86", 2#1); ("arm32", 1#1)]);
  ("x86", [("x86_64", 1#1)]);
  ("mips32_be", [("mips32_le", 1#2)]);
  ("mips32_le", [("mips32_be", 1#2)]);
  ("mips64_be", [("mips32_be", 2#1)]);
  ("mips64_le", [("mips32_le", 2#1)]);
  ("riscv64", [("riscv32", 2#1)]);
  ("riscv32", [("riscv64", 1#1)]);
  ("ppc64_be", [("ppc32", 1#1)]);
  ("ppc64_le", [("ppc32", 1#2)]);
  ("hexagon", [("arm32", 2#1); ("aarch64", 1#1)])
]%Q.

Record FirmwareGenConfig := mkConfig {
  seed : Z;
  num_images : Z;
  min_size : Z;
  max_size : Z;
  multi_isa_probability : Q;
  parallel_jobs : Z;
  families : option (list string);
  min_images_per_combo : Z;
}.

(** ** extractor.py: the blob index *)

Record BlobInfo := mkBlobInfo {
  path : string;
  family : string;
  triple : string;
  config : string;
  program : string;
  size_bytes : Z;
}.

(** [BlobIndex._blobs_by_family]. *)
Abbreviation BlobIndex := (gmap string (list BlobInfo)).

Module BlobIndexM.

(** [sorted(...)] on strings. *)
Definition sorted (l : list string) : list string :=
  merge_sort String.le l.

Definition families (idx : BlobIndex) : list string :=
  sorted (fmap fst (map_to_list idx)).

Definition get_blobs (idx : BlobIndex) (fam : string) : list BlobInfo :=
  default [] (idx !! fam).

Definition blob_count (idx : BlobIndex) (fam : string) : Z :=
  Z.of_nat (length (get_blobs idx fam)).

Definition get_random_blob (idx : BlobIndex) (fam : string) (rng : Random)
  : option BlobInfo * Random :=
  match get_blobs idx fam with
  | [] => (None, rng)
  | b :: bs =>
      let '(x, rng) := choice b (b :: bs) rng in (Some x, rng)
  end.

End BlobIndexM.
Import BlobIndexM.

(** ** layout.py: data model *)

Inductive SectionType :=
| HEADER | CODE | PADDING | STRING_TABLE | FILESYSTEM | RANDOM | RODATA
| TRAILER.

Global Instance SectionType_eq_dec : EqDecision SectionType.
Proof. solve_decision. Defined.

(** [SectionType.value]. *)
Definition SectionType_value (t : SectionType) : string :=
  match t with
  | HEADER => "header"
  | CODE => "code"
  | PADDING => "padding"
  | STRING_TABLE => "string_table"
  | FILESYSTEM => "filesystem"
  | RANDOM => "random"
  | RODATA => "rodata"
  | TRAILER => "trailer"
  end.

(** [fill_params]: the dict over the keys the layout engine writes; a
    key that is absent is [None]. *)
Record FillParams := mkFillParams {
  fp_header_type : option string;
  fp_pattern : option string;
  fp_fill_byte : option Z;
  fp_blob_family : option string;
  fp_blob_triple : option string;
  fp_blob_program : option string;
  fp_blob_config : option string;
  fp_source : option string;
  fp_fs_type : option string;
  fp_trailer_type : option string;
}.

Definition no_params : FillParams :=
  mkFillParams None None None None None None None None None None.

Record SectionSpec := mkSectionSpec {
  offset : Z;
  sec_size : Z;
  section_type : SectionType;
  sec_alignment : Z;
  isa_family : option string;
  fill_params : FillParams;
}.

Record ImageLayout := mkImageLayout {
  image_id : string;
  total_size : Z;
  primary_isa : string;
  header_type : string;
  trailer_type : string;
  sections : list SectionSpec;
  all_isa_families : list string;
  layout_seed : Z;
}.

(** ["+".join(parts)]. *)
Fixpoint join_plus (parts : list string) : string :=
  match parts with
  | [] => ""
  | [s] => s
  | s :: rest => s +:+ "+" +:+ join_plus rest
  end.

(** [ImageLayout.isa_label]. *)
Definition isa_label (l : ImageLayout) : string :=
  join_plus (sorted (all_isa_families l)).

Definition is_multi_isa (l : ImageLayout) : bool :=
  bool_decide (1 < length (all_isa_families l))%nat.

Definition code_sections (l : ImageLayout) : list SectionSpec :=
  filter (fun s => section_type s = CODE) (sections l).

Definition code_bytes (l : ImageLayout) : Z :=
  foldr Z.add 0 (fmap sec_size (code_sections l)).

Definition NON_CODE_WEIGHTS : list (SectionType * Q) :=
  [(PADDING, 40#1); (STRING_TABLE, 15#1); (FILESYSTEM, 10#1);
   (RANDOM, 20#1); (RODATA, 15#1)]%Q.

Definition TRAILER_WEIGHTS : list (string * Q) :=
  [("crc32", 40#1); ("md5", 20#1); ("sha256", 10#1); ("none", 30#1)]%Q.

Definition TRAILER_SIZES : list (string * Z) :=
  [("crc32", 4); ("md5", 16); ("sha256", 32); ("none", 0)].

Definition sum_weights {A} (options : list (A * Q)) : Q :=
  foldl (fun acc o => (acc + snd o)%Q) (0#1)%Q options.

Fixpoint weighted_scan {A} (r cumulative : Q) (options : list (A * Q))
  (dflt : A) : A :=
  match options with
  | [] => dflt
  | (item, weight) :: rest =>
      let cumulative := (cumulative + weight)%Q in
      if Qle_bool r cumulative then item
      else weighted_scan r cumulative rest dflt
  end.

(** [_weighted_choice].  [d] stands for the IndexError of
    [options[-1]] on an empty list. *)
Definition weighted_choice {A} (d : A) (options : list (A * Q))
  (rng : Random) : A * Random :=
  let total := sum_weights options in
  let '(x, rng) := random rng in
  let r := (x * total)%Q in
  (weighted_scan r (0#1)%Q options (default d (last (fmap fst options))), rng).

(** [_align_up]. *)
Definition align_up (value alignment : Z) : Z :=
  if alignment <=? 1 then value
  else Z.land (value + alignment - 1) (Z.lnot (alignment - 1)).

Definition hex_digit (d : Z) : string :=
  match d with
  | 0 => "0" | 1 => "1" | 2 => "2" | 3 => "3" | 4 => "4" | 5 => "5"
  | 6 => "6" | 7 => "7" | 8 => "8" | 9 => "9" | 10 => "A" | 11 => "B"
  | 12 => "C" | 13 => "D" | 14 => "E" | _ => "F"
  end.

(** [f"0x{pattern:02X}"] for a byte value. *)
Definition format_pattern (pattern : Z) : string :=
  "0x" +:+ hex_digit (pattern / 16) +:+ hex_digit (pattern mod 16).

(** [f"{seq:06d}"] for [seq >= 0]. *)
Definition format_06d (seq : Z) : string :=
  let s := pretty seq in
  String.concat "" (replicate (6 - String.length s) "0") +:+ s.

Definition header_sizes : list (string * Z) := [
  ("vector_table_cortexm", 64); ("vector_table_arm", 32);
  ("boot_vector_mips", 32); ("avr_vector_table", 128);
  ("msp430_vector_table", 32); ("uboot", 64); ("android_boot", 2048);
  ("tplink", 512); ("mediatek", 1024); ("qualcomm_mbn", 40);
  ("bios_boot", 512); ("uefi_stub", 512); ("opensbi_stub", 48);
  ("bare", 0)
].

Definition ff_padding (cursor sz : Z) : SectionSpec :=
  mkSectionSpec cursor sz PADDING 1 None
    (mkFillParams None (Some "0xFF") (Some 0xFF) None None None None None
       None None).

(** ** layout.py: [LayoutEngine] *)

Record LayoutEngine := mkLayoutEngine {
  blob_index : BlobIndex;
  eng_config : FirmwareGenConfig;
  family_weights : list (string * Q);
}.

(** [LayoutEngine.__init__]. *)
Definition LayoutEngine_init (idx : BlobIndex) (cfg : FirmwareGenConfig)
  : result LayoutEngine :=
  let weights :=
    omap (fun fam =>
            match dict_get ISA_FAMILIES fam with
            | Some _ =>
                let count := blob_count idx fam in
                if 0 <? count then Some (fam, inject_Z count) else None
            | None => None
            end) (BlobIndexM.families idx) in
  match weights with
  | [] => Raised "ValueError: No blobs available for any ISA family"
  | _ => Ok (mkLayoutEngine idx cfg weights)
  end.

(** State of the two section-emitting loops of [generate_layout]. *)
Record LoopState := mkLoopState {
  st_rng : Random;
  st_sections : list SectionSpec;
  st_cursor : Z;
  st_code_remaining : Z;
  st_noncode_budget : Z;
  st_family_queue : list string;
}.

Inductive step :=
| Continue (st : LoopState)
| Break (st : LoopState)
| Raise (e : string).

Section Engine.

(** [math.log2] and [fun x => 2 ** x] on floats. *)
Variable log2f : Z -> Q.
Variable exp2f : Q -> Q.

Variable eng : LayoutEngine.

Definition pick_primary_isa (rng : Random) : string * Random :=
  weighted_choice "" (family_weights eng) rng.

Fixpoint pick_secondaries_loop (n : nat) (pool : list (string * Q))
  (secondaries : list string) (rng : Random) : list string * Random :=
  match n with
  | O => (secondaries, rng)
  | S n' =>
      let '(pick, rng) := weighted_choice "" pool rng in
      let secondaries := secondaries ++ [pick] in
      let pool := filter (fun fw => fst fw <> pick) pool in
      match pool with
      | [] => (secondaries, rng)
      | _ => pick_secondaries_loop n' pool secondaries rng
      end
  end.

Definition pick_secondary_isas (primary : string) (rng : Random)
  : list string * Random :=
  let affinity := default [] (dict_get MULTI_ISA_AFFINITY primary) in
  let available :=
    filter (fun fw => 0 < blob_count (blob_index eng) (fst fw)) affinity in
  let fallback :=
    fmap (fun fw => (fst fw, 1#1)%Q)
      (filter (fun fw => fst fw <> primary) (family_weights eng)) in
  match available, fallback with
  | [], [] => ([], rng)
  | _, _ =>
      let available :=
        match available with [] => fallback | _ => available end in
      let '(count, rng) := choice 1 [1; 1; 2] rng in
      pick_secondaries_loop
        (Z.to_nat (Z.min count (Z.of_nat (length available))))
        available [] rng
  end.

Definition pick_header_type (fam : string) (rng : Random)
  : string * Random :=
  match dict_get ISA_FAMILIES fam with
  | None => ("bare", rng)
  | Some family_info =>
      match header_types family_info with
      | [] => ("bare", rng)
      | h :: hs => choice h (h :: hs) rng
      end
  end.

Definition pick_trailer_type (rng : Random) : string * Random :=
  weighted_choice "" TRAILER_WEIGHTS rng.

(** [math.log2(n)] raises ValueError for [n <= 0], and [2 ** x] on a
    float raises OverflowError when the result is no double, that is for
    [x >= 1024]. *)
Definition pick_total_size (rng : Random) : result (Z * Random) :=
  if min_size (eng_config eng) <=? 0 then Raised "ValueError"
  else if max_size (eng_config eng) <=? 0 then Raised "ValueError"
  else
    let log_min := log2f (min_size (eng_config eng)) in
    let log_max := log2f (max_size (eng_config eng)) in
    let '(log_size, rng) := uniform log_min log_max rng in
    if Qle_bool 1024 log_size then Raised "OverflowError"
    else
      let size := int_of_float (exp2f log_size) in
      Ok (align_up size 256, rng).

Definition pick_non_code_section (rng : Random) (max_size : Z)
  : SectionType * Z * FillParams * Random :=
  let '(section_type, rng) := weighted_choice PADDING NON_CODE_WEIGHTS rng in
  match section_type with
  | PADDING =>
      let pad_max :=
        Z.max 16 (Z.min (Z.min max_size 65536)
                    (Z.max 64 (max_size / 10))) in
      let '(size, rng) := randint 16 pad_max rng in
      let '(pattern, rng) := choice 0xFF [0xFF; 0x00; 0xAA; 0xDE] rng in
      (section_type, size,
       mkFillParams None (Some (format_pattern pattern)) (Some pattern)
         None None None None None None None, rng)
  | STRING_TABLE =>
      let hi := Z.max 64 (Z.min 4096 max_size) in
      let '(size, rng) := randint 64 hi rng in
      (section_type, size,
       mkFillParams None None None None None None None (Some "generated")
         None None, rng)
  | FILESYSTEM =>
      let hi := Z.max 512 (Z.min 65536 max_size) in
      let '(size, rng) := randint 512 hi rng in
      let '(fs, rng) :=
        choice "squashfs" ["squashfs"; "jffs2"; "cramfs"; "romfs"] rng in
      (section_type, size,
       mkFillParams None None None None None None None None (Some fs)
         None, rng)
  | RANDOM =>
      let hi := Z.max 32 (Z.min 8192 max_size) in
      let '(size, rng) := randint 32 hi rng in
      (section_type, size,
       mkFillParams None None None None None None None (Some "random")
         None None, rng)
  | RODATA =>
      let hi := Z.max 64 (Z.min 16384 max_size) in
      let '(size, rng) := randint 64 hi rng in
      (section_type, size,
       mkFillParams None None None None None None None (Some "generated")
         None None, rng)
  | _ =>
      let hi := Z.max 16 (Z.min 1024 max_size) in
      let '(size, rng) := randint 16 hi rng in
      (section_type, size, no_params, rng)
  end.

(** One turn of [while code_remaining >= 64] (step 5c). *)
Definition code_iter (st : LoopState) : step :=
  if st_code_remaining st <? 64 then Break st
  else
    match st_family_queue st with
    | [] => Raise "IndexError"
    | fam :: rest =>
        let family_queue := rest ++ [fam] in
        let alignment :=
          match dict_get ISA_FAMILIES fam with
          | Some fam_info => alignment fam_info
          | None => 4
          end in
        let '(blob, rng) :=
          get_random_blob (blob_index eng) fam (st_rng st) in
        match blob with
        | None =>
            let family_queue := filter (fun f => f <> fam) family_queue in
            let st' :=
              mkLoopState rng (st_sections st) (st_cursor st)
                (st_code_remaining st) (st_noncode_budget st)
                family_queue in
            match family_queue with
            | [] => Break st'
            | _ => Continue st'
            end
        | Some blob =>
            let code_remaining := st_code_remaining st in
            let blob_size := size_bytes blob in
            let '(multiplier, rng) := choice 1 [1; 1; 1; 2; 3] rng in
            let section_size :=
              Z.min (blob_size * multiplier) code_remaining in
            let section_size :=
              Z.max section_size (Z.min blob_size code_remaining) in
            let section_size := align_up section_size alignment in
            let section_size :=
              if code_remaining <? section_size then code_remaining
              else section_size in
            if section_size <? 4 then
              Break (mkLoopState rng (st_sections st) (st_cursor st)
                       code_remaining (st_noncode_budget st) family_queue)
            else
              let cursor := st_cursor st in
              let aligned_cursor := align_up cursor alignment in
              let '(sections, cursor) :=
                if cursor <? aligned_cursor then
                  (st_sections st
                     ++ [ff_padding cursor (aligned_cursor - cursor)],
                   aligned_cursor)
                else (st_sections st, cursor) in
              let sections :=
                sections ++
                [mkSectionSpec cursor section_size CODE alignment (Some fam)
                   (mkFillParams None None None (Some fam)
                      (Some (triple blob)) (Some (program blob))
                      (Some (config blob)) None None None)] in
              let cursor := cursor + section_size in
              let code_remaining := code_remaining - section_size in
              let noncode_budget := st_noncode_budget st in
              let '(x, rng) := random rng in
              if Qltb x (3#10) && (64 <=? noncode_budget) then
                let '(nc_type, nc_size, nc_params, rng) :=
                  pick_non_code_section rng noncode_budget in
                let nc_size := Z.min nc_size noncode_budget in
                Continue
                  (mkLoopState rng
                     (sections ++
                      [mkSectionSpec cursor nc_size nc_type 1 None
                         nc_params])
                     (cursor + nc_size) code_remaining
                     (noncode_budget - nc_size) family_queue)
              else
                Continue
                  (mkLoopState rng sections cursor code_remaining
                     noncode_budget family_queue)
        end
    end.

Fixpoint code_loop (fuel : nat) (st : LoopState) : result LoopState :=
  match code_iter st with
  | Break st' => Ok st'
  | Raise e => Raised e
  | Continue st' =>
      match fuel with
      | O => Ok st'
      | S fuel' => code_loop fuel' st'
      end
  end.

(** Every turn that continues lowers this measure, so [code_loop] run
    with it as fuel leaves by the loop's own exit. *)
Definition code_measure (st : LoopState) : nat :=
  Z.to_nat (st_code_remaining st) + length (st_family_queue st).

(** One turn of the fill loop (step 5d); [limit] is
    [total_size - trailer_size]. *)
Definition fill_iter (limit : Z) (st : LoopState) : step :=
  if (32 <=? st_noncode_budget st) && (st_cursor st <? limit) then
    let noncode_budget := st_noncode_budget st in
    let cursor := st_cursor st in
    let '(nc_type, nc_size, nc_params, rng) :=
      pick_non_code_section (st_rng st) noncode_budget in
    let nc_size := Z.min (Z.min nc_size noncode_budget) (limit - cursor) in
    if nc_size <? 16 then
      Break (mkLoopState rng (st_sections st) cursor
               (st_code_remaining st) noncode_budget (st_family_queue st))
    else
      Continue
        (mkLoopState rng
           (st_sections st ++
            [mkSectionSpec cursor nc_size nc_type 1 None nc_params])
           (cursor + nc_size) (st_code_remaining st)
           (noncode_budget - nc_size) (st_family_queue st))
  else Break st.

Fixpoint fill_loop (limit : Z) (fuel : nat) (st : LoopState) : LoopState :=
  match fill_iter limit st with
  | Continue st' =>
      match fuel with
      | O => st'
      | S fuel' => fill_loop limit fuel' st'
      end
  | Break st' => st'
  | Raise _ => st
  end.

Definition fill_measure (st : LoopState) : nat :=
  Z.to_nat (st_noncode_budget st).

(** [LayoutEngine.generate_layout]. *)
Definition generate_layout (rng : Random) (seq : Z)
  (primary_isa : option string) (forced_secondaries : option (list string))
  : result ImageLayout :=
  (* 1. primary ISA *)
  let '(primary_isa, rng) :=
    match primary_isa with
    | None => pick_primary_isa rng
    | Some p => (p, rng)
    end in
  match dict_get ISA_FAMILIES primary_isa with
  | None => Raised "KeyError"
  | Some primary_family =>
      (* 2. multi-ISA *)
      let '(all_families, rng) :=
        match forced_secondaries with
        | Some secs => (primary_isa :: secs, rng)
        | None =>
            let '(x, rng) := random rng in
            if Qltb x (multi_isa_probability (eng_config eng)) then
              let '(secondaries, rng) :=
                pick_secondary_isas primary_isa rng in
              (primary_isa :: secondaries, rng)
            else ([primary_isa], rng)
        end in
      (* 3. header and trailer *)
      let '(header_type, rng) := pick_header_type primary_isa rng in
      let '(trailer_type, rng) := pick_trailer_type rng in
      let trailer_size := default 0 (dict_get TRAILER_SIZES trailer_type) in
      (* 4. total size *)
      match pick_total_size rng with
      | Raised e => Raised e
      | Ok (total_size, rng) =>
        (* 5a. header placeholder *)
        let header_size := default 64 (dict_get header_sizes header_type) in
        let '(sections, cursor) :=
          if 0 <? header_size then
            ([mkSectionSpec 0 header_size HEADER 1 None
                (mkFillParams (Some header_type) None None None None None
                   None None None None)],
             header_size)
          else ([], 0) in
        (* 5b. budget *)
        let usable_size := total_size - cursor - trailer_size in
        let '(total_size, usable_size) :=
          if usable_size <? 64 then (cursor + trailer_size + 256, 256)
          else (total_size, usable_size) in
        let '(code_fraction, rng) := uniform (3#10) (7#10) rng in
        let code_budget :=
          int_of_float (inject_Z usable_size * code_fraction)%Q in
        let noncode_budget := usable_size - code_budget in
        (* 5c. code sections *)
        let st0 :=
          mkLoopState rng sections cursor code_budget noncode_budget
            all_families in
        match code_loop (code_measure st0) st0 with
        | Raised e => Raised e
        | Ok st1 =>
            (* 5d. fill *)
            let limit := total_size - trailer_size in
            let st2 := fill_loop limit (fill_measure st1) st1 in
            (* 5e. final padding *)
            let cursor := st_cursor st2 in
            let gap := total_size - trailer_size - cursor in
            let '(sections, cursor) :=
              if 0 <? gap then
                (st_sections st2 ++ [ff_padding cursor gap], cursor + gap)
              else (st_sections st2, cursor) in
            (* 5f. trailer placeholder *)
            let sections :=
              if 0 <? trailer_size then
                sections ++
                [mkSectionSpec cursor trailer_size TRAILER 1 None
                   (mkFillParams None None None None None None None None
                      None (Some trailer_type))]
              else sections in
            let cfg_seed := seed (eng_config eng) in
            Ok (mkImageLayout
                  ("fw_" +:+ pretty cfg_seed +:+ "_" +:+ format_06d seq)
                  total_size primary_isa header_type trailer_type sections
                  all_families (cfg_seed + seq))
        end
      end
  end.

(** [Random(seed)]. *)
Variable Random_of_seed : Z -> Random.

(** [for _ in range(n)]: [n] layouts of one primary, numbered from
    [seq]. *)
Fixpoint generate_run (master_seed : Z) (n : nat) (seq : Z)
  (primary : string) (forced : option (list string))
  : result (list ImageLayout) :=
  match n with
  | O => Ok []
  | S n' =>
      match generate_layout (Random_of_seed (master_seed + seq)) seq
              (Some primary) forced with
      | Raised e => Raised e
      | Ok layout =>
          match generate_run master_seed n' (seq + 1) primary forced with
          | Raised e => Raised e
          | Ok rest => Ok (layout :: rest)
          end
      end
  end.

(** [sorted(self._family_weights, key=lambda x: x[1], reverse=True)]:
    stable, by descending weight. *)
Fixpoint insert_desc (x : string * Q) (l : list (string * Q))
  : list (string * Q) :=
  match l with
  | [] => [x]
  | y :: rest =>
      if Qltb (snd y) (snd x) then x :: y :: rest
      else y :: insert_desc x rest
  end.

Definition sorted_by_weight_desc (l : list (string * Q))
  : list (string * Q) :=
  foldl (fun acc x => insert_desc x acc) [] l.

Definition quota_add (quotas : gmap string Z) (fam : string) (k : Z)
  : gmap string Z :=
  <[fam := default 0 (quotas !! fam) + k]> quotas.

(** Phase 1 quotas of [generate_batch]. *)
Definition batch_quotas (count : Z) : gmap string Z :=
  let fw := family_weights eng in
  let families := fmap fst fw in
  let num_families := Z.of_nat (length families) in
  let base_per := Z.max 1 (count / num_families) in
  let quotas : gmap string Z :=
    foldl (fun q fam => <[fam := base_per]> q) ∅ families in
  let allocated := base_per * num_families in
  let remainder := count - allocated in
  if 0 <? remainder then
    let total_weight := sum_weights fw in
    let '(quotas, allocated) :=
      foldl (fun '(q, allocated) '(fam, weight) =>
               let extra :=
                 int_of_float
                   (inject_Z remainder * weight / total_weight)%Q in
               (quota_add q fam extra, allocated + extra))
        (quotas, allocated) fw in
    let leftover := count - allocated in
    let sorted_fams := sorted_by_weight_desc fw in
    foldl (fun q i =>
             match sorted_fams !! (i mod length sorted_fams)%nat with
             | Some (fam, _) => quota_add q fam 1
             | None => q
             end)
      quotas (seq 0 (Z.to_nat leftover))
  else quotas.

Fixpoint phase1 (master_seed : Z) (quotas : gmap string Z)
  (families : list string) (seq : Z) : result (list ImageLayout * Z) :=
  match families with
  | [] => Ok ([], seq)
  | fam :: rest =>
      let n := Z.to_nat (default 0 (quotas !! fam)) in
      match generate_run master_seed n seq fam None with
      | Raised e => Raised e
      | Ok ls =>
          match phase1 master_seed quotas rest (seq + Z.of_nat n) with
          | Raised e => Raised e
          | Ok (ls', seq') => Ok (ls ++ ls', seq')
          end
      end
  end.

(** [label.split("+")]. *)
Fixpoint split_plus (s : string) : list string :=
  match s with
  | EmptyString => [""]
  | String c rest =>
      if Ascii.eqb c "+"%char then "" :: split_plus rest
      else
        match split_plus rest with
        | [] => [String c ""]
        | w :: ws => String c w :: ws
        end
  end.

(** [combo_counts] and [combo_primary] after the counting loop. *)
Definition count_combos (layouts : list ImageLayout)
  : gmap string Z * gmap string string :=
  foldl (fun '(combo_counts, combo_primary) layout =>
           let label := isa_label layout in
           (<[label := default 0 (combo_counts !! label) + 1]> combo_counts,
            match combo_primary !! label with
            | Some _ => combo_primary
            | None => <[label := primary_isa layout]> combo_primary
            end))
    (∅, ∅) layouts.

Fixpoint phase2 (master_seed : Z) (combo_counts : gmap string Z)
  (combo_primary : gmap string string) (labels : list string) (seq : Z)
  : result (list ImageLayout) :=
  match labels with
  | [] => Ok []
  | label :: rest =>
      let needed :=
        min_images_per_combo (eng_config eng)
        - default 0 (combo_counts !! label) in
      if needed <=? 0 then
        phase2 master_seed combo_counts combo_primary rest seq
      else
        match combo_primary !! label with
        | None => Raised "KeyError"
        | Some primary =>
            let combo_families := split_plus label in
            let secondaries :=
              filter (fun f => f <> primary) combo_families in
            let n := Z.to_nat needed in
            match generate_run master_seed n seq primary
                    (Some secondaries) with
            | Raised e => Raised e
            | Ok ls =>
                match phase2 master_seed combo_counts combo_primary rest
                        (seq + Z.of_nat n) with
                | Raised e => Raised e
                | Ok ls' => Ok (ls ++ ls')
                end
            end
        end
  end.

(** [LayoutEngine.generate_batch]. *)
Definition generate_batch (count master_seed : Z)
  : result (list ImageLayout) :=
  let families := fmap fst (family_weights eng) in
  let quotas := batch_quotas count in
  match phase1 master_seed quotas families 0 with
  | Raised e => Raised e
  | Ok (layouts, seq) =>
      let '(combo_counts, combo_primary) := count_combos layouts in
      match phase2 master_seed combo_counts combo_primary
              (sorted (fmap fst (map_to_list combo_counts))) seq with
      | Raised e => Raised e
      | Ok extra =>
          Ok (fst (shuffle (layouts ++ extra) (Random_of_seed master_seed)))
      end
  end.

End Engine.

(** ** Bytes, [struct], [zlib.crc32], [hashlib] *)

Global Instance result_ret : MRet result := fun A a => Ok a.
Global Instance result_bind : MBind result := fun A B f m => rbind m f.

(** The bytes of an ASCII string literal. *)
Definition bytes_of_string (s : string) : list Z :=
  fmap (fun c => Z.of_N (N_of_ascii c)) (String.list_ascii_of_string s).

(** [v.to_bytes(n, "little")] of [v mod 256^n]. *)
Fixpoint to_bytes_le (n : nat) (v : Z) : list Z :=
  match n with
  | O => []
  | S n' => v mod 256 :: to_bytes_le n' (v / 256)
  end.

Definition to_bytes_be (n : nat) (v : Z) : list Z := reverse (to_bytes_le n v).

(** [int.from_bytes(bs, "little")] and ["big"]. *)
Definition from_bytes_le (bs : list Z) : Z :=
  foldr (fun b acc => b + 256 * acc) 0 bs.

Definition from_bytes_be (bs : list Z) : Z := from_bytes_le (reverse bs).

(** [struct.pack] of one unsigned field of [n] bytes: struct.error when
    the value does not fit. *)
Definition pack_uint (little : bool) (n : nat) (v : Z) : result (list Z) :=
  if (0 <=? v) && (v <? 256 ^ Z.of_nat n) then
    Ok (if little then to_bytes_le n v else to_bytes_be n v)
  else Raised "struct.error".

(** [struct.pack(fmt, *vs)] for a run of unsigned fields of one width. *)
Fixpoint pack_uints (little : bool) (n : nat) (vs : list Z)
  : result (list Z) :=
  match vs with
  | [] => Ok []
  | v :: rest =>
      b ← pack_uint little n v;
      bs ← pack_uints little n rest;
      Ok (b ++ bs)
  end.

(** [bs.ljust(n, b"\x00")]. *)
Definition ljust (n : nat) (bs : list Z) : list Z :=
  bs ++ replicate (n - length bs) 0.

(** Index of a slice bound, as Python clips it to [0, len]. *)
Definition slice_index (len i : Z) : Z :=
  if i <? 0 then Z.max (i + len) 0 else Z.min i len.

(** [buf[i:j]]. *)
Definition slice (buf : list Z) (i j : Z) : list Z :=
  let len := Z.of_nat (length buf) in
  let i := slice_index len i in
  let j := Z.max i (slice_index len j) in
  take (Z.to_nat (j - i)) (drop (Z.to_nat i) buf).

(** [buf[i:j] = data] on a bytearray: the slice is replaced, and the
    buffer grows when [data] is longer than the slice it replaces. *)
Definition slice_assign (buf : list Z) (i j : Z) (data : list Z) : list Z :=
  let len := Z.of_nat (length buf) in
  let i := slice_index len i in
  let j := Z.max i (slice_index len j) in
  take (Z.to_nat i) buf ++ data ++ drop (Z.to_nat j) buf.

(** [struct.pack_into(fmt, buf, off, v)] for one unsigned field:
    struct.error when the field does not fit the buffer or the value the
    field. *)
Definition pack_into (little : bool) (n : nat) (buf : list Z) (off v : Z)
  : result (list Z) :=
  b ← pack_uint little n v;
  if (0 <=? off) && (off + Z.of_nat n <=? Z.of_nat (length buf)) then
    Ok (slice_assign buf off (off + Z.of_nat n) b)
  else Raised "struct.error".

(** *** zlib.crc32 *)

Definition crc32_bit (crc : Z) : Z :=
  if Z.testbit crc 0 then Z.lxor (Z.shiftr crc 1) 0xEDB88320
  else Z.shiftr crc 1.

Definition crc32_byte (crc b : Z) : Z := Nat.iter 8 crc32_bit (Z.lxor crc b).

Definition crc32 (data : list Z) : Z :=
  Z.lxor (foldl crc32_byte 0xFFFFFFFF data) 0xFFFFFFFF.

(** *** hashlib.sha256 and hashlib.md5 *)

Definition w32 (x : Z) : Z := x mod 2 ^ 32.
Definition add32 (x y : Z) : Z := w32 (x + y).
Definition not32 (x : Z) : Z := Z.lxor x 0xFFFFFFFF.
Definition rotr32 (n x : Z) : Z :=
  Z.lor (Z.shiftr x n) (w32 (Z.shiftl x (32 - n))).
Definition rotl32 (n x : Z) : Z := rotr32 (32 - n) x.

Fixpoint blocks64 (fuel : nat) (l : list Z) : list (list Z) :=
  match fuel, l with
  | S fuel', _ :: _ => take 64 l :: blocks64 fuel' (drop 64 l)
  | _, _ => []
  end.

Fixpoint words4 (fuel : nat) (be : bool) (l : list Z) : list Z :=
  match fuel, l with
  | S fuel', _ :: _ =>
      (if be then from_bytes_be (take 4 l) else from_bytes_le (take 4 l))
      :: words4 fuel' be (drop 4 l)
  | _, _ => []
  end.

(** The message, 0x80, zeros up to 56 mod 64, and the bit length on 8
    bytes. *)
Definition md_pad (be : bool) (msg : list Z) : list Z :=
  let len := length msg in
  let zeros := ((119 - len mod 64) mod 64)%nat in
  msg ++ [0x80] ++ replicate zeros 0
  ++ (if be then to_bytes_be 8 (8 * Z.of_nat len)
      else to_bytes_le 8 (8 * Z.of_nat len)).

(** The round constants and the initial hash value of FIPS 180-4 (the
    first 32 bits of the fractional parts of the cube roots, and of the
    square roots, of the first primes), in decimal. *)
Definition sha256_K : list Z := [
  1116352408; 1899447441; 3049323471; 3921009573;
  961987163; 1508970993; 2453635748; 2870763221;
  3624381080; 310598401; 607225278; 1426881987;
  1925078388; 2162078206; 2614888103; 3248222580;
  3835390401; 4022224774; 264347078; 604807628;
  770255983; 1249150122; 1555081692; 1996064986;
  2554220882; 2821834349; 2952996808; 3210313671;
  3336571891; 3584528711; 113926993; 338241895;
  666307205; 773529912; 1294757372; 1396182291;
  1695183700; 1986661051; 2177026350; 2456956037;
  2730485921; 2820302411; 3259730800; 3345764771;
  3516065817; 3600352804; 4094571909; 275423344;
  430227734; 506948616; 659060556; 883997877;
  958139571; 1322822218; 1537002063; 1747873779;
  1955562222; 2024104815; 2227730452; 2361852424;
  2428436474; 2756734187; 3204031479; 3329325298
].

Definition sha256_H0 : list Z := [
  1779033703; 3144134277; 1013904242; 2773480762;
  1359893119; 2600822924; 528734635; 1541459225
].

Fixpoint sha256_schedule (n : nat) (w : list Z) : list Z :=
  match n with
  | O => w
  | S n' =>
      let i := length w in
      let w15 := nth (i - 15) w 0 in
      let w2 := nth (i - 2) w 0 in
      let s0 := Z.lxor (Z.lxor (rotr32 7 w15) (rotr32 18 w15))
                  (Z.shiftr w15 3) in
      let s1 := Z.lxor (Z.lxor (rotr32 17 w2) (rotr32 19 w2))
                  (Z.shiftr w2 10) in
      sha256_schedule n'
        (w ++ [add32 (add32 (nth (i - 16) w 0) s0)
                 (add32 (nth (i - 7) w 0) s1)])
  end.

Definition sha256_round (st : list Z) (kw : Z * Z) : list Z :=
  match st with
  | [a; b; c; d; e; f; g; h] =>
      let S1 := Z.lxor (Z.lxor (rotr32 6 e) (rotr32 11 e)) (rotr32 25 e) in
      let ch := Z.lxor (Z.land e f) (Z.land (not32 e) g) in
      let t1 :=
        add32 (add32 (add32 h S1) (add32 ch (fst kw))) (snd kw) in
      let S0 := Z.lxor (Z.lxor (rotr32 2 a) (rotr32 13 a)) (rotr32 22 a) in
      let maj :=
        Z.lxor (Z.lxor (Z.land a b) (Z.land a c)) (Z.land b c) in
      let t2 := add32 S0 maj in
      [add32 t1 t2; a; b; c; add32 d t1; e; f; g]
  | _ => st
  end.

Definition sha256_block (hs : list Z) (block : list Z) : list Z :=
  let w := sha256_schedule 48 (words4 16 true block) in
  let st := foldl sha256_round hs (zip sha256_K w) in
  zip_with add32 hs st.

(** [hashlib.sha256(data).digest()]. *)
Definition sha256 (data : list Z) : list Z :=
  let padded := md_pad true data in
  let hs := foldl sha256_block sha256_H0 (blocks64 (length padded) padded) in
  concat (fmap (to_bytes_be 4) hs).

Definition md5_T : list Z := [
  0xd76aa478; 0xe8c7b756; 0x242070db; 0xc1bdceee;
  0xf57c0faf; 0x4787c62a; 0xa8304613; 0xfd469501;
  0x698098d8; 0x8b44f7af; 0xffff5bb1; 0x895cd7be;
  0x6b901122; 0xfd987193; 0xa679438e; 0x49b40821;
  0xf61e2562; 0xc040b340; 0x265e5a51; 0xe9b6c7aa;
  0xd62f105d; 0x02441453; 0xd8a1e681; 0xe7d3fbc8;
  0x21e1cde6; 0xc33707d6; 0xf4d50d87; 0x455a14ed;
  0xa9e3e905; 0xfcefa3f8; 0x676f02d9; 0x8d2a4c8a;
  0xfffa3942; 0x8771f681; 0x6d9d6122; 0xfde5380c;
  0xa4beea44; 0x4bdecfa9; 0xf6bb4b60; 0xbebfbc70;
  0x289b7ec6; 0xeaa127fa; 0xd4ef3085; 0x04881d05;
  0xd9d4d039; 0xe6db99e5; 0x1fa27cf8; 0xc4ac5665;
  0xf4292244; 0x432aff97; 0xab9423a7; 0xfc93a039;
  0x655b59c3; 0x8f0ccc92; 0xffeff47d; 0x85845dd1;
  0x6fa87e4f; 0xfe2ce6e0; 0xa3014314; 0x4e0811a1;
  0xf7537e82; 0xbd3af235; 0x2ad7d2bb; 0xeb86d391
].

Definition md5_S : list Z :=
  [7; 12; 17; 22; 7; 12; 17; 22; 7; 12; 17; 22; 7; 12; 17; 22;
   5; 9; 14; 20; 5; 9; 14; 20; 5; 9; 14; 20; 5; 9; 14; 20;
   4; 11; 16; 23; 4; 11; 16; 23; 4; 11; 16; 23; 4; 11; 16; 23;
   6; 10; 15; 21; 6; 10; 15; 21; 6; 10; 15; 21; 6; 10; 15; 21].

Definition md5_round (m : list Z) (st : list Z) (i : nat) : list Z :=
  match st with
  | [a; b; c; d] =>
      let '(f, g) :=
        if (i <? 16)%nat then
          (Z.lor (Z.land b c) (Z.land (not32 b) d), i)
        else if (i <? 32)%nat then
          (Z.lor (Z.land d b) (Z.land (not32 d) c), ((5 * i + 1) mod 16)%nat)
        else if (i <? 48)%nat then
          (Z.lxor (Z.lxor b c) d, ((3 * i + 5) mod 16)%nat)
        else
          (Z.lxor c (Z.lor b (not32 d)), ((7 * i) mod 16)%nat) in
      let f := add32 (add32 f a) (add32 (nth i md5_T 0) (nth g m 0)) in
      [d; add32 b (rotl32 (nth i md5_S 0) f); b; c]
  | _ => st
  end.

Definition md5_block (hs : list Z) (block : list Z) : list Z :=
  let m := words4 16 false block in
  zip_with add32 hs (foldl (md5_round m) hs (seq 0 64)).

(** [hashlib.md5(data).digest()]. *)
Definition md5 (data : list Z) : list Z :=
  let padded := md_pad false data in
  let hs :=
    foldl md5_block [0x67452301; 0xefcdab89; 0x98badcfe; 0x10325476]
      (blocks64 (length padded) padded) in
  concat (fmap (to_bytes_le 4) hs).

Definition hex_lower (d : Z) : string :=
  match d with
  | 0 => "0" | 1 => "1" | 2 => "2" | 3 => "3" | 4 => "4" | 5 => "5"
  | 6 => "6" | 7 => "7" | 8 => "8" | 9 => "9" | 10 => "a" | 11 => "b"
  | 12 => "c" | 13 => "d" | 14 => "e" | _ => "f"
  end.

(** [digest.hex()]. *)
Definition hexdigest (digest : list Z) : string :=
  String.concat ""
    (fmap (fun b => hex_lower (b / 16) +:+ hex_lower (b mod 16)) digest).

(** [f"{crc:08x}"] for a 32-bit value. *)
Definition format_08x (v : Z) : string := hexdigest (to_bytes_be 4 v).

(** ** headers.py *)

(** A value of a metadata dict. *)
Inductive MetaValue :=
| MStr (s : string)
| MInt (z : Z)
| MBool (b : bool).

Record HeaderResult := mkHeaderResult {
  hdr_data : list Z;
  entry_point_offset : Z;
  hdr_metadata : list (string * MetaValue);
}.

Record TrailerResult := mkTrailerResult {
  trl_data : list Z;
  trl_metadata : list (string * MetaValue);
}.

(** The generators are called by [generate_single_image] with the three
    keyword arguments [total_size], [base_addr] and [family_name]; [now]
    is [int(time.time())]. *)
Record HeaderArgs := mkHeaderArgs {
  arg_total_size : Z;
  arg_base_addr : Z;
  arg_family_name : string;
}.

(** [for i in range(n)]: handler = base + rng.randint(0, 0x1000) | 1. *)
Fixpoint cortexm_handlers (n : nat) (base : Z) (rng : Random)
  : list Z * Random :=
  match n with
  | O => ([], rng)
  | S n' =>
      let '(r, rng) := randint 0 0x1000 rng in
      let handler := Z.lor (base + r) 1 in
      let '(rest, rng) := cortexm_handlers n' base rng in
      (handler :: rest, rng)
  end.

Definition vector_table_cortexm (endianness : string) (rng : Random)
  (now : Z) (args : HeaderArgs) : result (HeaderResult * Random) :=
  let base_addr := arg_base_addr args in
  let '(num_vectors, rng) := choice 16 [16; 32; 48; 64] rng in
  let '(sp, rng) :=
    choice 0x20005000 [0x20005000; 0x20010000; 0x20020000; 0x20040000] rng in
  let reset_addr := Z.lor (base_addr + num_vectors * 4) 1 in
  let '(handlers, rng) :=
    cortexm_handlers (Z.to_nat (num_vectors - 2))
      (base_addr + num_vectors * 4) rng in
  data ← pack_uints true 4 (sp :: reset_addr :: handlers);
  Ok (mkHeaderResult data (Z.of_nat (length data))
        [("header_type", MStr "vector_table_cortexm");
         ("num_vectors", MInt num_vectors)], rng).

Fixpoint arm_branches (n : nat) (i : Z) (rng : Random) : list Z * Random :=
  match n with
  | O => ([], rng)
  | S n' =>
      let '(r, rng) := randint 0 0x800 rng in
      let target_offset := 32 + r in
      let branch_offset := Z.shiftr (target_offset - i * 4 - 8) 2 in
      let branch_offset := Z.land branch_offset 0x00FFFFFF in
      let instr := Z.lor 0xEA000000 branch_offset in
      let '(rest, rng) := arm_branches n' (i + 1) rng in
      (instr :: rest, rng)
  end.

Definition vector_table_arm (endianness : string) (rng : Random)
  (now : Z) (args : HeaderArgs) : result (HeaderResult * Random) :=
  let little := String.eqb endianness "little" in
  let '(vectors, rng) := arm_branches 8 0 rng in
  data ← pack_uints little 4 vectors;
  Ok (mkHeaderResult data (Z.of_nat (length data))
        [("header_type", MStr "vector_table_arm")], rng).

Definition boot_vector_mips (endianness : string) (rng : Random)
  (now : Z) (args : HeaderArgs) : result (HeaderResult * Random) :=
  let base_addr := arg_base_addr args in
  let little := negb (String.eqb endianness "big") in
  let target := base_addr + 32 in
  let upper := Z.land (Z.shiftr target 16) 0xFFFF in
  let lower := Z.land target 0xFFFF in
  let instrs :=
    [Z.lor 0x3C080000 upper; Z.lor 0x35080000 lower; 0x01000008; 0x00000000]
    ++ replicate 4 0x00000000 in
  data ← pack_uints little 4 instrs;
  Ok (mkHeaderResult data (Z.of_nat (length data))
        [("header_type", MStr "boot_vector_mips")], rng).

Fixpoint avr_jmps (n : nat) (num_vectors : Z) (rng : Random)
  : result (list Z * Random) :=
  match n with
  | O => Ok ([], rng)
  | S n' =>
      let '(r, rng) := randint 0 0x100 rng in
      let target := num_vectors * 4 + r in
      let lo := Z.land target 0xFFFF in
      let hi := Z.land (Z.shiftr target 16) 0x3F in
      let word1 :=
        Z.lor (Z.lor 0x940C (Z.shiftl (Z.land hi 0x3E) 3)) (Z.land hi 0x01) in
      b ← pack_uints true 2 [word1; lo];
      '(rest, rng) ← avr_jmps n' num_vectors rng;
      Ok (b ++ rest, rng)
  end.

Fixpoint avr_rjmps (n : nat) (i num_vectors : Z) (rng : Random)
  : result (list Z * Random) :=
  match n with
  | O => Ok ([], rng)
  | S n' =>
      let '(r, rng) := randint 0 0x20 rng in
      let target_offset := num_vectors - i - 1 + r in
      let target_offset := Z.land target_offset 0x0FFF in
      let rjmp := Z.lor 0xC000 target_offset in
      b ← pack_uint true 2 rjmp;
      '(rest, rng) ← avr_rjmps n' (i + 1) num_vectors rng;
      Ok (b ++ rest, rng)
  end.

Definition avr_vector_table (endianness : string) (rng : Random)
  (now : Z) (args : HeaderArgs) : result (HeaderResult * Random) :=
  let '(use_jmp, rng) := choice true [true; false] rng in
  let '(num_vectors, rng) := choice 26 [26; 35; 57] rng in
  '(data, rng) ←
    (if use_jmp : bool then avr_jmps (Z.to_nat num_vectors) num_vectors rng
     else avr_rjmps (Z.to_nat num_vectors) 0 num_vectors rng);
  Ok (mkHeaderResult data (Z.of_nat (length data))
        [("header_type", MStr "avr_vector_table");
         ("num_vectors", MInt num_vectors);
         ("use_jmp", MBool use_jmp)], rng).

Fixpoint msp430_vectors (n : nat) (code_base : Z) (rng : Random)
  : list Z * Random :=
  match n with
  | O => ([], rng)
  | S n' =>
      let '(r, rng) := randint 0 0x1000 rng in
      let addr := Z.land (code_base + r) 0xFFFE in
      let '(rest, rng) := msp430_vectors n' code_base rng in
      (addr :: rest, rng)
  end.

Definition msp430_vector_table (endianness : string) (rng : Random)
  (now : Z) (args : HeaderArgs) : result (HeaderResult * Random) :=
  let '(code_base, rng) := choice 0xC000 [0xC000; 0xC200; 0xE000; 0xF000] rng in
  let '(vectors, rng) := msp430_vectors 16 code_base rng in
  data ← pack_uints true 2 vectors;
  Ok (mkHeaderResult data 0
        [("header_type", MStr "msp430_vector_table");
         ("code_base", MInt code_base)], rng).

Definition uboot_arch_map : list (string * Z) := [
  ("arm32", 2); ("thumb", 2); ("aarch64", 22);
  ("x86", 6); ("x86_64", 6);
  ("mips32_be", 5); ("mips32_le", 5); ("mips64_be", 5); ("mips64_le", 5);
  ("ppc32", 7); ("ppc64_be", 7); ("ppc64_le", 7);
  ("riscv32", 27); ("riscv64", 27)
].

Definition uboot_names : list (list Z) := [
  bytes_of_string "Linux Kernel Image";
  bytes_of_string "U-Boot Firmware";
  bytes_of_string "Ramdisk Image";
  bytes_of_string "FIT Image";
  bytes_of_string "OpenWrt firmware"
].

Definition uboot (endianness : string) (rng : Random)
  (now : Z) (args : HeaderArgs) : result (HeaderResult * Random) :=
  let image_size := arg_total_size args in
  let data_size := Z.land (Z.max 0 (image_size - 64)) 0xFFFFFFFF in
  let magic := 0x27051956 in
  let header_crc := 0 in
  let '(r, rng) := randint 0 (365 * 24 * 3600) rng in
  let timestamp := Z.land (now - r) 0xFFFFFFFF in
  let data_crc := 0 in
  let load_addr := Z.land (arg_base_addr args) 0xFFFFFFFF in
  let ep := load_addr in
  let '(os_type, rng) := choice 5 [5; 17; 20] rng in
  let arch := default 0 (dict_get uboot_arch_map (arg_family_name args)) in
  let '(img_type, rng) := choice 2 [2; 5] rng in
  let '(comp, rng) := choice 0 [0; 1; 2; 3] rng in
  let '(name, rng) := choice [] uboot_names rng in
  let name_padded := ljust 32 (take 32 name) in
  words ← pack_uints false 4
            [magic; header_crc; timestamp; data_size; load_addr; ep; data_crc];
  codes ← pack_uints false 1 [os_type; arch; img_type; comp];
  let header := words ++ codes ++ name_padded in
  let header_for_crc := take 4 header ++ [0; 0; 0; 0] ++ drop 8 header in
  let crc := Z.land (crc32 header_for_crc) 0xFFFFFFFF in
  crc_bytes ← pack_uint false 4 crc;
  let header := take 4 header ++ crc_bytes ++ drop 8 header in
  Ok (mkHeaderResult header 64
        [("header_type", MStr "uboot"); ("arch", MInt arch);
         ("comp", MInt comp)], rng).

Definition android_cmdlines : list (list Z) := [
  bytes_of_string "console=ttyMSM0,115200n8 androidboot.console=ttyMSM0";
  bytes_of_string
    "console=ttyS0,115200 root=/dev/ram0 androidboot.hardware=qcom";
  bytes_of_string "console=ttyHSL0,115200,n8 androidboot.console=ttyHSL0"
].

Definition android_boot (endianness : string) (rng : Random)
  (now : Z) (args : HeaderArgs) : result (HeaderResult * Random) :=
  let image_size := arg_total_size args in
  let magic := bytes_of_string "ANDROID!" in
  let kernel_size := image_size - 2048 in
  let kernel_addr := 0x10008000 in
  let ramdisk_size := 0 in
  let ramdisk_addr := 0x11000000 in
  let second_size := 0 in
  let second_addr := 0x10F00000 in
  let tags_addr := 0x10000100 in
  let page_size := 2048 in
  let '(header_version, rng) := choice 0 [0; 1] rng in
  let os_version := 0 in
  let '(cmdline, rng) := choice [] android_cmdlines rng in
  let cmdline_padded := ljust 512 (take 512 cmdline) in
  let '(sha, rng) := randbytes 32 rng in
  let extra_cmdline := replicate 1024 0 in
  fields ← pack_uints true 4
             [kernel_size; kernel_addr; ramdisk_size; ramdisk_addr;
              second_size; second_addr; tags_addr; page_size;
              header_version; os_version];
  let header := magic ++ fields ++ cmdline_padded ++ sha ++ extra_cmdline in
  let header := ljust (Z.to_nat page_size) header in
  Ok (mkHeaderResult (take (Z.to_nat page_size) header) page_size
        [("header_type", MStr "android_boot"); ("page_size", MInt page_size)],
      rng).

Definition tplink (endianness : string) (rng : Random)
  (now : Z) (args : HeaderArgs) : result (HeaderResult * Random) :=
  let image_size := arg_total_size args in
  let header := replicate 512 0 in
  let '(vendor, rng) :=
    choice [] [bytes_of_string "TP-LINK Technologies";
               bytes_of_string "TP-LINK"; bytes_of_string "Archer"] rng in
  let header := slice_assign header 0 (Z.of_nat (length vendor)) vendor in
  let '(v1, rng) := randint 1 5 rng in
  let '(v2, rng) := randint 0 20 rng in
  let '(v3, rng) := randint 0 9 rng in
  let ver :=
    bytes_of_string
      ("ver. " +:+ pretty v1 +:+ "." +:+ pretty v2 +:+ "." +:+ pretty v3) in
  let header := slice_assign header 32 (32 + Z.of_nat (length ver)) ver in
  let '(hw_id, rng) :=
    choice 0x00000001 [0x00000001; 0x07500002; 0x09700001; 0x0C500001] rng in
  header ← pack_into false 4 header 64 hw_id;
  header ← pack_into false 4 header 68 image_size;
  let '(md5_placeholder, rng) := randbytes 16 rng in
  let header := slice_assign header 76 92 md5_placeholder in
  Ok (mkHeaderResult header 512 [("header_type", MStr "tplink")], rng).

Definition mediatek (endianness : string) (rng : Random)
  (now : Z) (args : HeaderArgs) : result (HeaderResult * Random) :=
  let '(size, rng) := choice 512 [512; 1024; 2048] rng in
  let header := replicate (Z.to_nat size) 0 in
  let '(magic, rng) :=
    choice [] [bytes_of_string "BRLYT"; bytes_of_string "BLOADER"] rng in
  let header := slice_assign header 0 (Z.of_nat (length magic)) magic in
  let '(version, rng) := randint 1 4 rng in
  header ← pack_into true 4 header 8 version;
  header ← pack_into true 4 header 12 size;
  let boot_len := arg_total_size args - size in
  header ← pack_into true 4 header 16 boot_len;
  let '(dev_info, rng) :=
    choice [] [bytes_of_string "MT7621"; bytes_of_string "MT7628";
               bytes_of_string "MT6753"; bytes_of_string "MT8173"] rng in
  let header :=
    slice_assign header 32 (32 + Z.of_nat (length dev_info)) dev_info in
  Ok (mkHeaderResult header size
        [("header_type", MStr "mediatek"); ("size", MInt size)], rng).

Definition qualcomm_mbn (endianness : string) (rng : Random)
  (now : Z) (args : HeaderArgs) : result (HeaderResult * Random) :=
  let image_size := arg_total_size args in
  let '(image_id, rng) := choice 0x03 [0x03; 0x05; 0x07; 0x0D; 0x15] rng in
  let header_vsn := 3 in
  let image_src := 40 in
  let image_dest := arg_base_addr args in
  let code_size := image_size - 40 in
  let magic := 0x00000005 in
  data ← pack_uints true 4
           [image_id; header_vsn; image_src; image_dest; code_size;
            0; 0; 0; 0; magic];
  Ok (mkHeaderResult data 40
        [("header_type", MStr "qualcomm_mbn"); ("image_id", MInt image_id)],
      rng).

Definition bios_boot (endianness : string) (rng : Random)
  (now : Z) (args : HeaderArgs) : result (HeaderResult * Random) :=
  let header := replicate 512 0 in
  let '(jmp_offset, rng) := randint 0x3C 0x58 rng in
  let header := <[0%nat := 0xEB]> header in
  let header := <[1%nat := jmp_offset]> header in
  let header := <[2%nat := 0x90]> header in
  let '(oem, rng) :=
    choice [] [bytes_of_string "MSWIN4.1"; bytes_of_string "mkdosfs ";
               bytes_of_string "MSDOS5.0"; bytes_of_string "IBM  3.3"] rng in
  let header := slice_assign header 3 11 oem in
  header ← pack_into true 2 header 11 512;
  let '(spc, rng) := choice 1 [1; 2; 4; 8] rng in
  let header := <[13%nat := spc]> header in
  let '(reserved, rng) := choice 1 [1; 32] rng in
  header ← pack_into true 2 header 14 reserved;
  let header := <[16%nat := 2]> header in
  let '(root_entries, rng) := choice 0 [0; 512] rng in
  header ← pack_into true 2 header 17 root_entries;
  header ← pack_into true 2 header 19 0;
  let header := <[21%nat := 0xF8]> header in
  let header := <[510%nat := 0x55]> header in
  let header := <[511%nat := 0xAA]> header in
  Ok (mkHeaderResult header (jmp_offset + 2)
        [("header_type", MStr "bios_boot")], rng).

Definition uefi_machine_map : list (string * Z) := [
  ("x86", 0x014C); ("x86_64", 0x8664); ("aarch64", 0xAA64);
  ("arm32", 0x01C2); ("riscv32", 0x5032); ("riscv64", 0x5064)
].

Definition uefi_stub (endianness : string) (rng : Random)
  (now : Z) (args : HeaderArgs) : result (HeaderResult * Random) :=
  let '(size, rng) := choice 512 [512; 768; 1024] rng in
  let header := replicate (Z.to_nat size) 0 in
  let header := slice_assign header 0 2 (bytes_of_string "MZ") in
  let pe_offset := 0x80 in
  header ← pack_into true 4 header 0x3C pe_offset;
  let header :=
    slice_assign header pe_offset (pe_offset + 4)
      (bytes_of_string "PE" ++ [0; 0]) in
  let coff_offset := pe_offset + 4 in
  let machine :=
    default 0x8664 (dict_get uefi_machine_map (arg_family_name args)) in
  header ← pack_into true 2 header coff_offset machine;
  header ← pack_into true 2 header (coff_offset + 2) 1;
  header ← pack_into true 4 header (coff_offset + 4) (Z.land now 0xFFFFFFFF);
  header ← pack_into true 2 header (coff_offset + 16) 0xF0;
  header ← pack_into true 2 header (coff_offset + 18) 0x0022;
  Ok (mkHeaderResult header size
        [("header_type", MStr "uefi_stub"); ("machine", MInt machine)], rng).

Definition opensbi_stub (endianness : string) (rng : Random)
  (now : Z) (args : HeaderArgs) : result (HeaderResult * Random) :=
  let header := replicate 48 0 in
  let jump_target := 48 in
  let imm := jump_target in
  let imm_20 := Z.land (Z.shiftr imm 20) 0x1 in
  let imm_10_1 := Z.land (Z.shiftr imm 1) 0x3FF in
  let imm_11 := Z.land (Z.shiftr imm 11) 0x1 in
  let imm_19_12 := Z.land (Z.shiftr imm 12) 0xFF in
  let jal :=
    Z.lor (Z.lor (Z.lor (Z.lor (Z.shiftl imm_20 31) (Z.shiftl imm_10_1 21))
                    (Z.shiftl imm_11 20)) (Z.shiftl imm_19_12 12)) 0x6F in
  header ← pack_into true 4 header 0 jal;
  let magic := 0x4F53424900000002 in
  header ← pack_into true 8 header 4 magic;
  header ← pack_into true 4 header 12 48;
  header ← pack_into true 4 header 16 (arg_total_size args);
  Ok (mkHeaderResult header 48 [("header_type", MStr "opensbi_stub")], rng).

Definition bare (endianness : string) (rng : Random)
  (now : Z) (args : HeaderArgs) : result (HeaderResult * Random) :=
  Ok (mkHeaderResult [] 0 [("header_type", MStr "bare")], rng).

Definition trailer_crc32 (image_data : list Z) : result TrailerResult :=
  let crc := Z.land (crc32 image_data) 0xFFFFFFFF in
  data ← pack_uint true 4 crc;
  Ok (mkTrailerResult data
        [("checksum_type", MStr "crc32"); ("value", MStr (format_08x crc))]).

Definition trailer_md5 (image_data : list Z) : result TrailerResult :=
  let digest := md5 image_data in
  Ok (mkTrailerResult digest
        [("checksum_type", MStr "md5");
         ("value", MStr (hexdigest (md5 image_data)))]).

Definition trailer_sha256 (image_data : list Z) : result TrailerResult :=
  let digest := sha256 image_data in
  Ok (mkTrailerResult digest
        [("checksum_type", MStr "sha256");
         ("value", MStr (hexdigest (sha256 image_data)))]).

Definition trailer_none (image_data : list Z) : result TrailerResult :=
  Ok (mkTrailerResult [] [("checksum_type", MStr "none")]).

Definition HEADER_REGISTRY
  : list (string *
          (string -> Random -> Z -> HeaderArgs -> result (HeaderResult * Random)))
  := [
  ("vector_table_cortexm", vector_table_cortexm);
  ("vector_table_arm", vector_table_arm);
  ("boot_vector_mips", boot_vector_mips);
  ("avr_vector_table", avr_vector_table);
  ("msp430_vector_table", msp430_vector_table);
  ("uboot", uboot);
  ("android_boot", android_boot);
  ("tplink", tplink);
  ("mediatek", mediatek);
  ("qualcomm_mbn", qualcomm_mbn);
  ("bios_boot", bios_boot);
  ("uefi_stub", uefi_stub);
  ("opensbi_stub", opensbi_stub);
  ("bare", bare)
].

Definition TRAILER_REGISTRY
  : list (string * (list Z -> result TrailerResult)) := [
  ("crc32", trailer_crc32);
  ("md5", trailer_md5);
  ("sha256", trailer_sha256);
  ("none", trailer_none)
].

Definition generate_header (header_type endianness : string) (rng : Random)
  (now : Z) (args : HeaderArgs) : result (HeaderResult * Random) :=
  match dict_get HEADER_REGISTRY header_type with
  | None => Raised "ValueError: Unknown header type"
  | Some generator => generator endianness rng now args
  end.

Definition generate_trailer (trailer_type : string) (image_data : list Z)
  : result TrailerResult :=
  match dict_get TRAILER_REGISTRY trailer_type with
  | None => Raised "ValueError: Unknown trailer type"
  | Some generator => generator image_data
  end.

(** ** build_firmware.py: the per-image worker *)

Definition STRING_POOL : list (list Z) :=
  fmap (fun s => bytes_of_string s ++ [0]) [
    "Copyright (c) 2024 Firmware Corp. All rights reserved.";
    "Build: release-v3.2.1-ga7f3c2d";
    "ERROR: initialization failed";
    "WARNING: low memory condition";
    "firmware.bin";
    "bootloader";
    "kernel";
    "rootfs";
    "/dev/mtdblock0";
    "/dev/ttyS0";
    "eth0";
    "wlan0";
    "DHCP client started";
    "Hardware revision: %d.%d";
    "Serial: %08X%08X";
    "Linux version 4.14.180";
    "U-Boot 2019.07";
    "Starting kernel ...";
    "Booting from flash...";
    "Image verified OK";
    "CRC check passed";
    "Decompressing...";
    "Init complete.";
    "GPIO initialized";
    "SPI flash detected: W25Q128";
    "DDR3 SDRAM: 128 MB";
    "CPU: ARMv7 Processor rev 4 (v7l)";
    "Machine: Generic DT based system"
  ].

Definition FS_MAGICS : list (string * list Z) := [
  ("squashfs", bytes_of_string "hsqs");
  ("jffs2", [0x85; 0x19]);
  ("cramfs", [0x45; 0x3D; 0xCD; 0x28]);
  ("romfs", bytes_of_string "-rom1fs-")
].

(** The tree under [objects_dir]: its directories and its files, each by
    the components of its path below [objects_dir], the files in the order
    [rglob] walks them.  Components are plain names. *)
Record FileTree := mkFileTree {
  ft_dirs : list (list string);
  ft_files : list (list string * list Z);
}.

(** [objects_dir / a / b / ...]: an empty component adds nothing. *)
Definition path_join (parts : list string) : list string :=
  filter (fun s => s <> "") parts.

Definition is_prefix_path (p q : list string) : bool :=
  bool_decide (take (length p) q = p).

(** [Path.exists()]. *)
Definition path_exists (tree : FileTree) (p : list string) : bool :=
  bool_decide (p ∈ ft_dirs tree)
  || existsb (fun f => is_prefix_path p (fst f)) (ft_files tree).

(** [Path.read_bytes()] of a path that is a file. *)
Definition read_bytes (tree : FileTree) (p : list string) : option (list Z) :=
  (fun x => snd (snd x)) <$> list_find (fun f => fst f = p) (ft_files tree).

Definition ends_with_bin (name : string) : bool :=
  let cs := reverse (String.list_ascii_of_string name) in
  bool_decide (take 4 cs = reverse (String.list_ascii_of_string ".bin")).

(** [family_dir.rglob("*.bin")]: the files below [family_dir] whose name
    ends in [.bin], each with its path relative to [family_dir]. *)
Definition rglob_bin (tree : FileTree) (family_dir : list string)
  : list (list string * list Z) :=
  omap (fun f =>
          let p := fst f in
          let rel := drop (length family_dir) p in
          if is_prefix_path family_dir p
             && bool_decide (rel <> [])
             && ends_with_bin (default "" (last p))
          then Some (rel, snd f) else None)
    (ft_files tree).

(** [PurePath.stem]: the name without its last suffix. *)
Definition stem (name : string) : string :=
  let cs := String.list_ascii_of_string name in
  let rev_cs := reverse cs in
  match list_find (fun c => c = "."%char) rev_cs with
  | Some (k, _) =>
      let base := take (length cs - S k) cs in
      match base, k with
      | [], _ | _, O => name
      | _, _ => String.string_of_list_ascii base
      end
  | None => name
  end.

(** The entry of a section in the sidecar's [sections] list; a key the
    entry does not have is [None], and [isa_family] is [None] for JSON
    null. *)
Record ActualSection := mkActualSection {
  as_offset : Z;
  as_size : Z;
  as_type : string;
  as_isa_family : option string;
  as_details : option (list (string * MetaValue));
  as_source_triple : option string;
  as_source_program : option string;
  as_source_config : option string;
}.

(** State of the loop over the sections. *)
Record Assembly := mkAssembly {
  asm_image : list Z;
  asm_rng : Random;
  asm_sections : list ActualSection;
}.

(** The loop [for bin_file in family_dir.rglob("*.bin")] of the fallback:
    read the file, take its triple, config and program when its relative
    path has three parts or more, stop at the first file that is not
    empty. *)
Fixpoint fallback_scan (files : list (list string * list Z))
  (code_data : list Z) (source_triple source_program source_config : string)
  : list Z * string * string * string :=
  match files with
  | [] => (code_data, source_triple, source_program, source_config)
  | (parts, data) :: rest =>
      let '(source_triple, source_program, source_config) :=
        match parts with
        | p0 :: p1 :: _ :: _ => (p0, stem (default "" (last parts)), p1)
        | _ => (source_triple, source_program, source_config)
        end in
      match data with
      | [] =>
          fallback_scan rest data source_triple source_program source_config
      | _ => (data, source_triple, source_program, source_config)
      end
  end.

(** [while written < size]: copy the blob again and again, the last copy
    cut to fit. *)
Fixpoint fill_code (fuel : nat) (image code_data : list Z)
  (offset size written : Z) : list Z :=
  match fuel with
  | O => image
  | S fuel' =>
      if written <? size then
        let chunk := slice code_data 0 (size - written) in
        let len := Z.of_nat (length chunk) in
        let image :=
          slice_assign image (offset + written) (offset + written + len)
            chunk in
        fill_code fuel' image code_data offset size (written + len)
      else image
  end.

(** [while len(buf) < size: buf.extend(rng.choice(_STRING_POOL))]. *)
Fixpoint string_table_fill (fuel : nat) (buf : list Z) (size : Z)
  (rng : Random) : list Z * Random :=
  match fuel with
  | O => (buf, rng)
  | S fuel' =>
      if Z.of_nat (length buf) <? size then
        let '(s, rng) := choice [] STRING_POOL rng in
        string_table_fill fuel' (buf ++ s) size rng
      else (buf, rng)
  end.

Fixpoint rodata_fill (fuel : nat) (buf : list Z) (size : Z) (rng : Random)
  : list Z * Random :=
  match fuel with
  | O => (buf, rng)
  | S fuel' =>
      if Z.of_nat (length buf) <? size then
        let '(x, rng) := random rng in
        if Qltb x (1 # 2) then
          let '(s, rng) := choice [] STRING_POOL rng in
          rodata_fill fuel' (buf ++ s) size rng
        else
          let '(val, rng) := randint 0 0xFFFFFFFF rng in
          let '(n, rng) := randint 4 32 rng in
          rodata_fill fuel'
            (buf ++ concat (replicate (Z.to_nat n) (to_bytes_le 4 val)))
            size rng
      else (buf, rng)
  end.

(** [rng.randbytes(n)]: ValueError for a negative [n]. *)
Definition randbytes_checked (n : Z) (rng : Random)
  : result (list Z * Random) :=
  if n <? 0 then Raised "ValueError" else Ok (randbytes (Z.to_nat n) rng).

(** [_get_trailer_size]. *)
Definition get_trailer_size (trailer_type : string) : Z :=
  default 0 (dict_get TRAILER_SIZES trailer_type).

(** The body of [for section in layout["sections"]]. *)
Definition assemble_section (tree : FileTree) (now : Z) (layout : ImageLayout)
  (st : Assembly) (section : SectionSpec) : result Assembly :=
  let image := asm_image st in
  let rng := asm_rng st in
  let actual_sections := asm_sections st in
  let offset := offset section in
  let size := sec_size section in
  let fill_params := fill_params section in
  match section_type section with
  | HEADER =>
      let family_info := dict_get ISA_FAMILIES (primary_isa layout) in
      let endianness :=
        match family_info with Some fi => endianness fi | None => "little" end
      in
      let base_addr :=
        match family_info with
        | Some fi => typical_base_addr fi
        | None => 0
        end in
      '(result, rng) ←
        generate_header (header_type layout) endianness rng now
          (mkHeaderArgs (total_size layout) base_addr (primary_isa layout));
      let header_data := hdr_data result in
      let actual_size := Z.min (Z.of_nat (length header_data)) size in
      let image :=
        slice_assign image offset (offset + actual_size)
          (slice header_data 0 actual_size) in
      Ok (mkAssembly image rng
            (actual_sections ++
             [mkActualSection offset actual_size "header" None
                (Some (hdr_metadata result)) None None None]))
  | CODE =>
      match isa_family section with
      | None => Raised "TypeError"
      | Some isa_family =>
          let blob_triple := default "" (fp_blob_triple fill_params) in
          let blob_program := default "" (fp_blob_program fill_params) in
          let blob_config := default "" (fp_blob_config fill_params) in
          let blob_path :=
            path_join
              [isa_family; blob_triple; blob_config; blob_program +:+ ".bin"]
          in
          '(code_data, source_triple, source_program, source_config) ←
            (if path_exists tree blob_path then
               match read_bytes tree blob_path with
               | Some data => Ok (data, blob_triple, blob_program, blob_config)
               | None => Raised "IsADirectoryError"
               end
             else
               let family_dir := path_join [isa_family] in
               if path_exists tree family_dir then
                 Ok (fallback_scan (rglob_bin tree family_dir) []
                       blob_triple blob_program blob_config)
               else Ok ([], blob_triple, blob_program, blob_config));
          let image :=
            match code_data with
            | [] => image
            | _ => fill_code (Z.to_nat size) image code_data offset size 0
            end in
          Ok (mkAssembly image rng
                (actual_sections ++
                 [mkActualSection offset size "code" (Some isa_family) None
                    (Some source_triple) (Some source_program)
                    (Some source_config)]))
      end
  | PADDING =>
      let fill_byte := default 0xFF (fp_fill_byte fill_params) in
      if (fill_byte <? 0) || (255 <? fill_byte) then Raised "ValueError"
      else
        let image :=
          slice_assign image offset (offset + size)
            (replicate (Z.to_nat size) fill_byte) in
        Ok (mkAssembly image rng
              (actual_sections ++
               [mkActualSection offset size "padding" None
                  (Some [("pattern",
                          MStr (default "0xFF" (fp_pattern fill_params)))])
                  None None None]))
  | STRING_TABLE =>
      let '(buf, rng) := string_table_fill (Z.to_nat size) [] size rng in
      let image := slice_assign image offset (offset + size) (slice buf 0 size)
      in
      Ok (mkAssembly image rng
            (actual_sections ++
             [mkActualSection offset size "string_table" None
                (Some [("source", MStr "generated")]) None None None]))
  | FILESYSTEM =>
      let fs_type := default "squashfs" (fp_fs_type fill_params) in
      let magic := default [0; 0; 0; 0] (dict_get FS_MAGICS fs_type) in
      let mlen := Z.of_nat (length magic) in
      let image := slice_assign image offset (offset + mlen) magic in
      '(rand_data, rng) ← randbytes_checked (size - mlen) rng;
      let image := slice_assign image (offset + mlen) (offset + size) rand_data
      in
      Ok (mkAssembly image rng
            (actual_sections ++
             [mkActualSection offset size "filesystem" None
                (Some [("fs_type", MStr fs_type)]) None None None]))
  | RANDOM =>
      '(rand_data, rng) ← randbytes_checked size rng;
      let image := slice_assign image offset (offset + size) rand_data in
      Ok (mkAssembly image rng
            (actual_sections ++
             [mkActualSection offset size "random" None
                (Some [("source", MStr "random")]) None None None]))
  | RODATA =>
      let '(buf, rng) := rodata_fill (Z.to_nat size) [] size rng in
      let image := slice_assign image offset (offset + size) (slice buf 0 size)
      in
      Ok (mkAssembly image rng
            (actual_sections ++
             [mkActualSection offset size "rodata" None
                (Some [("source", MStr "generated")]) None None None]))
  | TRAILER => Ok st
  end.

Fixpoint assemble_sections (tree : FileTree) (now : Z) (layout : ImageLayout)
  (st : Assembly) (secs : list SectionSpec) : result Assembly :=
  match secs with
  | [] => Ok st
  | section :: rest =>
      st' ← assemble_section tree now layout st section;
      assemble_sections tree now layout st' rest
  end.

(** "Compute and write trailer". *)
Definition write_trailer (layout : ImageLayout) (st : Assembly)
  : result Assembly :=
  let trailer_type := trailer_type layout in
  if String.eqb trailer_type "none" then Ok st
  else
    let image := asm_image st in
    let trailer_offset := total_size layout - get_trailer_size trailer_type in
    let pre_trailer := slice image 0 trailer_offset in
    trailer_result ← generate_trailer trailer_type pre_trailer;
    let trailer_data := trl_data trailer_result in
    let len := Z.of_nat (length trailer_data) in
    let image :=
      slice_assign image trailer_offset (trailer_offset + len) trailer_data in
    Ok (mkAssembly image (asm_rng st)
          (asm_sections st ++
           [mkActualSection trailer_offset len "trailer" None
              (Some (trl_metadata trailer_result)) None None None])).

(** The image buffer and the section entries, before hashing and
    writing. *)
Definition assemble (tree : FileTree) (now : Z) (Random_of_seed : Z -> Random)
  (layout : ImageLayout) : result Assembly :=
  let rng := Random_of_seed (layout_seed layout) in
  let image := replicate (Z.to_nat (total_size layout)) 0xFF in
  st ← assemble_sections tree now layout (mkAssembly image rng [])
         (sections layout);
  write_trailer layout st.

(** [round(x, 3)]: the nearest multiple of 1/1000, ties to even. *)
Definition round3 (x : Q) : Q :=
  let n := (x * (1000 # 1))%Q in
  let lo := Qfloor n in
  let twice := Qfloor (n * (2 # 1))%Q in
  let up :=
    if twice =? 2 * lo then false
    else if Qeq_bool (n * (2 # 1)) (inject_Z (2 * lo + 1)) then Z.odd lo
    else true in
  Qmake (if up then lo + 1 else lo) 1000.

(** The JSON sidecar. *)
Record Sidecar := mkSidecar {
  sc_id : string;
  sc_path : string;
  sc_size_bytes : Z;
  sc_sha256 : string;
  sc_md5 : string;
  sc_primary : string;
  sc_all : list string;
  sc_is_multi_isa : bool;
  sc_header_type : string;
  sc_trailer_type : string;
  sc_num_sections : Z;
  sc_num_code_sections : Z;
  sc_code_bytes : Z;
  sc_code_fraction : Q;
  sc_sections : list ActualSection;
  sc_seed : Z;
  sc_timestamp : Z;
}.

(** The dict the worker returns. *)
Record WorkerResult := mkWorkerResult {
  r_image_id : string;
  r_success : bool;
  r_size_bytes : Z;
  r_primary_isa : string;
  r_isa_label : string;
  r_is_multi_isa : bool;
  r_num_sections : Z;
  r_code_bytes : Z;
  r_duration_ms : Z;
}.

(** What one run of the worker leaves: the two files and the returned
    dict. *)
Record ImageOutput := mkImageOutput {
  out_bin_path : string;
  out_image_bytes : list Z;
  out_json_path : string;
  out_metadata : Sidecar;
  out_result : WorkerResult;
}.

(** The clock as the worker reads it: [now] is the second of
    [time.time()], which the sidecar's timestamp formats, [elapsed_ms] the
    measured duration. *)
Record Clock := mkClock {
  now : Z;
  elapsed_ms : Z;
}.

(** [generate_single_image]; [layout] is the task's layout and [tree] the
    content of its [objects_dir]. *)
Definition generate_single_image (tree : FileTree) (firmware_dir : string)
  (clock : Clock) (Random_of_seed : Z -> Random) (layout : ImageLayout)
  : result ImageOutput :=
  let seed := layout_seed layout in
  let image_id := image_id layout in
  let total_size := total_size layout in
  let all_families := all_isa_families layout in
  let isa_label := isa_label layout in
  st ← assemble tree (now clock) Random_of_seed layout;
  let image_bytes := asm_image st in
  let actual_sections := asm_sections st in
  let sha256_hex := hexdigest (sha256 image_bytes) in
  let md5_hex := hexdigest (md5 image_bytes) in
  let sub_dir := firmware_dir +:+ "/" +:+ isa_label in
  let bin_name := image_id +:+ ".bin" in
  let bin_path := sub_dir +:+ "/" +:+ bin_name in
  let json_path := sub_dir +:+ "/" +:+ image_id +:+ ".json" in
  let code_sections :=
    filter (fun s => as_type s = "code") actual_sections in
  let code_bytes := foldr Z.add 0 (fmap as_size code_sections) in
  let is_multi := bool_decide (1 < length all_families)%nat in
  let num_sections := Z.of_nat (length actual_sections) in
  let metadata :=
    mkSidecar image_id (isa_label +:+ "/" +:+ bin_name) total_size
      sha256_hex md5_hex (primary_isa layout) all_families is_multi
      (header_type layout) (trailer_type layout) num_sections
      (Z.of_nat (length code_sections)) code_bytes
      (if 0 <? total_size
       then round3 (inject_Z code_bytes / inject_Z total_size)
       else 0%Q)
      actual_sections seed (now clock) in
  Ok (mkImageOutput bin_path image_bytes json_path metadata
        (mkWorkerResult image_id true total_size (primary_isa layout)
           isa_label is_multi num_sections code_bytes (elapsed_ms clock))).

(** Phases 3 and 4 of [main]: the engine and its batch of layouts, then one
    worker per layout; an exception of a worker is kept as that worker's
    result.  [clock_of i] is the clock the worker of task [i] reads. *)
Definition main (log2f : Z -> Q) (exp2f : Q -> Q)
  (Random_of_seed : Z -> Random) (tree : FileTree) (firmware_dir : string)
  (clock_of : nat -> Clock) (blob_index : BlobIndex)
  (config : FirmwareGenConfig)
  : result (list (ImageLayout * result ImageOutput)) :=
  engine ← LayoutEngine_init blob_index config;
  layouts ←
    generate_batch log2f exp2f engine Random_of_seed (num_images config)
      (seed config);
  Ok (imap
        (fun i layout =>
           (layout,
            generate_single_image tree firmware_dir (clock_of i)
              Random_of_seed layout))
        layouts).

(** *** [FirmwareManifestBuilder] *)

(** The dict handed to [add_result]: the dict a worker returned, or the
    dict [main] makes of a worker's exception,
    [{"success": False, "error": str(e)}]. *)
Inductive ResultDict :=
  | WorkerDict (r : WorkerResult)
  | ErrorDict (error : string).

(** [result.get("success")]. *)
Definition get_success (d : ResultDict) : bool :=
  match d with
  | WorkerDict r => r_success r
  | ErrorDict _ => false
  end.

Record FirmwareManifestBuilder := mkManifestBuilder {
  mb_results : list ResultDict;
  mb_errors : list ResultDict;
}.

(** [FirmwareManifestBuilder.__init__]. *)
Definition FirmwareManifestBuilder_init : FirmwareManifestBuilder :=
  mkManifestBuilder [] [].

(** [FirmwareManifestBuilder.add_result]. *)
Definition add_result (b : FirmwareManifestBuilder) (d : ResultDict)
  : FirmwareManifestBuilder :=
  if get_success d then mkManifestBuilder (mb_results b ++ [d]) (mb_errors b)
  else mkManifestBuilder (mb_results b) (mb_errors b ++ [d]).

(** [r.get("is_multi_isa")], [r.get("size_bytes", 0)],
    [r.get("code_bytes", 0)], [r.get("primary_isa", "unknown")] and
    [r.get("isa_label", "unknown")]. *)
Definition get_is_multi_isa (d : ResultDict) : bool :=
  match d with WorkerDict r => r_is_multi_isa r | ErrorDict _ => false end.

Definition get_size_bytes (d : ResultDict) : Z :=
  match d with WorkerDict r => r_size_bytes r | ErrorDict _ => 0 end.

Definition get_code_bytes (d : ResultDict) : Z :=
  match d with WorkerDict r => r_code_bytes r | ErrorDict _ => 0 end.

Definition get_primary_isa (d : ResultDict) : string :=
  match d with WorkerDict r => r_primary_isa r | ErrorDict _ => "unknown" end.

Definition get_isa_label (d : ResultDict) : string :=
  match d with WorkerDict r => r_isa_label r | ErrorDict _ => "unknown" end.

(** The counting loops of [save]:
    [counts[k] = counts.get(k, 0) + 1] for the key of each result. *)
Definition count_by (key : ResultDict -> string) (rs : list ResultDict)
  : gmap string Z :=
  foldl (fun counts r => <[key r := default 0 (counts !! key r) + 1]> counts)
    ∅ rs.

(** [dict(sorted(counts.items()))]: the items by ascending key. *)
Definition sorted_items (counts : gmap string Z) : list (string * Z) :=
  (fun k => (k, default 0 (counts !! k)))
    <$> sorted (fmap fst (map_to_list counts)).

(** The ["summary"] of the manifest. *)
Record ManifestSummary := mkManifestSummary {
  total_generated : Z;
  total_failed : Z;
  total_bytes : Z;
  total_code_bytes : Z;
  avg_code_fraction : Q;
  multi_isa_count : Z;
  multi_isa_fraction : Q;
  isa_distribution : list (string * Z);
  directory_counts : list (string * Z);
}.

(** [FirmwareManifestBuilder.save]: the summary written to
    [manifest.json] and the lines of [images.jsonl]. *)
Definition save (b : FirmwareManifestBuilder)
  : ManifestSummary * list ResultDict :=
  let results := mb_results b in
  let multi_isa_count :=
    Z.of_nat (length (filter (fun r => get_is_multi_isa r = true) results)) in
  let total_bytes := foldr Z.add 0 (get_size_bytes <$> results) in
  let total_code := foldr Z.add 0 (get_code_bytes <$> results) in
  let isa_counts := count_by get_primary_isa results in
  let dir_counts := count_by get_isa_label results in
  (mkManifestSummary
     (Z.of_nat (length results))
     (Z.of_nat (length (mb_errors b)))
     total_bytes total_code
     (if total_bytes =? 0 then 0%Q
      else round3 (inject_Z total_code / inject_Z total_bytes))
     multi_isa_count
     (match results with
      | [] => 0%Q
      | _ =>
          round3 (inject_Z multi_isa_count
                  / inject_Z (Z.of_nat (length results)))
      end)
     (sorted_items isa_counts) (sorted_items dir_counts),
   results).

(** Phase 4 of [main] after the workers: each outcome, in the order the
    workers completed, goes to [add_result], an exception as its error
    dict; then [save]. *)
Definition result_dict (outcome : result ImageOutput) : ResultDict :=
  match outcome with
  | Ok out => WorkerDict (out_result out)
  | Raised e => ErrorDict e
  end.

Definition collect_results (completed : list (result ImageOutput))
  : FirmwareManifestBuilder :=
  foldl (fun b outcome => add_result b (result_dict outcome))
    FirmwareManifestBuilder_init completed.

(** * Properties *)

(** ** Arithmetic of [_align_up] *)

Lemma land_lnot_pow2 (x k : Z) :
  0 <= k -> Z.land x (Z.lnot (2 ^ k - 1)) = 2 ^ k * (x / 2 ^ k).
Proof.
  intros Hk.
  rewrite <- Z.ldiff_land, Z.sub_1_r, <- Z.ones_equiv.
  rewrite Z.ldiff_ones_r by lia.
  rewrite Z.shiftl_mul_pow2, Z.shiftr_div_pow2 by lia. lia.
Qed.

Lemma align_up_pow2 (v k : Z) :
  1 <= k -> align_up v (2 ^ k) = 2 ^ k * ((v + 2 ^ k - 1) / 2 ^ k).
Proof.
  intros Hk. unfold align_up.
  assert (2 ^ 1 <= 2 ^ k) by (apply Z.pow_le_mono_r; lia).
  destruct (Z.leb_spec (2 ^ k) 1); [lia|].
  apply land_lnot_pow2; lia.
Qed.

(** The alignments the engine works with are 1, 2 and 4. *)
Definition small_alignment (a : Z) : Prop := a = 1 \/ a = 2 \/ a = 4.

Lemma align_up_multiple (v a : Z) :
  small_alignment a -> align_up v a mod a = 0.
Proof.
  intros [->|[->| ->]].
  - apply Z.mod_1_r.
  - change 2 with (2 ^ 1) at 1. rewrite align_up_pow2 by lia.
    change (2 ^ 1) with 2. rewrite Z.mul_comm. apply Z.mod_mul. lia.
  - change 4 with (2 ^ 2) at 1. rewrite align_up_pow2 by lia.
    change (2 ^ 2) with 4. rewrite Z.mul_comm. apply Z.mod_mul. lia.
Qed.

Lemma align_up_ge (v a : Z) : small_alignment a -> v <= align_up v a.
Proof.
  intros [->|[->| ->]].
  - reflexivity.
  - change 2 with (2 ^ 1). rewrite align_up_pow2 by lia.
    change (2 ^ 1) with 2.
    pose proof (Z.div_mod (v + 2 - 1) 2 ltac:(lia)).
    pose proof (Z.mod_pos_bound (v + 2 - 1) 2 ltac:(lia)). lia.
  - change 4 with (2 ^ 2). rewrite align_up_pow2 by lia.
    change (2 ^ 2) with 4.
    pose proof (Z.div_mod (v + 4 - 1) 4 ltac:(lia)).
    pose proof (Z.mod_pos_bound (v + 4 - 1) 4 ltac:(lia)). lia.
Qed.

(** ** Ranges of the random draws *)

Lemma randbelow_range (n : Z) (rng : Random) :
  0 < n -> 0 <= fst (randbelow n rng) < n.
Proof.
  intros Hn. unfold randbelow. destruct (next_raw rng) as [x r]. simpl.
  apply Z.mod_pos_bound. lia.
Qed.

Lemma randint_range (a b : Z) (rng : Random) :
  a <= b -> a <= fst (randint a b rng) <= b.
Proof.
  intros Hab. unfold randint.
  pose proof (randbelow_range (b - a + 1) rng ltac:(lia)) as H.
  destruct (randbelow (b - a + 1) rng) as [k r]. simpl in *. lia.
Qed.

Lemma choice_elem_of {A} (d : A) (seq : list A) (rng : Random) :
  seq <> [] -> fst (choice d seq rng) ∈ seq.
Proof.
  intros Hne. unfold choice.
  assert (0 < Z.of_nat (length seq)) as Hlen.
  { destruct seq; [done|]. simpl. lia. }
  pose proof (randbelow_range _ rng Hlen) as H.
  destruct (randbelow (Z.of_nat (length seq)) rng) as [i r]. simpl in *.
  apply list_elem_of_In, nth_In. lia.
Qed.

Lemma weighted_scan_elem_of {A} (r c : Q) (options : list (A * Q)) (d : A) :
  weighted_scan r c options d ∈ fmap fst options \/
  weighted_scan r c options d = d.
Proof.
  revert c. induction options as [|[item w] rest IH]; intros c; simpl.
  - by right.
  - destruct (Qle_bool r (c + w)).
    + left. apply list_elem_of_here.
    + destruct (IH (c + w)%Q) as [H|H]; [left|right]; [|done].
      by apply list_elem_of_further.
Qed.

Lemma weighted_choice_elem_of {A} (d : A) (options : list (A * Q))
  (rng : Random) :
  options <> [] -> fst (weighted_choice d options rng) ∈ fmap fst options.
Proof.
  intros Hne. unfold weighted_choice.
  destruct (random rng) as [x r]. simpl.
  destruct (weighted_scan_elem_of (x * sum_weights options) (0#1) options
              (default d (last (fmap fst options)))) as [H|H]; [done|].
  rewrite H.
  destruct (last (fmap fst options)) as [y|] eqn:Hl.
  - simpl. eapply list_elem_of_lookup_2. rewrite last_lookup in Hl. exact Hl.
  - apply last_None in Hl. destruct options; done.
Qed.

(** ** Shape of the sections the engine emits *)

Section EngineFacts.

Variable log2f : Z -> Q.
Variable exp2f : Q -> Q.
Variable eng : LayoutEngine.

(** [_pick_non_code_section] never returns a code, header or trailer
    section, and its size is at least 16. *)
Lemma pick_non_code_section_spec (rng : Random) (max_size : Z) :
  forall t sz ps rng',
    pick_non_code_section rng max_size = (t, sz, ps, rng') ->
    t ∈ [PADDING; STRING_TABLE; FILESYSTEM; RANDOM; RODATA] /\ 16 <= sz.
Proof.
  intros t sz ps rng'. unfold pick_non_code_section.
  pose proof (weighted_choice_elem_of PADDING NON_CODE_WEIGHTS rng
                ltac:(done)) as Ht.
  destruct (weighted_choice PADDING NON_CODE_WEIGHTS rng) as [t0 r0].
  simpl in Ht.
  destruct t0;
    try (exfalso; repeat (apply elem_of_cons in Ht as [Ht|Ht];
                          [discriminate|]);
         by apply elem_of_nil in Ht).
  - pose proof (randint_range 16
                  (Z.max 16 (Z.min (Z.min max_size 65536)
                               (Z.max 64 (max_size / 10)))) r0
                  ltac:(lia)) as Hr.
    destruct (randint 16 _ r0) as [s1 r1].
    destruct (choice 255 _ r1) as [pat r2].
    intros [= <- <- <- <-]. split; [set_solver|simpl in Hr; lia].
  - pose proof (randint_range 64 (Z.max 64 (Z.min 4096 max_size)) r0
                  ltac:(lia)) as Hr.
    destruct (randint 64 _ r0) as [s1 r1].
    intros [= <- <- <- <-]. split; [set_solver|simpl in Hr; lia].
  - pose proof (randint_range 512 (Z.max 512 (Z.min 65536 max_size)) r0
                  ltac:(lia)) as Hr.
    destruct (randint 512 _ r0) as [s1 r1].
    destruct (choice _ _ r1) as [fs r2].
    intros [= <- <- <- <-]. split; [set_solver|simpl in Hr; lia].
  - pose proof (randint_range 32 (Z.max 32 (Z.min 8192 max_size)) r0
                  ltac:(lia)) as Hr.
    destruct (randint 32 _ r0) as [s1 r1].
    intros [= <- <- <- <-]. split; [set_solver|simpl in Hr; lia].
  - pose proof (randint_range 64 (Z.max 64 (Z.min 16384 max_size)) r0
                  ltac:(lia)) as Hr.
    destruct (randint 64 _ r0) as [s1 r1].
    intros [= <- <- <- <-]. split; [set_solver|simpl in Hr; lia].
Qed.

End EngineFacts.

(** ** Invariants of the section-emitting loops *)

(** The sections follow one another from [start] without gap or overlap,
    each of positive size; the result is the offset they end at. *)
Fixpoint contiguous_from (start : Z) (secs : list SectionSpec) : option Z :=
  match secs with
  | [] => Some start
  | s :: rest =>
      if (offset s =? start) && (0 <? sec_size s)
      then contiguous_from (start + sec_size s) rest
      else None
  end.

(** The sections tile [[0, total_size)] exactly. *)
Definition tiles_exactly (l : ImageLayout) : Prop :=
  sections l <> [] /\ contiguous_from 0 (sections l) = Some (total_size l).

(** The alignment the ISA-family database declares ([4] for a name the
    database does not have, as [generate_layout] takes it). *)
Definition alignment_of (fam : string) : Z :=
  match dict_get ISA_FAMILIES fam with
  | Some fam_info => alignment fam_info
  | None => 4
  end.

Definition code_section_ok (idx : BlobIndex) (fams : list string)
  (s : SectionSpec) : Prop :=
  section_type s = CODE ->
  exists fam,
    isa_family s = Some fam /\ fam ∈ fams /\
    sec_alignment s = alignment_of fam /\
    offset s mod sec_alignment s = 0 /\
    0 < blob_count idx fam.

Lemma contiguous_from_app (start : Z) (l1 l2 : list SectionSpec) :
  contiguous_from start (l1 ++ l2) =
  match contiguous_from start l1 with
  | Some mid => contiguous_from mid l2
  | None => None
  end.
Proof.
  revert start. induction l1 as [|s l1 IH]; intros start; simpl; [done|].
  destruct ((offset s =? start) && (0 <? sec_size s)); [apply IH|done].
Qed.

Lemma contiguous_from_snoc (start mid sz : Z) (l : list SectionSpec)
  (s : SectionSpec) :
  contiguous_from start l = Some mid ->
  offset s = mid -> sec_size s = sz -> 0 < sz ->
  contiguous_from start (l ++ [s]) = Some (mid + sz).
Proof.
  intros Hl Ho Hs Hsz. rewrite contiguous_from_app, Hl. simpl.
  rewrite Ho, Hs, Z.eqb_refl.
  destruct (Z.ltb_spec 0 sz); [done|lia].
Qed.

Lemma contiguous_from_le (start stop : Z) (l : list SectionSpec) :
  contiguous_from start l = Some stop -> start <= stop.
Proof.
  revert start. induction l as [|s l IH]; intros start; simpl.
  - intros [= ->]. lia.
  - destruct (Z.eqb_spec (offset s) start) as [Ho|Ho]; [|done].
    destruct (Z.ltb_spec 0 (sec_size s)) as [Hs|Hs]; [|done]. simpl.
    intros Hrest%IH. lia.
Qed.

Lemma dict_get_cons {V} (k : string) (v : V) (d : list (string * V))
  (key : string) :
  dict_get ((k, v) :: d) key =
  if String.eqb k key then Some v else dict_get d key.
Proof. reflexivity. Qed.

Lemma dict_get_elem_of {V} (d : list (string * V)) (k : string) (v : V) :
  dict_get d k = Some v -> (k, v) ∈ d.
Proof.
  induction d as [|[k' v'] d IH]; [done|]. rewrite dict_get_cons.
  destruct (String.eqb_spec k' k) as [->|].
  - intros [= ->]. apply list_elem_of_here.
  - intros H. apply list_elem_of_further. auto.
Qed.

Lemma alignment_of_small (fam : string) : small_alignment (alignment_of fam).
Proof.
  unfold alignment_of.
  destruct (dict_get ISA_FAMILIES fam) as [fi|] eqn:Hget.
  - apply dict_get_elem_of in Hget.
    assert (Forall (fun kv => small_alignment (alignment (snd kv)))
              ISA_FAMILIES) as Hall.
    { unfold small_alignment. apply (bool_decide_unpack _). by vm_compute. }
    rewrite Forall_forall in Hall. apply (Hall _ Hget).
  - unfold small_alignment. lia.
Qed.

Lemma get_random_blob_Some (idx : BlobIndex) (fam : string) (rng rng' : Random)
  (blob : BlobInfo) :
  get_random_blob idx fam rng = (Some blob, rng') -> 0 < blob_count idx fam.
Proof.
  unfold get_random_blob, blob_count.
  destruct (get_blobs idx fam) as [|b bs]; [done|]. simpl. lia.
Qed.

Lemma get_random_blob_None (idx : BlobIndex) (fam : string) (rng rng' : Random) :
  get_random_blob idx fam rng = (None, rng') -> blob_count idx fam = 0.
Proof.
  unfold get_random_blob, blob_count.
  destruct (get_blobs idx fam) as [|b bs]; [done|].
  destruct (choice b (b :: bs) rng). done.
Qed.

Section LoopInvariants.

Variable log2f : Z -> Q.
Variable exp2f : Q -> Q.
Variable eng : LayoutEngine.
Variable fams : list string.

Record loop_inv (st : LoopState) : Prop := mk_loop_inv {
  inv_contiguous :
    contiguous_from 0 (st_sections st) = Some (st_cursor st);
  inv_code :
    Forall (code_section_ok (blob_index eng) fams) (st_sections st);
  inv_queue : st_family_queue st ⊆ fams;
}.

Lemma non_code_section_ok (cursor sz : Z) (t : SectionType)
  (ps : FillParams) :
  t ∈ [PADDING; STRING_TABLE; FILESYSTEM; RANDOM; RODATA] ->
  code_section_ok (blob_index eng) fams
    (mkSectionSpec cursor sz t 1 None ps).
Proof.
  intros Ht Hc. simpl in Hc. subst t. exfalso.
  repeat (apply elem_of_cons in Ht as [Ht|Ht]; [discriminate|]).
  by apply elem_of_nil in Ht.
Qed.

Lemma ff_padding_ok (cursor sz : Z) :
  code_section_ok (blob_index eng) fams (ff_padding cursor sz).
Proof. intros Hc. discriminate. Qed.

Lemma code_iter_inv (st st' : LoopState) :
  loop_inv st ->
  code_iter eng st = Continue st' \/ code_iter eng st = Break st' ->
  loop_inv st'.
Proof.
  intros [Hc Hk Hq] Hstep. unfold code_iter in Hstep.
  destruct (st_code_remaining st <? 64) eqn:Hrem.
  { destruct Hstep as [Hs|Hs]; [done|]. injection Hs as <-. by split. }
  destruct (st_family_queue st) as [|fam rest] eqn:Hqueue.
  { by destruct Hstep. }
  assert (fam ∈ fams) as Hfam by apply Hq, list_elem_of_here.
  assert (rest ++ [fam] ⊆ fams) as Hrot.
  { intros x [Hx|Hx%list_elem_of_singleton]%elem_of_app.
    - by apply Hq, list_elem_of_further.
    - by subst x. }
  destruct (get_random_blob (blob_index eng) fam (st_rng st))
    as [[blob|] r1] eqn:Hblob.
  2:{ assert (filter (λ f : string, f ≠ fam) (rest ++ [fam]) ⊆ fams)
        as Hsub.
      { intros x Hx. apply list_elem_of_filter in Hx as [_ Hx]. auto. }
      destruct (filter (λ f : string, f ≠ fam) (rest ++ [fam]));
        destruct Hstep as [Hs|Hs]; try done;
        injection Hs as <-; by split. }
  apply get_random_blob_Some in Hblob.
  destruct (choice 1 [1; 1; 1; 2; 3] r1) as [multiplier r2].
  set (ssz := if st_code_remaining st <? _ then _ else _) in Hstep.
  destruct (ssz <? 4) eqn:Hssz.
  { destruct Hstep as [Hs|Hs]; [done|]. injection Hs as <-. by split. }
  apply Z.ltb_ge in Hssz.
  pose proof (alignment_of_small fam) as Hsmall.
  fold (alignment_of fam) in Hstep.
  pose proof (align_up_ge (st_cursor st) _ Hsmall) as Hge.
  pose proof (align_up_multiple (st_cursor st) _ Hsmall) as Hmul.
  set (ac := align_up (st_cursor st) (alignment_of fam)) in *.
  (* the sections up to and including the new code section *)
  assert (exists secs cur,
    (if st_cursor st <? ac
     then (st_sections st ++ [ff_padding (st_cursor st) (ac - st_cursor st)],
           ac)
     else (st_sections st, st_cursor st)) = (secs, cur) /\
    cur = ac /\
    contiguous_from 0 secs = Some cur /\
    Forall (code_section_ok (blob_index eng) fams) secs)
    as (secs & cur & Heq & -> & Hc2 & Hk2).
  { destruct (Z.ltb_spec (st_cursor st) ac).
    - eexists _, _. split; [done|]. split; [done|]. split.
      + replace (Some ac) with (Some (st_cursor st + (ac - st_cursor st)))
          by (f_equal; lia).
        eapply contiguous_from_snoc; eauto. lia.
      + apply Forall_app. split; [done|].
        apply Forall_singleton, ff_padding_ok.
    - eexists _, _. split; [done|].
      assert (st_cursor st = ac) as Heq by lia.
      split; [done|]. by split. }
  rewrite Heq in Hstep. clear Heq.
  set (code := mkSectionSpec ac ssz CODE _ _ _) in Hstep.
  assert (contiguous_from 0 (secs ++ [code]) = Some (ac + ssz)) as Hc3.
  { eapply contiguous_from_snoc; eauto. lia. }
  assert (Forall (code_section_ok (blob_index eng) fams) (secs ++ [code]))
    as Hk3.
  { apply Forall_app. split; [done|]. apply Forall_singleton.
    intros _. exists fam. simpl. done. }
  destruct (random r2) as [x r3].
  destruct (Qltb x (3 # 10) && (64 <=? st_noncode_budget st)) eqn:Hnc.
  - apply andb_true_iff in Hnc as [_ Hbud]. apply Z.leb_le in Hbud.
    destruct (pick_non_code_section r3 (st_noncode_budget st))
      as [[[t sz] ps] r4] eqn:Hpick.
    apply pick_non_code_section_spec in Hpick as [Ht Hsz].
    destruct Hstep as [Hs|Hs]; [|done]. injection Hs as <-.
    split; simpl; [|
      apply Forall_app; split; [done|];
      apply Forall_singleton; by apply non_code_section_ok | done].
    eapply contiguous_from_snoc; eauto. lia.
  - destruct Hstep as [Hs|Hs]; [|done]. injection Hs as <-. by split.
Qed.

End LoopInvariants.

(** ** Progress of the loops: no exception, and the fuel suffices *)

Section LoopProgress.

Variable eng : LayoutEngine.

Lemma rotate_filter_length (fam : string) (rest : list string) :
  (length (filter (λ f : string, f ≠ fam) (rest ++ [fam])) <= length rest)%nat.
Proof.
  rewrite filter_app, length_app.
  rewrite (filter_cons_False _ fam []) by (intros H; by apply H).
  rewrite filter_nil. simpl. pose proof (length_filter (λ f, f ≠ fam) rest).
  lia.
Qed.

Lemma code_iter_queue (st st' : LoopState) :
  code_iter eng st = Continue st' -> st_family_queue st' <> [].
Proof.
  unfold code_iter.
  destruct (st_code_remaining st <? 64); [done|].
  destruct (st_family_queue st) as [|fam rest]; [done|].
  destruct (get_random_blob (blob_index eng) fam (st_rng st))
    as [[blob|] r1].
  2:{ destruct (filter (λ f : string, f ≠ fam) (rest ++ [fam])) eqn:Hf;
        [done|]. intros [= <-]. done. }
  destruct (choice 1 [1; 1; 1; 2; 3] r1) as [multiplier r2].
  match goal with |- context [if ?c <? 4 then _ else _] =>
    destruct (c <? 4) end; [done|].
  match goal with |- context [if ?a <? ?b then (_, _) else _] =>
    destruct (a <? b) end;
  destruct (random r2) as [x r3];
  (destruct (Qltb x (3 # 10) && (64 <=? st_noncode_budget st));
   [destruct (pick_non_code_section r3 (st_noncode_budget st))
      as [[[t sz] ps] r4]|]);
  intros [= <-]; simpl; by destruct rest.
Qed.

Lemma code_iter_no_raise (st : LoopState) (e : string) :
  st_family_queue st <> [] -> code_iter eng st <> Raise e.
Proof.
  intros Hq. unfold code_iter.
  destruct (st_code_remaining st <? 64); [done|].
  destruct (st_family_queue st) as [|fam rest]; [done|].
  destruct (get_random_blob (blob_index eng) fam (st_rng st))
    as [[blob|] r1].
  2:{ by destruct (filter (λ f : string, f ≠ fam) (rest ++ [fam])). }
  destruct (choice 1 [1; 1; 1; 2; 3] r1) as [multiplier r2].
  match goal with |- context [if ?c <? 4 then _ else _] =>
    destruct (c <? 4) end; [done|].
  match goal with |- context [if ?a <? ?b then (_, _) else _] =>
    destruct (a <? b) end;
  destruct (random r2) as [x r3];
  (destruct (Qltb x (3 # 10) && (64 <=? st_noncode_budget st));
   [destruct (pick_non_code_section r3 (st_noncode_budget st))
      as [[[t sz] ps] r4]|]); done.
Qed.

Lemma code_iter_measure (st st' : LoopState) :
  code_iter eng st = Continue st' ->
  (code_measure st' < code_measure st)%nat.
Proof.
  unfold code_iter, code_measure.
  destruct (Z.ltb_spec (st_code_remaining st) 64) as [|Hrem]; [done|].
  destruct (st_family_queue st) as [|fam rest]; [done|].
  destruct (get_random_blob (blob_index eng) fam (st_rng st))
    as [[blob|] r1].
  2:{ pose proof (rotate_filter_length fam rest).
      destruct (filter (λ f : string, f ≠ fam) (rest ++ [fam])) eqn:Hf;
        [done|]. intros [= <-]. simpl in *. lia. }
  destruct (choice 1 [1; 1; 1; 2; 3] r1) as [multiplier r2].
  set (ssz := if st_code_remaining st <? _ then _ else _).
  assert (ssz <= st_code_remaining st) as Hle.
  { subst ssz.
    match goal with |- context [if ?a <? ?b then _ else _] =>
      destruct (Z.ltb_spec a b) end; lia. }
  destruct (Z.ltb_spec ssz 4); [done|].
  match goal with |- context [if ?a <? ?b then (_, _) else _] =>
    destruct (a <? b) end;
  destruct (random r2) as [x r3];
  (destruct (Qltb x (3 # 10) && (64 <=? st_noncode_budget st));
   [destruct (pick_non_code_section r3 (st_noncode_budget st))
      as [[[t sz] ps] r4]|]);
  intros [= <-]; simpl; rewrite length_app; simpl; lia.
Qed.

Lemma code_loop_Ok (fams : list string) (fuel : nat) (st : LoopState) :
  loop_inv eng fams st -> st_family_queue st <> [] ->
  exists st', code_loop eng fuel st = Ok st' /\ loop_inv eng fams st'.
Proof.
  revert st. induction fuel as [|fuel IH]; intros st Hinv Hq; simpl;
    destruct (code_iter eng st) as [st'|st'|e] eqn:Hiter;
    try (by apply code_iter_no_raise in Hiter);
    try (exists st'; split; [done|];
         eapply code_iter_inv; eauto).
  apply IH.
  - eapply code_iter_inv; eauto.
  - eapply code_iter_queue; eauto.
Qed.

(** More fuel than the measure changes nothing: [code_loop] run on
    [code_measure] ends where the Python loop ends. *)
Lemma code_loop_fuel (st : LoopState) (f1 f2 : nat) :
  (code_measure st <= f1)%nat -> (code_measure st <= f2)%nat ->
  code_loop eng f1 st = code_loop eng f2 st.
Proof.
  revert st f2. induction f1 as [|f1 IH]; intros st f2 H1 H2;
    destruct f2 as [|f2]; simpl;
    destruct (code_iter eng st) as [st'|st'|e] eqn:Hiter; try done;
    apply code_iter_measure in Hiter; try lia.
  apply IH; lia.
Qed.

Lemma fill_iter_inv (fams : list string) (limit : Z) (st st' : LoopState) :
  loop_inv eng fams st ->
  fill_iter limit st = Continue st' \/ fill_iter limit st = Break st' ->
  loop_inv eng fams st' /\
  (st_cursor st <= limit -> st_cursor st' <= limit) /\
  (limit < st_cursor st -> st' = st).
Proof.
  intros [Hc Hk Hq]. unfold fill_iter.
  destruct (Z.leb_spec 32 (st_noncode_budget st)) as [Hbud|Hbud]; simpl.
  2:{ intros [?|[= <-]]; [done|]. by repeat split. }
  destruct (Z.ltb_spec (st_cursor st) limit) as [Hcur|Hcur].
  2:{ intros [?|[= <-]]; [done|]. by repeat split. }
  destruct (pick_non_code_section (st_rng st) (st_noncode_budget st))
    as [[[t sz] ps] r1] eqn:Hpick.
  apply pick_non_code_section_spec in Hpick as [Ht Hsz].
  match goal with |- context [if ?a <? 16 then _ else _] =>
    destruct (Z.ltb_spec a 16) as [Hsmall|Hbig] end.
  - intros [?|[= <-]]; [done|]. simpl. repeat split; try done; lia.
  - intros [[= <-]|?]; [|done]. simpl. repeat split; try lia.
    + eapply contiguous_from_snoc; eauto. lia.
    + apply Forall_app. split; [done|].
      apply Forall_singleton. by apply non_code_section_ok.
    + done.
Qed.

Lemma fill_iter_no_raise (limit : Z) (st : LoopState) (e : string) :
  fill_iter limit st <> Raise e.
Proof.
  unfold fill_iter.
  destruct ((32 <=? st_noncode_budget st) && (st_cursor st <? limit));
    [|done].
  destruct (pick_non_code_section (st_rng st) (st_noncode_budget st))
    as [[[t sz] ps] r1].
  by match goal with |- context [if ?a <? 16 then _ else _] =>
    destruct (a <? 16) end.
Qed.

Lemma fill_iter_measure (limit : Z) (st st' : LoopState) :
  fill_iter limit st = Continue st' ->
  (fill_measure st' < fill_measure st)%nat.
Proof.
  unfold fill_iter, fill_measure.
  destruct (Z.leb_spec 32 (st_noncode_budget st)) as [Hbud|Hbud]; [|done].
  simpl. destruct (st_cursor st <? limit); [|done].
  destruct (pick_non_code_section (st_rng st) (st_noncode_budget st))
    as [[[t sz] ps] r1] eqn:Hpick.
  match goal with |- context [if ?a <? 16 then _ else _] =>
    destruct (Z.ltb_spec a 16) as [Hsmall|Hbig] end; [done|].
  intros [= <-]. simpl. lia.
Qed.

Lemma fill_loop_inv (fams : list string) (limit : Z) (fuel : nat)
  (st : LoopState) :
  loop_inv eng fams st ->
  loop_inv eng fams (fill_loop limit fuel st) /\
  (st_cursor st <= limit -> st_cursor (fill_loop limit fuel st) <= limit) /\
  (limit < st_cursor st -> fill_loop limit fuel st = st).
Proof.
  revert st. induction fuel as [|fuel IH]; intros st Hinv; simpl;
    destruct (fill_iter limit st) as [st'|st'|e] eqn:Hiter.
  - apply (fill_iter_inv fams limit st st' Hinv (or_introl Hiter)).
  - apply (fill_iter_inv fams limit st st' Hinv (or_intror Hiter)).
  - by apply fill_iter_no_raise in Hiter.
  - destruct (fill_iter_inv fams limit st st' Hinv (or_introl Hiter))
      as (Hinv' & Hle & Hsame).
    destruct (IH st' Hinv') as (Hinv'' & Hle' & Hsame').
    split; [done|]. split.
    + intros Hcur. by apply Hle', Hle.
    + intros Hgt. specialize (Hsame Hgt). subst st'. auto.
  - apply (fill_iter_inv fams limit st st' Hinv (or_intror Hiter)).
  - by apply fill_iter_no_raise in Hiter.
Qed.

Lemma fill_loop_fuel (limit : Z) (st : LoopState) (f1 f2 : nat) :
  (fill_measure st <= f1)%nat -> (fill_measure st <= f2)%nat ->
  fill_loop limit f1 st = fill_loop limit f2 st.
Proof.
  revert st f2. induction f1 as [|f1 IH]; intros st f2 H1 H2;
    destruct f2 as [|f2]; simpl;
    destruct (fill_iter limit st) as [st'|st'|e] eqn:Hiter; try done;
    apply fill_iter_measure in Hiter; try lia.
  apply IH; lia.
Qed.

End LoopProgress.

(** ** Facts read off the tables *)

(** The names of the ISA-family database. *)
Definition family_names : list string := fmap fst ISA_FAMILIES.

Lemma dict_get_is_Some_names (fam : string) :
  is_Some (dict_get ISA_FAMILIES fam) -> fam ∈ family_names.
Proof.
  intros [fi Hfi]. apply dict_get_elem_of in Hfi.
  unfold family_names. apply list_elem_of_fmap. by exists (fam, fi).
Qed.

Lemma family_names_dict_get (fam : string) :
  fam ∈ family_names -> is_Some (dict_get ISA_FAMILIES fam).
Proof.
  intros Hin.
  assert (Forall (fun f => is_Some (dict_get ISA_FAMILIES f)) family_names)
    as Hall by (apply (bool_decide_unpack _); by vm_compute).
  rewrite Forall_forall in Hall. auto.
Qed.

Lemma affinity_names (p : string) (aff : list (string * Q)) :
  dict_get MULTI_ISA_AFFINITY p = Some aff ->
  (p ∉ fmap fst aff) /\ Forall (fun f => f ∈ family_names) (fmap fst aff).
Proof.
  intros Hget%dict_get_elem_of.
  assert (Forall (fun kv : string * list (string * Q) =>
                    (fst kv ∉ fmap fst (snd kv)) /\
                    Forall (fun f => f ∈ family_names) (fmap fst (snd kv)))
            MULTI_ISA_AFFINITY) as Hall
    by (apply (bool_decide_unpack _); by vm_compute).
  rewrite Forall_forall in Hall. apply (Hall _ Hget).
Qed.

Lemma trailer_size_cases (tt : string) :
  default 0 (dict_get TRAILER_SIZES tt) ∈ [4; 16; 32; 0].
Proof.
  destruct (dict_get TRAILER_SIZES tt) as [v|] eqn:Hget; simpl;
    [|set_solver].
  apply dict_get_elem_of in Hget.
  assert (Forall (fun kv : string * Z => snd kv ∈ [4; 16; 32; 0])
            TRAILER_SIZES) as Hall
    by (apply (bool_decide_unpack _); by vm_compute).
  rewrite Forall_forall in Hall. apply (Hall _ Hget).
Qed.

Lemma trailer_size_nonneg (tt : string) :
  0 <= default 0 (dict_get TRAILER_SIZES tt).
Proof.
  pose proof (trailer_size_cases tt) as H.
  repeat (apply elem_of_cons in H as [->|H]; [lia|]).
  by apply elem_of_nil in H.
Qed.

Lemma header_size_nonneg (ht : string) :
  0 <= default 64 (dict_get header_sizes ht).
Proof.
  destruct (dict_get header_sizes ht) as [v|] eqn:Hget; simpl; [|lia].
  apply dict_get_elem_of in Hget.
  assert (Forall (fun kv : string * Z => 0 <= snd kv) header_sizes) as Hall
    by (apply (bool_decide_unpack _); by vm_compute).
  rewrite Forall_forall in Hall. apply (Hall _ Hget).
Qed.

(** ** The secondaries [_pick_secondary_isas] returns *)

Section Secondaries.

Variable eng : LayoutEngine.

Lemma pick_secondaries_loop_spec (n : nat) (pool : list (string * Q))
  (secs : list string) (rng : Random) :
  pool <> [] -> NoDup secs ->
  (forall x, x ∈ secs -> x ∉ fmap fst pool) ->
  let r := fst (pick_secondaries_loop n pool secs rng) in
  NoDup r /\ forall x, x ∈ r -> x ∈ secs \/ x ∈ fmap fst pool.
Proof.
  revert pool secs rng.
  induction n as [|n IH]; intros pool secs rng Hne Hnd Hdisj; simpl.
  { split; [done|]. auto. }
  pose proof (weighted_choice_elem_of "" pool rng Hne) as Hpick.
  destruct (weighted_choice "" pool rng) as [pick r1]. simpl in Hpick.
  assert (NoDup (secs ++ [pick])) as Hnd'.
  { apply NoDup_app. split; [done|]. split; [|apply NoDup_singleton].
    intros x Hx ->%list_elem_of_singleton. by apply (Hdisj pick). }
  assert (forall x, x ∈ secs ++ [pick] -> x ∈ secs \/ x ∈ fmap fst pool)
    as Hsub.
  { intros x [Hx| ->%list_elem_of_singleton]%elem_of_app; auto. }
  destruct (filter (λ fw : string * Q, fw.1 ≠ pick) pool)
    as [|y pool'] eqn:Hf.
  { simpl. split; [done|]. done. }
  destruct (IH (y :: pool') (secs ++ [pick]) r1) as [Hnd'' Hin].
  - done.
  - done.
  - intros x Hx Hx'. rewrite <- Hf in Hx'.
    apply list_elem_of_fmap in Hx' as [[f w] [-> Hfw]].
    apply list_elem_of_filter in Hfw as [Hfne Hfw]. simpl in *.
    apply elem_of_app in Hx as [Hx|Hx%list_elem_of_singleton]; [|done].
    apply (Hdisj f Hx). apply list_elem_of_fmap. by exists (f, w).
  - split; [done|]. intros x Hx. destruct (Hin x Hx) as [Hx'|Hx'].
    + auto.
    + right. rewrite <- Hf in Hx'.
      apply list_elem_of_fmap in Hx' as [fw [-> Hfw]].
      apply list_elem_of_filter in Hfw as [_ Hfw].
      apply list_elem_of_fmap. by exists fw.
Qed.

(** Engines whose weighted families are names of the database with
    blobs; [LayoutEngine_init] builds no other. *)
Definition engine_ok : Prop :=
  Forall (fun fw => fst fw ∈ family_names /\
                    0 < blob_count (blob_index eng) (fst fw) /\
                    snd fw = inject_Z (blob_count (blob_index eng) (fst fw)))
    (family_weights eng) /\
  NoDup (fmap fst (family_weights eng)) /\
  family_weights eng <> [].

Definition secondaries_ok (p : string) (secs : list string) : Prop :=
  NoDup (p :: secs) /\
  Forall (fun f => f ∈ family_names /\ 0 < blob_count (blob_index eng) f)
    secs.

Lemma pick_secondary_isas_spec (p : string) (rng : Random) :
  engine_ok -> secondaries_ok p (fst (pick_secondary_isas eng p rng)).
Proof.
  intros (Hfw & _ & _). unfold pick_secondary_isas.
  set (affinity := default [] (dict_get MULTI_ISA_AFFINITY p)).
  set (available := filter _ affinity).
  set (fallback := fmap _ (filter _ (family_weights eng))).
  assert (forall x, x ∈ fmap fst available ->
            x <> p /\ x ∈ family_names /\
            0 < blob_count (blob_index eng) x) as Hav.
  { intros x [[f w] [-> Hx]]%list_elem_of_fmap.
    apply list_elem_of_filter in Hx as [Hcnt Hx]. simpl in *.
    subst affinity.
    destruct (dict_get MULTI_ISA_AFFINITY p) as [aff|] eqn:Haff;
      [|by apply elem_of_nil in Hx].
    apply affinity_names in Haff as [Hp Hnames]. simpl in Hx.
    assert (f ∈ fmap fst aff) as Hf
      by (apply list_elem_of_fmap; by exists (f, w)).
    rewrite Forall_forall in Hnames. split; [|by auto].
    intros ->. done. }
  assert (forall x, x ∈ fmap fst fallback ->
            x <> p /\ x ∈ family_names /\
            0 < blob_count (blob_index eng) x) as Hfb.
  { intros x [[f w] [-> Hx]]%list_elem_of_fmap. subst fallback.
    apply list_elem_of_fmap in Hx as [[f' w'] [[= -> ->] Hx]].
    apply list_elem_of_filter in Hx as [Hne Hx]. simpl in *.
    rewrite Forall_forall in Hfw. destruct (Hfw _ Hx) as (? & ? & _).
    done. }
  assert (forall pool n r, pool <> [] ->
            (forall x, x ∈ fmap fst pool ->
               x <> p /\ x ∈ family_names /\
               0 < blob_count (blob_index eng) x) ->
            secondaries_ok p (fst (pick_secondaries_loop n pool [] r)))
    as Hloop.
  { intros pool n r Hne Hpool.
    destruct (pick_secondaries_loop_spec n pool [] r Hne (NoDup_nil_2))
      as [Hnd Hin].
    { intros x Hx. by apply elem_of_nil in Hx. }
    split.
    - apply NoDup_cons. split; [|done]. intros Hp.
      destruct (Hin _ Hp) as [Hx|Hx]; [by apply elem_of_nil in Hx|].
      by destruct (Hpool _ Hx).
    - apply Forall_forall. intros x Hx.
      destruct (Hin _ Hx) as [Hx'|Hx']; [by apply elem_of_nil in Hx'|].
      by destruct (Hpool _ Hx'). }
  destruct available as [|a av] eqn:Hav_eq.
  - destruct fallback as [|b fb] eqn:Hfb_eq.
    + simpl. split; [apply NoDup_singleton|apply Forall_nil_2].
    + destruct (choice 1 [1; 1; 2] rng) as [count r1]. by apply Hloop.
  - destruct (choice 1 [1; 1; 2] rng) as [count r1]. by apply Hloop.
Qed.

End Secondaries.

(** ** The range of [random()] and [uniform(a, b)] *)

Lemma random_range (rng : Random) :
  (0 <= fst (random rng))%Q /\ (fst (random rng) < 1)%Q.
Proof.
  unfold random. destruct (next_raw rng) as [x r]. cbn [fst].
  pose proof (Z.mod_pos_bound x (2 ^ 53) ltac:(done)) as Hx.
  unfold Qle, Qlt. cbn [Qnum Qden]. lia.
Qed.

Lemma uniform_below (a b c : Q) (rng : Random) :
  (a < c)%Q -> (b < c)%Q -> (fst (uniform a b rng) < c)%Q.
Proof.
  intros Ha Hb. unfold uniform.
  pose proof (random_range rng) as [H0 H1].
  destruct (random rng) as [x r]. cbn [fst] in *. nra.
Qed.

(** ** What every layout of [generate_layout] satisfies *)

Section LayoutSpec.

Variable log2f : Z -> Q.
Variable exp2f : Q -> Q.
Variable eng : LayoutEngine.

Record layout_ok (l : ImageLayout) : Prop := mk_layout_ok {
  lo_code :
    Forall (code_section_ok (blob_index eng) (all_isa_families l))
      (sections l);
  lo_contiguous :
    exists e, contiguous_from 0 (sections l) = Some e /\ total_size l <= e;
  lo_total : 64 <= total_size l;
}.

(** Sizes [_pick_total_size] accepts: positive, with logarithms that
    [2 ** x] raises to a double. *)
Definition sizes_ok : Prop :=
  0 < min_size (eng_config eng) /\ 0 < max_size (eng_config eng) /\
  (log2f (min_size (eng_config eng)) < 1024)%Q /\
  (log2f (max_size (eng_config eng)) < 1024)%Q.

Lemma pick_total_size_Raised (rng : Random) (e : string) :
  pick_total_size log2f exp2f eng rng = Raised e -> ~ sizes_ok.
Proof.
  unfold pick_total_size. intros Hpick (Hmin & Hmax & Hlmin & Hlmax).
  destruct (Z.leb_spec (min_size (eng_config eng)) 0); [lia|].
  destruct (Z.leb_spec (max_size (eng_config eng)) 0); [lia|].
  pose proof (uniform_below _ _ 1024 rng Hlmin Hlmax) as Hu.
  destruct (uniform _ _ rng) as [log_size r]. cbn [fst] in Hu.
  destruct (Qle_bool 1024 log_size) eqn:Hle; [|done].
  apply Qle_bool_iff in Hle. by apply Qle_not_lt in Hle.
Qed.

Lemma pick_total_size_nonpositive (rng : Random) :
  min_size (eng_config eng) <= 0 \/ max_size (eng_config eng) <= 0 ->
  pick_total_size log2f exp2f eng rng = Raised "ValueError".
Proof.
  intros Hsize. unfold pick_total_size.
  destruct (Z.leb_spec (min_size (eng_config eng)) 0); [done|].
  destruct (Z.leb_spec (max_size (eng_config eng)) 0); [done|lia].
Qed.

Lemma pick_total_size_Ok (rng : Random) :
  sizes_ok -> exists ts r, pick_total_size log2f exp2f eng rng = Ok (ts, r).
Proof.
  intros Hok.
  destruct (pick_total_size log2f exp2f eng rng) as [[ts r]|e] eqn:Hpick.
  - by exists ts, r.
  - by apply pick_total_size_Raised in Hpick.
Qed.

(** What [generate_layout] promises of the layout [l] it returns for
    the primary [p]. *)
Definition layout_spec (seq : Z) (p : string)
  (forced : option (list string)) (l : ImageLayout) : Prop :=
  layout_ok l /\
  primary_isa l = p /\
  image_id l =
    "fw_" +:+ pretty (seed (eng_config eng)) +:+ "_" +:+ format_06d seq /\
  layout_seed l = seed (eng_config eng) + seq /\
  match forced with
  | Some secs => all_isa_families l = p :: secs
  | None =>
      exists secs, all_isa_families l = p :: secs /\
                   (engine_ok eng -> secondaries_ok eng p secs)
  end.

Lemma generate_layout_pick_primary (rng : Random) (seq : Z)
  (forced : option (list string)) :
  generate_layout log2f exp2f eng rng seq None forced =
  generate_layout log2f exp2f eng (snd (pick_primary_isa eng rng)) seq
    (Some (fst (pick_primary_isa eng rng))) forced.
Proof.
  unfold generate_layout. by destruct (pick_primary_isa eng rng).
Qed.

(** [generate_layout] for a primary of the database returns a layout,
    or raises because [_pick_total_size] does. *)
Lemma generate_layout_cases (rng : Random) (seq : Z) (p : string)
  (forced : option (list string)) :
  is_Some (dict_get ISA_FAMILIES p) ->
  (exists l,
     generate_layout log2f exp2f eng rng seq (Some p) forced = Ok l /\
     layout_spec seq p forced l) \/
  (~ sizes_ok /\
   exists e, generate_layout log2f exp2f eng rng seq (Some p) forced
             = Raised e).
Proof.
  intros [fi Hfi]. unfold layout_spec, generate_layout. rewrite Hfi.
  (* 2. the families *)
  match goal with |- context [match ?e with (a, b) => _ end] =>
    destruct e as [all_families r1] eqn:Hfams end.
  assert (match forced with
          | Some secs => all_families = p :: secs
          | None =>
              exists secs, all_families = p :: secs /\
                           (engine_ok eng -> secondaries_ok eng p secs)
          end) as Hfamilies.
  { destruct forced as [secs|].
    - by injection Hfams as <- <-.
    - destruct (random rng) as [x r0].
      destruct (Qltb x (multi_isa_probability (eng_config eng))).
      + pose proof (pick_secondary_isas_spec eng p r0) as Hsec.
        destruct (pick_secondary_isas eng p r0) as [secs r0'].
        injection Hfams as <- <-. by exists secs.
      + injection Hfams as <- <-. exists []. split; [done|].
        intros _. split; [apply NoDup_singleton|apply Forall_nil_2]. }
  assert (p ∈ all_families /\ all_families <> []) as [Hp Hne].
  { destruct forced; [subst|destruct Hfamilies as (? & -> & _)];
      split; try done; apply list_elem_of_here. }
  clear Hfams.
  (* 3./4. header, trailer, size *)
  destruct (pick_header_type p r1) as [ht r2].
  destruct (pick_trailer_type r2) as [tt r3].
  pose proof (trailer_size_nonneg tt) as Htt.
  set (trailer_size := default 0 (dict_get TRAILER_SIZES tt)) in *.
  destruct (pick_total_size log2f exp2f eng r3) as [[ts r4]|e] eqn:Hpick.
  2:{ right. split; [by eapply pick_total_size_Raised|by exists e]. }
  left.
  (* 5a. header *)
  pose proof (header_size_nonneg ht) as Hht.
  set (header_size := default 64 (dict_get header_sizes ht)) in *.
  match goal with |- context [match ?e with (a, b) => _ end] =>
    destruct e as [secs0 cursor0] eqn:Hhdr end.
  assert (contiguous_from 0 secs0 = Some cursor0 /\ 0 <= cursor0 /\
          Forall (code_section_ok (blob_index eng) all_families) secs0)
    as (Hc0 & Hcur0 & Hk0).
  { destruct (Z.ltb_spec 0 header_size); injection Hhdr as <- <-.
    - split; [|split; [lia|]].
      + simpl. destruct (Z.ltb_spec 0 header_size); [done|lia].
      + apply Forall_singleton. intros Hc. discriminate.
    - split; [done|]. split; [lia|apply Forall_nil_2]. }
  clear Hhdr.
  (* 5b. budget *)
  match goal with |- context [match ?e with (a, b) => _ end] =>
    destruct e as [total usable] eqn:Hbud end.
  assert (total = cursor0 + trailer_size + usable /\ 64 <= usable)
    as [Htotal Husable].
  { destruct (Z.ltb_spec (ts - cursor0 - trailer_size) 64);
      injection Hbud as <- <-; lia. }
  clear Hbud.
  destruct (uniform (3 # 10) (7 # 10) r4) as [cf r5].
  set (code_budget := int_of_float _).
  (* 5c. code sections *)
  set (st0 := mkLoopState r5 secs0 cursor0 code_budget _ all_families).
  destruct (code_loop_Ok eng all_families (code_measure st0) st0)
    as (st1 & -> & Hinv1).
  { by split. }
  { done. }
  (* 5d. fill *)
  set (limit := total - trailer_size).
  destruct (fill_loop_inv eng all_families limit (fill_measure st1) st1 Hinv1)
    as ([Hc2 Hk2 _] & Hle2 & Hsame2).
  set (st2 := fill_loop limit (fill_measure st1) st1) in *.
  pose proof (contiguous_from_le _ _ _ Hc2) as Hcur2.
  (* 5e. final padding *)
  match goal with |- context [match ?e with (a, b) => _ end] =>
    destruct e as [secs3 cursor3] eqn:Hgap end.
  assert (contiguous_from 0 secs3 = Some cursor3 /\ limit <= cursor3 /\
          Forall (code_section_ok (blob_index eng) all_families) secs3)
    as (Hc3 & Hcur3 & Hk3).
  { fold limit in Hgap.
    destruct (Z.ltb_spec 0 (limit - st_cursor st2));
      injection Hgap as <- <-.
    - split; [|split; [lia|]].
      + eapply contiguous_from_snoc; eauto.
      + apply Forall_app. split; [done|].
        apply Forall_singleton, ff_padding_ok.
    - split; [done|]. split; [lia|done]. }
  clear Hgap.
  eexists. split; [reflexivity|]. simpl.
  split; [|by repeat split].
  split; simpl.
  - destruct (Z.ltb_spec 0 trailer_size); [|done].
    apply Forall_app. split; [done|].
    apply Forall_singleton. intros Hc. discriminate.
  - destruct (Z.ltb_spec 0 trailer_size).
    + exists (cursor3 + trailer_size). split; [|lia].
      eapply contiguous_from_snoc; eauto.
    + exists cursor3. split; [done|lia].
  - lia.
Qed.


Lemma generate_layout_Ok (rng : Random) (seq : Z) (p : string)
  (forced : option (list string)) (l : ImageLayout) :
  generate_layout log2f exp2f eng rng seq (Some p) forced = Ok l ->
  layout_spec seq p forced l.
Proof.
  intros Hl.
  assert (is_Some (dict_get ISA_FAMILIES p)) as Hp.
  { unfold generate_layout in Hl.
    by destruct (dict_get ISA_FAMILIES p); [eexists|]. }
  destruct (generate_layout_cases rng seq p forced Hp)
    as [(l' & Hl' & Hspec)|(_ & e & He)]; [|congruence].
  rewrite Hl in Hl'. by injection Hl' as <-.
Qed.

(** A call that leaves the primary to [generate_layout] is a call with
    the primary it picks. *)
Lemma generate_layout_primary (rng : Random) (seq : Z)
  (primary : option string) (forced : option (list string))
  (l : ImageLayout) :
  generate_layout log2f exp2f eng rng seq primary forced = Ok l ->
  exists rng' p,
    generate_layout log2f exp2f eng rng' seq (Some p) forced = Ok l.
Proof.
  destruct primary as [p|]; [by exists rng, p|].
  rewrite generate_layout_pick_primary. by eexists _, _.
Qed.

End LayoutSpec.

(** ** [sorted], [join] and [split] on family names *)

Lemma sorted_Permutation (l : list string) : sorted l ≡ₚ l.
Proof. apply merge_sort_Permutation. Qed.

Lemma sorted_Sorted (l : list string) : Sorted String.le (sorted l).
Proof. apply (Sorted_merge_sort String.le). Qed.

Lemma sorted_unique (l1 l2 : list string) :
  l1 ≡ₚ l2 -> sorted l1 = sorted l2.
Proof.
  intros Hp. apply (Sorted_unique String.le); try apply sorted_Sorted.
  by rewrite !sorted_Permutation.
Qed.

Lemma sorted_elem_of (l : list string) (x : string) : x ∈ sorted l <-> x ∈ l.
Proof. by rewrite sorted_Permutation. Qed.

(** No ["+"] in the string. *)
Fixpoint plus_free (s : string) : bool :=
  match s with
  | EmptyString => true
  | String c rest => negb (Ascii.eqb c "+"%char) && plus_free rest
  end.

Lemma split_plus_free (s : string) :
  plus_free s = true -> split_plus s = [s].
Proof.
  induction s as [|c s IH]; simpl; [done|].
  destruct (Ascii.eqb c "+"); [done|]. simpl. intros H. by rewrite IH.
Qed.

Lemma split_plus_app (s rest : string) :
  plus_free s = true ->
  split_plus (s +:+ "+" +:+ rest) = s :: split_plus rest.
Proof.
  induction s as [|c s IH]; simpl; [done|].
  destruct (Ascii.eqb c "+") eqn:Hc; [done|]. simpl. intros H.
  change (String.app s (String.app "+" rest)) with (s +:+ "+" +:+ rest).
  by rewrite IH.
Qed.

Lemma split_join_plus (l : list string) :
  l <> [] -> Forall (fun s => plus_free s = true) l ->
  split_plus (join_plus l) = l.
Proof.
  induction l as [|s l IH]; [done|]. intros _ Hall.
  apply Forall_cons in Hall as [Hs Hl].
  destruct l as [|s' l].
  - simpl. by apply split_plus_free.
  - change (join_plus (s :: s' :: l)) with (s +:+ "+" +:+ join_plus (s' :: l)).
    rewrite split_plus_app by done. f_equal. by apply IH.
Qed.

Lemma family_names_plus_free :
  Forall (fun s => plus_free s = true /\ s <> "") family_names.
Proof. apply (bool_decide_unpack _). by vm_compute. Qed.

Lemma family_names_NoDup : NoDup family_names.
Proof. apply (bool_decide_unpack _). by vm_compute. Qed.

(** A forced combination rebuilt from a label has that label again. *)
Lemma relabel (p : string) (secs : list string) :
  NoDup (p :: secs) -> Forall (fun f => f ∈ family_names) (p :: secs) ->
  let label := join_plus (sorted (p :: secs)) in
  let forced := filter (fun f => f <> p) (split_plus label) in
  join_plus (sorted (p :: forced)) = label /\
  Forall (fun f => f ∈ family_names) forced.
Proof.
  intros Hnd Hnames label forced.
  assert (split_plus label = sorted (p :: secs)) as Hsplit.
  { apply split_join_plus.
    - intros Hnil. pose proof (sorted_Permutation (p :: secs)) as Hp.
      rewrite Hnil in Hp. by apply Permutation_nil_cons in Hp.
    - apply Forall_forall. intros x Hx.
      apply (proj1 (sorted_elem_of _ _)) in Hx.
      rewrite Forall_forall in Hnames.
      pose proof family_names_plus_free as Hpf.
      rewrite Forall_forall in Hpf. by destruct (Hpf x (Hnames x Hx)). }
  assert (forced ≡ₚ secs) as Hperm.
  { subst forced. rewrite Hsplit, sorted_Permutation.
    apply NoDup_cons in Hnd as [Hp _].
    rewrite filter_cons_False by (intros H; by apply H).
    clear -Hp. induction secs as [|s secs IH]; [done|].
    apply not_elem_of_cons in Hp as [Hne Hp].
    rewrite filter_cons_True by done. f_equal. auto. }
  split.
  - subst label. f_equal. apply sorted_unique. by rewrite Hperm.
  - rewrite Hperm. by apply Forall_cons in Hnames as [_ ?].
Qed.

(** ** [LayoutEngine.__init__] *)

Lemma LayoutEngine_init_spec (idx : BlobIndex) (cfg : FirmwareGenConfig)
  (eng : LayoutEngine) :
  LayoutEngine_init idx cfg = Ok eng ->
  blob_index eng = idx /\ eng_config eng = cfg /\ engine_ok eng /\
  forall fam, fam ∈ fmap fst (family_weights eng) <->
              fam ∈ family_names /\ 0 < blob_count idx fam.
Proof.
  unfold LayoutEngine_init.
  set (f := fun fam : string =>
              match dict_get ISA_FAMILIES fam with
              | Some _ =>
                  if 0 <? blob_count idx fam
                  then Some (fam, inject_Z (blob_count idx fam))
                  else None
              | None => None
              end).
  assert (forall fam fw, f fam = Some fw ->
            fst fw = fam /\ fam ∈ family_names /\ 0 < blob_count idx fam /\
            snd fw = inject_Z (blob_count idx fam))
    as Hf.
  { intros fam fw. unfold f.
    destruct (dict_get ISA_FAMILIES fam) eqn:Hget; [|done].
    destruct (Z.ltb_spec 0 (blob_count idx fam)); [|done].
    intros [= <-]. repeat split; [|done].
    apply dict_get_is_Some_names. by rewrite Hget. }
  assert (forall fam, fam ∈ family_names -> 0 < blob_count idx fam ->
            exists w, f fam = Some (fam, w)) as Hf'.
  { intros fam [fi Hfi]%family_names_dict_get Hcnt. unfold f.
    rewrite Hfi. destruct (Z.ltb_spec 0 (blob_count idx fam)); [|lia].
    by eexists. }
  assert (forall l, NoDup l -> NoDup (fmap fst (omap f l))) as Hnodup.
  { induction l as [|x l IH]; intros Hnd; simpl; [apply NoDup_nil_2|].
    apply NoDup_cons in Hnd as [Hx Hl].
    destruct (f x) as [fw|] eqn:Hfx; [|auto]. simpl.
    apply NoDup_cons. split; [|auto].
    intros [fw' [Hfst Hin]]%list_elem_of_fmap.
    apply list_elem_of_omap in Hin as (y & Hy & Hfy).
    destruct (Hf _ _ Hfx) as [Hfw _]. destruct (Hf _ _ Hfy) as [Hfw' _].
    congruence. }
  destruct (omap f (BlobIndexM.families idx)) as [|fw0 fws] eqn:Hw; [done|].
  intros [= <-]. unfold engine_ok.
  cbn [family_weights blob_index eng_config].
  split; [done|]. split; [done|]. rewrite <- Hw.
  assert (forall fam, fam ∈ BlobIndexM.families idx <->
                      0 < blob_count idx fam \/
                      (idx !! fam = Some [])) as Hfam.
  { intros fam. unfold BlobIndexM.families. rewrite sorted_elem_of.
    unfold blob_count, get_blobs. split.
    - intros [[k v] [-> Hkv]]%list_elem_of_fmap.
      apply elem_of_map_to_list in Hkv. simpl. rewrite Hkv.
      destruct v; [by right|left]. simpl. lia.
    - intros Hcnt. apply list_elem_of_fmap.
      destruct (idx !! fam) as [v|] eqn:Hl.
      + exists (fam, v). split; [done|]. by apply elem_of_map_to_list.
      + destruct Hcnt as [Hcnt|Hcnt]; [simpl in Hcnt; lia|done]. }
  split; [split; [|split]|].
  - apply Forall_forall. intros fw (fam & _ & Hfw)%list_elem_of_omap.
    destruct (Hf _ _ Hfw) as (-> & ? & ? & ?). done.
  - apply Hnodup. unfold BlobIndexM.families.
    rewrite sorted_Permutation. apply NoDup_fst_map_to_list.
  - by rewrite Hw.
  - intros fam. split.
    + intros [fw [-> (fam' & _ & Hfw)%list_elem_of_omap]]%list_elem_of_fmap.
      destruct (Hf _ _ Hfw) as (-> & ? & ? & ?). done.
    + intros [Hn Hcnt]. destruct (Hf' fam Hn Hcnt) as [w Hw'].
      apply list_elem_of_fmap. exists (fam, w). split; [done|].
      apply list_elem_of_omap. exists fam. split; [|done].
      apply Hfam. by left.
Qed.

(** ** Phase 1 quotas *)

(** The quotas of the families [fams], summed. *)
Definition qsum (q : gmap string Z) (fams : list string) : Z :=
  foldr (fun f acc => default 0 (q !! f) + acc) 0 fams.

Lemma qsum_insert_notin (q : gmap string Z) (fams : list string)
  (f : string) (v : Z) :
  f ∉ fams -> qsum (<[f := v]> q) fams = qsum q fams.
Proof.
  induction fams as [|g fams IH]; simpl; [done|].
  intros [Hne Hnotin]%not_elem_of_cons.
  rewrite lookup_insert_ne by done. by rewrite IH.
Qed.

Lemma qsum_quota_add (q : gmap string Z) (fams : list string) (f : string)
  (k : Z) :
  NoDup fams -> f ∈ fams ->
  qsum (quota_add q f k) fams = qsum q fams + k.
Proof.
  unfold quota_add.
  induction fams as [|g fams IH]; intros Hnd Hin; simpl.
  { by apply elem_of_nil in Hin. }
  apply NoDup_cons in Hnd as [Hg Hnd].
  destruct (decide (f = g)) as [->|Hne].
  - rewrite lookup_insert_eq. simpl.
    rewrite qsum_insert_notin by done. lia.
  - rewrite lookup_insert_ne by done.
    apply elem_of_cons in Hin as [?|Hin]; [done|].
    rewrite IH by done. lia.
Qed.

Lemma quota_add_lookup (q : gmap string Z) (f g : string) (k : Z) :
  0 <= k -> default 0 (q !! g) <= default 0 (quota_add q f k !! g).
Proof.
  intros Hk. unfold quota_add. destruct (decide (f = g)) as [->|Hne].
  - rewrite lookup_insert_eq. simpl. lia.
  - by rewrite lookup_insert_ne.
Qed.

Lemma quotas_init (base : Z) (fams : list string) (q : gmap string Z)
  (f : string) :
  foldl (fun q fam => <[fam := base]> q) q fams !! f =
  if decide (f ∈ fams) then Some base else q !! f.
Proof.
  revert q. induction fams as [|g fams IH]; intros q; simpl.
  { destruct (decide (f ∈ [])) as [H|]; [by apply elem_of_nil in H|done]. }
  rewrite IH. destruct (decide (f ∈ fams)) as [Hin|Hnotin].
  - rewrite decide_True; [done|]. by apply list_elem_of_further.
  - destruct (decide (f = g)) as [->|Hne].
    + rewrite lookup_insert_eq.
      rewrite decide_True; [done|]. apply list_elem_of_here.
    + rewrite lookup_insert_ne by done.
      rewrite decide_False; [done|].
      intros [?|?]%elem_of_cons; done.
Qed.

Lemma qsum_const (q : gmap string Z) (fams : list string) (base : Z) :
  (forall f, f ∈ fams -> q !! f = Some base) ->
  qsum q fams = base * Z.of_nat (length fams).
Proof.
  induction fams as [|g fams IH]; intros Hq; simpl; [lia|].
  rewrite (Hq g) by apply list_elem_of_here. simpl.
  rewrite IH; [lia|]. intros f Hf. apply Hq. by apply list_elem_of_further.
Qed.

Lemma int_of_float_nonneg (x : Q) : (0 <= x)%Q -> 0 <= int_of_float x.
Proof.
  unfold Qle, int_of_float. simpl. intros H.
  apply Z.quot_pos; lia.
Qed.

Lemma insert_desc_elem_of (x y : string * Q) (l : list (string * Q)) :
  y ∈ insert_desc x l <-> y = x \/ y ∈ l.
Proof.
  induction l as [|z l IH]; simpl.
  - rewrite list_elem_of_singleton, elem_of_nil. tauto.
  - destruct (Qltb (snd z) (snd x)).
    + by rewrite elem_of_cons.
    + rewrite !elem_of_cons, IH. tauto.
Qed.

Lemma insert_desc_length (x : string * Q) (l : list (string * Q)) :
  length (insert_desc x l) = S (length l).
Proof.
  induction l as [|z l IH]; simpl; [done|].
  destruct (Qltb (snd z) (snd x)); simpl; [done|]. by rewrite IH.
Qed.

Lemma sorted_by_weight_desc_spec (l : list (string * Q)) :
  length (sorted_by_weight_desc l) = length l /\
  forall y, y ∈ sorted_by_weight_desc l <-> y ∈ l.
Proof.
  unfold sorted_by_weight_desc.
  assert (forall acc,
            length (foldl (fun acc x => insert_desc x acc) acc l) =
            (length acc + length l)%nat /\
            forall y, y ∈ foldl (fun acc x => insert_desc x acc) acc l <->
                      y ∈ acc \/ y ∈ l) as H.
  { induction l as [|x l IH]; intros acc; simpl.
    - split; [lia|]. intros y. rewrite elem_of_nil. tauto.
    - destruct (IH (insert_desc x acc)) as [Hlen Hin]. split.
      + rewrite Hlen, insert_desc_length. lia.
      + intros y. rewrite Hin, insert_desc_elem_of, elem_of_cons. tauto. }
  destruct (H []) as [Hlen Hin]. split; [done|].
  intros y. rewrite Hin, elem_of_nil. tauto.
Qed.

Section Quotas.

Variable eng : LayoutEngine.
Hypothesis Heng : engine_ok eng.

Let fams := fmap fst (family_weights eng).

Lemma sum_weights_nonneg (l : list (string * Q)) (acc : Q) :
  (0 <= acc)%Q -> Forall (fun fw => (0 <= snd fw)%Q) l ->
  (0 <= foldl (fun acc o => (acc + snd o)%Q) acc l)%Q.
Proof.
  revert acc. induction l as [|x l IH]; intros acc Hacc Hall; simpl;
    [done|].
  apply Forall_cons in Hall as [Hx Hl]. apply IH; [|done].
  replace 0%Q with (0 + 0)%Q by reflexivity. by apply Qplus_le_compat.
Qed.

Lemma family_weights_nonneg :
  Forall (fun fw => (0 <= snd fw)%Q) (family_weights eng).
Proof.
  destruct Heng as (Hfw & _ & _).
  eapply Forall_impl; [exact Hfw|]. intros fw (_ & Hcnt & ->).
  unfold Qle. simpl. lia.
Qed.

(** Every family of the engine has a quota of at least one, and the
    quotas add up to at least [count]. *)
Lemma batch_quotas_spec (count : Z) :
  (forall f, f ∈ fams -> 1 <= default 0 (batch_quotas eng count !! f)) /\
  count <= qsum (batch_quotas eng count) fams.
Proof.
  destruct Heng as (Hfw & Hnd & Hne). fold fams in Hnd.
  unfold batch_quotas. fold fams.
  set (nf := Z.of_nat (length fams)).
  assert (0 < nf) as Hnf.
  { subst nf fams. rewrite length_fmap.
    destruct (family_weights eng); [done|]. simpl. lia. }
  set (base_per := Z.max 1 (count / nf)).
  set (q0 := foldl (fun q fam => <[fam := base_per]> q) ∅ fams).
  assert (forall f, f ∈ fams -> q0 !! f = Some base_per) as Hq0.
  { intros f Hf. subst q0. rewrite quotas_init. by rewrite decide_True. }
  assert (qsum q0 fams = base_per * nf) as Hsum0 by by apply qsum_const.
  assert (forall f, f ∈ fams -> 1 <= default 0 (q0 !! f)) as Hone0.
  { intros f Hf. rewrite (Hq0 f Hf). simpl. lia. }
  destruct (Z.ltb_spec 0 (count - base_per * nf)) as [Hrem|Hrem].
  2:{ split; [done|]. lia. }
  (* the proportional extras *)
  set (tw := sum_weights (family_weights eng)).
  assert (0 <= tw)%Q as Htw.
  { apply sum_weights_nonneg; [done|apply family_weights_nonneg]. }
  set (step1 := fun '(q, allocated) '(fam, weight) =>
                  let extra :=
                    int_of_float
                      (inject_Z (count - base_per * nf) * weight / tw)%Q in
                  (quota_add q fam extra, allocated + extra)).
  assert (forall l q a,
            Forall (fun fw => fst fw ∈ fams /\ (0 <= snd fw)%Q) l ->
            qsum q fams = a ->
            (forall f, f ∈ fams -> 1 <= default 0 (q !! f)) ->
            let r := foldl step1 (q, a) l in
            qsum (fst r) fams = snd r /\
            (forall f, f ∈ fams -> 1 <= default 0 (fst r !! f))) as Hstep1.
  { induction l as [|[fam w] l IH]; intros q a Hall Hsum Hone; simpl;
      [done|].
    apply Forall_cons in Hall as [[Hfam Hw] Hall]. simpl in *.
    assert (0 <= int_of_float
                   (inject_Z (count - base_per * nf) * w / tw)%Q) as Hex.
    { apply int_of_float_nonneg. unfold Qdiv.
      apply Qmult_le_0_compat; [|by apply Qinv_le_0_compat].
      apply Qmult_le_0_compat; [|done]. unfold Qle. simpl. lia. }
    apply IH; [done| |].
    - rewrite qsum_quota_add by done. lia.
    - intros f Hf. etrans; [by apply Hone|]. by apply quota_add_lookup. }
  destruct (Hstep1 (family_weights eng) q0 (base_per * nf)) as [Hsum1 Hone1].
  { apply Forall_forall. intros fw Hin. split.
    - subst fams. apply list_elem_of_fmap. by exists fw.
    - pose proof family_weights_nonneg as Hnn.
      rewrite Forall_forall in Hnn. auto. }
  { done. }
  { done. }
  destruct (foldl step1 (q0, base_per * nf) (family_weights eng))
    as [q1 a1]. simpl in Hsum1, Hone1.
  (* the rounding leftovers *)
  destruct (sorted_by_weight_desc_spec (family_weights eng))
    as [Hlen Hin].
  set (sf := sorted_by_weight_desc (family_weights eng)) in *.
  set (step2 := fun q (i : nat) =>
                  match sf !! (i mod length sf)%nat with
                  | Some (fam, _) => quota_add q fam 1
                  | None => q
                  end).
  assert (forall l q,
            (forall f, f ∈ fams -> 1 <= default 0 (q !! f)) ->
            qsum (foldl step2 q l) fams = qsum q fams + Z.of_nat (length l) /\
            (forall f, f ∈ fams ->
               1 <= default 0 (foldl step2 q l !! f))) as Hstep2.
  { induction l as [|i l IH]; intros q Hone; simpl.
    { split; [lia|done]. }
    assert (exists fam w, sf !! (i mod length sf)%nat = Some (fam, w) /\
                          fam ∈ fams) as (fam & w & Hlk & Hfam).
    { destruct (lookup_lt_is_Some_2 sf (i mod length sf)%nat)
        as [[fam w] Hlk].
      - apply Nat.mod_upper_bound. rewrite Hlen.
        destruct (family_weights eng); [done|]. simpl. lia.
      - exists fam, w. split; [done|].
        apply list_elem_of_lookup_2, Hin in Hlk.
        subst fams. apply list_elem_of_fmap. by exists (fam, w). }
    destruct (IH (step2 q i)) as [Hs Ho].
    - intros f Hf. unfold step2. rewrite Hlk.
      etrans; [by apply Hone|]. by apply quota_add_lookup.
    - split; [|done]. rewrite Hs. unfold step2. rewrite Hlk.
      rewrite qsum_quota_add by done. lia. }
  destruct (Hstep2 (seq 0 (Z.to_nat (count - a1))) q1 Hone1) as [Hs2 Ho2].
  split; [done|]. rewrite Hs2, length_seq. lia.
Qed.

End Quotas.

(** ** Phase 1 of [generate_batch] *)

Section Batch.

Variable log2f : Z -> Q.
Variable exp2f : Q -> Q.
Variable eng : LayoutEngine.
Variable Random_of_seed : Z -> Random.
Hypothesis Heng : engine_ok eng.

(** What holds of every layout of a batch. *)
Definition batch_layout_ok (l : ImageLayout) : Prop :=
  layout_ok eng l /\
  NoDup (all_isa_families l) /\
  Forall (fun f => f ∈ family_names) (all_isa_families l) /\
  exists secs, all_isa_families l = primary_isa l :: secs.

Definition forced_ok (p : string) (forced : option (list string)) : Prop :=
  match forced with
  | Some secs =>
      NoDup (p :: secs) /\ Forall (fun f => f ∈ family_names) secs
  | None => True
  end.

(** Each lemma of this part says of a function of the batch that it
    returns what it should, or raises because [_pick_total_size]
    does. *)
Lemma generate_run_cases (ms : Z) (n : nat) (seq : Z) (p : string)
  (forced : option (list string)) :
  p ∈ family_names -> forced_ok p forced ->
  (exists ls,
     generate_run log2f exp2f eng Random_of_seed ms n seq p forced = Ok ls /\
     length ls = n /\
     Forall (fun l => batch_layout_ok l /\ primary_isa l = p /\
                      forall secs, forced = Some secs ->
                                   all_isa_families l = p :: secs) ls) \/
  (~ sizes_ok log2f eng /\
   exists e, generate_run log2f exp2f eng Random_of_seed ms n seq p forced
             = Raised e).
Proof.
  intros Hp Hforced. revert seq.
  induction n as [|n IH]; intros seq; simpl.
  { left. exists []. by repeat split. }
  destruct (generate_layout_cases log2f exp2f eng
              (Random_of_seed (ms + seq)) seq p forced)
    as [(l & -> & Hok & Hprim & _ & _ & Hfams)|(Hno & e & ->)].
  { by apply family_names_dict_get. }
  2:{ right. split; [done|by exists e]. }
  destruct (IH (seq + 1)) as [(ls & -> & Hlen & Hall)|(Hno & e & ->)].
  2:{ right. split; [done|by exists e]. }
  left. exists (l :: ls). split; [done|]. split; [simpl; lia|].
  apply Forall_cons. split; [|done].
  split; [|split; [done|]].
  - split; [done|]. rewrite Hprim.
    destruct forced as [secs|].
    + rewrite Hfams. destruct Hforced as [Hnd Hnames].
      split; [done|]. split; [|by exists secs].
      apply Forall_cons. by split.
    + destruct Hfams as (secs & -> & Hsec).
      destruct (Hsec Heng) as [Hnd Hnames].
      split; [done|]. split; [|by exists secs].
      apply Forall_cons. split; [done|].
      eapply Forall_impl; [exact Hnames|]. by intros f [? _].
  - intros secs ->. done.
Qed.

(** Number of layouts phase 1 makes for the families [fams]. *)
Definition qlen (q : gmap string Z) (fams : list string) : nat :=
  foldr (fun f acc => (Z.to_nat (default 0%Z (q !! f)) + acc)%nat) 0%nat fams.

Lemma qlen_qsum (q : gmap string Z) (fams : list string) :
  (forall f, f ∈ fams -> 0 <= default 0 (q !! f)) ->
  Z.of_nat (qlen q fams) = qsum q fams.
Proof.
  induction fams as [|f fams IH]; intros Hq; simpl; [done|].
  rewrite Nat2Z.inj_add, IH.
  - rewrite Z2Nat.id; [done|]. apply Hq, list_elem_of_here.
  - intros g Hg. apply Hq. by apply list_elem_of_further.
Qed.

Lemma qlen_ge_length (q : gmap string Z) (fams : list string) :
  (forall f, f ∈ fams -> 1 <= default 0 (q !! f)) ->
  (length fams <= qlen q fams)%nat.
Proof.
  induction fams as [|f fams IH]; intros Hq; simpl; [done|].
  pose proof (Hq f (list_elem_of_here _ _)).
  assert (length fams <= qlen q fams)%nat.
  { apply IH. intros g Hg. apply Hq. by apply list_elem_of_further. }
  lia.
Qed.

Lemma phase1_cases (ms : Z) (q : gmap string Z) (fams : list string)
  (seq : Z) :
  Forall (fun f => f ∈ family_names) fams ->
  (exists ls,
     phase1 log2f exp2f eng Random_of_seed ms q fams seq =
       Ok (ls, seq + Z.of_nat (length ls)) /\
     length ls = qlen q fams /\
     Forall (fun l => batch_layout_ok l /\ primary_isa l ∈ fams) ls /\
     forall f, f ∈ fams -> 1 <= default 0 (q !! f) ->
               exists l, l ∈ ls /\ primary_isa l = f) \/
  (~ sizes_ok log2f eng /\
   exists e, phase1 log2f exp2f eng Random_of_seed ms q fams seq
             = Raised e).
Proof.
  revert seq. induction fams as [|f fams IH]; intros seq Hnames; simpl.
  { left. exists []. split; [by rewrite Z.add_0_r|]. split; [done|].
    split; [done|]. intros f Hf. by apply elem_of_nil in Hf. }
  apply Forall_cons in Hnames as [Hf Hnames].
  destruct (generate_run_cases ms (Z.to_nat (default 0 (q !! f))) seq f None
              Hf I) as [(ls & -> & Hlen & Hall)|(Hno & e & ->)].
  2:{ right. split; [done|by exists e]. }
  destruct (IH (seq + Z.of_nat (Z.to_nat (default 0 (q !! f)))) Hnames)
    as [(ls' & -> & Hlen' & Hall' & Hex)|(Hno & e & ->)].
  2:{ right. split; [done|by exists e]. }
  left. exists (ls ++ ls'). rewrite length_app, Hlen. split.
  { do 2 f_equal. lia. }
  split; [by rewrite Hlen'|]. split.
  - apply Forall_app. split.
    + eapply Forall_impl; [exact Hall|]. intros l (? & -> & _).
      split; [done|apply list_elem_of_here].
    + eapply Forall_impl; [exact Hall'|]. intros l (? & ?).
      split; [done|by apply list_elem_of_further].
  - intros g [->|Hg]%elem_of_cons Hq.
    + destruct ls as [|l ls].
      { simpl in Hlen. lia. }
      exists l. split; [apply list_elem_of_here|].
      apply Forall_cons in Hall as [(_ & ? & _) _]. done.
    + destruct (Hex g Hg Hq) as (l & Hl & Hp).
      exists l. split; [|done]. apply elem_of_app. by right.
Qed.

End Batch.

(** ** Phase 2 of [generate_batch]: the combination floor *)

(** Number of layouts with the label. *)
Definition label_count (label : string) (ls : list ImageLayout) : nat :=
  length (filter (fun l => isa_label l = label) ls).

Lemma label_count_app (label : string) (l1 l2 : list ImageLayout) :
  label_count label (l1 ++ l2) =
  (label_count label l1 + label_count label l2)%nat.
Proof. unfold label_count. by rewrite filter_app, length_app. Qed.

Lemma label_count_pos (label : string) (ls : list ImageLayout) :
  (0 < label_count label ls)%nat <->
  exists l, l ∈ ls /\ isa_label l = label.
Proof.
  unfold label_count. split.
  - destruct (filter _ ls) as [|l fl] eqn:Hf; simpl; [lia|]. intros _.
    assert (l ∈ filter (fun l => isa_label l = label) ls) as Hl
      by (rewrite Hf; apply list_elem_of_here).
    apply list_elem_of_filter in Hl as [? ?]. by exists l.
  - intros (l & Hl & Hlab).
    assert (l ∈ filter (fun l => isa_label l = label) ls) as Hin
      by by apply list_elem_of_filter.
    destruct (filter _ ls); [by apply elem_of_nil in Hin|]. simpl. lia.
Qed.

Lemma label_count_Permutation (label : string) (l1 l2 : list ImageLayout) :
  l1 ≡ₚ l2 -> label_count label l1 = label_count label l2.
Proof. intros Hp. unfold label_count. by rewrite Hp. Qed.

Lemma label_count_singleton (label : string) (x : ImageLayout) :
  label_count label [x] =
  if decide (isa_label x = label) then 1%nat else 0%nat.
Proof.
  unfold label_count. destruct (decide (isa_label x = label)).
  - by rewrite filter_cons_True.
  - by rewrite filter_cons_False.
Qed.

Lemma label_count_all (label : string) (ls : list ImageLayout) :
  Forall (fun l => isa_label l = label) ls ->
  label_count label ls = length ls.
Proof.
  unfold label_count. induction 1 as [|l ls Hl Hls IH]; [done|].
  rewrite filter_cons_True by done. simpl. by rewrite IH.
Qed.

Lemma label_count_none (label : string) (ls : list ImageLayout) :
  Forall (fun l => isa_label l <> label) ls ->
  label_count label ls = 0%nat.
Proof.
  unfold label_count. induction 1 as [|l ls Hl Hls IH]; [done|].
  by rewrite filter_cons_False.
Qed.

Lemma count_combos_spec (layouts : list ImageLayout) :
  forall label,
    let n := label_count label layouts in
    (count_combos layouts).1 !! label =
      (if decide (n = 0%nat) then None else Some (Z.of_nat n)) /\
    (n = 0%nat -> (count_combos layouts).2 !! label = None) /\
    ((0 < n)%nat ->
     exists l, l ∈ layouts /\ isa_label l = label /\
               (count_combos layouts).2 !! label = Some (primary_isa l)).
Proof.
  unfold count_combos.
  induction layouts as [|x layouts IH] using rev_ind; intros label.
  { simpl. split; [done|]. split; [done|]. intros Hpos.
    unfold label_count in Hpos. simpl in Hpos. lia. }
  rewrite foldl_app. simpl.
  destruct (foldl _ (∅, ∅) layouts) as [cc cp] eqn:Hfold. simpl in *.
  rewrite label_count_app, label_count_singleton.
  destruct (IH label) as (Hcc & Hcp0 & Hcp1).
  destruct (decide (isa_label x = label)) as [Hx|Hx].
  - rewrite Hx, lookup_insert_eq.
    split; [|split; [lia|intros _]].
    + rewrite decide_False by lia. rewrite Hcc.
      destruct (decide (label_count label layouts = 0%nat)) as [->|];
        simpl; f_equal; lia.
    + destruct (decide (label_count label layouts = 0%nat)) as [Hz|Hnz].
      * rewrite (Hcp0 Hz). exists x. rewrite lookup_insert_eq.
        split; [|done]. apply elem_of_app. right. apply list_elem_of_here.
      * destruct Hcp1 as (l & Hl & Hlab & Hlk); [lia|].
        rewrite Hlk. exists l. split; [|done]. apply elem_of_app. by left.
  - rewrite Nat.add_0_r, lookup_insert_ne by done.
    split; [done|].
    assert (forall v, match cp !! isa_label x with
                      | Some _ => cp
                      | None => <[isa_label x := v]> cp
                      end !! label = cp !! label) as Hsame.
    { intros v. destruct (cp !! isa_label x); [done|].
      by rewrite lookup_insert_ne. }
    rewrite Hsame. split; [done|]. intros Hpos.
    destruct (Hcp1 Hpos) as (l & Hl & Hlab & Hlk).
    exists l. split; [|done]. apply elem_of_app. by left.
Qed.

Section Combos.

Variable log2f : Z -> Q.
Variable exp2f : Q -> Q.
Variable eng : LayoutEngine.
Variable Random_of_seed : Z -> Random.
Hypothesis Heng : engine_ok eng.

(** A label that phase 2 can rebuild: it is the label of the
    combination of [p] with pairwise different families of the
    database. *)
Definition label_ok (cp : gmap string string) (label : string) : Prop :=
  exists p secs,
    cp !! label = Some p /\
    label = join_plus (sorted (p :: secs)) /\
    NoDup (p :: secs) /\
    Forall (fun f => f ∈ family_names) (p :: secs).

Lemma phase2_cases (ms : Z) (cc : gmap string Z) (cp : gmap string string)
  (labels : list string) (seq : Z) :
  NoDup labels -> Forall (label_ok cp) labels ->
  (exists extra,
     phase2 log2f exp2f eng Random_of_seed ms cc cp labels seq = Ok extra /\
     Forall (batch_layout_ok eng) extra /\
     forall label,
       label_count label extra =
       if decide (label ∈ labels)
       then Z.to_nat (min_images_per_combo (eng_config eng)
                      - default 0 (cc !! label))
       else 0%nat) \/
  (~ sizes_ok log2f eng /\
   exists e, phase2 log2f exp2f eng Random_of_seed ms cc cp labels seq
             = Raised e).
Proof.
  revert seq. induction labels as [|lab labels IH]; intros seq Hnd Hok;
    cbn [phase2].
  { left. exists []. split; [done|]. split; [done|]. intros label.
    rewrite decide_False; [done|]. apply not_elem_of_nil. }
  apply NoDup_cons in Hnd as [Hlab Hnd].
  apply Forall_cons in Hok as [(p & secs & Hcp & Hlabel & Hndp & Hnames) Hok].
  set (needed := min_images_per_combo (eng_config eng)
                 - default 0 (cc !! lab)).
  destruct (Z.leb_spec needed 0) as [Hneed|Hneed].
  - destruct (IH seq Hnd Hok)
      as [(extra & -> & Hall & Hcount)|(Hno & e & ->)].
    2:{ right. split; [done|by exists e]. }
    left. exists extra. split; [done|]. split; [done|]. intros label.
    rewrite Hcount. destruct (decide (label = lab)) as [->|Hne].
    + rewrite decide_False by done. rewrite decide_True
        by apply list_elem_of_here. fold needed. lia.
    + destruct (decide (label ∈ labels)) as [Hin|Hnotin].
      * rewrite decide_True; [done|]. by apply list_elem_of_further.
      * rewrite decide_False; [done|].
        intros [?|?]%elem_of_cons; done.
  - rewrite Hcp.
    destruct (relabel p secs Hndp Hnames) as [Hrelabel Hforced].
    rewrite <- Hlabel in Hrelabel, Hforced.
    set (forced := filter (fun f => f <> p) (split_plus lab)) in *.
    assert (p ∈ family_names) as Hp
      by by apply Forall_cons in Hnames as [? _].
    assert (NoDup (p :: forced)) as Hndf.
    { apply NoDup_cons. split.
      - intros [Hne _]%list_elem_of_filter. done.
      - apply NoDup_filter.
        assert (split_plus lab ≡ₚ p :: secs) as ->; [|done].
        rewrite Hlabel, split_join_plus.
        + apply sorted_Permutation.
        + intros Hnil. pose proof (sorted_Permutation (p :: secs)) as Hs.
          rewrite Hnil in Hs. by apply Permutation_nil_cons in Hs.
        + apply Forall_forall. intros x Hx.
          apply (proj1 (sorted_elem_of _ _)) in Hx.
          rewrite Forall_forall in Hnames.
          pose proof family_names_plus_free as Hpf.
          rewrite Forall_forall in Hpf.
          by destruct (Hpf x (Hnames x Hx)). }
    destruct (generate_run_cases log2f exp2f eng Random_of_seed Heng ms
                (Z.to_nat needed) seq p (Some forced) Hp)
      as [(ls & -> & Hlen & Hall)|(Hno & e & ->)].
    { by split. }
    2:{ right. split; [done|by exists e]. }
    destruct (IH (seq + Z.of_nat (Z.to_nat needed)) Hnd Hok)
      as [(extra & -> & Hall' & Hcount)|(Hno & e & ->)].
    2:{ right. split; [done|by exists e]. }
    left. exists (ls ++ extra). split; [done|]. split.
    { apply Forall_app. split; [|done].
      eapply Forall_impl; [exact Hall|]. by intros l [? _]. }
    assert (Forall (fun l => isa_label l = lab) ls) as Hlabs.
    { eapply Forall_impl; [exact Hall|]. intros l (_ & _ & Hf).
      unfold isa_label. by rewrite (Hf forced eq_refl). }
    intros label. rewrite label_count_app, Hcount.
    destruct (decide (label = lab)) as [->|Hne].
    + rewrite decide_False by done.
      rewrite decide_True by apply list_elem_of_here.
      rewrite Nat.add_0_r, label_count_all by done. done.
    + assert (label_count label ls = 0%nat) as ->.
      { apply label_count_none.
        eapply Forall_impl; [exact Hlabs|]. intros l -> Heq. done. }
      simpl. destruct (decide (label ∈ labels)) as [Hin|Hnotin].
      * rewrite decide_True; [done|]. by apply list_elem_of_further.
      * rewrite decide_False; [done|].
        intros [?|?]%elem_of_cons; done.
Qed.

End Combos.

(** ** The shuffle and the whole batch *)

Lemma swap_Permutation {A} (x : list A) (i j : nat) : swap x i j ≡ₚ x.
Proof.
  unfold swap. destruct (x !! i) as [a|] eqn:Hi; [|done].
  destruct (x !! j) as [b|] eqn:Hj; [|done].
  by apply Permutation_insert_swap.
Qed.

Lemma shuffle_Permutation {A} (x : list A) (rng : Random) :
  fst (shuffle x rng) ≡ₚ x.
Proof.
  unfold shuffle. generalize (length x - 1)%nat as i. intros i.
  revert x rng. induction i as [|i IH]; intros x rng; simpl; [done|].
  destruct (randbelow _ rng) as [j r]. rewrite IH. apply swap_Permutation.
Qed.

Section BatchSpec.

Variable log2f : Z -> Q.
Variable exp2f : Q -> Q.
Variable eng : LayoutEngine.
Variable Random_of_seed : Z -> Random.
Hypothesis Heng : engine_ok eng.

(** What holds of the layouts [l1] of phase 1 and [extra] of phase 2
    of [generate_batch]. *)
Definition batch_spec (count : Z) (l1 extra : list ImageLayout) : Prop :=
  Forall (batch_layout_ok eng) (l1 ++ extra) /\
  count <= Z.of_nat (length l1) /\
  (length (family_weights eng) <= length l1)%nat /\
  (forall f, f ∈ fmap fst (family_weights eng) ->
             exists l, l ∈ l1 /\ primary_isa l = f) /\
  forall label,
    (0 < label_count label (l1 ++ extra))%nat ->
    min_images_per_combo (eng_config eng)
    <= Z.of_nat (label_count label (l1 ++ extra)).

Lemma generate_batch_cases (count ms : Z) :
  (exists l1 extra,
     generate_batch log2f exp2f eng Random_of_seed count ms =
       Ok (fst (shuffle (l1 ++ extra) (Random_of_seed ms))) /\
     batch_spec count l1 extra) \/
  (~ sizes_ok log2f eng /\
   exists e, generate_batch log2f exp2f eng Random_of_seed count ms
             = Raised e).
Proof.
  unfold batch_spec.
  unfold generate_batch.
  set (fams := fmap fst (family_weights eng)).
  destruct (batch_quotas_spec eng Heng count) as [Hone Hsum].
  fold fams in Hone, Hsum.
  assert (Forall (fun f => f ∈ family_names) fams) as Hnames.
  { destruct Heng as (Hfw & _ & _). subst fams.
    apply Forall_fmap. eapply Forall_impl; [exact Hfw|].
    by intros fw (? & _). }
  destruct (phase1_cases log2f exp2f eng Random_of_seed Heng ms
              (batch_quotas eng count) fams 0 Hnames)
    as [(l1 & -> & Hlen & Hall1 & Hex)|(Hno & e & ->)].
  2:{ right. split; [done|by exists e]. }
  pose proof (count_combos_spec l1) as Hcombos.
  destruct (count_combos l1) as [cc cp]. simpl in Hcombos.
  set (labels := sorted (fmap fst (map_to_list cc))).
  assert (forall label, label ∈ labels <->
                        (0 < label_count label l1)%nat) as Hlabels.
  { intros label. subst labels. rewrite sorted_elem_of.
    destruct (Hcombos label) as (Hcc & _ & _). split.
    - intros [[k v] [-> Hkv%elem_of_map_to_list]]%list_elem_of_fmap.
      simpl in *. rewrite Hkv in Hcc.
      destruct (decide (label_count k l1 = 0%nat)); [done|lia].
    - intros Hpos. rewrite decide_False in Hcc by lia.
      apply list_elem_of_fmap. eexists (label, _). split; [done|].
      apply elem_of_map_to_list. exact Hcc. }
  destruct (phase2_cases log2f exp2f eng Random_of_seed Heng ms cc cp labels
              (0 + Z.of_nat (length l1)))
    as [(extra & -> & Hall2 & Hcount)|(Hno & e & ->)].
  { subst labels. rewrite sorted_Permutation.
    apply NoDup_fst_map_to_list. }
  { apply Forall_forall. intros label Hlabel%Hlabels.
    destruct (Hcombos label) as (_ & _ & Hcp).
    destruct (Hcp Hlabel) as (l & Hl & Hlab & Hlk).
    rewrite Forall_forall in Hall1.
    destruct (Hall1 l Hl) as [(_ & Hnd & Hn & secs & Hsecs) _].
    exists (primary_isa l), secs. rewrite <- Hsecs.
    split; [done|]. split; [by rewrite <- Hlab|]. done. }
  2:{ right. split; [done|by exists e]. }
  left. exists l1, extra. split; [done|]. split.
  { apply Forall_app. split; [|done].
    eapply Forall_impl; [exact Hall1|]. by intros l [? _]. }
  split.
  { rewrite Hlen, qlen_qsum; [done|].
    intros f Hf. specialize (Hone f Hf). lia. }
  split.
  { rewrite Hlen. etrans; [|by apply qlen_ge_length].
    subst fams. by rewrite length_fmap. }
  split.
  { intros f Hf. by apply Hex, Hone. }
  intros label. rewrite label_count_app, Hcount.
  destruct (decide (label ∈ labels)) as [Hin|Hnotin].
  - apply Hlabels in Hin.
    destruct (Hcombos label) as (Hcc & _ & _).
    rewrite decide_False in Hcc by lia. rewrite Hcc. simpl. lia.
  - rewrite Hlabels in Hnotin. lia.
Qed.

(** With sizes [_pick_total_size] accepts the batch is returned. *)
Lemma generate_batch_spec (count ms : Z) :
  sizes_ok log2f eng ->
  exists l1 extra,
    generate_batch log2f exp2f eng Random_of_seed count ms =
      Ok (fst (shuffle (l1 ++ extra) (Random_of_seed ms))) /\
    batch_spec count l1 extra.
Proof.
  intros Hsizes. by destruct (generate_batch_cases count ms) as [H|[H _]].
Qed.

(** Every batch that is returned is as above. *)
Lemma generate_batch_Ok (count ms : Z) (layouts : list ImageLayout) :
  generate_batch log2f exp2f eng Random_of_seed count ms = Ok layouts ->
  exists l1 extra,
    layouts = fst (shuffle (l1 ++ extra) (Random_of_seed ms)) /\
    batch_spec count l1 extra.
Proof.
  intros Hrun.
  destruct (generate_batch_cases count ms)
    as [(l1 & extra & Hl & Hspec)|(_ & e & He)]; [|congruence].
  exists l1, extra. split; [congruence|done].
Qed.

End BatchSpec.

(** ** Worked instances *)

(** [math.log2] and [2 ** x] where they are exact: on powers of two and
    on integers. *)
Definition log2_exact (n : Z) : Q := inject_Z (Z.log2 n).
Definition exp2_exact (x : Q) : Q := inject_Z (2 ^ Qfloor x).

(** A generator for the instances: the seed, then a fixed tail. *)
Definition example_Random (seed : Z) : Random :=
  seed :: [3; 2 ^ 53 - 1; 0; 2 ^ 52; 0; 0; 2 ^ 52].

Definition example_index : BlobIndex :=
  <["thumb" :=
      [mkBlobInfo "objects/thumb/thumbv7m-none-eabi/O2/a.bin" "thumb"
         "thumbv7m-none-eabi" "O2" "a" 62]]>
  (<["arm32" :=
       [mkBlobInfo "objects/arm32/arm-unknown-linux-gnueabi/O2/b.bin" "arm32"
          "arm-unknown-linux-gnueabi" "O2" "b" 100]]> ∅).

Definition example_config : FirmwareGenConfig :=
  mkConfig 7 1 256 256 (3 # 20) 8 None 2.

Definition example_engine : LayoutEngine :=
  mkLayoutEngine example_index example_config
    [("arm32", inject_Z 1); ("thumb", inject_Z 1)].

Lemma example_engine_init :
  LayoutEngine_init example_index example_config = Ok example_engine.
Proof. vm_compute. reflexivity. Qed.

(** ** The batch: size, quotas and the combination floor *)

(** The families of the database for which the index holds blobs. *)
Definition families_with_blobs (idx : BlobIndex) : list string :=
  filter (fun fam => 0 < blob_count idx fam) family_names.

Lemma families_with_blobs_length (idx : BlobIndex) (cfg : FirmwareGenConfig)
  (eng : LayoutEngine) :
  LayoutEngine_init idx cfg = Ok eng ->
  length (families_with_blobs idx) = length (family_weights eng).
Proof.
  intros (_ & _ & (_ & Hnd & _) & Hiff)%LayoutEngine_init_spec.
  rewrite <- (length_fmap fst (family_weights eng)).
  apply Permutation_length, NoDup_Permutation.
  - apply NoDup_filter, family_names_NoDup.
  - done.
  - intros fam. unfold families_with_blobs.
    rewrite list_elem_of_filter, Hiff. tauto.
Qed.

(** A configuration whose [min_size] is 0, on the blobs of the instance
    above, and its engine. *)
Definition zero_size_config : FirmwareGenConfig :=
  mkConfig 7 1 0 256 (3 # 20) 8 None 2.

Definition zero_size_engine : LayoutEngine :=
  mkLayoutEngine example_index zero_size_config
    [("arm32", inject_Z 1); ("thumb", inject_Z 1)].

(** C10, as stated, fails: with [min_size = 0] the engine is built, and
    [generate_batch] raises the ValueError of [math.log2(0)] on its first
    layout, so that no batch is returned. *)
Theorem generate_batch_raises_on_zero_size :
  LayoutEngine_init example_index zero_size_config = Ok zero_size_engine /\
  generate_batch log2_exact exp2_exact zero_size_engine example_Random 1 7
  = Raised "ValueError".
Proof. split; vm_compute; reflexivity. Qed.

(** A family outside the ISA database gets no layout, with blobs or
    without: the primaries of a batch are families of the database. *)
Lemma generate_batch_primaries (log2f : Z -> Q) (exp2f : Q -> Q)
  (Random_of_seed : Z -> Random) (idx : BlobIndex) (cfg : FirmwareGenConfig)
  (eng : LayoutEngine) (count master_seed : Z)
  (layouts : list ImageLayout) :
  LayoutEngine_init idx cfg = Ok eng ->
  generate_batch log2f exp2f eng Random_of_seed count master_seed
    = Ok layouts ->
  Forall (fun l => Forall (fun f => f ∈ family_names) (all_isa_families l))
    layouts.
Proof.
  intros Hinit Hrun.
  destruct (LayoutEngine_init_spec idx cfg eng Hinit)
    as (Hidx & Hcfg & Heng & Hiff).
  destruct (generate_batch_Ok log2f exp2f eng Random_of_seed Heng count
              master_seed layouts Hrun)
    as (l1 & extra & -> & Hall & _).
  rewrite shuffle_Permutation.
  eapply Forall_impl; [exact Hall|]. by intros l (_ & _ & Hn & _).
Qed.

(** C10: with sizes [_pick_total_size] accepts and [count >= 1] the
    batch is returned, has at least [count] layouts and at least one
    layout with each family of the database that has blobs as its
    primary; when [count] is smaller than the number of these families,
    the batch is strictly longer than [count]. *)
Theorem generate_batch_at_least_count (log2f : Z -> Q) (exp2f : Q -> Q)
  (Random_of_seed : Z -> Random) (idx : BlobIndex) (cfg : FirmwareGenConfig)
  (eng : LayoutEngine) (count master_seed : Z) :
  LayoutEngine_init idx cfg = Ok eng ->
  sizes_ok log2f eng ->
  1 <= count ->
  exists layouts,
    generate_batch log2f exp2f eng Random_of_seed count master_seed
      = Ok layouts /\
    count <= Z.of_nat (length layouts) /\
    (forall fam, fam ∈ family_names -> 0 < blob_count idx fam ->
                 exists l, l ∈ layouts /\ primary_isa l = fam) /\
    (count < Z.of_nat (length (families_with_blobs idx)) ->
     count < Z.of_nat (length layouts)).
Proof.
  intros Hinit Hsizes Hcount.
  pose proof (families_with_blobs_length idx cfg eng Hinit) as Hfwb.
  destruct (LayoutEngine_init_spec idx cfg eng Hinit)
    as (Hidx & Hcfg & Heng & Hiff).
  destruct (generate_batch_spec log2f exp2f eng Random_of_seed Heng count
              master_seed Hsizes)
    as (l1 & extra & -> & _ & Hlen & Hfams & Hex & _).
  eexists. split; [reflexivity|].
  pose proof (shuffle_Permutation (l1 ++ extra) (Random_of_seed master_seed))
    as Hperm.
  rewrite Hperm, length_app, Hfwb. split; [lia|]. split; [|lia].
  intros fam Hn Hb.
  destruct (Hex fam) as (l & Hl & Hp); [by apply Hiff|].
  exists l. split; [|done]. rewrite Hperm. apply elem_of_app. by left.
Qed.

Lemma generate_batch_at_least_count_witness :
  exists layouts,
    generate_batch log2_exact exp2_exact example_engine example_Random 1 7
      = Ok layouts /\
    1 <= Z.of_nat (length layouts) /\
    (forall fam, fam ∈ family_names -> 0 < blob_count example_index fam ->
                 exists l, l ∈ layouts /\ primary_isa l = fam) /\
    (1 < Z.of_nat (length (families_with_blobs example_index)) ->
     1 < Z.of_nat (length layouts)).
Proof.
  apply (generate_batch_at_least_count log2_exact exp2_exact example_Random
           example_index example_config example_engine 1 7).
  - vm_compute. reflexivity.
  - by vm_compute.
  - lia.
Defined.

(** C7: in every batch [generate_batch] returns, each label that occurs
    is the label of at least [min_images_per_combo] layouts. *)
Theorem generate_batch_combo_floor (log2f : Z -> Q) (exp2f : Q -> Q)
  (Random_of_seed : Z -> Random) (idx : BlobIndex) (cfg : FirmwareGenConfig)
  (eng : LayoutEngine) (count master_seed : Z)
  (layouts : list ImageLayout) :
  LayoutEngine_init idx cfg = Ok eng ->
  generate_batch log2f exp2f eng Random_of_seed count master_seed
    = Ok layouts ->
  forall l, l ∈ layouts ->
    min_images_per_combo cfg
    <= Z.of_nat (label_count (isa_label l) layouts).
Proof.
  intros Hinit Hrun.
  destruct (LayoutEngine_init_spec idx cfg eng Hinit)
    as (Hidx & Hcfg & Heng & Hiff).
  destruct (generate_batch_Ok log2f exp2f eng Random_of_seed Heng count
              master_seed layouts Hrun)
    as (l1 & extra & -> & _ & _ & _ & _ & Hfloor).
  pose proof (shuffle_Permutation (l1 ++ extra) (Random_of_seed master_seed))
    as Hperm.
  intros l Hl. rewrite (label_count_Permutation _ _ _ Hperm).
  rewrite <- Hcfg. apply Hfloor. apply label_count_pos.
  exists l. split; [|done]. by rewrite <- Hperm.
Qed.

Lemma generate_batch_combo_floor_witness :
  exists layouts,
    generate_batch log2_exact exp2_exact example_engine example_Random 1 7
      = Ok layouts /\
    forall l, l ∈ layouts ->
      min_images_per_combo example_config
      <= Z.of_nat (label_count (isa_label l) layouts).
Proof.
  eexists. split; [vm_compute; reflexivity|].
  apply (generate_batch_combo_floor log2_exact exp2_exact example_Random
           example_index example_config example_engine 1 7).
  - vm_compute. reflexivity.
  - vm_compute. reflexivity.
Defined.

(** ** Tiling: where the layout runs past [total_size] *)

(** The generator outputs of the run below, in the order they are drawn:
    - 1: header [choice] over thumb's [vector_table_cortexm; bare], index 1;
    - 2^53-1: trailer, [random()] close to 1, so [none];
    - 0: [uniform(log2 256, log2 256)], total size 256;
    - 2^52+2^46: [random()] = 0.5078125, code fraction 0.503125,
      code budget [int(256 * 0.503125)] = 128, non-code budget 128;
    - 0, 0: thumb blob (62 bytes), multiplier 1: Code at 0, size 62;
    - 0: [random()] = 0 < 0.3, a non-code section follows;
    - 2^52+2^51: [random()] = 0.75, weight 75 of 100: Random;
    - 96: [randint(32, 128)] = 128, the whole non-code budget, at 62;
    - 0, 0: arm32 blob (100 bytes), multiplier 1: the cursor 190 is
      aligned up to 192 by a 2-byte Padding, the Code section takes the
      66 bytes left of the code budget and ends at 258;
    - 0: [random()] = 0, but the non-code budget is spent. *)
Definition overshoot_draws : Random :=
  [1; 2 ^ 53 - 1; 0; 2 ^ 52 + 2 ^ 46; 0; 0; 0; 2 ^ 52 + 2 ^ 51; 96; 0; 0; 0].

(** C2: [generate_layout] on the blobs thumb (62 bytes) and arm32
    (100 bytes), sizes 256..256, primary thumb with secondary arm32 and
    the draws above returns a layout of [total_size] 256 whose sections
    are contiguous from 0 but end at 258: the alignment padding before the
    second Code section is taken from no budget. *)
Theorem generate_layout_overshoot :
  exists l,
    generate_layout log2_exact exp2_exact example_engine overshoot_draws 0
      (Some "thumb") (Some ["arm32"]) = Ok l /\
    total_size l = 256 /\
    fmap (fun s => (offset s, sec_size s, section_type s)) (sections l) =
      [(0, 62, CODE); (62, 128, RANDOM); (190, 2, PADDING); (192, 66, CODE)] /\
    contiguous_from 0 (sections l) = Some 258 /\
    ~ tiles_exactly l.
Proof.
  eexists. split; [vm_compute; reflexivity|].
  split; [reflexivity|]. split; [reflexivity|]. split; [reflexivity|].
  intros [_ H]. vm_compute in H. discriminate.
Qed.

(** The same layout as phase 1 of [generate_batch] asks for it: no forced
    secondaries; the first three draws make the image multi-ISA
    ([random()] = 0 < 0.15), ask for one secondary and pick arm32. *)
Lemma generate_layout_overshoot_unforced :
  exists l,
    generate_layout log2_exact exp2_exact example_engine
      (0 :: 0 :: 0 :: overshoot_draws) 0 (Some "thumb") None = Ok l /\
    total_size l = 256 /\ all_isa_families l = ["thumb"; "arm32"] /\
    contiguous_from 0 (sections l) = Some 258.
Proof. eexists. split; [vm_compute; reflexivity|]. by repeat split. Qed.

(** What does hold of every layout: the sections are contiguous from
    offset 0, of positive sizes, and end at or after [total_size]. *)
Lemma generate_layout_contiguous (log2f : Z -> Q) (exp2f : Q -> Q)
  (eng : LayoutEngine) (rng : Random) (seq : Z) (p : string)
  (forced : option (list string)) (l : ImageLayout) :
  generate_layout log2f exp2f eng rng seq (Some p) forced = Ok l ->
  exists e, contiguous_from 0 (sections l) = Some e /\ total_size l <= e.
Proof.
  intros Hl.
  destruct (generate_layout_Ok log2f exp2f eng rng seq p forced l Hl)
    as ([_ (e & He & Hle) _] & _).
  by exists e.
Qed.

(** ** The padding before a Code section *)






Section LayoutPadding.

Variable log2f : Z -> Q.
Variable exp2f : Q -> Q.
Variable eng : LayoutEngine.






End LayoutPadding.

(** ** The layouts of a batch are layouts of [generate_layout] *)

Section BatchLayouts.

Variable log2f : Z -> Q.
Variable exp2f : Q -> Q.
Variable eng : LayoutEngine.
Variable Random_of_seed : Z -> Random.






End BatchLayouts.







(** ** A forced family without blobs *)

Definition arm32_only_index : BlobIndex :=
  {["arm32" :=
      [mkBlobInfo "objects/arm32/arm-unknown-linux-gnueabi/O2/b.bin" "arm32"
         "arm-unknown-linux-gnueabi" "O2" "b" 100]]}.

Definition arm32_only_engine : LayoutEngine :=
  mkLayoutEngine arm32_only_index example_config [("arm32", inject_Z 1)].




(** ** [struct.pack] *)

Lemma to_bytes_le_length (n : nat) (v : Z) : length (to_bytes_le n v) = n.
Proof. revert v. induction n as [|n IH]; intros v; simpl; [done|]. by rewrite IH. Qed.

Lemma to_bytes_be_length (n : nat) (v : Z) : length (to_bytes_be n v) = n.
Proof. unfold to_bytes_be. by rewrite length_reverse, to_bytes_le_length. Qed.

Lemma from_to_bytes_le (n : nat) (v : Z) :
  from_bytes_le (to_bytes_le n v) = v mod 256 ^ Z.of_nat n.
Proof.
  revert v. induction n as [|n IH]; intros v.
  - simpl. by rewrite Z.mod_1_r.
  - change (from_bytes_le (to_bytes_le (S n) v))
      with (v mod 256 + 256 * from_bytes_le (to_bytes_le n (v / 256))).
    rewrite IH, Nat2Z.inj_succ, Z.pow_succ_r by lia.
    rewrite Z.rem_mul_r by lia. lia.
Qed.

Lemma from_to_bytes_be (n : nat) (v : Z) :
  from_bytes_be (to_bytes_be n v) = v mod 256 ^ Z.of_nat n.
Proof.
  unfold from_bytes_be, to_bytes_be.
  by rewrite reverse_involutive, from_to_bytes_le.
Qed.

Lemma pack_uint_Ok (little : bool) (n : nat) (v : Z) :
  0 <= v < 256 ^ Z.of_nat n ->
  pack_uint little n v =
  Ok (if little then to_bytes_le n v else to_bytes_be n v).
Proof.
  intros [Hlo Hhi]. unfold pack_uint.
  destruct (Z.leb_spec 0 v); [|lia].
  destruct (Z.ltb_spec v (256 ^ Z.of_nat n)); [done|lia].
Qed.

Lemma pack_uint_inv (little : bool) (n : nat) (v : Z) (b : list Z) :
  pack_uint little n v = Ok b ->
  0 <= v < 256 ^ Z.of_nat n /\
  b = (if little then to_bytes_le n v else to_bytes_be n v).
Proof.
  unfold pack_uint.
  destruct (Z.leb_spec 0 v); [|done].
  destruct (Z.ltb_spec v (256 ^ Z.of_nat n)); [|done]. simpl.
  intros [= <-]. split; [lia|done].
Qed.

Lemma pack_uints_Ok (little : bool) (n : nat) (vs : list Z) :
  Forall (fun v => 0 <= v < 256 ^ Z.of_nat n) vs ->
  pack_uints little n vs =
  Ok (concat (fmap (fun v => if little then to_bytes_le n v
                             else to_bytes_be n v) vs)).
Proof.
  induction 1 as [|v vs Hv Hvs IH]; [done|].
  cbn [pack_uints]. rewrite (pack_uint_Ok little n v Hv). cbn.
  rewrite IH. done.
Qed.

Lemma pack_uints_inv (little : bool) (n : nat) (vs : list Z) (data : list Z) :
  pack_uints little n vs = Ok data ->
  Forall (fun v => 0 <= v < 256 ^ Z.of_nat n) vs /\
  data = concat (fmap (fun v => if little then to_bytes_le n v
                                else to_bytes_be n v) vs).
Proof.
  revert data. induction vs as [|v vs IH]; intros data.
  - intros [= <-]. by split.
  - cbn [pack_uints].
    destruct (pack_uint little n v) as [b|e] eqn:Hb; [|done]. cbn.
    destruct (pack_uints little n vs) as [bs|e] eqn:Hbs; [|done]. cbn.
    intros [= <-].
    apply pack_uint_inv in Hb as [Hv ->].
    destruct (IH bs eq_refl) as [Hvs ->]. split; [|done].
    by apply Forall_cons.
Qed.

Lemma land_mask32 (x : Z) : Z.land x 0xFFFFFFFF = x mod 2 ^ 32.
Proof. change 0xFFFFFFFF with (Z.ones 32). apply Z.land_ones. lia. Qed.

Lemma lor_1_odd (x : Z) : Z.odd (Z.lor x 1 mod 256) = true.
Proof.
  rewrite <- Z.bit0_odd. change 256 with (2 ^ 8).
  rewrite Z.mod_pow2_bits_low by lia.
  rewrite Z.lor_spec. change (Z.testbit 1 0) with true.
  apply orb_true_r.
Qed.

Lemma lor_1_cases (x : Z) : Z.lor x 1 = x \/ Z.lor x 1 = x + 1.
Proof.
  destruct (Z.odd x) eqn:Hodd.
  - left. apply Z.bits_inj'. intros i Hi. rewrite Z.lor_spec.
    destruct (decide (i = 0)) as [->|Hne].
    + by rewrite Z.bit0_odd, Hodd.
    + rewrite (Z.bits_above_log2 1 i) by (simpl; lia). apply orb_false_r.
  - right. rewrite <- Z.add_nocarry_lor; [done|].
    apply Z.bits_inj'. intros i Hi. rewrite Z.land_spec, Z.bits_0.
    destruct (decide (i = 0)) as [->|Hne].
    + by rewrite Z.bit0_odd, Hodd.
    + rewrite (Z.bits_above_log2 1 i) by (simpl; lia). apply andb_false_r.
Qed.

(** ** The Cortex-M vector table *)

Lemma cortexm_handlers_spec (n : nat) (base : Z) (rng : Random) :
  length (fst (cortexm_handlers n base rng)) = n /\
  Forall (fun h => base <= h <= base + 0x1001)
    (fst (cortexm_handlers n base rng)).
Proof.
  revert rng. induction n as [|n IH]; intros rng; simpl; [done|].
  pose proof (randint_range 0 0x1000 rng ltac:(lia)) as Hr.
  destruct (randint 0 0x1000 rng) as [r rng1]. simpl in Hr.
  destruct (IH rng1) as [Hlen Hall].
  destruct (cortexm_handlers n base rng1) as [rest rng2]. simpl in *.
  split; [by rewrite Hlen|]. apply Forall_cons. split; [|done].
  destruct (lor_1_cases (base + r)) as [-> | ->]; lia.
Qed.

Lemma slice_middle (a b r : list Z) :
  slice (a ++ b ++ r) (Z.of_nat (length a))
    (Z.of_nat (length a) + Z.of_nat (length b)) = b.
Proof.
  unfold slice, slice_index. rewrite !length_app.
  destruct (Z.ltb_spec (Z.of_nat (length a)) 0); [lia|].
  destruct (Z.ltb_spec (Z.of_nat (length a) + Z.of_nat (length b)) 0); [lia|].
  rewrite !Z.min_l, Z.max_r by lia.
  rewrite Nat2Z.id, drop_app_length.
  replace (Z.to_nat _) with (length b) by lia.
  by rewrite take_app_length.
Qed.

Lemma slice_front (b r : list Z) :
  slice (b ++ r) 0 (Z.of_nat (length b)) = b.
Proof. apply (slice_middle [] b r). Qed.

Lemma concat_words_length (n : nat) (f : Z -> list Z) (vs : list Z) :
  (forall v, length (f v) = n) ->
  length (concat (fmap f vs)) = (n * length vs)%nat.
Proof.
  intros Hf. induction vs as [|v vs IH]; [simpl; lia|].
  rewrite fmap_cons. cbn [concat]. rewrite length_app, Hf, IH. simpl. lia.
Qed.

(** C5: a header of [vector_table_cortexm] is N little-endian 32-bit
    words with N one of 16, 32, 48, 64; the word at offset 0 is one of the
    four initial stack pointers, the word at offset 4 is
    [(base_addr + 4 N) | 1], and the byte at offset 4 is odd.  The
    generator returns whenever the addresses fit 32 bits. *)
Theorem vector_table_cortexm_layout (endianness : string) (rng : Random)
  (now : Z) (args : HeaderArgs) :
  (forall h rng',
     vector_table_cortexm endianness rng now args = Ok (h, rng') ->
     exists N words sp,
       N ∈ [16; 32; 48; 64] /\
       Z.of_nat (length words) = N /\
       Forall (fun w => 0 <= w < 2 ^ 32) words /\
       hdr_data h = concat (fmap (to_bytes_le 4) words) /\
       Z.of_nat (length (hdr_data h)) = 4 * N /\
       sp ∈ [0x20005000; 0x20010000; 0x20020000; 0x20040000] /\
       from_bytes_le (slice (hdr_data h) 0 4) = sp /\
       from_bytes_le (slice (hdr_data h) 4 8)
         = Z.lor (arg_base_addr args + N * 4) 1 /\
       exists b, hdr_data h !! 4%nat = Some b /\ Z.odd b = true) /\
  (0 <= arg_base_addr args -> arg_base_addr args + 0x1101 < 2 ^ 32 ->
   exists h rng', vector_table_cortexm endianness rng now args = Ok (h, rng')).
Proof.
  unfold vector_table_cortexm.
  pose proof (choice_elem_of 16 [16; 32; 48; 64] rng ltac:(done)) as HN.
  destruct (choice 16 [16; 32; 48; 64] rng) as [N rng1]. simpl in HN.
  pose proof (choice_elem_of 0x20005000
                [0x20005000; 0x20010000; 0x20020000; 0x20040000] rng1
                ltac:(done)) as Hsp.
  destruct (choice 0x20005000 _ rng1) as [sp rng2]. simpl in Hsp.
  assert (16 <= N <= 64) as HNr.
  { repeat (apply elem_of_cons in HN as [->|HN]; [lia|]).
    by apply elem_of_nil in HN. }
  assert (0x20005000 <= sp <= 0x20040000) as Hspr.
  { repeat (apply elem_of_cons in Hsp as [->|Hsp]; [lia|]).
    by apply elem_of_nil in Hsp. }
  destruct (cortexm_handlers_spec (Z.to_nat (N - 2))
              (arg_base_addr args + N * 4) rng2) as [Hlen Hrange].
  destruct (cortexm_handlers _ _ rng2) as [handlers rng3].
  simpl in Hlen, Hrange.
  set (reset := Z.lor (arg_base_addr args + N * 4) 1) in *.
  split.
  - intros h rng'.
    destruct (pack_uints true 4 (sp :: reset :: handlers)) as [data|e]
      eqn:Hpack; cbn; [|done].
    intros [= <- <-]. simpl.
    apply pack_uints_inv in Hpack as [Hall ->].
    exists N, (sp :: reset :: handlers), sp.
    split; [done|]. split; [simpl; lia|]. split; [exact Hall|].
    split; [done|].
    apply Forall_cons in Hall as [Hsp32 Hall].
    apply Forall_cons in Hall as [Hreset32 _].
    split.
    { rewrite (concat_words_length 4 (to_bytes_le 4))
        by apply to_bytes_le_length.
      simpl. lia. }
    split; [done|]. cbn [fmap list_fmap concat].
    split; [|split].
    + rewrite (slice_front (to_bytes_le 4 sp)), from_to_bytes_le.
      apply Z.mod_small. exact Hsp32.
    + rewrite (slice_middle (to_bytes_le 4 sp) (to_bytes_le 4 reset)),
        from_to_bytes_le.
      apply Z.mod_small. exact Hreset32.
    + exists (reset mod 256). split; [done|]. apply lor_1_odd.
  - intros Hbase Hfit.
    rewrite pack_uints_Ok; [cbn; by eexists _, _|].
    apply Forall_cons. split; [lia|].
    apply Forall_cons. split.
    + unfold reset.
      destruct (lor_1_cases (arg_base_addr args + N * 4)) as [-> | ->]; lia.
    + eapply Forall_impl; [exact Hrange|]. simpl. intros w Hw. lia.
Qed.

Lemma vector_table_cortexm_layout_witness :
  exists h rng',
    vector_table_cortexm "little" [0; 1; 5; 6] 0
      (mkHeaderArgs 4096 0x08000000 "thumb") = Ok (h, rng').
Proof.
  apply (proj2 (vector_table_cortexm_layout "little" [0; 1; 5; 6] 0
                  (mkHeaderArgs 4096 0x08000000 "thumb"))); simpl; lia.
Defined.

(** ** The U-Boot header *)

Lemma ljust_length (n : nat) (bs : list Z) :
  length (ljust n bs) = Nat.max n (length bs).
Proof. unfold ljust. rewrite length_app, length_replicate. lia. Qed.

Lemma mod32_range (x : Z) : 0 <= x mod 2 ^ 32 < 256 ^ Z.of_nat 4.
Proof. change (256 ^ Z.of_nat 4) with (2 ^ 32). apply Z.mod_pos_bound. lia. Qed.

Lemma uboot_arch_range (fam : string) :
  0 <= default 0 (dict_get uboot_arch_map fam) < 256.
Proof.
  destruct (dict_get uboot_arch_map fam) as [v|] eqn:Hget; simpl; [|lia].
  apply dict_get_elem_of in Hget.
  assert (Forall (fun kv : string * Z => 0 <= snd kv < 256) uboot_arch_map)
    as Hall by (apply (bool_decide_unpack _); by vm_compute).
  rewrite Forall_forall in Hall. apply (Hall _ Hget).
Qed.

Lemma slice_field (pre b post : list Z) (i j : Z) :
  Z.of_nat (length pre) = i -> i + Z.of_nat (length b) = j ->
  slice (pre ++ b ++ post) i j = b.
Proof. intros <- <-. apply slice_middle. Qed.

(** C4, amended: the generator always returns a 64-byte header whose
    bytes 0..4 are the magic 0x27051956, whose bytes 12..16 are the data
    size [max(0, total_size - 64)] on 32 bits, and whose bytes 16..20 are
    the load address [base_addr] on 32 bits, all big-endian. *)
Theorem uboot_header_fields (endianness : string) (rng : Random) (now : Z)
  (args : HeaderArgs) :
  exists h rng',
    uboot endianness rng now args = Ok (h, rng') /\
    length (hdr_data h) = 64%nat /\
    from_bytes_be (slice (hdr_data h) 0 4) = 0x27051956 /\
    from_bytes_be (slice (hdr_data h) 12 16)
      = Z.max 0 (arg_total_size args - 64) mod 2 ^ 32 /\
    from_bytes_be (slice (hdr_data h) 16 20) = arg_base_addr args mod 2 ^ 32.
Proof.
  unfold uboot.
  destruct (randint 0 (365 * 24 * 3600) rng) as [r rng1].
  pose proof (choice_elem_of 5 [5; 17; 20] rng1 ltac:(done)) as Hos.
  destruct (choice 5 [5; 17; 20] rng1) as [os_type rng2]. simpl in Hos.
  pose proof (choice_elem_of 2 [2; 5] rng2 ltac:(done)) as Himg.
  destruct (choice 2 [2; 5] rng2) as [img_type rng3]. simpl in Himg.
  pose proof (choice_elem_of 0 [0; 1; 2; 3] rng3 ltac:(done)) as Hcomp.
  destruct (choice 0 [0; 1; 2; 3] rng3) as [comp rng4]. simpl in Hcomp.
  destruct (choice [] uboot_names rng4) as [name rng5].
  pose proof (uboot_arch_range (arg_family_name args)) as Harch.
  set (arch := default 0 (dict_get uboot_arch_map (arg_family_name args)))
    in *.
  rewrite !land_mask32.
  set (ts := (now - r) mod 2 ^ 32).
  set (dsz := Z.max 0 (arg_total_size args - 64) mod 2 ^ 32).
  set (la := arg_base_addr args mod 2 ^ 32).
  rewrite (pack_uints_Ok false 4 [0x27051956; 0; ts; dsz; la; la; 0]).
  2:{ repeat (apply Forall_cons; split;
              [first [apply mod32_range | simpl; lia]|]).
      apply Forall_nil_2. }
  cbn [mbind result_bind rbind].
  rewrite (pack_uints_Ok false 1 [os_type; arch; img_type; comp]).
  2:{ repeat (apply Forall_cons; split; [|]); try apply Forall_nil_2.
      - repeat (apply elem_of_cons in Hos as [->|Hos]; [simpl; lia|]).
        by apply elem_of_nil in Hos.
      - simpl. lia.
      - repeat (apply elem_of_cons in Himg as [->|Himg]; [simpl; lia|]).
        by apply elem_of_nil in Himg.
      - repeat (apply elem_of_cons in Hcomp as [->|Hcomp]; [simpl; lia|]).
        by apply elem_of_nil in Hcomp. }
  cbn [mbind result_bind rbind fmap list_fmap concat].
  rewrite app_nil_r.
  set (codes := to_bytes_be 1 os_type ++ _).
  set (name_padded := ljust 32 (take 32 name)).
  assert (length codes = 4%nat) as Hcodes.
  { subst codes. by rewrite !length_app, !to_bytes_be_length. }
  assert (length name_padded = 32%nat) as Hname.
  { subst name_padded. rewrite ljust_length, length_take. lia. }
  rewrite <- !app_assoc.
  rewrite (take_app_length' (to_bytes_be 4 0x27051956))
    by by rewrite to_bytes_be_length.
  rewrite (app_assoc (to_bytes_be 4 0x27051956) (to_bytes_be 4 0)).
  rewrite (drop_app_length' (to_bytes_be 4 0x27051956 ++ to_bytes_be 4 0))
    by by rewrite length_app, !to_bytes_be_length.
  rewrite !land_mask32.
  rewrite pack_uint_Ok by apply mod32_range.
  cbn [mbind result_bind rbind].
  set (crc := crc32 _ mod 2 ^ 32).
  eexists _, _. split; [reflexivity|]. cbn [hdr_data].
  split.
  { rewrite !length_app, !to_bytes_be_length, Hcodes, Hname. done. }
  split; [|split].
  - rewrite (slice_front (to_bytes_be 4 0x27051956)). reflexivity.
  - match goal with |- context [slice ?h 12 16] =>
      assert (exists post,
                h = (to_bytes_be 4 0x27051956 ++ to_bytes_be 4 crc
                     ++ to_bytes_be 4 ts) ++ to_bytes_be 4 dsz ++ post)
        as [post ->] by (eexists; rewrite <- !app_assoc; reflexivity)
    end.
    rewrite (slice_field _ (to_bytes_be 4 dsz) post 12 16), from_to_bytes_be.
    + apply Z.mod_small. subst dsz. apply (mod32_range _).
    + by rewrite !length_app, !to_bytes_be_length.
    + by rewrite to_bytes_be_length.
  - match goal with |- context [slice ?h 16 20] =>
      assert (exists post,
                h = (to_bytes_be 4 0x27051956 ++ to_bytes_be 4 crc
                     ++ to_bytes_be 4 ts ++ to_bytes_be 4 dsz)
                    ++ to_bytes_be 4 la ++ post)
        as [post ->] by (eexists; rewrite <- !app_assoc; reflexivity)
    end.
    rewrite (slice_field _ (to_bytes_be 4 la) post 16 20), from_to_bytes_be.
    + apply Z.mod_small. subst la. apply (mod32_range _).
    + by rewrite !length_app, !to_bytes_be_length.
    + by rewrite to_bytes_be_length.
Qed.

(** C4, as stated, fails: for an arm32 image of 4096 bytes the bytes
    16..20 of the U-Boot header read 0, the load address, not
    [total_size - 64] = 4032, which stands in the bytes 12..16. *)
Lemma uboot_bytes_16_20_not_data_size :
  exists h rng',
    uboot "little" [0; 0; 0; 0; 0] 1000000000 (mkHeaderArgs 4096 0 "arm32")
      = Ok (h, rng') /\
    from_bytes_be (slice (hdr_data h) 0 4) = 0x27051956 /\
    from_bytes_be (slice (hdr_data h) 12 16) = 4096 - 64 /\
    from_bytes_be (slice (hdr_data h) 16 20) = 0 /\
    from_bytes_be (slice (hdr_data h) 16 20) <> 4096 - 64.
Proof.
  eexists _, _. split; [vm_compute; reflexivity|].
  split; [reflexivity|]. split; [reflexivity|]. split; [reflexivity|].
  vm_compute. discriminate.
Qed.

(** ** The trailer of an image that outgrew [total_size] *)

Definition x86_arm_index : BlobIndex :=
  <["x86_64" :=
      [mkBlobInfo "objects/x86_64/x86_64-unknown-linux-gnu/O2/c.bin" "x86_64"
         "x86_64-unknown-linux-gnu" "O2" "c" 65]]>
  (<["arm32" :=
       [mkBlobInfo "objects/arm32/arm-unknown-linux-gnueabi/O2/b.bin" "arm32"
          "arm-unknown-linux-gnueabi" "O2" "b" 100]]> ∅).

Definition x86_arm_config : FirmwareGenConfig :=
  mkConfig 7 1 1024 1024 (3 # 20) 8 None 1.

Definition x86_arm_engine : LayoutEngine :=
  mkLayoutEngine x86_arm_index x86_arm_config
    [("arm32", inject_Z 1); ("x86_64", inject_Z 1)].

(** The files of the two blobs: 65 bytes [0x90] and 100 bytes [0xE1]. *)
Definition x86_arm_tree : FileTree :=
  mkFileTree
    [["x86_64"]; ["x86_64"; "x86_64-unknown-linux-gnu"];
     ["x86_64"; "x86_64-unknown-linux-gnu"; "O2"];
     ["arm32"]; ["arm32"; "arm-unknown-linux-gnueabi"];
     ["arm32"; "arm-unknown-linux-gnueabi"; "O2"]]
    [(["arm32"; "arm-unknown-linux-gnueabi"; "O2"; "b.bin"],
      replicate 100 0xE1);
     (["x86_64"; "x86_64-unknown-linux-gnu"; "O2"; "c.bin"],
      replicate 65 0x90)].

(** The generator outputs of the layout below, in the order drawn:
    - 3: header [choice] over x86_64's four types, index 3: [bare];
    - 0: trailer, [random()] = 0: [crc32];
    - 0: total size 1024, so 1020 bytes are usable;
    - 11 * 2^48: [random()] = 0.34375, code fraction 0.4375, code budget
      [int(446.25)] = 446, non-code budget 574;
    - 0, 0, 2^52: x86_64 blob (65 bytes), multiplier 1: Code at 0, size
      65; [random()] = 0.5, no non-code section;
    - 0, 0, 0: arm32 blob (100 bytes), multiplier 1: Padding 65..68, Code
      at 68, size 100; [random()] = 0, a non-code section follows;
    - 2^52+2^51, 542: Random, [randint(32, 574)] = 574, at 168..742;
    - 0, 4, 0: x86_64 blob, multiplier 3: Code at 742, size 195;
    - 0, 0, 0: arm32 blob, multiplier 1: Padding 937..940, Code at 940 of
      the 86 bytes left of the code budget, ending at 1026. *)
Definition outgrow_draws : Random :=
  [3; 0; 0; 11 * 2 ^ 48;
   0; 0; 2 ^ 52;
   0; 0; 0; 2 ^ 52 + 2 ^ 51; 542;
   0; 4; 0;
   0; 0; 0].

Definition outgrow_layout : ImageLayout :=
  match generate_layout log2_exact exp2_exact x86_arm_engine outgrow_draws 0
          (Some "x86_64") (Some ["arm32"]) with
  | Ok l => l
  | Raised _ => mkImageLayout "" 0 "" "" "" [] [] 0
  end.

Lemma outgrow_layout_sections :
  LayoutEngine_init x86_arm_index x86_arm_config = Ok x86_arm_engine /\
  generate_layout log2_exact exp2_exact x86_arm_engine outgrow_draws 0
    (Some "x86_64") (Some ["arm32"]) = Ok outgrow_layout /\
  total_size outgrow_layout = 1024 /\
  trailer_type outgrow_layout = "crc32" /\
  fmap (fun s => (offset s, sec_size s, section_type s))
    (sections outgrow_layout) =
    [(0, 65, CODE); (65, 3, PADDING); (68, 100, CODE); (168, 574, RANDOM);
     (742, 195, CODE); (937, 3, PADDING); (940, 86, CODE);
     (1026, 4, TRAILER)].
Proof. repeat split; vm_compute; reflexivity. Qed.

(** C3: assembled, that layout gives an image of 1026 bytes for a
    [total_size] of 1024: the last Code section is written past the end of
    the buffer, which grows.  The CRC is computed over [image[:1020]] and
    written at 1020..1024, so [image[total_size - 4:]] is six bytes long,
    and the last four bytes of the image are not the CRC of what precedes
    them. *)
Theorem trailer_roundtrip_fails_on_outgrown_image :
  exists out,
    generate_single_image x86_arm_tree "firmware" (mkClock 1000000000 5)
      example_Random outgrow_layout = Ok out /\
    let image := out_image_bytes out in
    let len := Z.of_nat (length image) in
    len = 1026 /\
    slice image (1024 - 4) 1024 = to_bytes_le 4 (crc32 (slice image 0 1020)) /\
    length (slice image (1024 - 4) len) = 6%nat /\
    slice image (1024 - 4) len <> to_bytes_le 4 (crc32 (slice image 0 1020)) /\
    slice image (len - 4) len
      <> to_bytes_le 4 (crc32 (slice image 0 (len - 4))).
Proof.
  eexists. split; [vm_compute; reflexivity|].
  cbv zeta. split; [reflexivity|]. split; [vm_compute; reflexivity|].
  split; [vm_compute; reflexivity|].
  split; vm_compute; discriminate.
Qed.

(** ** Two runs of the pipeline *)








(** The inputs of the two runs below: one arm32 blob, one image of 256
    bytes, and a generator whose outputs give that image the [uboot]
    header ([random()] = 0.5: no secondary; [choice] index 1 of arm32's
    header types). *)
Definition uboot_Random (seed : Z) : Random :=
  [2 ^ 52; 1; 2 ^ 53 - 1; 0; 2 ^ 52; 0; 0; 2 ^ 52].


Definition one_image_config : FirmwareGenConfig :=
  mkConfig 7 1 256 256 (3 # 20) 8 None 1.


(** ** What a section's step writes, and where *)

(** [frame a b img img']: going from [img] to [img'] the buffer did not
    shrink, kept its length if [b] is within it, and kept every byte it had
    outside [[a, b)]. *)
Definition frame (a b : Z) (img img' : list Z) : Prop :=
  (length img <= length img')%nat /\
  (b <= Z.of_nat (length img) -> length img' = length img) /\
  forall k : nat,
    (k < length img)%nat -> ~ (a <= Z.of_nat k < b) -> img' !! k = img !! k.

Lemma frame_refl (a b : Z) (img : list Z) : frame a b img img.
Proof. by repeat split. Qed.

Lemma frame_trans (a b a' b' c d : Z) (x y z : list Z) :
  frame a b x y -> frame a' b' y z ->
  c <= a -> c <= a' -> b <= d -> b' <= d ->
  frame c d x z.
Proof.
  intros (Hl1 & He1 & Hk1) (Hl2 & He2 & Hk2) Hca Hca' Hbd Hbd'.
  split; [lia|]. split.
  - intros Hd. rewrite He2, He1; lia.
  - intros k Hk Hout. rewrite Hk2, Hk1; [done|lia..].
Qed.

Lemma frame_weaken (a b c d : Z) (x y : list Z) :
  frame a b x y -> c <= a -> b <= d -> frame c d x y.
Proof.
  intros H Hc Hd.
  apply (frame_trans a b a b c d x y y); [done|apply frame_refl|lia..].
Qed.

Lemma slice_assign_frame (buf data : list Z) (i j : Z) :
  0 <= i <= j -> Z.of_nat (length data) = j - i ->
  frame i j buf (slice_assign buf i j data).
Proof.
  intros Hij Hdata. unfold slice_assign, slice_index.
  destruct (Z.ltb_spec i 0); [lia|]. destruct (Z.ltb_spec j 0); [lia|].
  set (len := Z.of_nat (length buf)).
  set (i' := Z.min i len). set (j' := Z.max i' (Z.min j len)).
  assert (length (take (Z.to_nat i') buf) = Z.to_nat i') as Htake.
  { rewrite length_take. lia. }
  split; [|split].
  - rewrite !length_app, Htake, length_drop. lia.
  - intros Hj. rewrite !length_app, Htake, length_drop. lia.
  - intros k Hk Hout.
    destruct (decide (Z.of_nat k < i)) as [Hlt|Hge].
    + rewrite lookup_app_l by lia. apply lookup_take_lt. lia.
    + assert (j <= Z.of_nat k) by lia.
      rewrite lookup_app_r by lia. rewrite lookup_app_r by lia.
      rewrite lookup_drop, Htake. f_equal. lia.
Qed.

Lemma slice_length (buf : list Z) (n : Z) :
  0 <= n <= Z.of_nat (length buf) ->
  Z.of_nat (length (slice buf 0 n)) = n.
Proof.
  intros Hn. unfold slice, slice_index.
  destruct (Z.ltb_spec n 0); [lia|]. cbn [Z.ltb Z.compare].
  rewrite length_take, length_drop. lia.
Qed.

Lemma slice_length_le (buf : list Z) (n : Z) :
  0 <= n -> Z.of_nat (length (slice buf 0 n)) <= n.
Proof.
  intros Hn. unfold slice, slice_index.
  destruct (Z.ltb_spec n 0); [lia|]. cbn [Z.ltb Z.compare].
  rewrite length_take, length_drop. lia.
Qed.

Lemma fill_code_frame (fuel : nat) (image code_data : list Z)
  (offset size written : Z) :
  0 <= offset -> 0 <= written ->
  frame offset (offset + size) image
    (fill_code fuel image code_data offset size written).
Proof.
  intros Ho. revert image written.
  induction fuel as [|fuel IH]; intros image written Hw; cbn [fill_code].
  { apply frame_refl. }
  destruct (Z.ltb_spec written size) as [Hlt|Hge]; [|apply frame_refl].
  pose proof (slice_length_le code_data (size - written) ltac:(lia)) as Hc.
  set (chunk := slice code_data 0 (size - written)) in *.
  eapply frame_trans.
  - apply (slice_assign_frame image chunk (offset + written)
             (offset + written + Z.of_nat (length chunk))); lia.
  - apply IH. lia.
  - lia.
  - lia.
  - lia.
  - lia.
Qed.

Lemma randbytes_length (n : nat) (rng : Random) :
  length (fst (randbytes n rng)) = n.
Proof.
  revert rng. induction n as [|n IH]; intros rng; cbn [randbytes]; [done|].
  destruct (randbelow 256 rng) as [b rng1].
  specialize (IH rng1). destruct (randbytes n rng1) as [bs rng2].
  cbn in *. by rewrite IH.
Qed.

Lemma STRING_POOL_nonempty : Forall (fun s => s <> []) STRING_POOL.
Proof.
  apply Forall_fmap, Forall_forall. intros s _. cbn. by destruct (bytes_of_string s).
Qed.

Lemma choice_STRING_POOL (rng : Random) :
  (1 <= length (fst (choice [] STRING_POOL rng)))%nat.
Proof.
  pose proof (choice_elem_of [] STRING_POOL rng ltac:(done)) as Hin.
  pose proof (proj1 (Forall_forall _ _) STRING_POOL_nonempty _ Hin) as Hne.
  destruct (fst (choice [] STRING_POOL rng)); [done|cbn; lia].
Qed.

Lemma string_table_fill_length (fuel : nat) (buf : list Z) (size : Z)
  (rng : Random) :
  size <= Z.of_nat (fuel + length buf) ->
  size <= Z.of_nat (length (fst (string_table_fill fuel buf size rng))).
Proof.
  revert buf rng. induction fuel as [|fuel IH]; intros buf rng Hf;
    cbn [string_table_fill]; [cbn; lia|].
  destruct (Z.ltb_spec (Z.of_nat (length buf)) size); [|cbn; lia].
  pose proof (choice_STRING_POOL rng) as Hs.
  destruct (choice [] STRING_POOL rng) as [s rng1]. cbn in Hs.
  apply IH. rewrite length_app. lia.
Qed.

Lemma rodata_fill_length (fuel : nat) (buf : list Z) (size : Z)
  (rng : Random) :
  size <= Z.of_nat (fuel + length buf) ->
  size <= Z.of_nat (length (fst (rodata_fill fuel buf size rng))).
Proof.
  revert buf rng. induction fuel as [|fuel IH]; intros buf rng Hf;
    cbn [rodata_fill]; [cbn; lia|].
  destruct (Z.ltb_spec (Z.of_nat (length buf)) size); [|cbn; lia].
  destruct (random rng) as [x rng0].
  destruct (Qltb x (1 # 2)).
  - pose proof (choice_STRING_POOL rng0) as Hs.
    destruct (choice [] STRING_POOL rng0) as [s rng1]. cbn in Hs.
    apply IH. rewrite length_app. lia.
  - destruct (randint 0 4294967295 rng0) as [val rng1].
    pose proof (randint_range 4 32 rng1 ltac:(lia)) as Hn.
    destruct (randint 4 32 rng1) as [n rng2]. cbn in Hn.
    apply IH. rewrite length_app.
    assert (1 <= length (concat (replicate (Z.to_nat n)
                                   (to_bytes_le 4 val))))%nat; [|lia].
    destruct (Z.to_nat n) eqn:Hz; [lia|]. cbn. lia.
Qed.

Lemma assemble_section_frame tree now layout st section st' :
  assemble_section tree now layout st section = Ok st' ->
  0 <= offset section -> 0 <= sec_size section ->
  frame (offset section) (offset section + sec_size section)
    (asm_image st) (asm_image st').
Proof.
  intros Hrun Ho Hs. unfold assemble_section in Hrun.
  destruct (section_type section).
  - (* header *)
    destruct (generate_header _ _ _ _ _) as [[res rng1]|e]; [|done].
    cbn in Hrun. injection Hrun as <-. cbn [asm_image].
    set (hd := hdr_data res).
    set (actual := Z.min (Z.of_nat (length hd)) (sec_size section)).
    eapply frame_weaken.
    + apply (slice_assign_frame _ _ (offset section)
               (offset section + actual)); [lia|].
      rewrite slice_length; lia.
    + lia.
    + lia.
  - (* code *)
    destruct (isa_family section) as [fam|]; [|done].
    destruct (if path_exists tree _ then _ else _) as [[[[cd t] p] c]|e];
      [|done].
    cbn in Hrun. injection Hrun as <-. cbn [asm_image].
    destruct cd; [apply frame_refl|]. by apply fill_code_frame.
  - (* padding *)
    destruct (_ || _); [done|]. injection Hrun as <-. cbn [asm_image].
    apply slice_assign_frame; [lia|]. rewrite length_replicate. lia.
  - (* string table *)
    pose proof (string_table_fill_length (Z.to_nat (sec_size section)) []
                  (sec_size section) (asm_rng st) ltac:(cbn; lia)) as Hlen.
    destruct (string_table_fill _ _ _ _) as [buf rng1]. cbn in Hlen.
    injection Hrun as <-. cbn [asm_image].
    apply slice_assign_frame; [lia|]. rewrite slice_length; lia.
  - (* filesystem *)
    set (magic := default [0; 0; 0; 0] _) in Hrun.
    unfold randbytes_checked in Hrun.
    destruct (Z.ltb_spec (sec_size section - Z.of_nat (length magic)) 0)
      as [|Hm]; [done|].
    pose proof (randbytes_length
                  (Z.to_nat (sec_size section - Z.of_nat (length magic)))
                  (asm_rng st)) as Hlen.
    destruct (randbytes _ _) as [rand_data rng1]. cbn in Hlen, Hrun.
    injection Hrun as <-. cbn [asm_image].
    eapply frame_trans.
    + apply (slice_assign_frame _ magic (offset section)
               (offset section + Z.of_nat (length magic))); lia.
    + apply slice_assign_frame; lia.
    + lia.
    + lia.
    + lia.
    + lia.
  - (* random *)
    unfold randbytes_checked in Hrun.
    destruct (Z.ltb_spec (sec_size section) 0); [done|].
    pose proof (randbytes_length (Z.to_nat (sec_size section)) (asm_rng st))
      as Hlen.
    destruct (randbytes _ _) as [rand_data rng1]. cbn in Hlen, Hrun.
    injection Hrun as <-. cbn [asm_image].
    apply slice_assign_frame; lia.
  - (* rodata *)
    pose proof (rodata_fill_length (Z.to_nat (sec_size section)) []
                  (sec_size section) (asm_rng st) ltac:(cbn; lia)) as Hlen.
    destruct (rodata_fill _ _ _ _) as [buf rng1]. cbn in Hlen.
    injection Hrun as <-. cbn [asm_image].
    apply slice_assign_frame; [lia|]. rewrite slice_length; lia.
  - (* trailer *)
    injection Hrun as <-. apply frame_refl.
Qed.

Lemma assemble_sections_frame tree now layout secs start stop st st' :
  contiguous_from start secs = Some stop -> 0 <= start ->
  assemble_sections tree now layout st secs = Ok st' ->
  frame start stop (asm_image st) (asm_image st').
Proof.
  revert start st. induction secs as [|s secs IH]; intros start st Hc H0 Hrun.
  - injection Hc as <-. injection Hrun as <-. apply frame_refl.
  - cbn [contiguous_from] in Hc. cbn [assemble_sections] in Hrun.
    destruct (Z.eqb_spec (offset s) start) as [Hofs|]; [|done].
    destruct (Z.ltb_spec 0 (sec_size s)) as [Hsz|]; [|done]. cbn in Hc.
    destruct (assemble_section tree now layout st s) as [st1|e] eqn:Hs;
      [|done]. cbn in Hrun.
    apply assemble_section_frame in Hs; [|lia..].
    pose proof (contiguous_from_le _ _ _ Hc).
    eapply frame_trans; [exact Hs|by eapply (IH _ st1); [exact Hc|lia|]|lia..].
Qed.

(** The entries a step appends are appended to stay. *)
Lemma assemble_section_entries tree now layout st section st' :
  assemble_section tree now layout st section = Ok st' ->
  exists more, asm_sections st' = asm_sections st ++ more.
Proof.
  intros Hrun. unfold assemble_section in Hrun.
  destruct (section_type section).
  - destruct (generate_header _ _ _ _ _) as [[res rng1]|e]; [|done].
    injection Hrun as <-. by eexists.
  - destruct (isa_family section) as [fam|]; [|done].
    destruct (if path_exists tree _ then _ else _) as [[[[cd t] p] c]|e];
      [|done].
    cbn in Hrun. injection Hrun as <-. by eexists.
  - destruct (_ || _); [done|]. injection Hrun as <-. by eexists.
  - destruct (string_table_fill _ _ _ _) as [buf rng1].
    injection Hrun as <-. by eexists.
  - destruct (randbytes_checked _ _) as [[rand_data rng1]|e]; [|done].
    injection Hrun as <-. by eexists.
  - destruct (randbytes_checked _ _) as [[rand_data rng1]|e]; [|done].
    injection Hrun as <-. by eexists.
  - destruct (rodata_fill _ _ _ _) as [buf rng1].
    injection Hrun as <-. by eexists.
  - injection Hrun as <-. exists []. by rewrite app_nil_r.
Qed.

Lemma assemble_sections_entries tree now layout secs st st' :
  assemble_sections tree now layout st secs = Ok st' ->
  exists more, asm_sections st' = asm_sections st ++ more.
Proof.
  revert st. induction secs as [|s secs IH]; intros st Hrun.
  - injection Hrun as <-. exists []. by rewrite app_nil_r.
  - cbn [assemble_sections] in Hrun.
    destruct (assemble_section tree now layout st s) as [st1|e] eqn:Hs;
      [|done]. cbn in Hrun.
    apply assemble_section_entries in Hs as [m1 Hm1].
    apply IH in Hrun as [m2 Hm2]. exists (m1 ++ m2).
    by rewrite Hm2, Hm1, app_assoc.
Qed.

Lemma assemble_sections_app tree now layout l1 l2 st :
  assemble_sections tree now layout st (l1 ++ l2) =
  (st1 ← assemble_sections tree now layout st l1;
   assemble_sections tree now layout st1 l2).
Proof.
  revert st. induction l1 as [|s l1 IH]; intros st; [done|].
  cbn [app assemble_sections].
  destruct (assemble_section tree now layout st s); [apply IH|done].
Qed.

(** ** Known answers of the checksums *)

(** The check value of CRC-32 and the digests of the empty message, of
    [abc] and of a message longer than one block, as [zlib] and [hashlib]
    give them. *)
Example crc32_check_value :
  crc32 (bytes_of_string "123456789") = 0xCBF43926.
Proof. vm_compute. reflexivity. Qed.

Example md5_empty :
  hexdigest (md5 []) = "d41d8cd98f00b204e9800998ecf8427e".
Proof. vm_compute. reflexivity. Qed.

Example md5_abc :
  hexdigest (md5 (bytes_of_string "abc"))
  = "900150983cd24fb0d6963f7d28e17f72".
Proof. vm_compute. reflexivity. Qed.

Example md5_two_blocks :
  hexdigest (md5 (replicate 70 97)) = "0f5c6c4e740bfcc08c3c26ccb2673d46".
Proof. vm_compute. reflexivity. Qed.

Example sha256_empty :
  hexdigest (sha256 [])
  = "e3b0c44298fc1c149afbf4c8996fb92427ae41e4649b934ca495991b7852b855".
Proof. vm_compute. reflexivity. Qed.

Example sha256_abc :
  hexdigest (sha256 (bytes_of_string "abc"))
  = "ba7816bf8f01cfea414140de5dae2223b00361a396177a9cb410ff61f20015ad".
Proof. vm_compute. reflexivity. Qed.

Example sha256_two_blocks :
  hexdigest (sha256 (replicate 70 97))
  = "6bd5e5034855a11241f0dee8fc72850ffd9955b28347a86428b5fa19119f6ad0".
Proof. vm_compute. reflexivity. Qed.

(** ** The trailer *)

Lemma foldl_length_preserved {A B} (f : list A -> B -> list A)
  (st : list A) (l : list B) :
  (forall st x, length (f st x) = length st) ->
  length (foldl f st l) = length st.
Proof.
  intros Hf. revert st. induction l as [|x l IH]; intros st; [done|].
  cbn [foldl]. by rewrite IH, Hf.
Qed.

Lemma md5_round_length (m st : list Z) (i : nat) :
  length (md5_round m st i) = length st.
Proof.
  destruct st as [|a [|b [|c [|d [|e st]]]]]; try reflexivity.
  unfold md5_round. by repeat destruct (_ <? _)%nat.
Qed.

Lemma md5_block_length (hs block : list Z) :
  length (md5_block hs block) = length hs.
Proof.
  unfold md5_block.
  rewrite length_zip_with, foldl_length_preserved by apply md5_round_length.
  lia.
Qed.

Lemma md5_length (data : list Z) : length (md5 data) = 16%nat.
Proof.
  unfold md5.
  rewrite (concat_words_length 4) by apply to_bytes_le_length.
  by rewrite foldl_length_preserved by apply md5_block_length.
Qed.

Lemma sha256_round_length (st : list Z) (kw : Z * Z) :
  length (sha256_round st kw) = length st.
Proof.
  by destruct st as [|a [|b [|c [|d [|e [|f [|g [|h [|i st]]]]]]]]].
Qed.

Lemma sha256_block_length (hs block : list Z) :
  length (sha256_block hs block) = length hs.
Proof.
  unfold sha256_block.
  rewrite length_zip_with, foldl_length_preserved
    by apply sha256_round_length.
  lia.
Qed.

Lemma sha256_length (data : list Z) : length (sha256 data) = 32%nat.
Proof.
  unfold sha256.
  rewrite (concat_words_length 4) by apply to_bytes_be_length.
  by rewrite foldl_length_preserved by apply sha256_block_length.
Qed.

Lemma to_bytes_le_mod (n : nat) (v : Z) :
  to_bytes_le n (v mod 256 ^ Z.of_nat n) = to_bytes_le n v.
Proof.
  revert v. induction n as [|n IH]; intros v; [done|].
  cbn [to_bytes_le].
  rewrite Nat2Z.inj_succ, Z.pow_succ_r by lia.
  assert (0 < 256 ^ Z.of_nat n) by (apply Z.pow_pos_nonneg; lia).
  rewrite Z.rem_mul_r by lia.
  pose proof (Z.mod_pos_bound v 256 ltac:(lia)) as Hb.
  set (a := v mod 256) in *. set (q := (v / 256) mod 256 ^ Z.of_nat n).
  f_equal.
  - symmetry. apply (Z.mod_unique _ _ q); lia.
  - rewrite <- (IH (v / 256)). f_equal. symmetry.
    apply (Z.div_unique _ _ _ a); lia.
Qed.

(** The checksum a trailer type declares, as a consumer recomputes it:
    CRC32 as four little-endian bytes, the MD5 digest, the SHA-256
    digest. *)
Definition declared_checksum (trailer_type : string) (data : list Z)
  : list Z :=
  if String.eqb trailer_type "crc32" then to_bytes_le 4 (crc32 data)
  else if String.eqb trailer_type "md5" then md5 data
  else if String.eqb trailer_type "sha256" then sha256 data
  else [].

Lemma generate_trailer_inv (trailer_type : string) (pre : list Z)
  (r : TrailerResult) :
  generate_trailer trailer_type pre = Ok r -> trailer_type <> "none" ->
  trl_data r = declared_checksum trailer_type pre /\
  Z.of_nat (length (trl_data r)) = get_trailer_size trailer_type.
Proof.
  unfold generate_trailer, TRAILER_REGISTRY. rewrite !dict_get_cons.
  destruct (String.eqb_spec "crc32" trailer_type) as [<-|_].
  { unfold trailer_crc32. rewrite land_mask32.
    rewrite pack_uint_Ok by apply mod32_range. cbn. intros [= <-] _.
    cbn [trl_data]. split; [|reflexivity].
    change (declared_checksum "crc32" pre) with (to_bytes_le 4 (crc32 pre)).
    apply (to_bytes_le_mod 4). }
  destruct (String.eqb_spec "md5" trailer_type) as [<-|_].
  { intros [= <-] _. cbn [trl_data]. rewrite md5_length. by split. }
  destruct (String.eqb_spec "sha256" trailer_type) as [<-|_].
  { intros [= <-] _. cbn [trl_data]. rewrite sha256_length. by split. }
  destruct (String.eqb_spec "none" trailer_type) as [<-|_]; [done|].
  done.
Qed.

Lemma slice_assign_in_bounds (buf data : list Z) (i j : Z) :
  0 <= i <= j -> j <= Z.of_nat (length buf) ->
  slice_assign buf i j data
  = take (Z.to_nat i) buf ++ data ++ drop (Z.to_nat j) buf.
Proof.
  intros Hij Hj. unfold slice_assign, slice_index.
  destruct (Z.ltb_spec i 0); [lia|]. destruct (Z.ltb_spec j 0); [lia|].
  repeat f_equal; lia.
Qed.

Lemma slice_prefix (buf : list Z) (n : Z) :
  0 <= n <= Z.of_nat (length buf) -> slice buf 0 n = take (Z.to_nat n) buf.
Proof.
  intros Hn. unfold slice, slice_index.
  destruct (Z.ltb_spec n 0); [lia|]. cbn [Z.ltb Z.compare].
  replace (Z.to_nat (Z.min 0 (Z.of_nat (length buf)))) with 0%nat by lia.
  rewrite drop_0. f_equal. lia.
Qed.

Lemma write_trailer_frame layout st st' :
  write_trailer layout st = Ok st' ->
  0 <= total_size layout - get_trailer_size (trailer_type layout) ->
  frame (total_size layout - get_trailer_size (trailer_type layout))
    (total_size layout) (asm_image st) (asm_image st').
Proof.
  intros Hrun Ht. unfold write_trailer in Hrun.
  destruct (String.eqb_spec (trailer_type layout) "none") as [|Hne].
  { injection Hrun as <-. apply frame_refl. }
  destruct (generate_trailer _ _) as [r|e] eqn:Hr; [|done].
  apply generate_trailer_inv in Hr as [_ Hlen]; [|done].
  cbn in Hrun. injection Hrun as <-. cbn [asm_image].
  eapply frame_weaken; [apply slice_assign_frame| |]; lia.
Qed.

Lemma write_trailer_entries layout st st' :
  write_trailer layout st = Ok st' ->
  exists more, asm_sections st' = asm_sections st ++ more.
Proof.
  intros Hrun. unfold write_trailer in Hrun.
  destruct (String.eqb (trailer_type layout) "none").
  { injection Hrun as <-. exists []. by rewrite app_nil_r. }
  destruct (generate_trailer _ _) as [r|e]; [|done].
  injection Hrun as <-. by eexists.
Qed.

(** Written into a buffer of [total_size] bytes or more, the trailer is
    the declared checksum of the bytes before it. *)
Lemma write_trailer_roundtrip layout st st' :
  write_trailer layout st = Ok st' ->
  trailer_type layout <> "none" ->
  let t := total_size layout - get_trailer_size (trailer_type layout) in
  0 <= t -> total_size layout <= Z.of_nat (length (asm_image st)) ->
  slice (asm_image st') t (total_size layout)
  = declared_checksum (trailer_type layout) (slice (asm_image st') 0 t).
Proof.
  intros Hrun Hne t Ht Htotal. unfold write_trailer in Hrun.
  destruct (String.eqb_spec (trailer_type layout) "none"); [done|].
  destruct (generate_trailer _ _) as [r|e] eqn:Hr; [|done].
  apply generate_trailer_inv in Hr as [Hdata Hlen]; [|done].
  cbn in Hrun. injection Hrun as <-. cbn [asm_image]. fold t in Hdata, Hlen |- *.
  assert (t + Z.of_nat (length (trl_data r)) = total_size layout) as Hend
    by (unfold t; lia).
  rewrite Hend, slice_assign_in_bounds by lia.
  assert (Z.of_nat (length (take (Z.to_nat t) (asm_image st))) = t) as Hpre.
  { rewrite length_take. lia. }
  rewrite (slice_field _ _ _ t (total_size layout)) by lia.
  rewrite Hdata. f_equal.
  transitivity (take (Z.to_nat t) (asm_image st));
    [apply slice_prefix; lia|]. symmetry.
  apply (slice_field [] (take (Z.to_nat t) (asm_image st))
           _ 0 t); [done|lia].
Qed.

(** The trailer of an image whose layout tiles [[0, total_size)]: the
    image has [total_size] bytes and ends with the declared checksum of
    what precedes it. *)
Lemma trailer_roundtrip_when_tiled tree firmware_dir clock R layout out :
  generate_single_image tree firmware_dir clock R layout = Ok out ->
  contiguous_from 0 (sections layout) = Some (total_size layout) ->
  trailer_type layout <> "none" ->
  get_trailer_size (trailer_type layout) <= total_size layout ->
  let image := out_image_bytes out in
  let t := total_size layout - get_trailer_size (trailer_type layout) in
  Z.of_nat (length image) = total_size layout /\
  slice image t (Z.of_nat (length image))
  = declared_checksum (trailer_type layout) (slice image 0 t).
Proof.
  intros Hrun Htiles Hne Hsize. unfold generate_single_image, assemble in Hrun.
  destruct (assemble_sections _ _ _ _ _) as [st|e] eqn:Hsecs; [|done].
  cbn in Hrun. destruct (write_trailer layout st) as [st'|e] eqn:Htr; [|done].
  cbn in Hrun. injection Hrun as <-. cbn [out_image_bytes].
  pose proof (contiguous_from_le _ _ _ Htiles) as Hpos.
  apply assemble_sections_frame with (start := 0) (stop := total_size layout)
    in Hsecs as (_ & Hlen & _); [|done|lia].
  cbn [asm_image] in Hlen. rewrite length_replicate in Hlen.
  specialize (Hlen ltac:(lia)).
  pose proof (write_trailer_frame _ _ _ Htr ltac:(lia)) as (_ & Hlen' & _).
  specialize (Hlen' ltac:(lia)).
  assert (Z.of_nat (length (asm_image st')) = total_size layout) as ->
    by lia.
  split; [done|].
  apply (write_trailer_roundtrip _ _ _ Htr); [done|lia..].
Qed.

(** ** A Code section whose blob is missing *)

(** The path under [objects_dir] where the worker looks for the blob of a
    Code section. *)
Definition blob_path_of (section : SectionSpec) (fam : string) : list string :=
  let fp := fill_params section in
  path_join
    [fam; default "" (fp_blob_triple fp); default "" (fp_blob_config fp);
     default "" (fp_blob_program fp) +:+ ".bin"].

(** The sidecar entry of a Code section for which no bytes were found: the
    planned offset, size and family, and the planned provenance. *)
Definition missing_blob_entry (section : SectionSpec) (fam : string)
  : ActualSection :=
  let fp := fill_params section in
  mkActualSection (offset section) (sec_size section) "code" (Some fam) None
    (Some (default "" (fp_blob_triple fp)))
    (Some (default "" (fp_blob_program fp)))
    (Some (default "" (fp_blob_config fp))).

Lemma assemble_section_missing_blob tree now layout st section fam :
  section_type section = CODE -> isa_family section = Some fam ->
  path_exists tree (blob_path_of section fam) = false ->
  rglob_bin tree (path_join [fam]) = [] ->
  assemble_section tree now layout st section
  = Ok (mkAssembly (asm_image st) (asm_rng st)
          (asm_sections st ++ [missing_blob_entry section fam])).
Proof.
  intros Htype Hfam Hblob Hglob. unfold assemble_section.
  rewrite Htype, Hfam. fold (blob_path_of section fam).
  rewrite Hblob, Hglob. by destruct (path_exists tree (path_join [fam])).
Qed.

Lemma contiguous_from_cons_inv start stop pre section post :
  contiguous_from start (pre ++ section :: post) = Some stop ->
  contiguous_from start pre = Some (offset section) /\
  0 < sec_size section /\
  contiguous_from (offset section + sec_size section) post = Some stop.
Proof.
  rewrite contiguous_from_app.
  destruct (contiguous_from start pre) as [mid|]; [|done].
  cbn [contiguous_from].
  destruct (Z.eqb_spec (offset section) mid) as [->|]; [|done].
  destruct (Z.ltb_spec 0 (sec_size section)); [|done]. by cbn.
Qed.

(** Where the layout keeps within [total_size]: take an image the worker
    assembled, a Code section of its layout whose blob file does not
    exist, and no [.bin] file under the family's directory.  The
    section's step raises nothing and leaves the buffer and the generator
    as they were, appending the section's entry with the planned offset,
    size and family; that entry is in the sidecar and the worker reports
    success.  In the image, every byte of the section is the 0xFF of the
    pre-fill, the sections being laid end to end and this one ending
    before the trailer's bytes. *)
Lemma missing_blob_keeps_prefill tree firmware_dir clock R layout
  pre section post fam stop out :
  sections layout = pre ++ section :: post ->
  section_type section = CODE -> isa_family section = Some fam ->
  path_exists tree (blob_path_of section fam) = false ->
  rglob_bin tree (path_join [fam]) = [] ->
  contiguous_from 0 (sections layout) = Some stop ->
  offset section + sec_size section
    <= total_size layout - get_trailer_size (trailer_type layout) ->
  generate_single_image tree firmware_dir clock R layout = Ok out ->
  (forall st,
     assemble_section tree (now clock) layout st section
     = Ok (mkAssembly (asm_image st) (asm_rng st)
             (asm_sections st ++ [missing_blob_entry section fam]))) /\
  (forall k : nat,
     offset section <= Z.of_nat k < offset section + sec_size section ->
     out_image_bytes out !! k = Some 0xFF) /\
  missing_blob_entry section fam ∈ sc_sections (out_metadata out) /\
  r_success (out_result out) = true.
Proof.
  intros Hsecs Htype Hfam Hblob Hglob Hcont Hend Hrun.
  pose proof (fun st => assemble_section_missing_blob tree (now clock) layout
                          st section fam Htype Hfam Hblob Hglob) as Hstep.
  split; [exact Hstep|].
  unfold generate_single_image, assemble in Hrun.
  rewrite Hsecs, assemble_sections_app in Hrun.
  destruct (assemble_sections _ _ _ _ pre) as [st1|e] eqn:Hpre; [|done].
  cbn [mbind result_bind rbind assemble_sections] in Hrun.
  rewrite Hstep in Hrun. cbn [mbind result_bind rbind] in Hrun.
  destruct (assemble_sections _ _ _ _ post) as [st2|e] eqn:Hpost; [|done].
  cbn [mbind result_bind rbind] in Hrun.
  destruct (write_trailer layout st2) as [st3|e] eqn:Htr; [|done].
  cbn in Hrun. injection Hrun as <-.
  cbn [out_image_bytes out_metadata out_result sc_sections r_success].
  rewrite Hsecs in Hcont.
  apply contiguous_from_cons_inv in Hcont as (Hc1 & Hsize & Hc2).
  pose proof (contiguous_from_le _ _ _ Hc1) as Hofs.
  pose proof (trailer_size_nonneg (trailer_type layout)) as Hts.
  fold (get_trailer_size (trailer_type layout)) in Hts.
  split; [|split; [|done]].
  - intros k Hk.
    apply assemble_sections_frame with (start := 0) (stop := offset section)
      in Hpre as (Hl1 & _ & Hk1); [|done|lia].
    apply assemble_sections_frame
      with (start := offset section + sec_size section) (stop := stop)
      in Hpost as (Hl2 & _ & Hk2); [|done|lia].
    apply write_trailer_frame in Htr as (_ & _ & Hk3); [|lia].
    cbn [asm_image] in Hl1, Hk1, Hl2, Hk2.
    rewrite length_replicate in Hl1, Hk1.
    rewrite Hk3, Hk2, Hk1 by lia.
    apply lookup_replicate_2. lia.
  - apply assemble_sections_entries in Hpost as [m2 Hm2].
    apply write_trailer_entries in Htr as [m3 Hm3].
    rewrite Hm3, Hm2. cbn [asm_sections].
    rewrite !elem_of_app, list_elem_of_singleton. auto.
Qed.

(** A layout of the arm32-only engine (header [uboot], trailer [crc32],
    its Code section at 64..158) assembled over an empty [objects_dir]. *)
Definition missing_blob_layout : ImageLayout :=
  match generate_layout log2_exact exp2_exact arm32_only_engine
          [2 ^ 52; 1; 0; 0; 2 ^ 52; 0; 0; 2 ^ 52] 0 (Some "arm32") None with
  | Ok l => l
  | Raised _ => mkImageLayout "" 0 "" "" "" [] [] 0
  end.

Definition missing_blob_section : SectionSpec :=
  default (mkSectionSpec 0 0 TRAILER 1 None no_params)
    (sections missing_blob_layout !! 1%nat).

Lemma missing_blob_keeps_prefill_witness :
  match generate_single_image (mkFileTree [] []) "firmware"
          (mkClock 1000000000 5) uboot_Random missing_blob_layout with
  | Ok out =>
      (forall k : nat,
         64 <= Z.of_nat k < 64 + 94 ->
         out_image_bytes out !! k = Some 0xFF) /\
      mkActualSection 64 94 "code" (Some "arm32") None
        (Some "arm-unknown-linux-gnueabi") (Some "b") (Some "O2")
        ∈ sc_sections (out_metadata out) /\
      r_success (out_result out) = true
  | Raised _ => False
  end.
Proof.
  destruct (generate_single_image _ _ _ _ _) as [out|e] eqn:Hrun.
  - destruct (missing_blob_keeps_prefill (mkFileTree [] []) "firmware"
                (mkClock 1000000000 5) uboot_Random missing_blob_layout
                (take 1 (sections missing_blob_layout)) missing_blob_section
                (drop 2 (sections missing_blob_layout)) "arm32" 256 out)
      as (_ & Hbytes & Hentry & Hok).
    + vm_compute. reflexivity.
    + vm_compute. reflexivity.
    + vm_compute. reflexivity.
    + vm_compute. reflexivity.
    + vm_compute. reflexivity.
    + vm_compute. reflexivity.
    + by vm_compute.
    + exact Hrun.
    + split; [exact Hbytes|]. split; [exact Hentry|exact Hok].
  - vm_compute in Hrun. discriminate.
Defined.

(** The last Code section of the 1024-byte layout of C3: arm32, planned at
    940..1026, past [total_size]. *)
Definition outgrow_last_code : SectionSpec :=
  default (mkSectionSpec 0 0 TRAILER 1 None no_params)
    (sections outgrow_layout !! 6%nat).

(** C9: that layout assembled over an empty [objects_dir], so that no blob
    file and no fallback file exists for any Code section.  The worker
    reports success and the sidecar records the last Code section as
    [code] at 940 with its planned 86 bytes, but the image has 1024
    bytes: the section's last two bytes are not in it, and its bytes
    1020..1024 are the CRC the trailer step wrote over the pre-fill. *)
Theorem missing_blob_prefill_lost_on_outgrown_image :
  exists out,
    section_type outgrow_last_code = CODE /\
    offset outgrow_last_code = 940 /\ sec_size outgrow_last_code = 86 /\
    isa_family outgrow_last_code = Some "arm32" /\
    path_exists (mkFileTree [] []) (blob_path_of outgrow_last_code "arm32")
    = false /\
    rglob_bin (mkFileTree [] []) (path_join ["arm32"]) = [] /\
    generate_single_image (mkFileTree [] []) "firmware"
      (mkClock 1000000000 5) example_Random outgrow_layout = Ok out /\
    r_success (out_result out) = true /\
    missing_blob_entry outgrow_last_code "arm32"
      ∈ sc_sections (out_metadata out) /\
    length (out_image_bytes out) = 1024%nat /\
    slice (out_image_bytes out) 940 1020 = replicate 80 0xFF /\
    slice (out_image_bytes out) 1020 1024
    = to_bytes_le 4 (crc32 (slice (out_image_bytes out) 0 1020)) /\
    slice (out_image_bytes out) 1020 1024 <> replicate 4 0xFF.
Proof.
  eexists. split; [reflexivity|]. split; [reflexivity|].
  split; [reflexivity|]. split; [reflexivity|].
  split; [vm_compute; reflexivity|]. split; [vm_compute; reflexivity|].
  split; [vm_compute; reflexivity|]. split; [reflexivity|].
  split.
  { vm_compute. do 6 apply list_elem_of_further. apply list_elem_of_here. }
  split; [vm_compute; reflexivity|]. split; [vm_compute; reflexivity|].
  split; [vm_compute; reflexivity|].
  vm_compute. discriminate.
Qed.

(** * Further properties of the code *)

(** ** Reading and writing fields of a buffer *)

Lemma slice_assign_length (buf data : list Z) (i j : Z) :
  0 <= i <= j -> j <= Z.of_nat (length buf) ->
  Z.of_nat (length data) = j - i ->
  length (slice_assign buf i j data) = length buf.
Proof.
  intros Hij Hj Hd.
  by apply (slice_assign_frame buf data i j Hij Hd).
Qed.

Lemma slice_assign_read (buf data : list Z) (i j : Z) :
  0 <= i <= j -> j <= Z.of_nat (length buf) ->
  Z.of_nat (length data) = j - i ->
  slice (slice_assign buf i j data) i j = data.
Proof.
  intros Hij Hj Hd. rewrite slice_assign_in_bounds by lia.
  apply slice_field; [rewrite length_take|]; lia.
Qed.

Lemma slice_lookup (buf : list Z) (i j : Z) (k : nat) :
  0 <= i <= j -> j <= Z.of_nat (length buf) ->
  (k < Z.to_nat (j - i))%nat ->
  slice buf i j !! k = buf !! (Z.to_nat i + k)%nat.
Proof.
  intros Hij Hj Hk. unfold slice, slice_index.
  destruct (Z.ltb_spec i 0); [lia|]. destruct (Z.ltb_spec j 0); [lia|].
  rewrite !Z.min_l, Z.max_r by lia.
  rewrite lookup_take_lt by lia. apply lookup_drop.
Qed.

Lemma slice_ext (x y : list Z) (i j : Z) :
  0 <= i <= j -> j <= Z.of_nat (length x) -> length y = length x ->
  (forall k : nat, i <= Z.of_nat k < j -> y !! k = x !! k) ->
  slice y i j = slice x i j.
Proof.
  intros Hij Hj Hlen Hk. apply list_eq. intros k.
  destruct (decide (k < Z.to_nat (j - i))%nat) as [Hlt|Hge].
  - rewrite !slice_lookup by lia. apply Hk. lia.
  - rewrite !lookup_ge_None_2; [done|..].
    + pose proof (slice_length_le (drop (Z.to_nat i) x) (j - i)).
      unfold slice, slice_index.
      destruct (Z.ltb_spec i 0); [lia|]. destruct (Z.ltb_spec j 0); [lia|].
      rewrite length_take. lia.
    + unfold slice, slice_index.
      destruct (Z.ltb_spec i 0); [lia|]. destruct (Z.ltb_spec j 0); [lia|].
      rewrite length_take. lia.
Qed.

(** A field read back after a write elsewhere. *)
Lemma slice_assign_read_other (buf data : list Z) (i j a b : Z) :
  0 <= i <= j -> j <= Z.of_nat (length buf) ->
  Z.of_nat (length data) = j - i ->
  0 <= a <= b -> b <= Z.of_nat (length buf) -> b <= i \/ j <= a ->
  slice (slice_assign buf i j data) a b = slice buf a b.
Proof.
  intros Hij Hj Hd Hab Hb Hout.
  destruct (slice_assign_frame buf data i j Hij Hd) as (_ & Hlen & Hk).
  apply slice_ext; [lia|lia|by apply Hlen|].
  intros k Hkr. apply Hk; lia.
Qed.

Lemma slice_assign_lookup_other (buf data : list Z) (i j : Z) (k : nat) :
  0 <= i <= j -> j <= Z.of_nat (length buf) ->
  Z.of_nat (length data) = j - i ->
  Z.of_nat k < i \/ j <= Z.of_nat k ->
  slice_assign buf i j data !! k = buf !! k.
Proof.
  intros Hij Hj Hd Hout.
  destruct (slice_assign_frame buf data i j Hij Hd) as (Hle & Hlen & Hk).
  destruct (decide (k < length buf)%nat) as [Hlt|Hge].
  - apply Hk; lia.
  - rewrite !lookup_ge_None_2; [done|lia|]. rewrite Hlen; lia.
Qed.

Lemma pack_into_Ok (little : bool) (n : nat) (buf : list Z) (off v : Z) :
  0 <= v < 256 ^ Z.of_nat n ->
  0 <= off -> off + Z.of_nat n <= Z.of_nat (length buf) ->
  pack_into little n buf off v
  = Ok (slice_assign buf off (off + Z.of_nat n)
          (if little then to_bytes_le n v else to_bytes_be n v)).
Proof.
  intros Hv Hoff Hfit. unfold pack_into. rewrite pack_uint_Ok by done. cbn.
  destruct (Z.leb_spec 0 off); [|lia].
  destruct (Z.leb_spec (off + Z.of_nat n) (Z.of_nat (length buf))); [|lia].
  done.
Qed.

Lemma pack_into_Raised (little : bool) (n : nat) (buf : list Z) (off v : Z) :
  ~ (0 <= v < 256 ^ Z.of_nat n) ->
  pack_into little n buf off v = Raised "struct.error".
Proof.
  intros Hv. unfold pack_into, pack_uint.
  destruct (Z.leb_spec 0 v); destruct (Z.ltb_spec v (256 ^ Z.of_nat n));
    try done; lia.
Qed.

Lemma pack_uint_Raised (little : bool) (n : nat) (v : Z) :
  ~ (0 <= v < 256 ^ Z.of_nat n) ->
  pack_uint little n v = Raised "struct.error".
Proof.
  intros Hv. unfold pack_uint.
  destruct (Z.leb_spec 0 v); destruct (Z.ltb_spec v (256 ^ Z.of_nat n));
    try done; lia.
Qed.

Lemma word_bytes_length (little : bool) (n : nat) (v : Z) :
  length (if little then to_bytes_le n v else to_bytes_be n v) = n.
Proof. destruct little; [apply to_bytes_le_length|apply to_bytes_be_length]. Qed.

(** How a field is read: [int.from_bytes(b, "little" or "big")]. *)
Definition from_bytes (little : bool) (bs : list Z) : Z :=
  if little then from_bytes_le bs else from_bytes_be bs.

Lemma from_bytes_word (little : bool) (n : nat) (v : Z) :
  0 <= v < 256 ^ Z.of_nat n ->
  from_bytes little (if little then to_bytes_le n v else to_bytes_be n v) = v.
Proof.
  intros Hv. destruct little; cbn.
  - rewrite from_to_bytes_le. by apply Z.mod_small.
  - rewrite from_to_bytes_be. by apply Z.mod_small.
Qed.

(** The [i]-th of the words packed side by side. *)
Lemma concat_words_slice (n : nat) (f : Z -> list Z) (vs : list Z)
  (i : nat) (v : Z) :
  (forall v, length (f v) = n) -> vs !! i = Some v ->
  slice (concat (fmap f vs)) (Z.of_nat (n * i))
    (Z.of_nat (n * i) + Z.of_nat n) = f v.
Proof.
  intros Hf Hi.
  rewrite <- (take_drop_middle vs i v Hi), fmap_app, fmap_cons, concat_app.
  cbn [concat].
  apply slice_field; [|rewrite Hf; lia].
  rewrite (concat_words_length n) by done.
  rewrite length_take. apply lookup_lt_Some in Hi. lia.
Qed.

(** ** The vector tables *)

Lemma lor_high_low (h b k : Z) :
  0 <= k -> 0 <= b < 2 ^ k -> Z.lor (h * 2 ^ k) b = h * 2 ^ k + b.
Proof.
  intros Hk Hb. symmetry. apply Z.add_nocarry_lor.
  apply Z.bits_inj'. intros n Hn. rewrite Z.land_spec, Z.bits_0.
  destruct (Z.lt_ge_cases n k) as [Hlt|Hge].
  - rewrite Z.mul_pow2_bits_low by lia. done.
  - assert (Z.testbit b n = false) as ->; [|apply andb_false_r].
    apply Z.testbit_false; [lia|].
    rewrite Z.div_small; [done|]. split; [lia|].
    apply Z.lt_le_trans with (2 ^ k); [lia|].
    apply Z.pow_le_mono_r; lia.
Qed.

Lemma land_ones_range (x k : Z) : 0 <= k -> 0 <= Z.land x (2 ^ k - 1) < 2 ^ k.
Proof.
  intros Hk. rewrite Z.sub_1_r, <- Z.ones_equiv, Z.land_ones by lia.
  apply Z.mod_pos_bound. apply Z.pow_pos_nonneg; lia.
Qed.

Lemma arm_branches_spec (n : nat) (i : Z) (rng : Random) :
  length (fst (arm_branches n i rng)) = n /\
  Forall (fun w => 0xEA * 2 ^ 24 <= w < 0xEB * 2 ^ 24)
    (fst (arm_branches n i rng)).
Proof.
  revert i rng. induction n as [|n IH]; intros i rng; cbn [arm_branches].
  { by split. }
  destruct (randint 0 2048 rng) as [r rng1].
  destruct (IH (i + 1) rng1) as [Hlen Hall].
  destruct (arm_branches n (i + 1) rng1) as [rest rng2]. cbn in *.
  split; [by rewrite Hlen|]. apply Forall_cons. split; [|done].
  pose proof (land_ones_range (Z.shiftr (32 + r - i * 4 - 8) 2) 24
                ltac:(lia)) as Hm.
  change (2 ^ 24 - 1) with 16777215 in Hm.
  change 3925868544 with (0xEA * 2 ^ 24).
  rewrite lor_high_low by lia. lia.
Qed.

(** X1: [vector_table_arm] never raises; its header is 32 bytes, the
    entry point is 32, and each of the eight words, read in the byte order
    packed (little-endian for ["little"], big-endian for any other string),
    is a branch instruction: its top byte is 0xEA. *)
Theorem vector_table_arm_branches (endianness : string) (rng : Random)
  (now : Z) (args : HeaderArgs) :
  exists h rng',
    vector_table_arm endianness rng now args = Ok (h, rng') /\
    length (hdr_data h) = 32%nat /\
    entry_point_offset h = 32 /\
    forall i : nat, (i < 8)%nat ->
      from_bytes (String.eqb endianness "little")
        (slice (hdr_data h) (Z.of_nat (4 * i)) (Z.of_nat (4 * i) + 4))
      / 2 ^ 24 = 0xEA.
Proof.
  unfold vector_table_arm.
  destruct (arm_branches_spec 8 0 rng) as [Hlen Hall].
  destruct (arm_branches 8 0 rng) as [vectors rng1]. cbn in Hlen, Hall.
  set (little := String.eqb endianness "little").
  assert (Forall (fun v => 0 <= v < 256 ^ Z.of_nat 4) vectors) as Hfit.
  { eapply Forall_impl; [exact Hall|]. cbn. intros w Hw. lia. }
  rewrite (pack_uints_Ok little 4 vectors Hfit).
  cbn [mbind result_bind rbind].
  eexists _, _. split; [reflexivity|]. cbn [hdr_data entry_point_offset].
  pose proof (word_bytes_length little 4) as Hw.
  split; [by rewrite (concat_words_length 4), Hlen|].
  split; [by rewrite (concat_words_length 4), Hlen|].
  intros i Hi.
  destruct (lookup_lt_is_Some_2 vectors i ltac:(lia)) as [v Hv].
  pose proof (concat_words_slice 4 _ vectors i v Hw Hv) as Hs.
  change (Z.of_nat 4) with 4 in Hs. rewrite Hs.
  rewrite Forall_forall in Hall, Hfit.
  pose proof (Hall v (list_elem_of_lookup_2 _ _ _ Hv)) as Hrange.
  rewrite from_bytes_word by (apply Hfit; eapply list_elem_of_lookup_2; eauto).
  symmetry. apply Z.div_unique with (v - 0xEA * 2 ^ 24); lia.
Qed.

(** The [i]-th 32-bit word of a header, read in the given byte order. *)
Definition word_at (little : bool) (data : list Z) (i : nat) : Z :=
  from_bytes little (slice data (Z.of_nat (4 * i)) (Z.of_nat (4 * i) + 4)).

Lemma word_at_packed (little : bool) (vs : list Z) (i : nat) (v : Z) :
  vs !! i = Some v -> 0 <= v < 2 ^ 32 ->
  word_at little
    (concat (fmap (fun v => if little then to_bytes_le 4 v
                            else to_bytes_be 4 v) vs)) i = v.
Proof.
  intros Hi Hv. unfold word_at.
  pose proof (concat_words_slice 4 _ vs i v (word_bytes_length little 4) Hi)
    as Hs.
  change (Z.of_nat 4) with 4 in Hs. rewrite Hs.
  by apply from_bytes_word.
Qed.

Lemma land_mask16 (x : Z) : Z.land x 0xFFFF = x mod 2 ^ 16.
Proof. change 0xFFFF with (Z.ones 16). apply Z.land_ones. lia. Qed.

(** X2: [boot_vector_mips] never raises and draws nothing; its header is
    32 bytes with entry point 32: [lui $t0, hi], [ori $t0, $t0, lo],
    [jr $t0] and five nops, where [hi] and [lo] are the halves of
    [base_addr + 32] modulo 2^32, in big-endian words for ["big"] and
    little-endian words for any other string. *)
Theorem boot_vector_mips_trampoline (endianness : string) (rng : Random)
  (now : Z) (args : HeaderArgs) :
  exists h hi lo,
    boot_vector_mips endianness rng now args = Ok (h, rng) /\
    length (hdr_data h) = 32%nat /\
    entry_point_offset h = 32 /\
    0 <= hi < 2 ^ 16 /\ 0 <= lo < 2 ^ 16 /\
    hi * 2 ^ 16 + lo = (arg_base_addr args + 32) mod 2 ^ 32 /\
    fmap (word_at (negb (String.eqb endianness "big")) (hdr_data h))
      (seq 0 8)
    = [0x3C080000 + hi; 0x35080000 + lo; 0x01000008; 0; 0; 0; 0; 0].
Proof.
  unfold boot_vector_mips.
  set (little := negb (String.eqb endianness "big")).
  set (target := arg_base_addr args + 32).
  rewrite Z.shiftr_div_pow2, !land_mask16 by lia.
  set (hi := (target / 2 ^ 16) mod 2 ^ 16).
  set (lo := target mod 2 ^ 16).
  assert (0 <= hi < 2 ^ 16) as Hhi by (apply Z.mod_pos_bound; lia).
  assert (0 <= lo < 2 ^ 16) as Hlo by (apply Z.mod_pos_bound; lia).
  change 1007157248 with (0x3C08 * 2 ^ 16).
  change 889716736 with (0x3508 * 2 ^ 16).
  rewrite !lor_high_low by lia.
  rewrite pack_uints_Ok.
  2:{ cbn [app replicate]. repeat (apply Forall_cons; split; [lia|]).
      by apply Forall_nil. }
  cbn [mbind result_bind rbind].
  set (words := [0x3C08 * 2 ^ 16 + hi; 0x3508 * 2 ^ 16 + lo; 0x01000008; 0]
                ++ replicate 4 0).
  set (data := concat _).
  exists (mkHeaderResult data 32 [("header_type", MStr "boot_vector_mips")]),
    hi, lo.
  cbn [hdr_data entry_point_offset].
  assert (length data = 32%nat) as Hlen.
  { unfold data. rewrite (concat_words_length 4) by apply word_bytes_length.
    done. }
  split; [by rewrite Hlen|]. split; [done|]. split; [done|].
  split; [done|]. split; [done|]. split.
  { unfold hi, lo. change (2 ^ 32) with (2 ^ 16 * 2 ^ 16).
    rewrite (Z.rem_mul_r target) by lia. lia. }
  cbn [seq fmap list_fmap]. unfold data.
  rewrite (word_at_packed little words 0 (0x3C08 * 2 ^ 16 + hi) eq_refl),
    (word_at_packed little words 1 (0x3508 * 2 ^ 16 + lo) eq_refl),
    (word_at_packed little words 2 0x01000008 eq_refl),
    (word_at_packed little words 3 0 eq_refl),
    (word_at_packed little words 4 0 eq_refl),
    (word_at_packed little words 5 0 eq_refl),
    (word_at_packed little words 6 0 eq_refl),
    (word_at_packed little words 7 0 eq_refl) by lia.
  reflexivity.
Qed.

Lemma land_fffe (x : Z) : Z.land x 0xFFFE = 2 * ((x / 2) mod 2 ^ 15).
Proof.
  apply Z.bits_inj'. intros n Hn. rewrite Z.land_spec.
  change 0xFFFE with (2 * Z.ones 15).
  destruct (decide (n = 0)) as [->|Hne].
  - rewrite !Z.testbit_even_0. apply andb_false_r.
  - replace n with (Z.succ (n - 1)) by lia.
    rewrite !Z.testbit_even_succ by lia.
    rewrite <- Z.land_ones by lia. rewrite Z.land_spec. f_equal.
    change (x / 2) with (x / 2 ^ 1). rewrite <- Z.shiftr_div_pow2 by lia.
    rewrite Z.shiftr_spec by lia. f_equal; lia.
Qed.

Lemma avr_jmps_spec (n : nat) (N : Z) (rng : Random) :
  0 <= N -> 4 * N + 0x100 < 2 ^ 16 ->
  exists targets rng',
    avr_jmps n N rng
    = Ok (concat (fmap (to_bytes_le 2)
                    (flat_map (fun t => [0x940C; t]) targets)), rng') /\
    length targets = n /\
    Forall (fun t => 4 * N <= t <= 4 * N + 0x100) targets.
Proof.
  intros HN Hfit. revert rng.
  induction n as [|n IH]; intros rng; cbn [avr_jmps].
  { by exists [], rng. }
  pose proof (randint_range 0 0x100 rng ltac:(lia)) as Hr.
  destruct (randint 0 256 rng) as [r rng1]. cbn in Hr.
  set (target := N * 4 + r).
  assert (0 <= target < 2 ^ 16) as Ht by (unfold target; lia).
  rewrite land_mask16, (Z.mod_small target) by lia.
  rewrite Z.shiftr_div_pow2, (Z.div_small target) by lia.
  change (Z.lor (Z.lor 37900 (Z.shiftl (Z.land (Z.land 0 63) 62) 3))
            (Z.land (Z.land 0 63) 1)) with 0x940C.
  rewrite pack_uints_Ok
    by (repeat (apply Forall_cons; split; [lia|]); by apply Forall_nil).
  cbn [mbind result_bind rbind].
  destruct (IH rng1) as (targets & rng' & -> & Hlen & Hall).
  cbn [mbind result_bind rbind].
  exists (target :: targets), rng'. split.
  { cbn [flat_map app fmap list_fmap concat]. by rewrite <- !app_assoc. }
  split; [cbn; by rewrite Hlen|].
  apply Forall_cons. split; [unfold target; lia|done].
Qed.

Lemma avr_rjmps_spec (n : nat) (i N : Z) (rng : Random) :
  exists words rng',
    avr_rjmps n i N rng = Ok (concat (fmap (to_bytes_le 2) words), rng') /\
    length words = n /\
    Forall (fun w => 0xC000 <= w < 0xD000) words.
Proof.
  revert i rng. induction n as [|n IH]; intros i rng; cbn [avr_rjmps].
  { by exists [], rng. }
  destruct (randint 0 32 rng) as [r rng1].
  pose proof (land_ones_range (N - i - 1 + r) 12 ltac:(lia)) as Hm.
  change (2 ^ 12 - 1) with 4095 in Hm.
  change 49152 with (0xC * 2 ^ 12). rewrite lor_high_low by lia.
  set (w := 0xC * 2 ^ 12 + Z.land (N - i - 1 + r) 4095) in *.
  rewrite pack_uint_Ok by (unfold w; lia).
  cbn [mbind result_bind rbind].
  destruct (IH (i + 1) rng1) as (words & rng' & -> & Hlen & Hall).
  cbn [mbind result_bind rbind].
  exists (w :: words), rng'. split; [done|].
  split; [cbn; by rewrite Hlen|].
  apply Forall_cons. split; [unfold w; lia|done].
Qed.

Lemma length_flat_map_pair (a : Z) (l : list Z) :
  length (flat_map (fun t => [a; t]) l) = (2 * length l)%nat.
Proof. induction l as [|t l IH]; cbn; [done|]. rewrite IH. lia. Qed.

(** X3: [avr_vector_table] never raises.  With N of 26, 35 or 57 vectors,
    the header is either 4 N bytes, each vector the 16-bit little-endian
    words 0x940C (JMP) and a target between 4 N and 4 N + 0x100, or 2 N
    bytes, each vector one word 0xCxxx (RJMP); the entry point is the
    header's length, and the metadata names N and the form. *)
Theorem avr_vector_table_vectors (endianness : string) (rng : Random)
  (now : Z) (args : HeaderArgs) :
  exists h rng' N (use_jmp : bool) words,
    avr_vector_table endianness rng now args = Ok (h, rng') /\
    N ∈ [26; 35; 57] /\
    hdr_metadata h
    = [("header_type", MStr "avr_vector_table"); ("num_vectors", MInt N);
       ("use_jmp", MBool use_jmp)] /\
    hdr_data h = concat (fmap (to_bytes_le 2) words) /\
    entry_point_offset h = Z.of_nat (length (hdr_data h)) /\
    if use_jmp then
      Z.of_nat (length (hdr_data h)) = 4 * N /\
      exists targets,
        words = flat_map (fun t => [0x940C; t]) targets /\
        Forall (fun t => 4 * N <= t <= 4 * N + 0x100) targets
    else
      Z.of_nat (length (hdr_data h)) = 2 * N /\
      Forall (fun w => 0xC000 <= w < 0xD000) words.
Proof.
  unfold avr_vector_table.
  destruct (choice true [true; false] rng) as [use_jmp rng1].
  pose proof (choice_elem_of 26 [26; 35; 57] rng1 ltac:(done)) as HN.
  destruct (choice 26 [26; 35; 57] rng1) as [N rng2]. cbn in HN.
  assert (26 <= N <= 57) as HNr.
  { repeat (apply elem_of_cons in HN as [->|HN]; [lia|]).
    by apply elem_of_nil in HN. }
  destruct use_jmp.
  - destruct (avr_jmps_spec (Z.to_nat N) N rng2 ltac:(lia) ltac:(lia))
      as (targets & rng' & -> & Hlen & Hall).
    cbn [mbind result_bind rbind].
    eexists _, rng', N, true, _. split; [reflexivity|].
    cbn [hdr_data hdr_metadata entry_point_offset].
    split; [done|]. split; [done|]. split; [done|]. split; [done|]. split.
    + rewrite (concat_words_length 2) by apply to_bytes_le_length.
      rewrite length_flat_map_pair. lia.
    + by exists targets.
  - destruct (avr_rjmps_spec (Z.to_nat N) 0 N rng2)
      as (words & rng' & -> & Hlen & Hall).
    cbn [mbind result_bind rbind].
    eexists _, rng', N, false, _. split; [reflexivity|].
    cbn [hdr_data hdr_metadata entry_point_offset].
    split; [done|]. split; [done|]. split; [done|]. split; [done|]. split.
    + rewrite (concat_words_length 2) by apply to_bytes_le_length. lia.
    + done.
Qed.

Lemma msp430_vectors_spec (n : nat) (code_base : Z) (rng : Random) :
  length (fst (msp430_vectors n code_base rng)) = n /\
  Forall (fun w => 0 <= w < 2 ^ 16 /\ Z.even w = true)
    (fst (msp430_vectors n code_base rng)).
Proof.
  revert rng. induction n as [|n IH]; intros rng; cbn [msp430_vectors].
  { by split. }
  destruct (randint 0 4096 rng) as [r rng1].
  destruct (IH rng1) as [Hlen Hall].
  destruct (msp430_vectors n code_base rng1) as [rest rng2]. cbn in *.
  split; [by rewrite Hlen|]. apply Forall_cons. split; [|done].
  change 65534 with 0xFFFE. rewrite land_fffe.
  pose proof (Z.mod_pos_bound ((code_base + r) / 2) (2 ^ 15) ltac:(lia)).
  split; [lia|]. apply Z.even_spec. by eexists.
Qed.

(** X4: [msp430_vector_table] never raises; its header is 32 bytes, the
    little-endian 16-bit encoding of sixteen even addresses below 2^16; the
    entry point is 0, not the header's length. *)
Theorem msp430_vector_table_vectors (endianness : string) (rng : Random)
  (now : Z) (args : HeaderArgs) :
  exists h rng' words,
    msp430_vector_table endianness rng now args = Ok (h, rng') /\
    hdr_data h = concat (fmap (to_bytes_le 2) words) /\
    length words = 16%nat /\
    length (hdr_data h) = 32%nat /\
    entry_point_offset h = 0 /\
    Forall (fun w => 0 <= w < 2 ^ 16 /\ Z.even w = true) words.
Proof.
  unfold msp430_vector_table.
  destruct (choice 49152 _ rng) as [code_base rng1].
  destruct (msp430_vectors_spec 16 code_base rng1) as [Hlen Hall].
  destruct (msp430_vectors 16 code_base rng1) as [words rng2].
  cbn in Hlen, Hall.
  rewrite pack_uints_Ok.
  2:{ eapply Forall_impl; [exact Hall|]. cbn. intros w [Hw _]. lia. }
  cbn [mbind result_bind rbind].
  eexists _, rng2, words. split; [reflexivity|].
  cbn [hdr_data entry_point_offset]. split; [done|]. split; [done|].
  split; [|done].
  rewrite (concat_words_length 2) by apply to_bytes_le_length.
  by rewrite Hlen.
Qed.

(** ** The container headers *)

Lemma slice_app_middle (pre mid post : list Z) (a b : Z) :
  0 <= a <= b -> b <= Z.of_nat (length mid) ->
  slice (pre ++ mid ++ post) (Z.of_nat (length pre) + a)
    (Z.of_nat (length pre) + b) = slice mid a b.
Proof.
  intros Hab Hb. unfold slice, slice_index. rewrite !length_app.
  destruct (Z.ltb_spec (Z.of_nat (length pre) + a) 0); [lia|].
  destruct (Z.ltb_spec (Z.of_nat (length pre) + b) 0); [lia|].
  destruct (Z.ltb_spec a 0); [lia|]. destruct (Z.ltb_spec b 0); [lia|].
  rewrite !Z.min_l, !Z.max_r by lia.
  rewrite drop_app_ge by lia.
  replace (Z.to_nat (Z.of_nat (length pre) + a) - length pre)%nat
    with (Z.to_nat a) by lia.
  rewrite drop_app_le by lia.
  rewrite take_app_le by (rewrite length_drop; lia).
  f_equal. lia.
Qed.

Lemma pack_uints_cons_Raised (little : bool) (n : nat) (v : Z)
  (vs : list Z) :
  ~ (0 <= v < 256 ^ Z.of_nat n) ->
  pack_uints little n (v :: vs) = Raised "struct.error".
Proof.
  intros Hv. cbn [pack_uints]. by rewrite pack_uint_Raised.
Qed.

(** X5: [android_boot] returns a header exactly when
    [2048 <= total_size < 2^32 + 2048] and raises [struct.error]
    otherwise (the kernel size [total_size - 2048] is packed as an
    unsigned 32-bit field).  The header is one page of 2048 bytes: the
    magic [ANDROID!], the kernel size at bytes 8..12 and the page size 2048
    at bytes 36..40, both little-endian; the entry point is 2048. *)
Theorem android_boot_header (endianness : string) (rng : Random) (now : Z)
  (args : HeaderArgs) :
  (2048 <= arg_total_size args < 2 ^ 32 + 2048 ->
   exists h rng',
     android_boot endianness rng now args = Ok (h, rng') /\
     length (hdr_data h) = 2048%nat /\
     entry_point_offset h = 2048 /\
     slice (hdr_data h) 0 8 = bytes_of_string "ANDROID!" /\
     from_bytes_le (slice (hdr_data h) 8 12) = arg_total_size args - 2048 /\
     from_bytes_le (slice (hdr_data h) 36 40) = 2048) /\
  (~ (2048 <= arg_total_size args < 2 ^ 32 + 2048) ->
   android_boot endianness rng now args = Raised "struct.error").
Proof.
  unfold android_boot.
  pose proof (choice_elem_of 0 [0; 1] rng ltac:(done)) as Hv.
  destruct (choice 0 [0; 1] rng) as [version rng1]. cbn in Hv.
  pose proof (choice_elem_of [] android_cmdlines rng1 ltac:(done)) as Hc.
  destruct (choice [] android_cmdlines rng1) as [cmdline rng2]. cbn in Hc.
  pose proof (randbytes_length 32 rng2) as Hsha.
  destruct (randbytes 32 rng2) as [sha rng3]. cbn in Hsha.
  split.
  - intros Hsize.
    assert (0 <= version <= 1) as Hvr.
    { repeat (apply elem_of_cons in Hv as [->|Hv]; [lia|]).
      by apply elem_of_nil in Hv. }
    rewrite pack_uints_Ok
      by (repeat (apply Forall_cons; split; [lia|]); by apply Forall_nil).
    cbn [mbind result_bind rbind].
    set (ksize := arg_total_size args - 2048) in *.
    match goal with
    | |- context [concat (fmap _ ?l)] => set (vals := l)
    end.
    set (fields := concat _).
    assert (length fields = 40%nat) as Hfields.
    { unfold fields.
      by rewrite (concat_words_length 4) by apply to_bytes_le_length. }
    set (magic := bytes_of_string "ANDROID!").
    set (cmd := ljust 512 (take 512 cmdline)).
    assert (length cmd = 512%nat) as Hcmd.
    { unfold cmd. rewrite ljust_length, length_take. lia. }
    set (body := magic ++ fields ++ cmd ++ sha ++ replicate 1024 0).
    assert (length body = 1616%nat) as Hbody.
    { unfold body. rewrite !length_app, Hfields, Hcmd, Hsha, length_replicate.
      done. }
    assert (length (ljust (Z.to_nat 2048) body) = 2048%nat) as Hlen.
    { rewrite ljust_length, Hbody. done. }
    eexists _, rng3. split; [reflexivity|].
    cbn [hdr_data entry_point_offset].
    rewrite take_ge by lia.
    split; [exact Hlen|]. split; [done|].
    unfold ljust, body. rewrite <- !app_assoc.
    split; [apply (slice_front magic)|].
    split.
    + change 8 with (Z.of_nat (length magic) + 0) at 1.
      change 12 with (Z.of_nat (length magic) + 4).
      rewrite slice_app_middle by (rewrite ?Hfields; lia).
      change (slice fields 0 4)
        with (slice (concat (to_bytes_le 4 <$> vals)) (Z.of_nat (4 * 0))
                (Z.of_nat (4 * 0) + Z.of_nat 4)).
      rewrite (concat_words_slice 4 (to_bytes_le 4) vals 0 ksize
                 (to_bytes_le_length 4) eq_refl).
      rewrite from_to_bytes_le. apply Z.mod_small. lia.
    + change 36 with (Z.of_nat (length magic) + 28) at 1.
      change 40 with (Z.of_nat (length magic) + 32).
      rewrite slice_app_middle by (rewrite ?Hfields; lia).
      change (slice fields 28 32)
        with (slice (concat (to_bytes_le 4 <$> vals)) (Z.of_nat (4 * 7))
                (Z.of_nat (4 * 7) + Z.of_nat 4)).
      rewrite (concat_words_slice 4 (to_bytes_le 4) vals 7 2048
                 (to_bytes_le_length 4) eq_refl).
      by rewrite from_to_bytes_le.
  - intros Hsize. rewrite pack_uints_cons_Raised; [done|].
    change (256 ^ Z.of_nat 4) with (2 ^ 32). lia.
Qed.

Lemma android_boot_header_witness :
  exists h rng',
    android_boot "little" [] 0 (mkHeaderArgs 4096 0 "arm32") = Ok (h, rng') /\
    length (hdr_data h) = 2048%nat /\
    entry_point_offset h = 2048 /\
    slice (hdr_data h) 0 8 = bytes_of_string "ANDROID!" /\
    from_bytes_le (slice (hdr_data h) 8 12) = 4096 - 2048 /\
    from_bytes_le (slice (hdr_data h) 36 40) = 2048.
Proof.
  apply (proj1 (android_boot_header "little" [] 0
                  (mkHeaderArgs 4096 0 "arm32"))).
  cbn. lia.
Defined.

Lemma pack_uints_Raised (little : bool) (n : nat) (vs : list Z) :
  ~ Forall (fun v => 0 <= v < 256 ^ Z.of_nat n) vs ->
  pack_uints little n vs = Raised "struct.error".
Proof.
  induction vs as [|v vs IH]; intros Hvs.
  { destruct Hvs. constructor. }
  destruct (decide (0 <= v < 256 ^ Z.of_nat n)) as [Hv|Hv].
  - cbn [pack_uints]. rewrite pack_uint_Ok by done.
    cbn [mbind result_bind rbind]. rewrite IH; [done|].
    intros Hall. apply Hvs. by constructor.
  - by apply pack_uints_cons_Raised.
Qed.

(** X6: [qualcomm_mbn] returns a header exactly when [base_addr] fits 32
    bits and [40 <= total_size < 2^32 + 40], and raises [struct.error]
    otherwise.  The header is ten little-endian words: the image id (one
    of 3, 5, 7, 13, 21), version 3, source offset 40, [base_addr],
    [total_size - 40], four zeros and the magic 5; the entry point is
    40. *)
Theorem qualcomm_mbn_header (endianness : string) (rng : Random) (now : Z)
  (args : HeaderArgs) :
  (0 <= arg_base_addr args < 2 ^ 32 /\
   40 <= arg_total_size args < 2 ^ 32 + 40 ->
   exists h rng' id,
     qualcomm_mbn endianness rng now args = Ok (h, rng') /\
     id ∈ [3; 5; 7; 13; 21] /\
     length (hdr_data h) = 40%nat /\
     entry_point_offset h = 40 /\
     fmap (word_at true (hdr_data h)) (seq 0 10)
     = [id; 3; 40; arg_base_addr args; arg_total_size args - 40;
        0; 0; 0; 0; 5]) /\
  (~ (0 <= arg_base_addr args < 2 ^ 32 /\
      40 <= arg_total_size args < 2 ^ 32 + 40) ->
   qualcomm_mbn endianness rng now args = Raised "struct.error").
Proof.
  unfold qualcomm_mbn.
  pose proof (choice_elem_of 3 [3; 5; 7; 13; 21] rng ltac:(done)) as Hid.
  destruct (choice 3 [3; 5; 7; 13; 21] rng) as [id rng1]. cbn in Hid.
  assert (3 <= id <= 21) as Hidr.
  { repeat (apply elem_of_cons in Hid as [->|Hid]; [lia|]).
    by apply elem_of_nil in Hid. }
  set (base := arg_base_addr args). set (total := arg_total_size args).
  set (vals := [id; 3; 40; base; total - 40; 0; 0; 0; 0; 5]).
  split.
  - intros [Hbase Htotal].
    rewrite pack_uints_Ok
      by (repeat (apply Forall_cons; split; [lia|]); by apply Forall_nil).
    cbn [mbind result_bind rbind].
    eexists _, rng1, id. split; [reflexivity|].
    cbn [hdr_data entry_point_offset]. split; [done|]. split.
    { by rewrite (concat_words_length 4) by apply to_bytes_le_length. }
    split; [done|]. cbn [seq fmap list_fmap].
    rewrite (word_at_packed true vals 0 id eq_refl),
      (word_at_packed true vals 1 3 eq_refl),
      (word_at_packed true vals 2 40 eq_refl),
      (word_at_packed true vals 3 base eq_refl),
      (word_at_packed true vals 4 (total - 40) eq_refl),
      (word_at_packed true vals 5 0 eq_refl),
      (word_at_packed true vals 6 0 eq_refl),
      (word_at_packed true vals 7 0 eq_refl),
      (word_at_packed true vals 8 0 eq_refl),
      (word_at_packed true vals 9 5 eq_refl) by lia.
    reflexivity.
  - intros Hnot. rewrite pack_uints_Raised; [done|]. intros Hall.
    apply Forall_cons in Hall as [_ Hall].
    apply Forall_cons in Hall as [_ Hall].
    apply Forall_cons in Hall as [_ Hall].
    apply Forall_cons in Hall as [Hb Hall].
    apply Forall_cons in Hall as [Ht _].
    change (256 ^ Z.of_nat 4) with (2 ^ 32) in Hb, Ht. lia.
Qed.

Lemma qualcomm_mbn_header_witness :
  exists h rng' id,
    qualcomm_mbn "little" [] 0 (mkHeaderArgs 4096 0 "hexagon")
    = Ok (h, rng') /\
    id ∈ [3; 5; 7; 13; 21] /\
    length (hdr_data h) = 40%nat /\
    entry_point_offset h = 40 /\
    fmap (word_at true (hdr_data h)) (seq 0 10)
    = [id; 3; 40; 0; 4096 - 40; 0; 0; 0; 0; 5].
Proof.
  apply (proj1 (qualcomm_mbn_header "little" [] 0
                  (mkHeaderArgs 4096 0 "hexagon"))).
  cbn. lia.
Defined.

(** Side conditions on closed buffers are settled by evaluation. *)
Ltac buf_side :=
  solve [ lia
        | apply (bool_decide_unpack _); vm_compute; exact I
        | vm_compute; reflexivity ].

Ltac pack_step :=
  rewrite pack_into_Ok by buf_side; cbn [mbind result_bind rbind].

(** X7: [opensbi_stub] returns a header exactly when
    [0 <= total_size < 2^32] and raises [struct.error] otherwise; it draws
    nothing.  The header is 48 bytes with entry point 48: the word
    0x0300006F ([jal x0, 48]), the 64-bit little-endian magic, so that
    bytes 4..8 read 2 and bytes 8..12 are the letters [IBSO], then the
    words 48 and [total_size]. *)
Theorem opensbi_stub_header (endianness : string) (rng : Random) (now : Z)
  (args : HeaderArgs) :
  (0 <= arg_total_size args < 2 ^ 32 ->
   exists h,
     opensbi_stub endianness rng now args = Ok (h, rng) /\
     length (hdr_data h) = 48%nat /\
     entry_point_offset h = 48 /\
     word_at true (hdr_data h) 0 = 0x0300006F /\
     word_at true (hdr_data h) 1 = 2 /\
     slice (hdr_data h) 8 12 = bytes_of_string "IBSO" /\
     word_at true (hdr_data h) 3 = 48 /\
     word_at true (hdr_data h) 4 = arg_total_size args) /\
  (~ (0 <= arg_total_size args < 2 ^ 32) ->
   opensbi_stub endianness rng now args = Raised "struct.error").
Proof.
  unfold opensbi_stub. set (total := arg_total_size args).
  do 3 pack_step.
  split.
  - intros Htotal.
    rewrite pack_into_Ok
      by first [ change (256 ^ Z.of_nat 4) with (2 ^ 32); lia | buf_side ].
    cbn [mbind result_bind rbind].
    eexists. split; [reflexivity|]. cbn [hdr_data entry_point_offset].
    split; [vm_compute; reflexivity|]. split; [done|].
    split; [vm_compute; reflexivity|]. split; [vm_compute; reflexivity|].
    split; [vm_compute; reflexivity|]. split; [vm_compute; reflexivity|].
    unfold word_at.
    change (Z.of_nat (4 * 4)) with 16. change (16 + 4) with (16 + Z.of_nat 4).
    rewrite slice_assign_read by buf_side.
    apply (from_bytes_word true 4). change (256 ^ Z.of_nat 4) with (2 ^ 32).
    lia.
  - intros Hnot. rewrite pack_into_Raised; [done|].
    change (256 ^ Z.of_nat 4) with (2 ^ 32). lia.
Qed.

Lemma opensbi_stub_header_witness :
  exists h,
    opensbi_stub "little" [] 0 (mkHeaderArgs 4096 0 "riscv64") = Ok (h, []) /\
    length (hdr_data h) = 48%nat /\
    entry_point_offset h = 48 /\
    word_at true (hdr_data h) 0 = 0x0300006F /\
    word_at true (hdr_data h) 1 = 2 /\
    slice (hdr_data h) 8 12 = bytes_of_string "IBSO" /\
    word_at true (hdr_data h) 3 = 48 /\
    word_at true (hdr_data h) 4 = 4096.
Proof.
  apply (proj1 (opensbi_stub_header "little" [] 0
                  (mkHeaderArgs 4096 0 "riscv64"))).
  cbn. lia.
Defined.

Ltac elem_cases H :=
  repeat (apply elem_of_cons in H as [->|H]); [..|by apply elem_of_nil in H].

(** X8: [bios_boot] never raises; its header is a 512-byte boot sector:
    [EB jmp 90] with [jmp] between 0x3C and 0x58, 512 bytes per sector at
    bytes 11..13, two FATs at byte 16, media descriptor 0xF8 at byte 21 and
    the signature [55 AA] at bytes 510..512; the entry point is
    [jmp + 2]. *)
Theorem bios_boot_sector (endianness : string) (rng : Random) (now : Z)
  (args : HeaderArgs) :
  exists h rng' jmp,
    bios_boot endianness rng now args = Ok (h, rng') /\
    0x3C <= jmp <= 0x58 /\
    length (hdr_data h) = 512%nat /\
    entry_point_offset h = jmp + 2 /\
    take 3 (hdr_data h) = [0xEB; jmp; 0x90] /\
    slice (hdr_data h) 11 13 = [0; 2] /\
    hdr_data h !! 16%nat = Some 2 /\
    hdr_data h !! 21%nat = Some 0xF8 /\
    slice (hdr_data h) 510 512 = [0x55; 0xAA].
Proof.
  unfold bios_boot.
  pose proof (randint_range 0x3C 0x58 rng ltac:(lia)) as Hjmp.
  destruct (randint 60 88 rng) as [jmp rng1]. cbn in Hjmp.
  match goal with
  | |- context [choice [] ?l rng1] =>
      pose proof (choice_elem_of [] l rng1 ltac:(done)) as Hoem;
      destruct (choice [] l rng1) as [oem rng2]
  end.
  cbn in Hoem.
  destruct (choice 1 [1; 2; 4; 8] rng2) as [spc rng3].
  pose proof (choice_elem_of 1 [1; 32] rng3 ltac:(done)) as Hres.
  destruct (choice 1 [1; 32] rng3) as [reserved rng4]. cbn in Hres.
  pose proof (choice_elem_of 0 [0; 512] rng4 ltac:(done)) as Hroot.
  destruct (choice 0 [0; 512] rng4) as [root rng5]. cbn in Hroot.
  assert (0 <= reserved < 256 ^ Z.of_nat 2) as Hresr
    by (elem_cases Hres; done).
  assert (0 <= root < 256 ^ Z.of_nat 2) as Hrootr
    by (elem_cases Hroot; done).
  elem_cases Hoem;
    (pack_step;
     rewrite pack_into_Ok by first [exact Hresr | buf_side];
     cbn [mbind result_bind rbind];
     rewrite pack_into_Ok by first [exact Hrootr | buf_side];
     cbn [mbind result_bind rbind];
     pack_step;
     eexists _, rng5, jmp; split; [reflexivity|];
     cbn [hdr_data entry_point_offset];
     split; [done|]; repeat split; vm_compute; reflexivity).
Qed.

Lemma uefi_machine_range (fam : string) :
  0 <= default 0x8664 (dict_get uefi_machine_map fam) < 256 ^ Z.of_nat 2.
Proof.
  destruct (dict_get uefi_machine_map fam) as [v|] eqn:Hget; [|done].
  apply dict_get_elem_of in Hget.
  assert (Forall (fun kv : string * Z => 0 <= snd kv < 256 ^ Z.of_nat 2)
            uefi_machine_map)
    as Hall by (apply (bool_decide_unpack _); by vm_compute).
  rewrite Forall_forall in Hall. apply (Hall _ Hget).
Qed.

(** X9: [uefi_stub] never raises; its header is 512, 768 or 1024 zeroed
    bytes with [MZ] at 0, the offset 0x80 at bytes 0x3C..0x40, [PE\0\0] at
    0x80, then the COFF fields: the machine of the family (0x8664 for a
    family the table does not have) at 0x84, one section at 0x86, the
    clock reading modulo 2^32 at 0x88, 0xF0 at 0x94 and 0x22 at 0x96, all
    little-endian; the entry point is the header's length. *)
Theorem uefi_stub_header (endianness : string) (rng : Random) (now : Z)
  (args : HeaderArgs) :
  exists h rng' size,
    uefi_stub endianness rng now args = Ok (h, rng') /\
    size ∈ [512; 768; 1024] /\
    Z.of_nat (length (hdr_data h)) = size /\
    entry_point_offset h = size /\
    slice (hdr_data h) 0 2 = bytes_of_string "MZ" /\
    from_bytes_le (slice (hdr_data h) 0x3C 0x40) = 0x80 /\
    slice (hdr_data h) 0x80 0x84 = bytes_of_string "PE" ++ [0; 0] /\
    from_bytes_le (slice (hdr_data h) 0x84 0x86)
    = default 0x8664 (dict_get uefi_machine_map (arg_family_name args)) /\
    from_bytes_le (slice (hdr_data h) 0x86 0x88) = 1 /\
    from_bytes_le (slice (hdr_data h) 0x88 0x8C) = now mod 2 ^ 32 /\
    from_bytes_le (slice (hdr_data h) 0x94 0x96) = 0xF0 /\
    from_bytes_le (slice (hdr_data h) 0x96 0x98) = 0x22.
Proof.
  unfold uefi_stub.
  pose proof (choice_elem_of 512 [512; 768; 1024] rng ltac:(done)) as Hsize.
  destruct (choice 512 [512; 768; 1024] rng) as [size rng1]. cbn in Hsize.
  pose proof (uefi_machine_range (arg_family_name args)) as Hm.
  set (machine := default 34404 _) in *.
  rewrite land_mask32.
  pose proof (mod32_range now) as Hnow. set (ts := now mod 2 ^ 32) in *.
  assert (size ∈ [512; 768; 1024]) as Hsize' by done.
  elem_cases Hsize;
    (pack_step;
     rewrite pack_into_Ok by first [exact Hm | buf_side];
     cbn [mbind result_bind rbind];
     pack_step;
     rewrite pack_into_Ok by first [exact Hnow | buf_side];
     cbn [mbind result_bind rbind];
     do 2 pack_step;
     eexists _, rng1, _; split; [reflexivity|];
     cbn [hdr_data entry_point_offset];
     split; [exact Hsize'|];
     split; [vm_compute; reflexivity|]; split; [done|];
     split; [vm_compute; reflexivity|];
     split; [vm_compute; reflexivity|];
     split; [vm_compute; reflexivity|];
     split;
     [transitivity (from_bytes_le (to_bytes_le 2 machine));
      [f_equal; vm_compute; reflexivity
      |rewrite from_to_bytes_le; apply Z.mod_small; exact Hm]|];
     split; [vm_compute; reflexivity|];
     split;
     [transitivity (from_bytes_le (to_bytes_le 4 ts));
      [f_equal; vm_compute; reflexivity
      |rewrite from_to_bytes_le; apply Z.mod_small; exact Hnow]|];
     split; vm_compute; reflexivity).
Qed.

Lemma bytes_of_string_app (a b : string) :
  bytes_of_string (a +:+ b) = bytes_of_string a ++ bytes_of_string b.
Proof.
  unfold bytes_of_string. rewrite <- fmap_app. f_equal.
  induction a as [|c a IH]; simpl; [done|]. by f_equal.
Qed.

Lemma pretty_length_small (v : Z) :
  0 <= v <= 20 -> (length (bytes_of_string (pretty v)) <= 2)%nat.
Proof.
  intros Hv.
  assert (Forall (fun v : Z => (length (bytes_of_string (pretty v)) <= 2)%nat)
            (seqZ 0 21))
    as Hall by (apply (bool_decide_unpack _); by vm_compute).
  rewrite Forall_forall in Hall. apply Hall, elem_of_seqZ. lia.
Qed.

(** The version string of the TP-Link header. *)
Definition tplink_version (v1 v2 v3 : Z) : list Z :=
  bytes_of_string
    ("ver. " +:+ pretty v1 +:+ "." +:+ pretty v2 +:+ "." +:+ pretty v3).

Lemma tplink_version_length (v1 v2 v3 : Z) :
  1 <= v1 <= 5 -> 0 <= v2 <= 20 -> 0 <= v3 <= 9 ->
  (length (tplink_version v1 v2 v3) <= 13)%nat.
Proof.
  intros H1 H2 H3. unfold tplink_version.
  rewrite !bytes_of_string_app, !length_app.
  pose proof (pretty_length_small v1 ltac:(lia)).
  pose proof (pretty_length_small v2 ltac:(lia)).
  pose proof (pretty_length_small v3 ltac:(lia)).
  cbn [bytes_of_string String.list_ascii_of_string fmap list_fmap length].
  lia.
Qed.

(** X10: [tplink] returns a header exactly when
    [0 <= total_size < 2^32] and raises [struct.error] otherwise.  The
    header is 512 bytes with entry point 512: it starts with one of the
    three vendor names, holds the version string [ver. a.b.c] from byte
    32, a hardware id of the table at bytes 64..68 and [total_size] at
    bytes 68..72, both big-endian. *)
Theorem tplink_header (endianness : string) (rng : Random) (now : Z)
  (args : HeaderArgs) :
  (0 <= arg_total_size args < 2 ^ 32 ->
   exists h rng' vendor v1 v2 v3 hw_id,
     tplink endianness rng now args = Ok (h, rng') /\
     length (hdr_data h) = 512%nat /\
     entry_point_offset h = 512 /\
     vendor ∈ [bytes_of_string "TP-LINK Technologies";
               bytes_of_string "TP-LINK"; bytes_of_string "Archer"] /\
     slice (hdr_data h) 0 (Z.of_nat (length vendor)) = vendor /\
     1 <= v1 <= 5 /\ 0 <= v2 <= 20 /\ 0 <= v3 <= 9 /\
     slice (hdr_data h) 32
       (32 + Z.of_nat (length (tplink_version v1 v2 v3)))
     = tplink_version v1 v2 v3 /\
     hw_id ∈ [0x00000001; 0x07500002; 0x09700001; 0x0C500001] /\
     from_bytes_be (slice (hdr_data h) 64 68) = hw_id /\
     from_bytes_be (slice (hdr_data h) 68 72) = arg_total_size args) /\
  (~ (0 <= arg_total_size args < 2 ^ 32) ->
   tplink endianness rng now args = Raised "struct.error").
Proof.
  unfold tplink. set (total := arg_total_size args).
  match goal with
  | |- context [choice [] ?l rng] =>
      pose proof (choice_elem_of [] l rng ltac:(done)) as Hvendor;
      destruct (choice [] l rng) as [vendor rng1]
  end.
  cbn [fst] in Hvendor.
  pose proof (randint_range 1 5 rng1 ltac:(lia)) as H1.
  destruct (randint 1 5 rng1) as [v1 rng2]. cbn in H1.
  pose proof (randint_range 0 20 rng2 ltac:(lia)) as H2.
  destruct (randint 0 20 rng2) as [v2 rng3]. cbn in H2.
  pose proof (randint_range 0 9 rng3 ltac:(lia)) as H3.
  destruct (randint 0 9 rng3) as [v3 rng4]. cbn in H3.
  fold (tplink_version v1 v2 v3).
  pose proof (tplink_version_length v1 v2 v3 H1 H2 H3) as Hver.
  set (ver := tplink_version v1 v2 v3) in *.
  pose proof (choice_elem_of 1 [1; 122683394; 158334977; 206569473] rng4
                ltac:(done)) as Hhw.
  destruct (choice 1 _ rng4) as [hw_id rng5]. cbn in Hhw.
  assert (0 <= hw_id < 256 ^ Z.of_nat 4) as Hhwr.
  { assert (hw_id ∈ [1; 122683394; 158334977; 206569473]) as H by done.
    elem_cases H; done. }
  pose proof (randbytes_length 16 rng5) as Hmd5.
  destruct (randbytes 16 rng5) as [md5_bytes rng6]. cbn in Hmd5.
  set (h1 := slice_assign (replicate 512 0) 0 (Z.of_nat (length vendor))
               vendor).
  assert (length h1 = 512%nat) as L1.
  { assert (vendor ∈ [bytes_of_string "TP-LINK Technologies";
                      bytes_of_string "TP-LINK"; bytes_of_string "Archer"])
      as H by done.
    unfold h1. elem_cases H; vm_compute; reflexivity. }
  assert (slice h1 0 (Z.of_nat (length vendor)) = vendor) as R1.
  { unfold h1. apply slice_assign_read; [lia| |lia].
    rewrite length_replicate.
    assert (vendor ∈ [bytes_of_string "TP-LINK Technologies";
                      bytes_of_string "TP-LINK"; bytes_of_string "Archer"])
      as H by done.
    elem_cases H; vm_compute; discriminate. }
  assert (Z.of_nat (length vendor) <= 32) as Hvl.
  { assert (vendor ∈ [bytes_of_string "TP-LINK Technologies";
                      bytes_of_string "TP-LINK"; bytes_of_string "Archer"])
      as H by done.
    elem_cases H; vm_compute; discriminate. }
  set (h2 := slice_assign h1 32 (32 + Z.of_nat (length ver)) ver).
  assert (length h2 = 512%nat) as L2.
  { unfold h2. rewrite slice_assign_length; lia. }
  rewrite pack_into_Ok by first [exact Hhwr | lia].
  cbn [mbind result_bind rbind].
  set (h3 := slice_assign h2 64 (64 + Z.of_nat 4) (to_bytes_be 4 hw_id)).
  assert (length h3 = 512%nat) as L3.
  { unfold h3. rewrite slice_assign_length;
      rewrite ?to_bytes_be_length; lia. }
  split.
  - intros Htotal.
    rewrite pack_into_Ok
      by first [change (256 ^ Z.of_nat 4) with (2 ^ 32); lia | lia].
    cbn [mbind result_bind rbind].
    set (h4 := slice_assign h3 68 (68 + Z.of_nat 4) (to_bytes_be 4 total)).
    assert (length h4 = 512%nat) as L4.
    { unfold h4. rewrite slice_assign_length;
        rewrite ?to_bytes_be_length; lia. }
    eexists _, rng6, vendor, v1, v2, v3, hw_id. split; [reflexivity|].
    cbn [hdr_data entry_point_offset]. fold ver.
    split.
    { rewrite slice_assign_length; lia. }
    split; [done|]. split; [done|]. split.
    { rewrite slice_assign_read_other by lia. unfold h4.
      rewrite slice_assign_read_other
        by (rewrite ?to_bytes_be_length; lia).
      unfold h3.
      rewrite slice_assign_read_other
        by (rewrite ?to_bytes_be_length; lia).
      unfold h2. rewrite slice_assign_read_other by lia. exact R1. }
    split; [done|]. split; [done|]. split; [done|]. split.
    { rewrite slice_assign_read_other by lia. unfold h4.
      rewrite slice_assign_read_other
        by (rewrite ?to_bytes_be_length; lia).
      unfold h3.
      rewrite slice_assign_read_other
        by (rewrite ?to_bytes_be_length; lia).
      unfold h2. apply slice_assign_read; lia. }
    split; [done|]. split.
    { rewrite slice_assign_read_other by lia. unfold h4.
      rewrite slice_assign_read_other
        by (rewrite ?to_bytes_be_length; lia).
      unfold h3. change 68 with (64 + Z.of_nat 4) at 1.
      rewrite slice_assign_read by (rewrite ?to_bytes_be_length; lia).
      rewrite from_to_bytes_be. by apply Z.mod_small. }
    rewrite slice_assign_read_other by lia. unfold h4.
    change 72 with (68 + Z.of_nat 4).
    rewrite slice_assign_read by (rewrite ?to_bytes_be_length; lia).
    rewrite from_to_bytes_be. apply Z.mod_small.
    change (256 ^ Z.of_nat 4) with (2 ^ 32). lia.
  - intros Hnot. rewrite pack_into_Raised; [done|].
    change (256 ^ Z.of_nat 4) with (2 ^ 32). lia.
Qed.

Lemma tplink_header_witness :
  exists h rng' vendor v1 v2 v3 hw_id,
    tplink "big" [] 0 (mkHeaderArgs 4096 0 "mips32_be") = Ok (h, rng') /\
    length (hdr_data h) = 512%nat /\
    entry_point_offset h = 512 /\
    vendor ∈ [bytes_of_string "TP-LINK Technologies";
              bytes_of_string "TP-LINK"; bytes_of_string "Archer"] /\
    slice (hdr_data h) 0 (Z.of_nat (length vendor)) = vendor /\
    1 <= v1 <= 5 /\ 0 <= v2 <= 20 /\ 0 <= v3 <= 9 /\
    slice (hdr_data h) 32
      (32 + Z.of_nat (length (tplink_version v1 v2 v3)))
    = tplink_version v1 v2 v3 /\
    hw_id ∈ [0x00000001; 0x07500002; 0x09700001; 0x0C500001] /\
    from_bytes_be (slice (hdr_data h) 64 68) = hw_id /\
    from_bytes_be (slice (hdr_data h) 68 72) = 4096.
Proof.
  apply (proj1 (tplink_header "big" [] 0 (mkHeaderArgs 4096 0 "mips32_be"))).
  cbn. lia.
Defined.

(** X11: [mediatek] draws a size of 512, 1024 or 2048.  It returns a
    header exactly when [size <= total_size < 2^32 + size] and raises
    [struct.error] otherwise.  The header is [size] bytes with entry point
    [size]: it starts with [BRLYT] or [BLOADER], and holds a version
    between 1 and 4 at bytes 8..12, [size] at bytes 12..16 and
    [total_size - size] at bytes 16..20, little-endian. *)
Theorem mediatek_header (endianness : string) (rng : Random) (now : Z)
  (args : HeaderArgs) :
  exists size,
    size ∈ [512; 1024; 2048] /\
    (size <= arg_total_size args < 2 ^ 32 + size ->
     exists h rng' magic,
       mediatek endianness rng now args = Ok (h, rng') /\
       Z.of_nat (length (hdr_data h)) = size /\
       entry_point_offset h = size /\
       magic ∈ [bytes_of_string "BRLYT"; bytes_of_string "BLOADER"] /\
       slice (hdr_data h) 0 (Z.of_nat (length magic)) = magic /\
       1 <= word_at true (hdr_data h) 2 <= 4 /\
       word_at true (hdr_data h) 3 = size /\
       word_at true (hdr_data h) 4 = arg_total_size args - size) /\
    (~ (size <= arg_total_size args < 2 ^ 32 + size) ->
     mediatek endianness rng now args = Raised "struct.error").
Proof.
  unfold mediatek. set (total := arg_total_size args).
  pose proof (choice_elem_of 512 [512; 1024; 2048] rng ltac:(done)) as Hsize.
  destruct (choice 512 [512; 1024; 2048] rng) as [size rng1].
  cbn [fst] in Hsize.
  match goal with
  | |- context [choice [] ?l rng1] =>
      pose proof (choice_elem_of [] l rng1 ltac:(done)) as Hmagic;
      destruct (choice [] l rng1) as [magic rng2]
  end.
  cbn [fst] in Hmagic.
  pose proof (randint_range 1 4 rng2 ltac:(lia)) as Hv.
  destruct (randint 1 4 rng2) as [version rng3]. cbn [fst] in Hv.
  assert (0 <= version < 256 ^ Z.of_nat 4) as Hvr
    by (change (256 ^ Z.of_nat 4) with (2 ^ 32); lia).
  match goal with
  | |- context [choice [] ?l rng3] =>
      pose proof (choice_elem_of [] l rng3 ltac:(done)) as Hdev;
      destruct (choice [] l rng3) as [dev_info rng4]
  end.
  cbn [fst] in Hdev.
  exists size. split; [done|].
  assert (magic ∈ [bytes_of_string "BRLYT"; bytes_of_string "BLOADER"])
    as Hmagic' by done.
  elem_cases Hsize; elem_cases Hmagic; elem_cases Hdev;
    (rewrite pack_into_Ok by first [exact Hvr | buf_side];
     cbn [mbind result_bind rbind]; pack_step;
     split;
     [intros Htotal;
      rewrite pack_into_Ok
        by first [change (256 ^ Z.of_nat 4) with (2 ^ 32); lia | buf_side];
      cbn [mbind result_bind rbind];
      eexists _, rng4, _; split; [reflexivity|];
      cbn [hdr_data entry_point_offset];
      split; [vm_compute; reflexivity|]; split; [done|];
      split; [exact Hmagic'|];
      split; [vm_compute; reflexivity|];
      split;
      [replace (word_at true _ 2) with (from_bytes_le (to_bytes_le 4 version))
         by (unfold word_at, from_bytes; f_equal; vm_compute; reflexivity);
       rewrite from_to_bytes_le, Z.mod_small by exact Hvr; lia|];
      split; [vm_compute; reflexivity|];
      match goal with
      | |- _ = ?v =>
          transitivity (from_bytes_le (to_bytes_le 4 v));
          [unfold word_at, from_bytes; f_equal; vm_compute; reflexivity
          |rewrite from_to_bytes_le; apply Z.mod_small;
           change (256 ^ Z.of_nat 4) with (2 ^ 32); lia]
      end
     |intros Hnot; rewrite pack_into_Raised; [done|];
      change (256 ^ Z.of_nat 4) with (2 ^ 32); lia]).
Qed.

(** ** The anatomy of a layout *)

Lemma align_up_pad (v a : Z) :
  small_alignment a -> align_up v a - v <= a - 1.
Proof.
  intros [->|[->| ->]].
  - unfold align_up. cbn. lia.
  - change 2 with (2 ^ 1). rewrite align_up_pow2 by lia.
    change (2 ^ 1) with 2.
    pose proof (Z.div_mod (v + 2 - 1) 2 ltac:(lia)).
    pose proof (Z.mod_pos_bound (v + 2 - 1) 2 ltac:(lia)). lia.
  - change 4 with (2 ^ 2). rewrite align_up_pow2 by lia.
    change (2 ^ 2) with 4.
    pose proof (Z.div_mod (v + 4 - 1) 4 ltac:(lia)).
    pose proof (Z.mod_pos_bound (v + 4 - 1) 4 ltac:(lia)). lia.
Qed.

(** A section of the body of an image: neither the header nor the
    trailer placeholder. *)
Definition body_section (s : SectionSpec) : Prop :=
  section_type s <> HEADER /\ section_type s <> TRAILER.

(** The bytes the alignment of the Code sections may have cost: one less
    than the alignment, for each of them. *)
Definition pad_allowance (secs : list SectionSpec) : Z :=
  foldr (fun s acc =>
           (if decide (section_type s = CODE) then sec_alignment s - 1
            else 0) + acc) 0 secs.

Lemma pad_allowance_app (l1 l2 : list SectionSpec) :
  pad_allowance (l1 ++ l2) = pad_allowance l1 + pad_allowance l2.
Proof.
  induction l1 as [|s l1 IH]; [done|]. cbn [app pad_allowance foldr].
  fold (pad_allowance (l1 ++ l2)). fold (pad_allowance l1). lia.
Qed.

Lemma pad_allowance_other (s : SectionSpec) :
  section_type s <> CODE -> pad_allowance [s] = 0.
Proof. intros Hs. cbn. by destruct (decide (section_type s = CODE)). Qed.

Lemma pad_allowance_code (s : SectionSpec) :
  section_type s = CODE -> pad_allowance [s] = sec_alignment s - 1.
Proof.
  intros Hs. cbn. destruct (decide (section_type s = CODE)); [lia|done].
Qed.

Lemma body_section_non_code (cursor sz : Z) (t : SectionType)
  (ps : FillParams) :
  t ∈ [PADDING; STRING_TABLE; FILESYSTEM; RANDOM; RODATA] ->
  body_section (mkSectionSpec cursor sz t 1 None ps) /\
  pad_allowance [mkSectionSpec cursor sz t 1 None ps] = 0.
Proof.
  intros Ht.
  elem_cases Ht; (split; [by split|by apply pad_allowance_other]).
Qed.

Section LayoutBudget.

Variable eng : LayoutEngine.

(** What the two loops keep, besides [loop_inv]: the budgets are not
    overdrawn, what is placed and what is still budgeted exceed the space
    before the trailer by the alignment allowance at most, and only body
    sections are added after [secs0]. *)
Record budget_inv (limit : Z) (secs0 : list SectionSpec) (st : LoopState)
  : Prop := mk_budget_inv {
  bi_code : 0 <= st_code_remaining st;
  bi_noncode : 0 <= st_noncode_budget st;
  bi_sum :
    st_cursor st + st_code_remaining st + st_noncode_budget st
    <= limit + pad_allowance (st_sections st);
  bi_allowance : 0 <= pad_allowance (st_sections st);
  bi_body :
    exists added,
      st_sections st = secs0 ++ added /\ Forall body_section added;
}.

Lemma bi_body_snoc (secs0 secs : list SectionSpec) (s : SectionSpec) :
  (exists added, secs = secs0 ++ added /\ Forall body_section added) ->
  body_section s ->
  exists added, secs ++ [s] = secs0 ++ added /\ Forall body_section added.
Proof.
  intros (added & -> & Hall) Hs. exists (added ++ [s]).
  split; [by rewrite app_assoc|]. apply Forall_app. split; [done|].
  by apply Forall_singleton.
Qed.

Lemma code_iter_budget (limit : Z) (secs0 : list SectionSpec)
  (st st' : LoopState) :
  budget_inv limit secs0 st ->
  code_iter eng st = Continue st' \/ code_iter eng st = Break st' ->
  budget_inv limit secs0 st'.
Proof.
  intros [Hcr Hnb Hsum Hpa0 Hbody] Hstep. unfold code_iter in Hstep.
  destruct (st_code_remaining st <? 64) eqn:Hrem.
  { destruct Hstep as [Hs|Hs]; [done|]. injection Hs as <-. by split. }
  destruct (st_family_queue st) as [|fam rest] eqn:Hqueue.
  { by destruct Hstep. }
  destruct (get_random_blob (blob_index eng) fam (st_rng st))
    as [[blob|] r1] eqn:Hblob.
  2:{ destruct (filter (λ f : string, f ≠ fam) (rest ++ [fam]));
        destruct Hstep as [Hs|Hs]; try done;
        injection Hs as <-; by split. }
  destruct (choice 1 [1; 1; 1; 2; 3] r1) as [multiplier r2].
  fold (alignment_of fam) in Hstep.
  set (ssz := if st_code_remaining st <? _ then _ else _) in Hstep.
  assert (ssz <= st_code_remaining st) as Hssz_le.
  { unfold ssz.
    match goal with |- (if ?a <? ?b then _ else _) <= _ =>
      destruct (Z.ltb_spec a b); lia end. }
  destruct (ssz <? 4) eqn:Hssz.
  { destruct Hstep as [Hs|Hs]; [done|]. injection Hs as <-. by split. }
  pose proof (alignment_of_small fam) as Hsmall.
  pose proof (align_up_ge (st_cursor st) _ Hsmall) as Hge.
  pose proof (align_up_pad (st_cursor st) _ Hsmall) as Hpad.
  set (ac := align_up (st_cursor st) (alignment_of fam)) in *.
  assert (exists secs,
    (if st_cursor st <? ac
     then (st_sections st ++ [ff_padding (st_cursor st) (ac - st_cursor st)],
           ac)
     else (st_sections st, st_cursor st)) = (secs, ac) /\
    pad_allowance secs = pad_allowance (st_sections st) /\
    exists added, secs = secs0 ++ added /\ Forall body_section added)
    as (secs & Heq & Hpa & Hbody2).
  { destruct (Z.ltb_spec (st_cursor st) ac).
    - eexists. split; [done|]. split.
      + rewrite pad_allowance_app, pad_allowance_other by done. lia.
      + apply bi_body_snoc; [done|]. by split.
    - exists (st_sections st).
      split; [by replace ac with (st_cursor st) by lia|]. by split. }
  rewrite Heq in Hstep. clear Heq.
  set (code := mkSectionSpec ac ssz CODE _ _ _) in Hstep.
  assert (pad_allowance (secs ++ [code])
          = pad_allowance (st_sections st) + (alignment_of fam - 1))
    as Hpa3.
  { rewrite pad_allowance_app, Hpa, pad_allowance_code by done. done. }
  assert (exists added,
            secs ++ [code] = secs0 ++ added /\ Forall body_section added)
    as Hbody3.
  { apply bi_body_snoc; [done|]. by split. }
  destruct (random r2) as [x r3].
  destruct (Qltb x (3 # 10) && (64 <=? st_noncode_budget st)) eqn:Hnc.
  - destruct (pick_non_code_section r3 (st_noncode_budget st))
      as [[[t sz] ps] r4] eqn:Hpick.
    apply pick_non_code_section_spec in Hpick as [Ht Hsz].
    destruct Hstep as [Hs|Hs]; [|done]. injection Hs as <-.
    destruct (body_section_non_code (ac + ssz)
                (Z.min sz (st_noncode_budget st)) t ps Ht) as [Hb Hz].
    assert (1 <= alignment_of fam) as Hal
      by (destruct Hsmall as [->|[->| ->]]; lia).
    split; cbn [st_code_remaining st_noncode_budget st_cursor st_sections].
    + lia.
    + lia.
    + rewrite pad_allowance_app, Hpa3, Hz. lia.
    + rewrite pad_allowance_app, Hpa3, Hz. lia.
    + by apply bi_body_snoc.
  - destruct Hstep as [Hs|Hs]; [|done]. injection Hs as <-.
    assert (1 <= alignment_of fam) as Hal
      by (destruct Hsmall as [->|[->| ->]]; lia).
    split; cbn [st_code_remaining st_noncode_budget st_cursor st_sections].
    + lia.
    + lia.
    + rewrite Hpa3. lia.
    + rewrite Hpa3. lia.
    + done.
Qed.

Lemma code_loop_budget (limit : Z) (secs0 : list SectionSpec) (fuel : nat)
  (st st' : LoopState) :
  budget_inv limit secs0 st -> code_loop eng fuel st = Ok st' ->
  budget_inv limit secs0 st'.
Proof.
  revert st. induction fuel as [|fuel IH]; intros st Hinv; cbn [code_loop];
    destruct (code_iter eng st) as [st1|st1|e] eqn:Hiter; try done.
  - intros [= <-]. eapply code_iter_budget; eauto.
  - intros [= <-]. eapply code_iter_budget; eauto.
  - apply IH. eapply code_iter_budget; eauto.
  - intros [= <-]. eapply code_iter_budget; eauto.
Qed.

Lemma fill_iter_budget (limit : Z) (secs0 : list SectionSpec)
  (st st' : LoopState) :
  budget_inv limit secs0 st ->
  fill_iter limit st = Continue st' \/ fill_iter limit st = Break st' ->
  budget_inv limit secs0 st'.
Proof.
  intros [Hcr Hnb Hsum Hpa0 Hbody]. unfold fill_iter.
  destruct (Z.leb_spec 32 (st_noncode_budget st)) as [Hbud|Hbud]; cbn.
  2:{ intros [?|[= <-]]; [done|]. by split. }
  destruct (Z.ltb_spec (st_cursor st) limit) as [Hcur|Hcur].
  2:{ intros [?|[= <-]]; [done|]. by split. }
  destruct (pick_non_code_section (st_rng st) (st_noncode_budget st))
    as [[[t sz] ps] r1] eqn:Hpick.
  apply pick_non_code_section_spec in Hpick as [Ht Hsz].
  match goal with |- context [if ?a <? 16 then _ else _] =>
    set (nc := a); destruct (Z.ltb_spec nc 16) as [Hsmall|Hbig] end.
  { intros [?|[= <-]]; [done|]. by split. }
  intros [[= <-]|?]; [|done].
  destruct (body_section_non_code (st_cursor st) nc t ps Ht) as [Hb Hz].
  split; cbn [st_code_remaining st_noncode_budget st_cursor st_sections].
  - lia.
  - unfold nc. lia.
  - rewrite pad_allowance_app, Hz. lia.
  - rewrite pad_allowance_app, Hz. lia.
  - by apply bi_body_snoc.
Qed.

Lemma fill_loop_budget (limit : Z) (secs0 : list SectionSpec) (fuel : nat)
  (st : LoopState) :
  budget_inv limit secs0 st ->
  budget_inv limit secs0 (fill_loop limit fuel st).
Proof.
  revert st. induction fuel as [|fuel IH]; intros st Hinv; cbn [fill_loop];
    destruct (fill_iter limit st) as [st1|st1|e] eqn:Hiter; try done.
  - eapply fill_iter_budget; eauto.
  - eapply fill_iter_budget; eauto.
  - apply IH. eapply fill_iter_budget; eauto.
  - eapply fill_iter_budget; eauto.
Qed.

End LayoutBudget.

Lemma int_of_float_le (q : Q) (u : Z) :
  (0 <= q)%Q -> (q <= inject_Z u)%Q -> int_of_float q <= u.
Proof.
  unfold Qle, int_of_float. cbn. intros H0 Hu.
  rewrite Z.quot_div_nonneg by lia.
  apply Z.div_le_upper_bound; lia.
Qed.

(** The code budget of step 5b lies between 0 and the usable size. *)
Lemma code_budget_range (usable : Z) (rng : Random) :
  0 <= usable ->
  0 <= int_of_float
         (inject_Z usable * fst (uniform (3 # 10) (7 # 10) rng)) <= usable.
Proof.
  intros Hu. unfold uniform, random.
  destruct (next_raw rng) as [x r]. cbn [fst].
  pose proof (Z.mod_pos_bound x (2 ^ 53) ltac:(lia)) as Hx.
  set (n := x mod 2 ^ 53) in *.
  split.
  - apply int_of_float_nonneg. unfold Qle. cbn. nia.
  - apply int_of_float_le; unfold Qle; cbn; nia.
Qed.

Section LayoutAnatomy.

Variable log2f : Z -> Q.
Variable exp2f : Q -> Q.
Variable eng : LayoutEngine.

(** The header placeholder and the trailer placeholder of a layout. *)
Definition header_placeholder (header_type : string) : list SectionSpec :=
  let header_size := default 64 (dict_get header_sizes header_type) in
  if 0 <? header_size then
    [mkSectionSpec 0 header_size HEADER 1 None
       (mkFillParams (Some header_type) None None None None None None None
          None None)]
  else [].

Definition trailer_placeholder (trailer_type : string) (cursor : Z)
  : list SectionSpec :=
  let trailer_size := default 0 (dict_get TRAILER_SIZES trailer_type) in
  if 0 <? trailer_size then
    [mkSectionSpec cursor trailer_size TRAILER 1 None
       (mkFillParams None None None None None None None None None
          (Some trailer_type))]
  else [].

Lemma pick_header_type_elem_of (p : string) (fi : IsaFamily) (rng : Random) :
  dict_get ISA_FAMILIES p = Some fi ->
  fst (pick_header_type p rng) ∈ "bare" :: header_types fi.
Proof.
  intros Hfi. unfold pick_header_type. rewrite Hfi.
  destruct (header_types fi) as [|h hs] eqn:Hh; [apply list_elem_of_here|].
  apply list_elem_of_further. by apply choice_elem_of.
Qed.

Lemma generate_layout_anatomy (rng : Random) (seq : Z) (p : string)
  (forced : option (list string)) (fi : IsaFamily) (l : ImageLayout) :
  dict_get ISA_FAMILIES p = Some fi ->
  generate_layout log2f exp2f eng rng seq (Some p) forced = Ok l ->
  header_type l ∈ "bare" :: header_types fi /\
  trailer_type l ∈ fmap fst TRAILER_WEIGHTS /\
  (exists body cursor,
     sections l
     = header_placeholder (header_type l) ++ body
       ++ trailer_placeholder (trailer_type l) cursor /\
     Forall body_section body) /\
  exists e,
    contiguous_from 0 (sections l) = Some e /\
    total_size l <= e <= total_size l + pad_allowance (sections l).
Proof.
  intros Hfi. unfold generate_layout. rewrite Hfi.
  match goal with |- context [match ?e with (a, b) => _ end] =>
    destruct e as [all_families r1] eqn:Hfams end.
  assert (all_families <> []) as Hne.
  { destruct forced as [secs|].
    - by injection Hfams as <- <-.
    - destruct (random rng) as [x r0].
      destruct (Qltb x (multi_isa_probability (eng_config eng))).
      + destruct (pick_secondary_isas eng p r0) as [secs r0'].
        by injection Hfams as <- <-.
      + by injection Hfams as <- <-. }
  clear Hfams.
  pose proof (pick_header_type_elem_of p fi r1 Hfi) as Hht.
  destruct (pick_header_type p r1) as [ht r2]. cbn [fst] in Hht.
  pose proof (weighted_choice_elem_of "" TRAILER_WEIGHTS r2 ltac:(done))
    as Htt.
  fold (pick_trailer_type r2) in Htt.
  destruct (pick_trailer_type r2) as [tt r3]. cbn [fst] in Htt.
  pose proof (trailer_size_nonneg tt) as Htsz.
  unfold trailer_placeholder, header_placeholder.
  set (trailer_size := default 0 (dict_get TRAILER_SIZES tt)) in *.
  destruct (pick_total_size log2f exp2f eng r3) as [[ts r4]|e]; [|done].
  pose proof (header_size_nonneg ht) as Hhsz.
  set (header_size := default 64 (dict_get header_sizes ht)) in *.
  match goal with |- context [match ?e with (a, b) => _ end] =>
    destruct e as [secs0 cursor0] eqn:Hhdr end.
  assert (contiguous_from 0 secs0 = Some cursor0 /\ 0 <= cursor0 /\
          pad_allowance secs0 = 0 /\
          secs0 = (if 0 <? header_size
                   then [mkSectionSpec 0 header_size HEADER 1 None
                           (mkFillParams (Some ht) None None None None None
                              None None None None)]
                   else []))
    as (Hc0 & Hcur0 & Hpa0 & Hsecs0).
  { destruct (Z.ltb_spec 0 header_size); injection Hhdr as <- <-.
    - split; [|split; [lia|by split]].
      cbn. destruct (Z.ltb_spec 0 header_size); [done|lia].
    - by repeat split. }
  clear Hhdr.
  match goal with |- context [match ?e with (a, b) => _ end] =>
    destruct e as [total usable] eqn:Hbud end.
  assert (total = cursor0 + trailer_size + usable /\ 64 <= usable)
    as [Htotal Husable].
  { destruct (Z.ltb_spec (ts - cursor0 - trailer_size) 64);
      injection Hbud as <- <-; lia. }
  clear Hbud.
  pose proof (code_budget_range usable r4 ltac:(lia)) as Hcb.
  destruct (uniform (3 # 10) (7 # 10) r4) as [cf r5]. cbn [fst] in Hcb.
  set (code_budget := int_of_float _) in *.
  set (st0 := mkLoopState r5 secs0 cursor0 code_budget _ all_families).
  set (limit := total - trailer_size).
  assert (Forall (code_section_ok (blob_index eng) all_families) secs0)
    as Hk0.
  { rewrite Hsecs0. destruct (0 <? header_size); [|apply Forall_nil_2].
    apply Forall_singleton. intros Hc. discriminate. }
  destruct (code_loop_Ok eng all_families (code_measure st0) st0)
    as (st1 & Hloop & Hinv1); [by split|done|].
  rewrite Hloop. fold limit.
  assert (budget_inv limit secs0 st0) as Hb0.
  { split; unfold st0;
      cbn [st_code_remaining st_noncode_budget st_cursor st_sections].
    - lia.
    - lia.
    - unfold limit. lia.
    - lia.
    - exists []. by rewrite app_nil_r. }
  pose proof (code_loop_budget eng limit secs0 _ st0 st1 Hb0 Hloop) as Hb1.
  pose proof (fill_loop_budget limit secs0 (fill_measure st1) st1 Hb1)
    as [Hcr2 Hnb2 Hsum2 Hpa2 (added & Hadded & Hbody2)].
  destruct (fill_loop_inv eng all_families limit (fill_measure st1) st1 Hinv1)
    as ([Hc2 _ _] & _ & _).
  set (st2 := fill_loop limit (fill_measure st1) st1) in *.
  match goal with |- context [match ?e with (a, b) => _ end] =>
    destruct e as [secs3 cursor3] eqn:Hgap end.
  assert (exists body,
            secs3 = secs0 ++ body /\ Forall body_section body /\
            contiguous_from 0 secs3 = Some cursor3 /\
            limit <= cursor3 <= limit + pad_allowance secs3)
    as (body & Hsecs3 & Hbody3 & Hc3 & Hcur3).
  { destruct (Z.ltb_spec 0 (limit - st_cursor st2));
      injection Hgap as <- <-.
    - exists (added ++ [ff_padding (st_cursor st2) (limit - st_cursor st2)]).
      split; [by rewrite Hadded, app_assoc|]. split.
      { apply Forall_app. split; [done|]. by apply Forall_singleton. }
      split; [eapply contiguous_from_snoc; eauto|].
      rewrite pad_allowance_app, pad_allowance_other by done.
      lia.
    - exists added. split; [done|]. split; [done|]. split; [done|]. lia. }
  clear Hgap.
  intros [= <-]. cbn [header_type trailer_type sections total_size].
  fold header_size trailer_size.
  split; [done|]. split; [done|]. split.
  { exists body, cursor3. rewrite <- Hsecs0, app_assoc, <- Hsecs3.
    split; [|done]. destruct (0 <? trailer_size); [done|].
    by rewrite app_nil_r. }
  destruct (Z.ltb_spec 0 trailer_size).
  - exists (cursor3 + trailer_size). split.
    + eapply contiguous_from_snoc; eauto.
    + rewrite pad_allowance_app, pad_allowance_other by done.
      unfold limit in Hcur3. lia.
  - exists cursor3. split; [done|]. unfold limit in Hcur3. lia.
Qed.

End LayoutAnatomy.

Lemma pad_allowance_unaligned (secs : list SectionSpec) :
  Forall (fun s => section_type s = CODE -> sec_alignment s = 1) secs ->
  pad_allowance secs = 0.
Proof.
  induction 1 as [|s secs Hs _ IH]; [done|].
  cbn [pad_allowance foldr]. fold (pad_allowance secs). rewrite IH.
  destruct (decide (section_type s = CODE)) as [Hc|]; [|done].
  rewrite (Hs Hc). done.
Qed.

(** X12: in every layout [generate_layout] returns the sections lie end
    to end from offset 0 and end at or after [total_size], past it by no
    more than the alignment allowance: one byte less than its alignment
    for each Code section.  Where every Code section has alignment 1, the
    sections tile [0, total_size) exactly. *)
Theorem generate_layout_end_bound (log2f : Z -> Q) (exp2f : Q -> Q)
  (eng : LayoutEngine) (rng : Random) (seq : Z) (primary : option string)
  (forced : option (list string)) (l : ImageLayout) :
  generate_layout log2f exp2f eng rng seq primary forced = Ok l ->
  exists e,
    contiguous_from 0 (sections l) = Some e /\
    total_size l <= e <= total_size l + pad_allowance (sections l) /\
    (Forall (fun s => section_type s = CODE -> sec_alignment s = 1)
       (sections l) -> tiles_exactly l).
Proof.
  intros Hl0.
  destruct (generate_layout_primary _ _ _ _ _ _ _ _ Hl0)
    as (rng' & p & Hl). clear Hl0 rng. rename rng' into rng.
  destruct (generate_layout_Ok log2f exp2f eng rng seq p forced l Hl)
    as ([_ _ Htotal] & _).
  destruct (dict_get ISA_FAMILIES p) as [fi|] eqn:Hfi.
  2:{ unfold generate_layout in Hl. by rewrite Hfi in Hl. }
  destruct (generate_layout_anatomy log2f exp2f eng rng seq p forced fi l
              Hfi Hl) as (_ & _ & _ & e & He & Hbound).
  exists e. split; [done|]. split; [done|].
  intros Hal. rewrite (pad_allowance_unaligned _ Hal) in Hbound.
  assert (e = total_size l) as Heq by lia. subst e. split; [|done].
  intros Hnil. rewrite Hnil in He. cbn in He. injection He as He. lia.
Qed.

Lemma generate_layout_end_bound_witness :
  exists l,
    generate_layout log2_exact exp2_exact example_engine overshoot_draws 0
      (Some "thumb") (Some ["arm32"]) = Ok l /\
    exists e,
      contiguous_from 0 (sections l) = Some e /\
      total_size l <= e <= total_size l + pad_allowance (sections l) /\
      (Forall (fun s => section_type s = CODE -> sec_alignment s = 1)
         (sections l) -> tiles_exactly l).
Proof.
  eexists. split; [vm_compute; reflexivity|].
  apply (generate_layout_end_bound log2_exact exp2_exact example_engine
           overshoot_draws 0 (Some "thumb") (Some ["arm32"])).
  vm_compute. reflexivity.
Defined.

(** X13: in every layout [generate_layout] returns the header
    placeholder, a Header section at offset 0 of the planned size of the
    header type, comes first and is there exactly when that size is
    positive; the trailer placeholder, a Trailer section of the trailer's
    size, comes last and is there exactly when that size is positive; no
    section between them is a Header or a Trailer. *)
Theorem generate_layout_placeholders (log2f : Z -> Q) (exp2f : Q -> Q)
  (eng : LayoutEngine) (rng : Random) (seq : Z) (primary : option string)
  (forced : option (list string)) (l : ImageLayout) :
  generate_layout log2f exp2f eng rng seq primary forced = Ok l ->
  exists body cursor,
    sections l
    = header_placeholder (header_type l) ++ body
      ++ trailer_placeholder (trailer_type l) cursor /\
    Forall body_section body.
Proof.
  intros Hl0.
  destruct (generate_layout_primary _ _ _ _ _ _ _ _ Hl0)
    as (rng' & p & Hl). clear Hl0 rng. rename rng' into rng.
  destruct (dict_get ISA_FAMILIES p) as [fi|] eqn:Hfi.
  2:{ unfold generate_layout in Hl. by rewrite Hfi in Hl. }
  destruct (generate_layout_anatomy log2f exp2f eng rng seq p forced fi l
              Hfi Hl) as (_ & _ & (body & cursor & Hsecs & Hbody) & _).
  by exists body, cursor.
Qed.

Lemma generate_layout_placeholders_witness :
  exists l,
    generate_layout log2_exact exp2_exact arm32_only_engine
      [2 ^ 52; 1; 0; 0; 2 ^ 52; 0; 0; 2 ^ 52] 0 (Some "arm32") None = Ok l /\
    exists body cursor,
      sections l
      = header_placeholder (header_type l) ++ body
        ++ trailer_placeholder (trailer_type l) cursor /\
      Forall body_section body.
Proof.
  eexists. split; [vm_compute; reflexivity|].
  apply (generate_layout_placeholders log2_exact exp2_exact
           arm32_only_engine [2 ^ 52; 1; 0; 0; 2 ^ 52; 0; 0; 2 ^ 52] 0
           (Some "arm32") None).
  vm_compute. reflexivity.
Defined.

Lemma header_types_registered :
  Forall (fun kv =>
            Forall (fun ht =>
                      is_Some (dict_get HEADER_REGISTRY ht) /\
                      is_Some (dict_get header_sizes ht))
              ("bare" :: header_types (snd kv)))
    ISA_FAMILIES.
Proof.
  unfold ISA_FAMILIES.
  repeat (apply Forall_cons; split;
          [cbn [snd header_types];
           repeat (apply Forall_cons; split;
                   [split; eexists; reflexivity|]);
           by apply Forall_nil|]).
  by apply Forall_nil.
Qed.

(** X14: the header type of every layout [generate_layout] returns is
    [bare] or one of the header types the database lists for the layout's
    primary family, and its trailer type is one of [crc32], [md5],
    [sha256], [none]; both are names the registries of the header and
    trailer generators know, and the header type has a planned size, so
    that assembling the layout never raises [Unknown header type] or
    [Unknown trailer type]. *)
Theorem generate_layout_registered_types (log2f : Z -> Q) (exp2f : Q -> Q)
  (eng : LayoutEngine) (rng : Random) (seq : Z) (primary : option string)
  (forced : option (list string)) (l : ImageLayout) :
  generate_layout log2f exp2f eng rng seq primary forced = Ok l ->
  exists fi,
    dict_get ISA_FAMILIES (primary_isa l) = Some fi /\
    header_type l ∈ "bare" :: header_types fi /\
    trailer_type l ∈ ["crc32"; "md5"; "sha256"; "none"] /\
    is_Some (dict_get HEADER_REGISTRY (header_type l)) /\
    is_Some (dict_get header_sizes (header_type l)) /\
    is_Some (dict_get TRAILER_REGISTRY (trailer_type l)).
Proof.
  intros Hl0.
  destruct (generate_layout_primary _ _ _ _ _ _ _ _ Hl0)
    as (rng' & p & Hl). clear Hl0 rng. rename rng' into rng.
  destruct (dict_get ISA_FAMILIES p) as [fi|] eqn:Hfi.
  2:{ unfold generate_layout in Hl. by rewrite Hfi in Hl. }
  destruct (generate_layout_Ok log2f exp2f eng rng seq p forced l Hl)
    as (_ & Hprimary & _).
  destruct (generate_layout_anatomy log2f exp2f eng rng seq p forced fi l
              Hfi Hl) as (Hht & Htt & _).
  exists fi. rewrite Hprimary. split; [done|]. split; [done|].
  split; [done|].
  pose proof header_types_registered as Hreg.
  rewrite Forall_forall in Hreg.
  specialize (Hreg _ (dict_get_elem_of _ _ _ Hfi)). cbn [snd] in Hreg.
  rewrite Forall_forall in Hreg. destruct (Hreg _ Hht) as [H1 H2].
  split; [done|]. split; [done|].
  change (TRAILER_WEIGHTS.*1) with ["crc32"; "md5"; "sha256"; "none"] in Htt.
  elem_cases Htt; by eexists.
Qed.

Lemma generate_layout_registered_types_witness :
  exists l,
    generate_layout log2_exact exp2_exact arm32_only_engine
      [2 ^ 52; 1; 0; 0; 2 ^ 52; 0; 0; 2 ^ 52] 0 None None = Ok l /\
    exists fi,
      dict_get ISA_FAMILIES (primary_isa l) = Some fi /\
      header_type l ∈ "bare" :: header_types fi /\
      trailer_type l ∈ ["crc32"; "md5"; "sha256"; "none"] /\
      is_Some (dict_get HEADER_REGISTRY (header_type l)) /\
      is_Some (dict_get header_sizes (header_type l)) /\
      is_Some (dict_get TRAILER_REGISTRY (trailer_type l)).
Proof.
  eexists. split; [vm_compute; reflexivity|].
  apply (generate_layout_registered_types log2_exact exp2_exact
           arm32_only_engine [2 ^ 52; 1; 0; 0; 2 ^ 52; 0; 0; 2 ^ 52] 0
           None None).
  vm_compute. reflexivity.
Defined.

(** ** What the worker writes into a section *)

Lemma slice_assign_lookup_in (buf data : list Z) (i j : Z) (k : nat) :
  0 <= i <= j -> j <= Z.of_nat (length buf) ->
  (k < length data)%nat ->
  slice_assign buf i j data !! (Z.to_nat i + k)%nat = data !! k.
Proof.
  intros Hij Hj Hk. rewrite slice_assign_in_bounds by lia.
  rewrite lookup_app_r by (rewrite length_take; lia).
  rewrite length_take.
  replace (Z.to_nat i + k - Z.to_nat i `min` length buf)%nat with k by lia.
  by apply lookup_app_l.
Qed.

Lemma slice_take (buf : list Z) (n : Z) :
  0 <= n -> slice buf 0 n = take (Z.to_nat n) buf.
Proof.
  intros Hn. unfold slice, slice_index.
  destruct (Z.ltb_spec n 0); [lia|]. cbn [Z.ltb Z.compare].
  replace (Z.to_nat (Z.min 0 (Z.of_nat (length buf)))) with 0%nat by lia.
  rewrite drop_0.
  destruct (Z.le_ge_cases n (Z.of_nat (length buf))).
  - f_equal. lia.
  - rewrite !take_ge by lia. done.
Qed.

Lemma fill_code_spec (fuel : nat) (image code_data : list Z)
  (offset size written : Z) :
  code_data <> [] -> 0 <= offset -> 0 <= written <= size ->
  offset + size <= Z.of_nat (length image) ->
  written mod Z.of_nat (length code_data) = 0 \/ written = size ->
  size - written <= Z.of_nat fuel ->
  (forall k : nat, Z.of_nat k < written ->
     image !! (Z.to_nat offset + k)%nat
     = code_data !! (k mod length code_data)%nat) ->
  forall k : nat, Z.of_nat k < size ->
    fill_code fuel image code_data offset size written
      !! (Z.to_nat offset + k)%nat
    = code_data !! (k mod length code_data)%nat.
Proof.
  intros Hne Ho. revert image written.
  induction fuel as [|fuel IH]; intros image written Hw Hfit Hmul Hfuel Hdone;
    cbn [fill_code].
  { intros k Hk. apply Hdone. lia. }
  destruct (Z.ltb_spec written size) as [Hlt|Hge].
  2:{ intros k Hk. apply Hdone. lia. }
  assert (0 < length code_data)%nat as Hlen
    by (destruct code_data; [done|cbn; lia]).
  rewrite slice_take by lia.
  set (chunk := take (Z.to_nat (size - written)) code_data).
  assert (length chunk = Nat.min (Z.to_nat (size - written))
                           (length code_data)) as Hchunk
    by apply length_take.
  destruct Hmul as [Hmul|Hmul]; [|lia].
  apply Z.mod_divide in Hmul as [m Hm]; [|lia].
  apply IH.
  - lia.
  - rewrite slice_assign_length; [done|lia..].
  - destruct (decide (Z.to_nat (size - written) <= length code_data)%nat).
    + right. lia.
    + left. replace (written + Z.of_nat (length chunk))
        with ((m + 1) * Z.of_nat (length code_data)) by lia.
      apply Z.mod_mul. lia.
  - lia.
  - intros k Hk.
    destruct (decide (Z.of_nat k < written)) as [Hold|Hnew].
    + rewrite slice_assign_lookup_other by lia. by apply Hdone.
    + replace (Z.to_nat offset + k)%nat
        with (Z.to_nat (offset + written) + (k - Z.to_nat written))%nat
        by lia.
      rewrite slice_assign_lookup_in by lia.
      unfold chunk. rewrite lookup_take_lt by lia. f_equal.
      assert (k = Z.to_nat m * length code_data + (k - Z.to_nat written))%nat
        as Hk' by nia.
      rewrite Hk' at 2.
      rewrite Nat.add_comm, Nat.Div0.mod_add. symmetry.
      apply Nat.mod_small. lia.
Qed.

Lemma read_bytes_exists (tree : FileTree) (p : list string) (data : list Z) :
  read_bytes tree p = Some data -> path_exists tree p = true.
Proof.
  unfold read_bytes, path_exists. intros Hread.
  destruct (list_find _ (ft_files tree)) as [[i f]|] eqn:Hfind; [|done].
  apply list_find_Some in Hfind as (Hi & Hf & _).
  apply orb_true_iff. right. apply existsb_exists. exists f. split.
  - apply list_elem_of_In. by eapply list_elem_of_lookup_2.
  - unfold is_prefix_path. apply bool_decide_eq_true. rewrite Hf.
    by rewrite take_ge.
Qed.

(** ** Slice assignment on a buffer that may grow *)

(** [img[offset:offset + len(data)] = data] on a bytearray [img], with
    [img'] the buffer afterwards.  When the slice starts inside the buffer
    or at its end, [data] lies at [offset], every byte outside the slice
    is kept (and none is added there), and the buffer ends where the
    longer of buffer and slice ends: it grows when the slice ends past
    its end.  When the slice starts past the end, [data] is appended. *)
Definition written_at (offset : Z) (data img img' : list Z) : Prop :=
  (offset <= Z.of_nat (length img) ->
   Z.of_nat (length img')
   = Z.max (Z.of_nat (length img)) (offset + Z.of_nat (length data)) /\
   (forall k : nat, (k < length data)%nat ->
      img' !! (Z.to_nat offset + k)%nat = data !! k) /\
   (forall k : nat,
      ~ (offset <= Z.of_nat k < offset + Z.of_nat (length data)) ->
      img' !! k = img !! k)) /\
  (Z.of_nat (length img) < offset -> img' = img ++ data).

Lemma slice_assign_written (buf data : list Z) (i j : Z) :
  0 <= i -> j = i + Z.of_nat (length data) ->
  written_at i data buf (slice_assign buf i j data).
Proof.
  intros Hi ->. unfold slice_assign, slice_index.
  destruct (Z.ltb_spec i 0); [lia|].
  destruct (Z.ltb_spec (i + Z.of_nat (length data)) 0); [lia|].
  set (len := Z.of_nat (length buf)).
  set (i' := Z.min i len).
  set (j' := Z.max i' (Z.min (i + Z.of_nat (length data)) len)).
  assert (length (take (Z.to_nat i') buf) = Z.to_nat i') as Htake.
  { rewrite length_take. lia. }
  split.
  - intros Hin. assert (i' = i) as Hi' by lia.
    split; [|split].
    + rewrite !length_app, Htake, length_drop. lia.
    + intros k Hk. rewrite lookup_app_r by lia.
      rewrite Htake, Hi'.
      replace (Z.to_nat i + k - Z.to_nat i)%nat with k by lia.
      by apply lookup_app_l.
    + intros k Hout.
      destruct (decide (Z.of_nat k < i)) as [Hlt|Hge].
      * rewrite lookup_app_l by lia. apply lookup_take_lt. lia.
      * assert (i + Z.of_nat (length data) <= Z.of_nat k) by lia.
        rewrite lookup_app_r by lia. rewrite lookup_app_r by lia.
        rewrite lookup_drop, Htake.
        destruct (decide (i + Z.of_nat (length data) <= len)).
        -- f_equal. lia.
        -- rewrite !lookup_ge_None_2; [done|lia..].
  - intros Hout. assert (i' = len /\ j' = len) as [Hi' Hj'] by lia.
    rewrite Hi', Hj'. unfold len. rewrite Nat2Z.id, take_ge, drop_ge by lia.
    by rewrite app_nil_r.
Qed.

Lemma written_at_nil (offset : Z) (img : list Z) :
  written_at offset [] img img.
Proof.
  split.
  - intros Hin. cbn [length]. split; [lia|]. split; [|done].
    intros k Hk. cbn in Hk. lia.
  - intros _. by rewrite app_nil_r.
Qed.

(** Two writes one after the other are the write of both. *)
Lemma written_at_app (offset : Z) (d1 d2 img img1 img2 : list Z) :
  0 <= offset ->
  written_at offset d1 img img1 ->
  written_at (offset + Z.of_nat (length d1)) d2 img1 img2 ->
  written_at offset (d1 ++ d2) img img2.
Proof.
  intros Ho [Hin1 Hout1] [Hin2 Hout2]. split.
  - intros Hin. destruct (Hin1 Hin) as (Hl1 & Hd1 & Hk1).
    destruct Hin2 as (Hl2 & Hd2 & Hk2); [lia|].
    rewrite length_app, Nat2Z.inj_add. split; [lia|]. split.
    + intros k Hk.
      destruct (decide (k < length d1)%nat) as [Hlt|Hge].
      * rewrite lookup_app_l by done. rewrite Hk2 by lia. by apply Hd1.
      * rewrite lookup_app_r by lia.
        replace (Z.to_nat offset + k)%nat
          with (Z.to_nat (offset + Z.of_nat (length d1))
                + (k - length d1))%nat by lia.
        apply Hd2. lia.
    + intros k Hk. rewrite Hk2, Hk1; [done|lia..].
  - intros Hout. rewrite (Hout1 Hout) in *.
    rewrite Hout2; [by rewrite app_assoc|].
    rewrite length_app. lia.
Qed.

(** The loop that fills a Code section writes the blob over and over,
    the last copy cut to fit. *)
Lemma fill_code_written (fuel : nat) (image code_data : list Z)
  (offset size written : Z) :
  code_data <> [] -> 0 <= offset -> 0 <= written <= size ->
  written mod Z.of_nat (length code_data) = 0 \/ written = size ->
  size - written <= Z.of_nat fuel ->
  exists data,
    Z.of_nat (length data) = size - written /\
    (forall k : nat, (k < length data)%nat ->
       data !! k
       = code_data !! ((Z.to_nat written + k) mod length code_data)%nat) /\
    written_at (offset + written) data image
      (fill_code fuel image code_data offset size written).
Proof.
  intros Hne Ho. revert image written.
  induction fuel as [|fuel IH]; intros image written Hw Hmul Hfuel;
    cbn [fill_code].
  { exists []. split; [cbn; lia|]. split; [|apply written_at_nil].
    intros k Hk. cbn in Hk. lia. }
  destruct (Z.ltb_spec written size) as [Hlt|Hge].
  2:{ exists []. split; [cbn; lia|]. split; [|apply written_at_nil].
      intros k Hk. cbn in Hk. lia. }
  assert (0 < length code_data)%nat as Hlen
    by (destruct code_data; [done|cbn; lia]).
  destruct Hmul as [Hmul|?]; [|lia].
  set (chunk := slice code_data 0 (size - written)).
  assert (chunk = take (Z.to_nat (size - written)) code_data) as Hchunk
    by (apply slice_take; lia).
  assert (length chunk
          = (Z.to_nat (size - written) `min` length code_data)%nat)
    as Hclen by (by rewrite Hchunk, length_take).
  destruct (IH (slice_assign image (offset + written)
                  (offset + written + Z.of_nat (length chunk)) chunk)
              (written + Z.of_nat (length chunk)))
    as (rest & Hrlen & Hrest & Hwr); [lia| |lia|].
  { destruct (decide (Z.of_nat (length code_data) <= size - written)).
    - left. replace (Z.of_nat (length chunk))
        with (Z.of_nat (length code_data)) by lia.
      rewrite Z.add_mod, Hmul, Z.mod_same by lia. done.
    - right. lia. }
  exists (chunk ++ rest). split; [rewrite length_app; lia|]. split.
  - intros k Hk. rewrite length_app in Hk.
    assert (Z.to_nat written mod length code_data = 0)%nat as Hmod.
    { apply Nat2Z.inj. rewrite Nat2Z.inj_mod, Z2Nat.id by lia. done. }
    destruct (decide (k < length chunk)%nat) as [Hk1|Hk2].
    + rewrite lookup_app_l by done. rewrite Hchunk, lookup_take_lt by lia.
      f_equal. rewrite Nat.Div0.add_mod, Hmod, Nat.add_0_l.
      rewrite Nat.Div0.mod_mod. symmetry. apply Nat.mod_small. lia.
    + rewrite lookup_app_r by lia. rewrite Hrest by lia. f_equal. f_equal.
      lia.
  - apply (written_at_app _ chunk rest _
             (slice_assign image (offset + written)
                (offset + written + Z.of_nat (length chunk)) chunk));
      [lia| |].
    + apply slice_assign_written; lia.
    + rewrite Z.add_assoc in Hwr. exact Hwr.
Qed.

(** X15: a Code section (offset and size not negative) whose blob file
    exists and is not empty receives the blob repeated from its start, the
    last copy cut to fit: [sec_size] bytes, byte [k] being byte
    [k mod len(blob)] of the blob, assigned to
    [image[offset:offset + size]].  A section that ends past the end of the
    buffer makes the buffer grow.  The step draws nothing and records the
    planned offset, size, family and provenance. *)
Theorem code_section_repeats_blob (tree : FileTree) (now : Z)
  (layout : ImageLayout) (st : Assembly) (section : SectionSpec)
  (fam : string) (blob : list Z) :
  section_type section = CODE -> isa_family section = Some fam ->
  read_bytes tree (blob_path_of section fam) = Some blob -> blob <> [] ->
  0 <= offset section -> 0 <= sec_size section ->
  exists st' data,
    assemble_section tree now layout st section = Ok st' /\
    asm_rng st' = asm_rng st /\
    Z.of_nat (length data) = sec_size section /\
    (forall k : nat, (k < length data)%nat ->
       data !! k = blob !! (k mod length blob)%nat) /\
    written_at (offset section) data (asm_image st) (asm_image st') /\
    asm_sections st'
    = asm_sections st ++ [missing_blob_entry section fam].
Proof.
  intros Htype Hfam Hread Hne Ho Hs.
  pose proof (read_bytes_exists _ _ _ Hread) as Hex.
  unfold assemble_section. rewrite Htype, Hfam.
  fold (blob_path_of section fam). rewrite Hex, Hread.
  cbn [mbind result_bind rbind].
  destruct blob as [|b blob']; [done|].
  set (blob := b :: blob') in *.
  destruct (fill_code_written (Z.to_nat (sec_size section)) (asm_image st)
              blob (offset section) (sec_size section) 0 Hne Ho)
    as (data & Hlen & Hdata & Hwr); [lia|by left|lia|].
  eexists _, data. split; [reflexivity|].
  cbn [asm_rng asm_image asm_sections].
  split; [done|]. split; [lia|]. split; [exact Hdata|]. split; [|done].
  by rewrite Z.add_0_r in Hwr.
Qed.

(** The last Code section of the 1024-byte layout above, arm32 at
    940..1026, written into the buffer of 1024 bytes: the buffer grows to
    1026 bytes. *)
Lemma code_section_repeats_blob_witness :
  exists st' data,
    assemble_section x86_arm_tree 0 outgrow_layout
      (mkAssembly (replicate 1024 0xFF) [] []) outgrow_last_code
    = Ok st' /\
    asm_rng st' = [] /\
    Z.of_nat (length data) = 86 /\
    (forall k : nat, (k < length data)%nat ->
       data !! k = replicate 100 0xE1 !! (k mod 100)%nat) /\
    written_at 940 data (replicate 1024 0xFF) (asm_image st') /\
    asm_sections st'
    = [] ++ [missing_blob_entry outgrow_last_code "arm32"].
Proof.
  apply (code_section_repeats_blob x86_arm_tree 0 outgrow_layout
           (mkAssembly (replicate 1024 0xFF) [] []) outgrow_last_code
           "arm32" (replicate 100 0xE1)).
  - reflexivity.
  - reflexivity.
  - vm_compute. reflexivity.
  - vm_compute. discriminate.
  - vm_compute. discriminate.
  - vm_compute. discriminate.
Defined.

(** X16: a Padding section (offset and size not negative) is filled with
    its fill byte (0xFF when the parameters name none): the step raises
    [ValueError] when the byte is not in 0..255, and otherwise assigns
    [size] copies of the byte to [image[offset:offset + size]], draws
    nothing and records the planned offset and size with the pattern's
    name.  A section that ends past the end of the buffer makes the buffer
    grow. *)
Theorem padding_section_filled (tree : FileTree) (now : Z)
  (layout : ImageLayout) (st : Assembly) (section : SectionSpec) :
  section_type section = PADDING ->
  0 <= offset section -> 0 <= sec_size section ->
  let fill_byte := default 0xFF (fp_fill_byte (fill_params section)) in
  (0 <= fill_byte <= 255 ->
   exists st',
     assemble_section tree now layout st section = Ok st' /\
     asm_rng st' = asm_rng st /\
     written_at (offset section)
       (replicate (Z.to_nat (sec_size section)) fill_byte)
       (asm_image st) (asm_image st') /\
     asm_sections st'
     = asm_sections st ++
       [mkActualSection (offset section) (sec_size section) "padding" None
          (Some [("pattern",
                  MStr (default "0xFF"
                          (fp_pattern (fill_params section))))])
          None None None]) /\
  (~ (0 <= fill_byte <= 255) ->
   assemble_section tree now layout st section = Raised "ValueError").
Proof.
  intros Htype Ho Hs fill_byte. unfold assemble_section.
  rewrite Htype. fold fill_byte. split.
  - intros Hbyte.
    destruct (Z.ltb_spec fill_byte 0); [lia|].
    destruct (Z.ltb_spec 255 fill_byte); [lia|]. cbn [orb].
    eexists. split; [reflexivity|]. cbn [asm_rng asm_image asm_sections].
    split; [done|]. split; [|done].
    apply slice_assign_written; [done|]. rewrite length_replicate. lia.
  - intros Hbyte.
    destruct (Z.ltb_spec fill_byte 0); [done|].
    destruct (Z.ltb_spec 255 fill_byte); [done|]. lia.
Qed.

(** A Padding section at 194..258 written into a buffer of 256 bytes. *)
Lemma padding_section_filled_witness :
  (0 <= 0xFF <= 255 ->
   exists st',
     assemble_section x86_arm_tree 0 outgrow_layout
       (mkAssembly (replicate 256 0) [] []) (ff_padding 194 64) = Ok st' /\
     asm_rng st' = [] /\
     written_at 194 (replicate (Z.to_nat 64) 0xFF) (replicate 256 0)
       (asm_image st') /\
     asm_sections st'
     = [] ++
       [mkActualSection 194 64 "padding" None
          (Some [("pattern", MStr "0xFF")]) None None None]) /\
  (~ (0 <= 0xFF <= 255) ->
   assemble_section x86_arm_tree 0 outgrow_layout
     (mkAssembly (replicate 256 0) [] []) (ff_padding 194 64)
   = Raised "ValueError").
Proof.
  apply (padding_section_filled x86_arm_tree 0 outgrow_layout
           (mkAssembly (replicate 256 0) [] []) (ff_padding 194 64)).
  - reflexivity.
  - vm_compute. discriminate.
  - vm_compute. discriminate.
Defined.

(** X17: a Filesystem section (offset not negative) receives the magic
    of its type (four zero bytes for a type [_FS_MAGICS] does not have,
    [squashfs] when the parameters name none) followed by
    [size - len(magic)] bytes drawn from the generator: the step raises
    [ValueError] when the section is shorter than the magic, and otherwise
    assigns magic and drawn bytes to [image[offset:offset + size]], leaves
    the generator where the draw left it and records the planned offset
    and size with the type.  A section that ends past the end of the
    buffer makes the buffer grow. *)
Theorem filesystem_section_magic (tree : FileTree) (now : Z)
  (layout : ImageLayout) (st : Assembly) (section : SectionSpec) :
  section_type section = FILESYSTEM ->
  0 <= offset section ->
  let fs_type := default "squashfs" (fp_fs_type (fill_params section)) in
  let magic := default [0; 0; 0; 0] (dict_get FS_MAGICS fs_type) in
  let drawn :=
    randbytes (Z.to_nat (sec_size section - Z.of_nat (length magic)))
      (asm_rng st) in
  (Z.of_nat (length magic) <= sec_size section ->
   exists st',
     assemble_section tree now layout st section = Ok st' /\
     asm_rng st' = snd drawn /\
     Z.of_nat (length (magic ++ fst drawn)) = sec_size section /\
     written_at (offset section) (magic ++ fst drawn)
       (asm_image st) (asm_image st') /\
     asm_sections st'
     = asm_sections st ++
       [mkActualSection (offset section) (sec_size section) "filesystem"
          None (Some [("fs_type", MStr fs_type)]) None None None]) /\
  (sec_size section < Z.of_nat (length magic) ->
   assemble_section tree now layout st section = Raised "ValueError").
Proof.
  intros Htype Ho. unfold assemble_section.
  rewrite Htype. cbv zeta.
  generalize (default "squashfs" (fp_fs_type (fill_params section))).
  intros fs_type.
  generalize (default [0; 0; 0; 0] (dict_get FS_MAGICS fs_type)).
  intros magic. unfold randbytes_checked. split.
  - intros Hsize.
    destruct (Z.ltb_spec (sec_size section - Z.of_nat (length magic)) 0);
      [lia|].
    pose proof (randbytes_length
                  (Z.to_nat (sec_size section - Z.of_nat (length magic)))
                  (asm_rng st)) as Hlen.
    destruct (randbytes _ (asm_rng st)) as [rand_data rng1].
    cbn [fst snd] in *. cbn [mbind result_bind rbind].
    eexists. split; [reflexivity|]. cbn [asm_rng asm_image asm_sections].
    split; [done|]. split; [rewrite length_app; lia|]. split; [|done].
    eapply written_at_app; [done| |].
    + apply slice_assign_written; [done|reflexivity].
    + apply slice_assign_written; lia.
  - intros Hsize.
    destruct (Z.ltb_spec (sec_size section - Z.of_nat (length magic)) 0);
      [done|lia].
Qed.

(** A Filesystem section at 130..258 written into a buffer of 256
    bytes. *)
Lemma filesystem_section_magic_witness :
  (Z.of_nat (length (bytes_of_string "hsqs")) <= 128 ->
   exists st',
     assemble_section x86_arm_tree 0 outgrow_layout
       (mkAssembly (replicate 256 0xFF) [7; 8; 9] [])
       (mkSectionSpec 130 128 FILESYSTEM 1 None no_params) = Ok st' /\
     asm_rng st'
     = snd (randbytes
              (Z.to_nat (128 - Z.of_nat (length (bytes_of_string "hsqs"))))
              [7; 8; 9]) /\
     Z.of_nat
       (length
          (bytes_of_string "hsqs" ++
           fst (randbytes
                  (Z.to_nat
                     (128 - Z.of_nat (length (bytes_of_string "hsqs"))))
                  [7; 8; 9]))) = 128 /\
     written_at 130
       (bytes_of_string "hsqs" ++
        fst (randbytes
               (Z.to_nat (128 - Z.of_nat (length (bytes_of_string "hsqs"))))
               [7; 8; 9]))
       (replicate 256 0xFF) (asm_image st') /\
     asm_sections st'
     = [] ++
       [mkActualSection 130 128 "filesystem" None
          (Some [("fs_type", MStr "squashfs")]) None None None]) /\
  (128 < Z.of_nat (length (bytes_of_string "hsqs")) ->
   assemble_section x86_arm_tree 0 outgrow_layout
     (mkAssembly (replicate 256 0xFF) [7; 8; 9] [])
     (mkSectionSpec 130 128 FILESYSTEM 1 None no_params)
   = Raised "ValueError").
Proof.
  apply (filesystem_section_magic x86_arm_tree 0 outgrow_layout
           (mkAssembly (replicate 256 0xFF) [7; 8; 9] [])
           (mkSectionSpec 130 128 FILESYSTEM 1 None no_params)).
  - reflexivity.
  - vm_compute. discriminate.
Defined.

(** The call of [generate_header] in the worker: byte order and base
    address of the primary family (little-endian and 0 for a family the
    database does not have). *)
Definition header_call (layout : ImageLayout) (rng : Random) (now : Z)
  : result (HeaderResult * Random) :=
  let family_info := dict_get ISA_FAMILIES (primary_isa layout) in
  generate_header (header_type layout)
    (match family_info with Some fi => endianness fi | None => "little" end)
    rng now
    (mkHeaderArgs (total_size layout)
       (match family_info with
        | Some fi => typical_base_addr fi
        | None => 0
        end)
       (primary_isa layout)).

(** X18: the Header section receives the generated header cut to the
    section's planned size: with [actual] the smaller of the header's
    length and the planned size, the step writes the first [actual] bytes
    of the header at the section's offset, leaves every other byte, and
    records [actual] as the size, with the generator's metadata; an
    exception of the generator is the step's. *)
Theorem header_section_cut_to_plan (tree : FileTree) (now : Z)
  (layout : ImageLayout) (st : Assembly) (section : SectionSpec) :
  section_type section = HEADER ->
  0 <= offset section -> 0 <= sec_size section ->
  offset section + sec_size section <= Z.of_nat (length (asm_image st)) ->
  match header_call layout (asm_rng st) now with
  | Raised e => assemble_section tree now layout st section = Raised e
  | Ok (res, rng') =>
      let actual :=
        Z.min (Z.of_nat (length (hdr_data res))) (sec_size section) in
      exists st',
        assemble_section tree now layout st section = Ok st' /\
        asm_rng st' = rng' /\
        length (asm_image st') = length (asm_image st) /\
        slice (asm_image st') (offset section) (offset section + actual)
        = take (Z.to_nat actual) (hdr_data res) /\
        (forall k : nat,
           ~ (offset section <= Z.of_nat k < offset section + actual) ->
           asm_image st' !! k = asm_image st !! k) /\
        asm_sections st'
        = asm_sections st ++
          [mkActualSection (offset section) actual "header" None
             (Some (hdr_metadata res)) None None None]
  end.
Proof.
  intros Htype Ho Hs Hfit. unfold assemble_section, header_call.
  rewrite Htype.
  destruct (generate_header _ _ _ _ _) as [[res rng']|e]; [|done].
  cbn [mbind result_bind rbind]. cbv zeta.
  set (actual := Z.min (Z.of_nat (length (hdr_data res))) (sec_size section)).
  assert (Z.of_nat (length (slice (hdr_data res) 0 actual)) = actual)
    as Hlen by (apply slice_length; lia).
  eexists. split; [reflexivity|]. cbn [asm_rng asm_image asm_sections].
  split; [done|]. split; [apply slice_assign_length; lia|]. split.
  - rewrite slice_assign_read by lia. apply slice_take. lia.
  - split; [|done]. intros k Hk.
    apply slice_assign_lookup_other; lia.
Qed.

Definition cortexm_layout : ImageLayout :=
  mkImageLayout "fw_cortexm" 1024 "arm32" "vector_table_cortexm" "none"
    [mkSectionSpec 0 64 HEADER 1 None no_params] ["arm32"] 0.

Lemma header_section_cut_to_plan_witness :
  match header_call cortexm_layout [3] 0 with
  | Raised e =>
      assemble_section x86_arm_tree 0 cortexm_layout
        (mkAssembly (replicate 1024 0xFF) [3] [])
        (mkSectionSpec 0 64 HEADER 1 None no_params) = Raised e
  | Ok (res, rng') =>
      let actual := Z.min (Z.of_nat (length (hdr_data res))) 64 in
      exists st',
        assemble_section x86_arm_tree 0 cortexm_layout
          (mkAssembly (replicate 1024 0xFF) [3] [])
          (mkSectionSpec 0 64 HEADER 1 None no_params) = Ok st' /\
        asm_rng st' = rng' /\
        length (asm_image st') = 1024%nat /\
        slice (asm_image st') 0 (0 + actual)
        = take (Z.to_nat actual) (hdr_data res) /\
        (forall k : nat,
           ~ (0 <= Z.of_nat k < 0 + actual) ->
           asm_image st' !! k = replicate 1024 0xFF !! k) /\
        asm_sections st'
        = [] ++
          [mkActualSection 0 actual "header" None
             (Some (hdr_metadata res)) None None None]
  end.
Proof.
  apply (header_section_cut_to_plan x86_arm_tree 0 cortexm_layout
           (mkAssembly (replicate 1024 0xFF) [3] [])
           (mkSectionSpec 0 64 HEADER 1 None no_params)).
  - reflexivity.
  - vm_compute. discriminate.
  - vm_compute. discriminate.
  - vm_compute. discriminate.
Defined.

(** ** The sidecar against the layout *)

(** What the entry of the sidecar says of the section it was written for:
    the planned offset and type, the family of a Code section and none
    otherwise, and the planned size, or no more than it for a Header. *)
Definition entry_reports (s : SectionSpec) (a : ActualSection) : Prop :=
  as_offset a = offset s /\
  as_type a = SectionType_value (section_type s) /\
  as_isa_family a
  = (if decide (section_type s = CODE) then isa_family s else None) /\
  if decide (section_type s = HEADER) then as_size a <= sec_size s
  else as_size a = sec_size s.

Definition non_trailer (secs : list SectionSpec) : list SectionSpec :=
  filter (fun s => section_type s <> TRAILER) secs.

Lemma assemble_section_entry tree now layout st s st' :
  assemble_section tree now layout st s = Ok st' ->
  exists more,
    asm_sections st' = asm_sections st ++ more /\
    Forall2 entry_reports (non_trailer [s]) more.
Proof.
  intros Hrun. unfold assemble_section in Hrun.
  unfold non_trailer. rewrite filter_cons, filter_nil.
  destruct (section_type s) eqn:Htype;
    [rewrite decide_True by done..|rewrite decide_False by (by intros H)].
  - destruct (generate_header _ _ _ _ _) as [[res rng1]|e]; [|done].
    injection Hrun as <-. eexists. split; [reflexivity|].
    constructor; [|constructor].
    unfold entry_reports. rewrite Htype.
    rewrite decide_False, decide_True by done. cbn. repeat split. lia.
  - destruct (isa_family s) as [fam|] eqn:Hfam; [|done].
    destruct (if path_exists tree _ then _ else _) as [[[[cd t] p] c]|e];
      [|done].
    cbn in Hrun. injection Hrun as <-. eexists. split; [reflexivity|].
    constructor; [|constructor].
    unfold entry_reports. rewrite Htype, Hfam.
    rewrite decide_True, decide_False by done. by cbn.
  - destruct (_ || _); [done|]. injection Hrun as <-.
    eexists. split; [reflexivity|].
    constructor; [|constructor].
    unfold entry_reports. rewrite Htype.
    rewrite !decide_False by done. by cbn.
  - destruct (string_table_fill _ _ _ _) as [buf rng1].
    injection Hrun as <-. eexists. split; [reflexivity|].
    constructor; [|constructor].
    unfold entry_reports. rewrite Htype.
    rewrite !decide_False by done. by cbn.
  - destruct (randbytes_checked _ _) as [[rand_data rng1]|e]; [|done].
    injection Hrun as <-. eexists. split; [reflexivity|].
    constructor; [|constructor].
    unfold entry_reports. rewrite Htype.
    rewrite !decide_False by done. by cbn.
  - destruct (randbytes_checked _ _) as [[rand_data rng1]|e]; [|done].
    injection Hrun as <-. eexists. split; [reflexivity|].
    constructor; [|constructor].
    unfold entry_reports. rewrite Htype.
    rewrite !decide_False by done. by cbn.
  - destruct (rodata_fill _ _ _ _) as [buf rng1].
    injection Hrun as <-. eexists. split; [reflexivity|].
    constructor; [|constructor].
    unfold entry_reports. rewrite Htype.
    rewrite !decide_False by done. by cbn.
  - injection Hrun as <-. exists []. rewrite app_nil_r.
    split; [done|constructor].
Qed.

Lemma assemble_sections_entry tree now layout secs st st' :
  assemble_sections tree now layout st secs = Ok st' ->
  exists more,
    asm_sections st' = asm_sections st ++ more /\
    Forall2 entry_reports (non_trailer secs) more.
Proof.
  revert st. induction secs as [|s secs IH]; intros st Hrun.
  - injection Hrun as <-. exists []. rewrite app_nil_r.
    split; [done|constructor].
  - cbn [assemble_sections] in Hrun.
    destruct (assemble_section tree now layout st s) as [st1|e] eqn:Hs;
      [|done]. cbn in Hrun.
    apply assemble_section_entry in Hs as (m1 & Hm1 & Hf1).
    apply IH in Hrun as (m2 & Hm2 & Hf2). exists (m1 ++ m2).
    split; [by rewrite Hm2, Hm1, app_assoc|].
    change (s :: secs) with ([s] ++ secs). unfold non_trailer.
    rewrite filter_app. by apply Forall2_app.
Qed.

(** The entry appended for the trailer: none for the type [none]. *)
Definition trailer_reported (layout : ImageLayout)
  (more : list ActualSection) : Prop :=
  if decide (trailer_type layout = "none") then more = []
  else
    exists a, more = [a] /\
      as_offset a
      = total_size layout - get_trailer_size (trailer_type layout) /\
      as_size a = get_trailer_size (trailer_type layout) /\
      as_type a = "trailer" /\ as_isa_family a = None.

Lemma write_trailer_entry layout st st' :
  write_trailer layout st = Ok st' ->
  exists more,
    asm_sections st' = asm_sections st ++ more /\
    trailer_reported layout more.
Proof.
  intros Hrun. unfold write_trailer in Hrun. unfold trailer_reported.
  destruct (String.eqb_spec (trailer_type layout) "none") as [Hn|Hn].
  { injection Hrun as <-. exists []. rewrite app_nil_r.
    by destruct (decide _). }
  destruct (generate_trailer _ _) as [r|e] eqn:Hr; [|done].
  apply generate_trailer_inv in Hr as [_ Hlen]; [|done].
  cbn in Hrun. injection Hrun as <-. eexists. split; [reflexivity|].
  destruct (decide _); [done|]. eexists. split; [reflexivity|]. by cbn.
Qed.

(** X19: the section list of the sidecar follows the layout: one entry
    for each section of the layout that is not a Trailer, in the layout's
    order, with the planned offset and type, the family of a Code section,
    and the planned size (for the Header at most the planned size); then,
    unless the trailer type is [none], one entry of type [trailer] at
    [total_size] minus the trailer's size, of the trailer's size. *)
Theorem sidecar_sections_follow_layout (tree : FileTree)
  (firmware_dir : string) (clock : Clock) (Random_of_seed : Z -> Random)
  (layout : ImageLayout) (out : ImageOutput) :
  generate_single_image tree firmware_dir clock Random_of_seed layout
  = Ok out ->
  exists entries trailer,
    sc_sections (out_metadata out) = entries ++ trailer /\
    Forall2 entry_reports (non_trailer (sections layout)) entries /\
    trailer_reported layout trailer.
Proof.
  intros Hrun. unfold generate_single_image, assemble in Hrun.
  destruct (assemble_sections _ _ _ _ _) as [st|e] eqn:Hsecs; [|done].
  cbn in Hrun. destruct (write_trailer layout st) as [st'|e] eqn:Htr; [|done].
  cbn in Hrun. injection Hrun as <-. cbn [out_metadata sc_sections].
  apply assemble_sections_entry in Hsecs as (m1 & Hm1 & Hf1).
  apply write_trailer_entry in Htr as (m2 & Hm2 & Hf2).
  cbn [asm_sections] in Hm1. exists m1, m2.
  by rewrite Hm2, Hm1.
Qed.

Definition x86_only_layout : ImageLayout :=
  match generate_layout log2_exact exp2_exact x86_arm_engine [2 ^ 52] 0
          (Some "x86_64") None with
  | Ok l => l
  | Raised _ => mkImageLayout "" 0 "" "" "" [] [] 0
  end.

Lemma sidecar_sections_follow_layout_witness :
  exists out,
    generate_single_image x86_arm_tree "firmware" (mkClock 1000000000 5)
      example_Random x86_only_layout = Ok out /\
    exists entries trailer,
      sc_sections (out_metadata out) = entries ++ trailer /\
      Forall2 entry_reports (non_trailer (sections x86_only_layout))
        entries /\
      trailer_reported x86_only_layout trailer.
Proof.
  eexists. split; [vm_compute; reflexivity|].
  apply (sidecar_sections_follow_layout x86_arm_tree "firmware"
           (mkClock 1000000000 5) example_Random x86_only_layout).
  vm_compute. reflexivity.
Defined.

Lemma SectionType_value_code (t : SectionType) :
  SectionType_value t = "code" <-> t = CODE.
Proof. by destruct t. Qed.

Lemma entries_code_stats (secs : list SectionSpec)
  (entries : list ActualSection) :
  Forall2 entry_reports (non_trailer secs) entries ->
  length (filter (fun a => as_type a = "code") entries)
  = length (filter (fun s => section_type s = CODE) secs) /\
  foldr Z.add 0 (as_size <$> filter (fun a => as_type a = "code") entries)
  = foldr Z.add 0
      (sec_size <$> filter (fun s => section_type s = CODE) secs).
Proof.
  revert entries. unfold non_trailer.
  induction secs as [|s secs IH]; intros entries Hall.
  - rewrite filter_nil in Hall. by inversion Hall.
  - rewrite filter_cons in Hall. rewrite (filter_cons _ s).
    destruct (decide (section_type s <> TRAILER)) as [Hnt|Ht].
    + inversion Hall as [|? a ? entries' (Ho & Hty & _ & Hsz) Hrest];
        subst. rewrite filter_cons.
      destruct (IH _ Hrest) as [IHn IHs].
      destruct (decide (section_type s = CODE)) as [Hc|Hc].
      * rewrite decide_True by (by apply SectionType_value_code in Hc;
                                 rewrite Hty).
        rewrite decide_False in Hsz by (by rewrite Hc).
        cbn. by rewrite IHn, IHs, Hsz.
      * rewrite decide_False; [done|].
        rewrite Hty. by rewrite SectionType_value_code.
    + rewrite decide_False; [by apply IH|].
      intros Hc. apply Ht. by rewrite Hc.
Qed.

(** X20: the statistics of the sidecar and of the returned dict are the
    layout's: the number of Code sections and the code bytes are those of
    the layout ([code_sections] and [code_bytes] of [ImageLayout]), and the
    number of sections is the number of the layout's sections that are not
    a Trailer, plus one unless the trailer type is [none]. *)
Theorem sidecar_statistics_are_the_layouts (tree : FileTree)
  (firmware_dir : string) (clock : Clock) (Random_of_seed : Z -> Random)
  (layout : ImageLayout) (out : ImageOutput) :
  generate_single_image tree firmware_dir clock Random_of_seed layout
  = Ok out ->
  sc_num_code_sections (out_metadata out)
  = Z.of_nat (length (code_sections layout)) /\
  sc_code_bytes (out_metadata out) = code_bytes layout /\
  r_code_bytes (out_result out) = code_bytes layout /\
  sc_num_sections (out_metadata out)
  = Z.of_nat (length (non_trailer (sections layout)))
    + (if decide (trailer_type layout = "none") then 0 else 1) /\
  r_num_sections (out_result out) = sc_num_sections (out_metadata out).
Proof.
  intros Hrun. unfold generate_single_image, assemble in Hrun.
  destruct (assemble_sections _ _ _ _ _) as [st|e] eqn:Hsecs; [|done].
  cbn in Hrun. destruct (write_trailer layout st) as [st'|e] eqn:Htr; [|done].
  cbn in Hrun. injection Hrun as <-.
  cbn [out_metadata out_result sc_num_code_sections sc_code_bytes
       r_code_bytes sc_num_sections r_num_sections].
  apply assemble_sections_entry in Hsecs as (m1 & Hm1 & Hf1).
  apply write_trailer_entry in Htr as (m2 & Hm2 & Hf2).
  cbn [asm_sections] in Hm1. rewrite app_nil_l in Hm1.
  rewrite Hm2, Hm1. clear Hm1 Hm2.
  destruct (entries_code_stats _ _ Hf1) as [Hn Hs].
  apply Forall2_length in Hf1.
  assert (filter (fun a => as_type a = "code") m2 = [] /\
          Z.of_nat (length m2)
          = if decide (trailer_type layout = "none") then 0 else 1)
    as [Hm2 Hl2].
  { unfold trailer_reported in Hf2.
    destruct (decide (trailer_type layout = "none")).
    - by subst m2.
    - destruct Hf2 as (a & -> & _ & _ & Hty & _). split; [|done].
      rewrite filter_cons, decide_False; [done|]. by rewrite Hty. }
  rewrite filter_app, Hm2, app_nil_r, length_app.
  unfold code_bytes, code_sections.
  repeat split; [by rewrite Hn|done|done|lia].
Qed.

Lemma sidecar_statistics_are_the_layouts_witness :
  exists out,
    generate_single_image x86_arm_tree "firmware" (mkClock 1000000000 5)
      example_Random x86_only_layout = Ok out /\
    sc_num_code_sections (out_metadata out)
    = Z.of_nat (length (code_sections x86_only_layout)) /\
    sc_code_bytes (out_metadata out) = code_bytes x86_only_layout /\
    r_code_bytes (out_result out) = code_bytes x86_only_layout /\
    sc_num_sections (out_metadata out)
    = Z.of_nat (length (non_trailer (sections x86_only_layout)))
      + (if decide (trailer_type x86_only_layout = "none") then 0 else 1) /\
    r_num_sections (out_result out) = sc_num_sections (out_metadata out).
Proof.
  eexists. split; [vm_compute; reflexivity|].
  apply (sidecar_statistics_are_the_layouts x86_arm_tree "firmware"
           (mkClock 1000000000 5) example_Random x86_only_layout).
  vm_compute. reflexivity.
Defined.

(** ** Layout and worker together *)

Lemma get_trailer_size_range (tt : string) : 0 <= get_trailer_size tt <= 32.
Proof.
  unfold get_trailer_size. pose proof (trailer_size_cases tt) as H.
  repeat (apply elem_of_cons in H as [->|H]; [lia|]).
  by apply elem_of_nil in H.
Qed.

(** The image of a layout whose sections tile [[0, total_size)] has
    [total_size] bytes. *)
Lemma image_length_when_tiled tree firmware_dir clock R layout out :
  generate_single_image tree firmware_dir clock R layout = Ok out ->
  contiguous_from 0 (sections layout) = Some (total_size layout) ->
  get_trailer_size (trailer_type layout) <= total_size layout ->
  Z.of_nat (length (out_image_bytes out)) = total_size layout.
Proof.
  intros Hrun Htiles Hsize. unfold generate_single_image, assemble in Hrun.
  destruct (assemble_sections _ _ _ _ _) as [st|e] eqn:Hsecs; [|done].
  cbn in Hrun. destruct (write_trailer layout st) as [st'|e] eqn:Htr; [|done].
  cbn in Hrun. injection Hrun as <-. cbn [out_image_bytes].
  pose proof (contiguous_from_le _ _ _ Htiles) as Hpos.
  pose proof (get_trailer_size_range (trailer_type layout)) as Hts.
  apply assemble_sections_frame with (start := 0) (stop := total_size layout)
    in Hsecs as (_ & Hlen & _); [|done|lia].
  cbn [asm_image] in Hlen. rewrite length_replicate in Hlen.
  specialize (Hlen ltac:(lia)).
  pose proof (write_trailer_frame _ _ _ Htr ltac:(lia)) as (_ & Hlen' & _).
  specialize (Hlen' ltac:(lia)). lia.
Qed.

(** X21: layout and worker together, where no Code section is aligned
    (every Code section of the layout has alignment 1, as for the x86
    families): the image the worker writes for a layout of
    [generate_layout] has exactly [total_size] bytes, the size the sidecar
    reports, and unless the trailer type is [none] its last bytes are the
    checksum the trailer type declares (CRC32 little-endian, MD5 or
    SHA-256) of all the bytes before them. *)
Theorem unaligned_layout_image_verifies (log2f : Z -> Q) (exp2f : Q -> Q)
  (eng : LayoutEngine) (rng : Random) (seq : Z) (p : string)
  (forced : option (list string)) (tree : FileTree) (firmware_dir : string)
  (clock : Clock) (Random_of_seed : Z -> Random) (l : ImageLayout)
  (out : ImageOutput) :
  is_Some (dict_get ISA_FAMILIES p) ->
  generate_layout log2f exp2f eng rng seq (Some p) forced = Ok l ->
  Forall (fun s => section_type s = CODE -> sec_alignment s = 1)
    (sections l) ->
  generate_single_image tree firmware_dir clock Random_of_seed l = Ok out ->
  let image := out_image_bytes out in
  let t := total_size l - get_trailer_size (trailer_type l) in
  Z.of_nat (length image) = total_size l /\
  sc_size_bytes (out_metadata out) = Z.of_nat (length image) /\
  (trailer_type l <> "none" ->
   slice image t (Z.of_nat (length image))
   = declared_checksum (trailer_type l) (slice image 0 t)).
Proof.
  intros Hp Hl Hal Hrun image t.
  destruct (generate_layout_Ok log2f exp2f eng rng seq p forced l Hl)
    as ([_ _ Htotal] & _).
  destruct Hp as [fi Hfi].
  destruct (generate_layout_anatomy log2f exp2f eng rng seq p forced fi l
              Hfi Hl) as (_ & _ & _ & e & He & Hbound).
  rewrite (pad_allowance_unaligned _ Hal) in Hbound.
  assert (e = total_size l) as Heq by lia. subst e.
  pose proof (get_trailer_size_range (trailer_type l)) as Hts.
  assert (Z.of_nat (length image) = total_size l) as Hlen.
  { apply (image_length_when_tiled _ _ _ _ _ _ Hrun He). lia. }
  split; [done|]. split.
  { rewrite Hlen. unfold generate_single_image in Hrun.
    destruct (assemble _ _ _ _) as [st|err]; [|done].
    cbn in Hrun. by injection Hrun as <-. }
  intros Hne.
  by apply (trailer_roundtrip_when_tiled _ _ _ _ _ _ Hrun He Hne); lia.
Qed.

Lemma unaligned_layout_image_verifies_witness :
  exists out,
    generate_single_image x86_arm_tree "firmware" (mkClock 1000000000 5)
      example_Random x86_only_layout = Ok out /\
    let image := out_image_bytes out in
    let t :=
      total_size x86_only_layout
      - get_trailer_size (trailer_type x86_only_layout) in
    Z.of_nat (length image) = total_size x86_only_layout /\
    sc_size_bytes (out_metadata out) = Z.of_nat (length image) /\
    (trailer_type x86_only_layout <> "none" ->
     slice image t (Z.of_nat (length image))
     = declared_checksum (trailer_type x86_only_layout) (slice image 0 t)).
Proof.
  eexists. split; [vm_compute; reflexivity|].
  apply (unaligned_layout_image_verifies log2_exact exp2_exact
           x86_arm_engine [2 ^ 52] 0 "x86_64" None x86_arm_tree "firmware"
           (mkClock 1000000000 5) example_Random x86_only_layout).
  - vm_compute. eexists. reflexivity.
  - vm_compute. reflexivity.
  - apply (bool_decide_unpack _). vm_compute. reflexivity.
  - vm_compute. reflexivity.
Defined.

(** ** What the worker can fail on *)

(** The magic the worker writes at the head of a Filesystem section. *)
Definition fs_magic (s : SectionSpec) : list Z :=
  default [0; 0; 0; 0]
    (dict_get FS_MAGICS (default "squashfs" (fp_fs_type (fill_params s)))).

(** What the worker needs of a section to fill it: a family for a Code
    section, a fill byte that is a byte for a Padding, room for the magic
    in a Filesystem section, a size that is not negative for a Random
    one. *)
Definition fillable (s : SectionSpec) : Prop :=
  match section_type s with
  | CODE => is_Some (isa_family s)
  | PADDING => 0 <= default 0xFF (fp_fill_byte (fill_params s)) <= 255
  | FILESYSTEM => Z.of_nat (length (fs_magic s)) <= sec_size s
  | RANDOM => 0 <= sec_size s
  | _ => True
  end.

Lemma fs_magic_length (s : SectionSpec) : (length (fs_magic s) <= 8)%nat.
Proof.
  unfold fs_magic.
  destruct (dict_get FS_MAGICS _) as [m|] eqn:Hget; cbn [default];
    [|cbn; lia].
  apply dict_get_elem_of in Hget.
  assert (Forall (fun kv : string * list Z => (length (snd kv) <= 8)%nat)
            FS_MAGICS) as Hall
    by (apply (bool_decide_unpack _); by vm_compute).
  rewrite Forall_forall in Hall. apply (Hall _ Hget).
Qed.

Lemma ff_padding_fillable (cursor sz : Z) : fillable (ff_padding cursor sz).
Proof. unfold fillable. cbn. lia. Qed.

Lemma pick_non_code_section_fillable (rng rng' : Random) (max_size : Z)
  (t : SectionType) (sz : Z) (ps : FillParams) (cursor sz' : Z) :
  pick_non_code_section rng max_size = (t, sz, ps, rng') ->
  16 <= sz' ->
  fillable (mkSectionSpec cursor sz' t 1 None ps).
Proof.
  unfold pick_non_code_section. intros Hpick Hsz.
  pose proof (weighted_choice_elem_of PADDING NON_CODE_WEIGHTS rng
                ltac:(done)) as Ht.
  destruct (weighted_choice PADDING NON_CODE_WEIGHTS rng) as [t0 r0].
  cbn [fst] in Ht.
  destruct t0;
    try (exfalso; repeat (apply elem_of_cons in Ht as [Ht|Ht];
                          [discriminate|]);
         by apply elem_of_nil in Ht).
  - destruct (randint 16 _ r0) as [s1 r1].
    pose proof (choice_elem_of 255 [255; 0; 170; 222] r1 ltac:(done)) as Hp.
    destruct (choice 255 _ r1) as [pat r2]. cbn [fst] in Hp.
    injection Hpick as <- <- <- <-. unfold fillable. cbn.
    elem_cases Hp; lia.
  - destruct (randint 64 _ r0) as [s1 r1].
    injection Hpick as <- <- <- <-. exact I.
  - destruct (randint 512 _ r0) as [s1 r1].
    destruct (choice _ _ r1) as [fs r2].
    injection Hpick as <- <- <- <-. unfold fillable.
    cbn [section_type sec_size].
    pose proof (fs_magic_length
                  (mkSectionSpec cursor sz' FILESYSTEM 1 None
                     (mkFillParams None None None None None None None None
                        (Some fs) None))).
    lia.
  - destruct (randint 32 _ r0) as [s1 r1].
    injection Hpick as <- <- <- <-. unfold fillable. cbn. lia.
  - destruct (randint 64 _ r0) as [s1 r1].
    injection Hpick as <- <- <- <-. exact I.
Qed.

Section LayoutFillable.

Variable log2f : Z -> Q.
Variable exp2f : Q -> Q.
Variable eng : LayoutEngine.

Lemma code_iter_fillable (st st' : LoopState) :
  Forall fillable (st_sections st) ->
  code_iter eng st = Continue st' \/ code_iter eng st = Break st' ->
  Forall fillable (st_sections st').
Proof.
  intros Hall Hstep. unfold code_iter in Hstep.
  destruct (st_code_remaining st <? 64) eqn:Hrem.
  { destruct Hstep as [Hs|Hs]; [done|]. by injection Hs as <-. }
  destruct (st_family_queue st) as [|fam rest] eqn:Hqueue.
  { by destruct Hstep. }
  destruct (get_random_blob (blob_index eng) fam (st_rng st))
    as [[blob|] r1] eqn:Hblob.
  2:{ destruct (filter (λ f : string, f ≠ fam) (rest ++ [fam]));
        destruct Hstep as [Hs|Hs]; try done; by injection Hs as <-. }
  destruct (choice 1 [1; 1; 1; 2; 3] r1) as [multiplier r2].
  fold (alignment_of fam) in Hstep.
  set (ssz := if st_code_remaining st <? _ then _ else _) in Hstep.
  destruct (ssz <? 4) eqn:Hssz.
  { destruct Hstep as [Hs|Hs]; [done|]. by injection Hs as <-. }
  set (ac := align_up (st_cursor st) (alignment_of fam)) in *.
  assert (exists secs c,
    (if st_cursor st <? ac
     then (st_sections st ++ [ff_padding (st_cursor st) (ac - st_cursor st)],
           ac)
     else (st_sections st, st_cursor st)) = (secs, c) /\
    Forall fillable secs) as (secs & c & Heq & Hsecs).
  { destruct (st_cursor st <? ac); eexists _, _;
      (split; [reflexivity|]); [|done].
    apply Forall_app. split; [done|]. apply Forall_singleton.
    apply ff_padding_fillable. }
  rewrite Heq in Hstep. clear Heq.
  set (code := mkSectionSpec c ssz CODE _ _ _) in Hstep.
  assert (Forall fillable (secs ++ [code])) as Hcode.
  { apply Forall_app. split; [done|]. apply Forall_singleton.
    unfold fillable, code. cbn. by eexists. }
  destruct (random r2) as [x r3].
  destruct (Qltb x (3 # 10) && (64 <=? st_noncode_budget st)) eqn:Hnc.
  - destruct (pick_non_code_section r3 (st_noncode_budget st))
      as [[[t sz] ps] r4] eqn:Hpick.
    pose proof (pick_non_code_section_spec _ _ _ _ _ _ Hpick) as [_ Hsz].
    destruct Hstep as [Hs|Hs]; [|done]. injection Hs as <-.
    cbn [st_sections]. apply Forall_app. split; [done|].
    apply Forall_singleton.
    eapply pick_non_code_section_fillable; [exact Hpick|].
    apply andb_true_iff in Hnc as [_ H64]. apply Z.leb_le in H64. lia.
  - destruct Hstep as [Hs|Hs]; [|done]. by injection Hs as <-.
Qed.

Lemma code_loop_fillable (fuel : nat) (st st' : LoopState) :
  Forall fillable (st_sections st) -> code_loop eng fuel st = Ok st' ->
  Forall fillable (st_sections st').
Proof.
  revert st. induction fuel as [|fuel IH]; intros st Hinv; cbn [code_loop];
    destruct (code_iter eng st) as [st1|st1|e] eqn:Hiter; try done.
  - intros [= <-]. eapply code_iter_fillable; eauto.
  - intros [= <-]. eapply code_iter_fillable; eauto.
  - apply IH. eapply code_iter_fillable; eauto.
  - intros [= <-]. eapply code_iter_fillable; eauto.
Qed.

Lemma fill_iter_fillable (limit : Z) (st st' : LoopState) :
  Forall fillable (st_sections st) ->
  fill_iter limit st = Continue st' \/ fill_iter limit st = Break st' ->
  Forall fillable (st_sections st').
Proof.
  intros Hall. unfold fill_iter.
  destruct ((32 <=? st_noncode_budget st) && (st_cursor st <? limit)).
  2:{ by intros [?|[= <-]]. }
  destruct (pick_non_code_section (st_rng st) (st_noncode_budget st))
    as [[[t sz] ps] r1] eqn:Hpick.
  match goal with |- context [if ?a <? 16 then _ else _] =>
    set (nc := a); destruct (Z.ltb_spec nc 16) as [Hsmall|Hbig] end.
  { by intros [?|[= <-]]. }
  intros [[= <-]|?]; [|done]. cbn [st_sections].
  apply Forall_app. split; [done|]. apply Forall_singleton.
  by eapply pick_non_code_section_fillable.
Qed.

Lemma fill_loop_fillable (limit : Z) (fuel : nat) (st : LoopState) :
  Forall fillable (st_sections st) ->
  Forall fillable (st_sections (fill_loop limit fuel st)).
Proof.
  revert st. induction fuel as [|fuel IH]; intros st Hinv; cbn [fill_loop];
    destruct (fill_iter limit st) as [st1|st1|e] eqn:Hiter; try done.
  - eapply fill_iter_fillable; eauto.
  - eapply fill_iter_fillable; eauto.
  - apply IH. eapply fill_iter_fillable; eauto.
  - eapply fill_iter_fillable; eauto.
Qed.

(** Every section of a layout can be filled, and the image has room for
    the header, the trailer and 64 bytes more. *)
Lemma generate_layout_fillable (rng : Random) (seq : Z) (p : string)
  (forced : option (list string)) (l : ImageLayout) :
  generate_layout log2f exp2f eng rng seq (Some p) forced = Ok l ->
  Forall fillable (sections l) /\
  default 64 (dict_get header_sizes (header_type l))
  + get_trailer_size (trailer_type l) + 64 <= total_size l.
Proof.
  unfold generate_layout.
  destruct (dict_get ISA_FAMILIES p) as [fi|]; [|done].
  match goal with |- context [match ?e with (a, b) => _ end] =>
    destruct e as [all_families r1] end.
  destruct (pick_header_type p r1) as [ht r2].
  destruct (pick_trailer_type r2) as [tt r3].
  pose proof (trailer_size_nonneg tt) as Htsz.
  unfold get_trailer_size.
  set (trailer_size := default 0 (dict_get TRAILER_SIZES tt)) in *.
  destruct (pick_total_size log2f exp2f eng r3) as [[ts r4]|e]; [|done].
  pose proof (header_size_nonneg ht) as Hhsz.
  set (header_size := default 64 (dict_get header_sizes ht)) in *.
  match goal with |- context [match ?e with (a, b) => _ end] =>
    destruct e as [secs0 cursor0] eqn:Hhdr end.
  assert (Forall fillable secs0 /\ cursor0 = header_size)
    as [Hf0 Hcur0].
  { destruct (Z.ltb_spec 0 header_size); injection Hhdr as <- <-.
    - split; [|done]. by apply Forall_singleton.
    - split; [done|lia]. }
  clear Hhdr.
  match goal with |- context [match ?e with (a, b) => _ end] =>
    destruct e as [total usable] eqn:Hbud end.
  assert (total = cursor0 + trailer_size + usable /\ 64 <= usable)
    as [Htotal Husable].
  { destruct (Z.ltb_spec (ts - cursor0 - trailer_size) 64);
      injection Hbud as <- <-; lia. }
  clear Hbud.
  destruct (uniform (3 # 10) (7 # 10) r4) as [cf r5].
  set (st0 := mkLoopState r5 secs0 cursor0 _ _ all_families).
  destruct (code_loop eng (code_measure st0) st0) as [st1|e] eqn:Hloop;
    [|done].
  pose proof (code_loop_fillable _ st0 st1 Hf0 Hloop) as Hf1.
  pose proof (fill_loop_fillable (total - trailer_size) (fill_measure st1)
                st1 Hf1) as Hf2.
  set (st2 := fill_loop _ (fill_measure st1) st1) in *.
  match goal with |- context [match ?e with (a, b) => _ end] =>
    destruct e as [secs3 cursor3] eqn:Hgap end.
  assert (Forall fillable secs3) as Hf3.
  { destruct (0 <? total - trailer_size - st_cursor st2);
      injection Hgap as <- <-; [|done].
    apply Forall_app. split; [done|]. apply Forall_singleton.
    apply ff_padding_fillable. }
  intros [= <-]. cbn [header_type trailer_type sections total_size].
  fold header_size trailer_size. split; [|lia].
  destruct (0 <? trailer_size); [|done].
  apply Forall_app. split; [done|]. by apply Forall_singleton.
Qed.

End LayoutFillable.





Lemma assemble_section_header tree now layout st s :
  section_type s = HEADER ->
  assemble_section tree now layout st s
  = ('(result, rng) ← header_call layout (asm_rng st) now;
     let actual_size :=
       Z.min (Z.of_nat (length (hdr_data result))) (sec_size s) in
     Ok (mkAssembly
           (slice_assign (asm_image st) (offset s) (offset s + actual_size)
              (slice (hdr_data result) 0 actual_size))
           rng
           (asm_sections st ++
            [mkActualSection (offset s) actual_size "header" None
               (Some (hdr_metadata result)) None None None]))).
Proof. intros Hs. unfold assemble_section. by rewrite Hs. Qed.


(** *** The header generators that return *)


Section HeaderReturns.

Variable endianness : string.
Variable rng : Random.
Variable now : Z.
Variable args : HeaderArgs.














End HeaderReturns.




(** ** The checksum of the U-Boot header *)

(** X23: the header checksum of a U-Boot header verifies the way U-Boot
    checks it: the big-endian word at bytes 4..8 is the CRC-32 (on 32 bits)
    of the 64 header bytes with that word set to zero.  The entry point at
    bytes 20..24 repeats the load address of bytes 16..20, the timestamp at
    bytes 8..12 is the clock reading less at most a year, on 32 bits, and
    the data checksum at bytes 24..28 is left 0: it is not computed from
    the image. *)
Theorem uboot_header_crc_verifies (endianness : string) (rng : Random)
  (now : Z) (args : HeaderArgs) :
  exists h rng' age,
    uboot endianness rng now args = Ok (h, rng') /\
    length (hdr_data h) = 64%nat /\
    from_bytes_be (slice (hdr_data h) 4 8)
    = crc32 (take 4 (hdr_data h) ++ [0; 0; 0; 0] ++ drop 8 (hdr_data h))
      mod 2 ^ 32 /\
    0 <= age <= 365 * 24 * 3600 /\
    from_bytes_be (slice (hdr_data h) 8 12) = (now - age) mod 2 ^ 32 /\
    from_bytes_be (slice (hdr_data h) 20 24)
    = from_bytes_be (slice (hdr_data h) 16 20) /\
    from_bytes_be (slice (hdr_data h) 24 28) = 0.
Proof.
  unfold uboot.
  pose proof (randint_range 0 (365 * 24 * 3600) rng ltac:(lia)) as Hr.
  destruct (randint 0 (365 * 24 * 3600) rng) as [r rng1]. cbn [fst] in Hr.
  pose proof (choice_elem_of 5 [5; 17; 20] rng1 ltac:(done)) as Hos.
  destruct (choice 5 [5; 17; 20] rng1) as [os_type rng2]. simpl in Hos.
  pose proof (choice_elem_of 2 [2; 5] rng2 ltac:(done)) as Himg.
  destruct (choice 2 [2; 5] rng2) as [img_type rng3]. simpl in Himg.
  pose proof (choice_elem_of 0 [0; 1; 2; 3] rng3 ltac:(done)) as Hcomp.
  destruct (choice 0 [0; 1; 2; 3] rng3) as [comp rng4]. simpl in Hcomp.
  destruct (choice [] uboot_names rng4) as [name rng5].
  pose proof (uboot_arch_range (arg_family_name args)) as Harch.
  set (arch := default 0 (dict_get uboot_arch_map (arg_family_name args)))
    in *.
  rewrite !land_mask32.
  set (ts := (now - r) mod 2 ^ 32).
  set (dsz := Z.max 0 (arg_total_size args - 64) mod 2 ^ 32).
  set (la := arg_base_addr args mod 2 ^ 32).
  rewrite (pack_uints_Ok false 4 [0x27051956; 0; ts; dsz; la; la; 0]).
  2:{ repeat (apply Forall_cons; split;
              [first [apply mod32_range | simpl; lia]|]).
      apply Forall_nil_2. }
  cbn [mbind result_bind rbind].
  rewrite (pack_uints_Ok false 1 [os_type; arch; img_type; comp]).
  2:{ repeat (apply Forall_cons; split; [|]); try apply Forall_nil_2.
      - elem_cases Hos; simpl; lia.
      - simpl. lia.
      - elem_cases Himg; simpl; lia.
      - elem_cases Hcomp; simpl; lia. }
  cbn [mbind result_bind rbind fmap list_fmap concat].
  rewrite app_nil_r.
  set (codes := to_bytes_be 1 os_type ++ _).
  set (name_padded := ljust 32 (take 32 name)).
  assert (length codes = 4%nat) as Hcodes.
  { subst codes. by rewrite !length_app, !to_bytes_be_length. }
  assert (length name_padded = 32%nat) as Hname.
  { subst name_padded. rewrite ljust_length, length_take. lia. }
  rewrite <- !app_assoc.
  set (magic := to_bytes_be 4 0x27051956).
  set (tail := to_bytes_be 4 ts ++ _).
  assert (length magic = 4%nat) as Hmagic by apply to_bytes_be_length.
  rewrite (take_app_length' magic) by done.
  rewrite (app_assoc magic (to_bytes_be 4 0)).
  rewrite (drop_app_length' (magic ++ to_bytes_be 4 0))
    by by rewrite length_app, !to_bytes_be_length.
  rewrite !land_mask32.
  rewrite pack_uint_Ok by apply mod32_range.
  cbn [mbind result_bind rbind].
  set (crc := crc32 (magic ++ [0; 0; 0; 0] ++ tail) mod 2 ^ 32).
  exists (mkHeaderResult (magic ++ to_bytes_be 4 crc ++ tail) 64
            [("header_type", MStr "uboot"); ("arch", MInt arch);
             ("comp", MInt comp)]), rng5, r.
  split; [reflexivity|]. cbn [hdr_data].
  split.
  { unfold tail.
    rewrite !length_app, !to_bytes_be_length, Hcodes, Hname. done. }
  split.
  { rewrite (slice_field magic (to_bytes_be 4 crc) tail 4 8)
      by (rewrite ?to_bytes_be_length; lia).
    rewrite from_to_bytes_be.
    rewrite (take_app_length' magic) by done.
    rewrite (app_assoc magic (to_bytes_be 4 crc)).
    rewrite (drop_app_length' (magic ++ to_bytes_be 4 crc))
      by by rewrite length_app, !to_bytes_be_length.
    apply Z.mod_small. apply (mod32_range _). }
  split; [done|]. unfold tail.
  split.
  { rewrite (app_assoc magic).
    rewrite (slice_field (magic ++ to_bytes_be 4 crc) (to_bytes_be 4 ts) _
               8 12)
      by (rewrite ?length_app, ?to_bytes_be_length; lia).
    rewrite from_to_bytes_be. apply Z.mod_small. apply (mod32_range _). }
  split.
  { f_equal.
    transitivity (to_bytes_be 4 la).
    - match goal with |- slice ?h 20 24 = _ =>
        assert (exists post,
                  h = (magic ++ to_bytes_be 4 crc ++ to_bytes_be 4 ts
                       ++ to_bytes_be 4 dsz ++ to_bytes_be 4 la)
                      ++ to_bytes_be 4 la ++ post)
          as [post ->] by (eexists; rewrite <- !app_assoc; reflexivity)
      end.
      apply slice_field;
        rewrite ?length_app, ?to_bytes_be_length; lia.
    - symmetry.
      match goal with |- slice ?h 16 20 = _ =>
        assert (exists post,
                  h = (magic ++ to_bytes_be 4 crc ++ to_bytes_be 4 ts
                       ++ to_bytes_be 4 dsz)
                      ++ to_bytes_be 4 la ++ post)
          as [post ->] by (eexists; rewrite <- !app_assoc; reflexivity)
      end.
      apply slice_field;
        rewrite ?length_app, ?to_bytes_be_length; lia. }
  match goal with |- from_bytes_be (slice ?h 24 28) = _ =>
    assert (exists post,
              h = (magic ++ to_bytes_be 4 crc ++ to_bytes_be 4 ts
                   ++ to_bytes_be 4 dsz ++ to_bytes_be 4 la
                   ++ to_bytes_be 4 la)
                  ++ to_bytes_be 4 0 ++ post)
      as [post ->] by (eexists; rewrite <- !app_assoc; reflexivity)
  end.
  rewrite (slice_field _ (to_bytes_be 4 0) post 24 28)
    by (rewrite ?length_app, ?to_bytes_be_length; lia).
  reflexivity.
Qed.

(** ** The numbering of a batch *)

Section BatchNumbering.

Variable log2f : Z -> Q.
Variable exp2f : Q -> Q.
Variable eng : LayoutEngine.
Variable Random_of_seed : Z -> Random.

(** The layouts carry the sequence numbers [start], [start + 1], ...: the
    seed of each is the configured seed plus its number, and its image id
    is made of the configured seed and its number. *)
Definition numbered_from (start : Z) (ls : list ImageLayout) : Prop :=
  fmap layout_seed ls
  = Z.add (seed (eng_config eng)) <$> seqZ start (Z.of_nat (length ls)) /\
  Forall (fun l =>
            image_id l
            = "fw_" +:+ pretty (seed (eng_config eng)) +:+ "_"
              +:+ format_06d (layout_seed l - seed (eng_config eng))) ls.

Lemma numbered_from_nil (start : Z) : numbered_from start [].
Proof. by split. Qed.

Lemma numbered_from_app (start : Z) (l1 l2 : list ImageLayout) :
  numbered_from start l1 ->
  numbered_from (start + Z.of_nat (length l1)) l2 ->
  numbered_from start (l1 ++ l2).
Proof.
  intros [Hs1 Hi1] [Hs2 Hi2]. split; [|by apply Forall_app].
  rewrite fmap_app, length_app, Nat2Z.inj_add, seqZ_app by lia.
  by rewrite fmap_app, Hs1, Hs2.
Qed.

Lemma generate_layout_numbered (rng : Random) (seq : Z) (p : string)
  (forced : option (list string)) (l : ImageLayout) :
  generate_layout log2f exp2f eng rng seq (Some p) forced = Ok l ->
  numbered_from seq [l].
Proof.
  intros Hl.
  destruct (dict_get ISA_FAMILIES p) as [fi|] eqn:Hfi.
  2:{ unfold generate_layout in Hl. by rewrite Hfi in Hl. }
  destruct (generate_layout_Ok log2f exp2f eng rng seq p forced l Hl)
    as (_ & _ & Hid & Hseed & _).
  split.
  - cbn [fmap list_fmap length]. rewrite seqZ_cons, seqZ_nil by lia.
    cbn. by rewrite Hseed.
  - apply Forall_singleton. rewrite Hid, Hseed. do 4 f_equal. lia.
Qed.

Lemma generate_run_numbered (ms : Z) (n : nat) (seq : Z) (p : string)
  (forced : option (list string)) (ls : list ImageLayout) :
  generate_run log2f exp2f eng Random_of_seed ms n seq p forced = Ok ls ->
  length ls = n /\ numbered_from seq ls.
Proof.
  revert seq ls. induction n as [|n IH]; intros seq ls; cbn [generate_run].
  { intros [= <-]. split; [done|apply numbered_from_nil]. }
  destruct (generate_layout _ _ _ _ _ _ _) as [l|e] eqn:Hl; [|done].
  destruct (generate_run _ _ _ _ _ _ _ _ _) as [rest|e] eqn:Hrest; [|done].
  intros [= <-]. destruct (IH _ _ Hrest) as [Hlen Hnum].
  split; [by cbn; rewrite Hlen|].
  apply (numbered_from_app seq [l] rest).
  - by eapply generate_layout_numbered.
  - exact Hnum.
Qed.

Lemma phase1_numbered (ms : Z) (q : gmap string Z) (fams : list string)
  (seq seq' : Z) (ls : list ImageLayout) :
  phase1 log2f exp2f eng Random_of_seed ms q fams seq = Ok (ls, seq') ->
  seq' = seq + Z.of_nat (length ls) /\ numbered_from seq ls.
Proof.
  revert seq seq' ls.
  induction fams as [|f fams IH]; intros seq seq' ls; cbn [phase1].
  { intros [= <- <-]. split; [cbn; lia|apply numbered_from_nil]. }
  destruct (generate_run _ _ _ _ _ _ _ _ _) as [l1|e] eqn:Hrun; [|done].
  destruct (phase1 _ _ _ _ _ _ _ _) as [[l2 s2]|e] eqn:Hrest; [|done].
  intros [= <- <-].
  destruct (generate_run_numbered _ _ _ _ _ _ Hrun) as [Hlen Hn1].
  destruct (IH _ _ _ Hrest) as [-> Hn2].
  rewrite length_app. split; [lia|].
  apply numbered_from_app; [done|]. by rewrite Hlen.
Qed.

Lemma phase2_numbered (ms : Z) (cc : gmap string Z)
  (cp : gmap string string) (labels : list string) (seq : Z)
  (extra : list ImageLayout) :
  phase2 log2f exp2f eng Random_of_seed ms cc cp labels seq = Ok extra ->
  numbered_from seq extra.
Proof.
  revert seq extra.
  induction labels as [|lab labels IH]; intros seq extra; cbn [phase2].
  { intros [= <-]. apply numbered_from_nil. }
  destruct (_ <=? 0); [apply IH|].
  destruct (cp !! lab) as [primary|]; [|done].
  destruct (generate_run _ _ _ _ _ _ _ _ _) as [l1|e] eqn:Hrun; [|done].
  destruct (phase2 _ _ _ _ _ _ _ _ _) as [l2|e] eqn:Hrest; [|done].
  intros [= <-].
  destruct (generate_run_numbered _ _ _ _ _ _ Hrun) as [Hlen Hn1].
  apply numbered_from_app; [done|]. rewrite Hlen. by apply IH.
Qed.

Lemma generate_batch_numbered (count ms : Z) (ls : list ImageLayout) :
  generate_batch log2f exp2f eng Random_of_seed count ms = Ok ls ->
  exists ls0, ls ≡ₚ ls0 /\ numbered_from 0 ls0.
Proof.
  unfold generate_batch.
  destruct (phase1 _ _ _ _ _ _ _ _) as [[l1 s1]|e] eqn:H1; [|done].
  destruct (count_combos l1) as [cc cp].
  destruct (phase2 _ _ _ _ _ _ _ _ _) as [extra|e] eqn:H2; [|done].
  intros [= <-]. exists (l1 ++ extra).
  split; [apply shuffle_Permutation|].
  destruct (phase1_numbered _ _ _ _ _ _ H1) as [-> Hn1].
  apply numbered_from_app; [done|]. by eapply phase2_numbered.
Qed.

End BatchNumbering.

(** X24: the layouts of a batch are numbered without gap or repetition:
    their seeds are the configured seed plus 0, 1, ..., n - 1, each once,
    in the order the shuffle left them, and the image id of each is
    [fw_<configured seed>_<number on six digits>]. *)
Theorem generate_batch_numbering (log2f : Z -> Q) (exp2f : Q -> Q)
  (eng : LayoutEngine) (Random_of_seed : Z -> Random) (count ms : Z)
  (ls : list ImageLayout) :
  generate_batch log2f exp2f eng Random_of_seed count ms = Ok ls ->
  fmap layout_seed ls
  ≡ₚ Z.add (seed (eng_config eng)) <$> seqZ 0 (Z.of_nat (length ls)) /\
  NoDup (fmap layout_seed ls) /\
  Forall (fun l =>
            image_id l
            = "fw_" +:+ pretty (seed (eng_config eng)) +:+ "_"
              +:+ format_06d (layout_seed l - seed (eng_config eng))) ls.
Proof.
  intros Hrun.
  destruct (generate_batch_numbered _ _ _ _ _ _ _ Hrun)
    as (ls0 & Hperm & Hseeds & Hids).
  assert (fmap layout_seed ls
          ≡ₚ Z.add (seed (eng_config eng))
               <$> seqZ 0 (Z.of_nat (length ls))) as Hp.
  { rewrite Hperm at 1. rewrite Hseeds. by rewrite Hperm. }
  split; [done|]. split.
  - rewrite Hp. apply NoDup_fmap_2; [|apply NoDup_seqZ].
    intros x y Hxy. lia.
  - by rewrite Hperm.
Qed.

Lemma generate_batch_numbering_witness :
  exists ls,
    generate_batch log2_exact exp2_exact example_engine example_Random 1 7
    = Ok ls /\
    fmap layout_seed ls
    ≡ₚ Z.add (seed (eng_config example_engine))
         <$> seqZ 0 (Z.of_nat (length ls)) /\
    NoDup (fmap layout_seed ls) /\
    Forall (fun l =>
              image_id l
              = "fw_" +:+ pretty (seed (eng_config example_engine)) +:+ "_"
                +:+ format_06d (layout_seed l
                                - seed (eng_config example_engine))) ls.
Proof.
  eexists. split; [vm_compute; reflexivity|].
  apply (generate_batch_numbering log2_exact exp2_exact example_engine
           example_Random 1 7).
  vm_compute. reflexivity.
Defined.

(** ** The manifest *)

Lemma foldr_add_Permutation (l1 l2 : list Z) :
  l1 ≡ₚ l2 -> foldr Z.add 0 l1 = foldr Z.add 0 l2.
Proof. induction 1; cbn; lia. Qed.

Lemma foldr_add_app (l1 l2 : list Z) :
  foldr Z.add 0 (l1 ++ l2) = foldr Z.add 0 l1 + foldr Z.add 0 l2.
Proof. induction l1 as [|x l1 IH]; cbn; lia. Qed.

(** The builder after any number of [add_result]: the dicts that say
    [success], in the order they came, apart from the others. *)
Lemma add_results_spec (b : FirmwareManifestBuilder) (ds : list ResultDict) :
  mb_results (foldl add_result b ds)
  = mb_results b ++ filter (fun d => get_success d = true) ds /\
  mb_errors (foldl add_result b ds)
  = mb_errors b ++ filter (fun d => get_success d <> true) ds.
Proof.
  revert b. induction ds as [|d ds IH]; intros b; cbn [foldl].
  { by rewrite !filter_nil, !app_nil_r. }
  destruct (IH (add_result b d)) as [-> ->]. rewrite !filter_cons.
  unfold add_result. destruct (get_success d) eqn:Hd; cbn [mb_results
    mb_errors].
  - rewrite decide_True by done.
    rewrite decide_False by (intros H; by apply H).
    by rewrite <- app_assoc.
  - rewrite decide_False, decide_True by done. by rewrite <- app_assoc.
Qed.

Lemma collect_results_spec (completed : list (result ImageOutput)) :
  mb_results (collect_results completed)
  = filter (fun d => get_success d = true) (result_dict <$> completed) /\
  mb_errors (collect_results completed)
  = filter (fun d => get_success d <> true) (result_dict <$> completed).
Proof.
  unfold collect_results.
  assert (forall b,
            foldl (fun b outcome => add_result b (result_dict outcome)) b
              completed
            = foldl add_result b (result_dict <$> completed)) as ->.
  { induction completed as [|o os IH]; intros b; [done|]. cbn. apply IH. }
  apply (add_results_spec FirmwareManifestBuilder_init).
Qed.

(** The count of a key is the number of results with that key; a key no
    result has is not in the dict. *)
Lemma count_by_lookup (key : ResultDict -> string) (rs : list ResultDict)
  (k : string) :
  count_by key rs !! k
  = let n := length (filter (fun r => key r = k) rs) in
    if decide (n = 0%nat) then None else Some (Z.of_nat n).
Proof.
  unfold count_by. induction rs as [|x rs IH] using rev_ind; [done|].
  rewrite foldl_app. cbn [foldl]. cbv zeta in *.
  rewrite filter_app, length_app, filter_cons, filter_nil.
  destruct (decide (key x = k)) as [Hx|Hx].
  - rewrite Hx, lookup_insert_eq, IH. cbn [length].
    set (n := length (filter _ rs)).
    destruct (decide ((n + 1)%nat = 0%nat)); [lia|].
    destruct (decide (n = 0%nat)) as [->|]; cbn; f_equal; lia.
  - rewrite lookup_insert_ne by done. rewrite IH. cbn [length].
    by rewrite Nat.add_0_r.
Qed.

Lemma count_by_Permutation (key : ResultDict -> string)
  (rs rs' : list ResultDict) :
  rs ≡ₚ rs' -> count_by key rs = count_by key rs'.
Proof.
  intros Hp. apply map_eq. intros k. rewrite !count_by_lookup.
  cbv zeta.
  assert (length (filter (fun r => key r = k) rs)
          = length (filter (fun r => key r = k) rs')) as ->
    by (by rewrite Hp).
  done.
Qed.

Lemma sorted_items_Permutation (counts : gmap string Z) :
  sorted_items counts ≡ₚ map_to_list counts.
Proof.
  unfold sorted_items. rewrite sorted_Permutation, <- list_fmap_compose.
  rewrite <- (list_fmap_id (map_to_list counts)) at 2.
  assert (((fun k => (k, default 0 (counts !! k))) ∘ fst)
            <$> map_to_list counts
          = id <$> map_to_list counts) as ->; [|done].
  apply Forall_fmap_ext, Forall_forall. intros [k v] Hkv.
  apply elem_of_map_to_list in Hkv. cbn. by rewrite Hkv.
Qed.

(** The counts of a dict add up to the number of results counted. *)
Lemma count_by_total (key : ResultDict -> string) (rs : list ResultDict) :
  foldr Z.add 0 (snd <$> sorted_items (count_by key rs))
  = Z.of_nat (length rs).
Proof.
  rewrite (foldr_add_Permutation _ (snd <$> map_to_list (count_by key rs)))
    by (by rewrite sorted_items_Permutation).
  unfold count_by. induction rs as [|x rs IH] using rev_ind.
  { cbn [foldl length]. by rewrite map_to_list_empty. }
  rewrite foldl_app, length_app. cbn [foldl length].
  set (m := foldl _ ∅ rs) in *.
  destruct (m !! key x) as [v|] eqn:Hv; cbn [default from_option].
  - rewrite <- insert_delete_eq.
    rewrite (foldr_add_Permutation _
               (snd <$> ((key x, v + 1) :: map_to_list (delete (key x) m))))
      by (by rewrite map_to_list_insert by apply lookup_delete_eq).
    rewrite (foldr_add_Permutation (snd <$> map_to_list m)
               (snd <$> ((key x, v) :: map_to_list (delete (key x) m))))
      in IH by (by rewrite map_to_list_delete).
    cbn in IH |- *. lia.
  - rewrite (foldr_add_Permutation _
               (snd <$> ((key x, 0 + 1) :: map_to_list m)))
      by (by rewrite map_to_list_insert).
    cbn in IH |- *. lia.
Qed.

(** Every item of a sorted dict of counts is a key with the number of
    results that have it, which is positive. *)
Lemma sorted_items_count_by (key : ResultDict -> string)
  (rs : list ResultDict) (k : string) (n : Z) :
  (k, n) ∈ sorted_items (count_by key rs) <->
  n = Z.of_nat (length (filter (fun r => key r = k) rs)) /\ 0 < n.
Proof.
  rewrite sorted_items_Permutation, elem_of_map_to_list, count_by_lookup.
  cbv zeta. destruct (decide _) as [Hz|Hnz].
  - split; [done|]. intros [-> Hpos]. lia.
  - split; [intros [= <-]; split; [done|lia]|]. by intros [-> _].
Qed.

(** X25: the manifest accounts for every worker.  With the outcomes of
    the workers collected in any order, [total_generated] and
    [total_failed] add up to the number of workers; [images.jsonl] has the
    dicts of the workers that returned, in the order they completed;
    [isa_distribution] and [directory_counts] list exactly the primary
    families and the labels of those workers, each with the number of
    workers that had it, and each distribution adds up to
    [total_generated]. *)
Theorem manifest_accounts_for_every_worker
  (completed : list (result ImageOutput)) :
  let summary := fst (save (collect_results completed)) in
  let lines := snd (save (collect_results completed)) in
  total_generated summary + total_failed summary
  = Z.of_nat (length completed) /\
  lines
  = filter (fun d => get_success d = true) (result_dict <$> completed) /\
  total_generated summary = Z.of_nat (length lines) /\
  (forall k n,
     (k, n) ∈ isa_distribution summary <->
     n = Z.of_nat (length (filter (fun d => get_primary_isa d = k) lines))
     /\ 0 < n) /\
  (forall k n,
     (k, n) ∈ directory_counts summary <->
     n = Z.of_nat (length (filter (fun d => get_isa_label d = k) lines))
     /\ 0 < n) /\
  foldr Z.add 0 (snd <$> isa_distribution summary)
  = total_generated summary /\
  foldr Z.add 0 (snd <$> directory_counts summary)
  = total_generated summary.
Proof.
  cbv zeta. unfold save.
  cbn [fst snd total_generated total_failed isa_distribution
       directory_counts].
  destruct (collect_results_spec completed) as [Hres Herr].
  rewrite Herr. rewrite <- !Hres.
  set (results := mb_results (collect_results completed)) in *.
  split.
  { rewrite Hres, <- Nat2Z.inj_add, <- (length_fmap result_dict completed).
    f_equal. clear.
    induction (result_dict <$> completed) as [|d ds IH]; [done|].
    rewrite !filter_cons. destruct (get_success d).
    - rewrite decide_True by done.
      rewrite decide_False by (intros H; by apply H). cbn. lia.
    - rewrite decide_False, decide_True by done. cbn. lia. }
  split; [done|]. split; [done|].
  split; [intros k n; apply sorted_items_count_by|].
  split; [intros k n; apply sorted_items_count_by|].
  split; apply count_by_total.
Qed.

(** X26: the summary of the manifest does not depend on the order in
    which the workers complete: collected in two orders, the same outcomes
    give the same totals, fractions and distributions; only the order of
    the lines of [images.jsonl] follows the order of completion. *)
Theorem manifest_summary_order_independent
  (completed completed' : list (result ImageOutput)) :
  completed ≡ₚ completed' ->
  fst (save (collect_results completed))
  = fst (save (collect_results completed')) /\
  snd (save (collect_results completed))
  ≡ₚ snd (save (collect_results completed')).
Proof.
  intros Hp. unfold save. cbn [fst snd].
  destruct (collect_results_spec completed) as [Hres Herr].
  destruct (collect_results_spec completed') as [Hres' Herr'].
  assert (mb_results (collect_results completed)
          ≡ₚ mb_results (collect_results completed')) as Hr.
  { rewrite Hres, Hres'. by rewrite Hp. }
  assert (length (mb_errors (collect_results completed))
          = length (mb_errors (collect_results completed'))) as He.
  { rewrite Herr, Herr'. by rewrite Hp. }
  split; [|done].
  set (r1 := mb_results (collect_results completed)) in *.
  set (r2 := mb_results (collect_results completed')) in *.
  assert (length r1 = length r2) as Hlen by by rewrite Hr.
  assert (foldr Z.add 0 (get_size_bytes <$> r1)
          = foldr Z.add 0 (get_size_bytes <$> r2)) as Hsize
    by (apply foldr_add_Permutation; by rewrite Hr).
  assert (foldr Z.add 0 (get_code_bytes <$> r1)
          = foldr Z.add 0 (get_code_bytes <$> r2)) as Hcode
    by (apply foldr_add_Permutation; by rewrite Hr).
  assert (length (filter (fun r => get_is_multi_isa r = true) r1)
          = length (filter (fun r => get_is_multi_isa r = true) r2))
    as Hmulti by by rewrite Hr.
  rewrite (count_by_Permutation get_primary_isa r1 r2 Hr),
    (count_by_Permutation get_isa_label r1 r2 Hr).
  rewrite Hlen, He, Hsize, Hcode, Hmulti.
  f_equal.
  destruct r1 as [|x r1], r2 as [|y r2]; try done.
Qed.

(** Three outcomes in the order of completion: the 1024-byte image of
    x86_64 with arm32, a worker that raised, and an arm32 image. *)
Definition completed_example : list (result ImageOutput) :=
  [generate_single_image x86_arm_tree "firmware" (mkClock 1000000000 5)
     example_Random outgrow_layout;
   Raised "struct.error";
   generate_single_image (mkFileTree [] []) "firmware"
     (mkClock 1000000000 5) uboot_Random missing_blob_layout].

Lemma manifest_summary_order_independent_witness :
  (get_success ∘ result_dict) <$> completed_example = [true; false; true] /\
  total_generated (fst (save (collect_results completed_example))) = 2 /\
  total_failed (fst (save (collect_results completed_example))) = 1 /\
  isa_distribution (fst (save (collect_results completed_example)))
  = [("arm32", 1); ("x86_64", 1)] /\
  directory_counts (fst (save (collect_results completed_example)))
  = [("arm32", 1); ("arm32+x86_64", 1)] /\
  fst (save (collect_results completed_example))
  = fst (save (collect_results (reverse completed_example))) /\
  snd (save (collect_results completed_example))
  ≡ₚ snd (save (collect_results (reverse completed_example))).
Proof.
  split; [vm_compute; reflexivity|]. split; [vm_compute; reflexivity|].
  split; [vm_compute; reflexivity|]. split; [vm_compute; reflexivity|].
  split; [vm_compute; reflexivity|].
  apply (manifest_summary_order_independent completed_example
           (reverse completed_example)).
  symmetry. apply reverse_Permutation.
Defined.

(** ** The engine and the blob index *)

Lemma families_elem_of (idx : BlobIndex) (fam : string) :
  0 < blob_count idx fam -> fam ∈ BlobIndexM.families idx.
Proof.
  unfold blob_count, get_blobs, BlobIndexM.families. intros Hcnt.
  rewrite sorted_elem_of. apply list_elem_of_fmap.
  destruct (idx !! fam) as [v|] eqn:Hl; [|cbn in Hcnt; lia].
  exists (fam, v). split; [done|]. by apply elem_of_map_to_list.
Qed.

(** X27: [LayoutEngine.__init__] raises [ValueError] when no family of
    the database has a blob in the index, and only then.  Otherwise the
    engine keeps the index and the configuration, and weighs exactly the
    families of the database that have blobs, each once, with its number
    of blobs as weight. *)
Theorem LayoutEngine_init_needs_blobs (idx : BlobIndex)
  (cfg : FirmwareGenConfig) :
  ((exists fam, fam ∈ family_names /\ 0 < blob_count idx fam) ->
   exists eng,
     LayoutEngine_init idx cfg = Ok eng /\
     blob_index eng = idx /\ eng_config eng = cfg /\
     NoDup (fmap fst (family_weights eng)) /\
     forall fam w,
       (fam, w) ∈ family_weights eng <->
       fam ∈ family_names /\ 0 < blob_count idx fam /\
       w = inject_Z (blob_count idx fam)) /\
  ((forall fam, fam ∈ family_names -> blob_count idx fam = 0) ->
   LayoutEngine_init idx cfg
   = Raised "ValueError: No blobs available for any ISA family").
Proof.
  assert (forall e, LayoutEngine_init idx cfg = Raised e ->
            e = "ValueError: No blobs available for any ISA family" /\
            forall fam, fam ∈ family_names -> blob_count idx fam = 0)
    as Hraised.
  { intros e. unfold LayoutEngine_init.
    destruct (omap _ (BlobIndexM.families idx)) as [|fw fws] eqn:Hw; [|done].
    intros [= <-]. split; [done|]. intros fam Hn.
    destruct (Z.ltb_spec 0 (blob_count idx fam)) as [Hpos|Hz].
    2:{ unfold blob_count in *. lia. }
    exfalso.
    destruct (family_names_dict_get fam Hn) as [fi Hfi].
    assert ((fam, inject_Z (blob_count idx fam)) ∈ @nil (string * Q))
      as Hin; [|by apply elem_of_nil in Hin].
    rewrite <- Hw. apply list_elem_of_omap. exists fam.
    split; [by apply families_elem_of|]. rewrite Hfi.
    by destruct (Z.ltb_spec 0 (blob_count idx fam)); [|lia]. }
  split.
  - intros (fam & Hn & Hcnt).
    destruct (LayoutEngine_init idx cfg) as [eng|e] eqn:Hinit.
    2:{ destruct (Hraised e eq_refl) as [_ Hzero].
        specialize (Hzero fam Hn). lia. }
    destruct (LayoutEngine_init_spec idx cfg eng Hinit)
      as (Hidx & Hcfg & (Hfw & Hnd & _) & Hiff).
    exists eng. split; [done|]. split; [done|]. split; [done|].
    split; [done|]. intros f w. rewrite Forall_forall in Hfw. split.
    + intros Hin. destruct (Hfw _ Hin) as (H1 & H2 & H3).
      rewrite Hidx in *. done.
    + intros (H1 & H2 & ->).
      assert (f ∈ fmap fst (family_weights eng)) as Hf by by apply Hiff.
      apply list_elem_of_fmap in Hf as ([f' w'] & -> & Hin).
      destruct (Hfw _ Hin) as (_ & _ & H3). cbn [fst snd] in *.
      rewrite Hidx in H3. by rewrite <- H3.
  - intros Hzero.
    destruct (LayoutEngine_init idx cfg) as [eng|e] eqn:Hinit.
    2:{ by destruct (Hraised e eq_refl) as [-> _]. }
    destruct (LayoutEngine_init_spec idx cfg eng Hinit)
      as (Hidx & _ & (Hfw & _ & Hne) & _).
    destruct (family_weights eng) as [|[f w] fws] eqn:Hweights; [done|].
    apply Forall_cons in Hfw as [(H1 & H2 & _) _]. cbn [fst] in *.
    rewrite Hidx in H2. specialize (Hzero f H1). lia.
Qed.

(** ** [_align_up] *)

(** X28: [_align_up] returns the value itself for an alignment of 1 or
    less, and for an alignment that is a power of two, 2 or more, the
    least multiple of the alignment that is not below the value, whatever
    the sign of the value: the mask [~(alignment - 1)] rounds down
    [value + alignment - 1]. *)
Theorem align_up_least_multiple (v a : Z) :
  (a <= 1 -> align_up v a = v) /\
  (forall k, 1 <= k -> a = 2 ^ k ->
     align_up v a mod a = 0 /\
     v <= align_up v a < v + a /\
     forall m, v <= m -> m mod a = 0 -> align_up v a <= m).
Proof.
  split.
  - intros Ha. unfold align_up. by destruct (Z.leb_spec a 1); [|lia].
  - intros k Hk ->. rewrite align_up_pow2 by done.
    assert (0 < 2 ^ k) as Hpos by (apply Z.pow_pos_nonneg; lia).
    set (a := 2 ^ k) in *.
    pose proof (Z.div_mod (v + a - 1) a ltac:(lia)) as Hdm.
    pose proof (Z.mod_pos_bound (v + a - 1) a Hpos) as Hr.
    set (q := (v + a - 1) / a) in *.
    split; [rewrite Z.mul_comm; apply Z.mod_mul; lia|].
    split; [lia|]. intros m Hm Hmod.
    pose proof (Z.div_mod m a ltac:(lia)) as Hmd. rewrite Hmod in Hmd.
    assert (q <= m / a); [|nia].
    apply Z.div_le_lower_bound; [done|].
    destruct (Z.le_gt_cases (a * q) m) as [|Hlt]; [done|exfalso].
    assert (m / a < q) by nia. nia.
Qed.

(** ** The header in the image *)

Lemma take_ext_lookup (n : nat) (l1 l2 : list Z) :
  (forall k : nat, (k < n)%nat -> l1 !! k = l2 !! k) ->
  take n l1 = take n l2.
Proof.
  intros H. apply list_eq. intros k.
  destruct (Nat.lt_ge_cases k n) as [Hk|Hk].
  - rewrite !lookup_take_lt by done. by apply H.
  - by rewrite !lookup_take_ge.
Qed.

(** X29: layout and worker together, for the header: the image the
    worker writes for a layout of [generate_layout] begins with the header
    [generate_header] returned, cut to the size the layout planned for the
    header type, and no later section or trailer touches those bytes; when
    a header is planned, the first entry of the sidecar records it, with
    the length kept as its size and the generator's metadata.  A header
    longer than planned (a Cortex-M table of more than 16 vectors, a long
    AVR table, a UEFI stub of 768 or 1024 bytes) is in the image only up
    to the planned size, while the metadata is that of the whole
    header. *)
Theorem image_begins_with_header (log2f : Z -> Q) (exp2f : Q -> Q)
  (eng : LayoutEngine) (rng : Random) (seq : Z) (p : string)
  (forced : option (list string)) (tree : FileTree) (firmware_dir : string)
  (clock : Clock) (Random_of_seed : Z -> Random) (l : ImageLayout)
  (out : ImageOutput) (res : HeaderResult) (rng' : Random) :
  generate_layout log2f exp2f eng rng seq (Some p) forced = Ok l ->
  generate_single_image tree firmware_dir clock Random_of_seed l = Ok out ->
  header_call l (Random_of_seed (layout_seed l)) (now clock)
  = Ok (res, rng') ->
  let planned := default 64 (dict_get header_sizes (header_type l)) in
  let actual := Z.min (Z.of_nat (length (hdr_data res))) planned in
  take (Z.to_nat actual) (out_image_bytes out)
  = take (Z.to_nat actual) (hdr_data res) /\
  (0 < planned ->
   head (sc_sections (out_metadata out))
   = Some (mkActualSection 0 actual "header" None
             (Some (hdr_metadata res)) None None None)).
Proof.
  intros Hl Hrun Hhdr planned actual.
  destruct (dict_get ISA_FAMILIES p) as [fi|] eqn:Hfi.
  2:{ unfold generate_layout in Hl. by rewrite Hfi in Hl. }
  destruct (generate_layout_anatomy log2f exp2f eng rng seq p forced fi l
              Hfi Hl)
    as (_ & _ & (body & cursor & Hsecs & _) & e & Hcont & Hbound).
  destruct (generate_layout_fillable log2f exp2f eng rng seq p forced l Hl)
    as [_ Hroom].
  fold planned in Hroom.
  pose proof (header_size_nonneg (header_type l)) as Hplanned.
  fold planned in Hplanned.
  pose proof (get_trailer_size_range (trailer_type l)) as Hts.
  destruct (Z.ltb_spec 0 planned) as [Hpos|Hzero].
  2:{ replace (Z.to_nat actual) with 0%nat by lia. split; [done|lia]. }
  unfold header_placeholder in Hsecs. fold planned in Hsecs.
  destruct (Z.ltb_spec 0 planned) as [_|]; [|lia].
  cbn [app] in Hsecs.
  set (hdr := mkSectionSpec 0 planned HEADER 1 None _) in Hsecs.
  set (rest := body ++ _) in Hsecs.
  unfold generate_single_image, assemble in Hrun.
  rewrite Hsecs in Hrun, Hcont. cbn [assemble_sections] in Hrun.
  rewrite assemble_section_header in Hrun by done.
  cbn [asm_rng] in Hrun. rewrite Hhdr in Hrun.
  cbn [mbind result_bind rbind asm_image asm_sections offset sec_size hdr]
    in Hrun.
  fold actual in Hrun.
  set (img0 := replicate (Z.to_nat (total_size l)) 255) in Hrun.
  set (img1 := slice_assign img0 0 (0 + actual) _) in Hrun.
  destruct (assemble_sections _ _ _ _ rest) as [st2|err] eqn:Hrest; [|done].
  cbn [mbind result_bind rbind] in Hrun.
  destruct (write_trailer l st2) as [st3|err] eqn:Htr; [|done].
  cbn [mbind result_bind rbind] in Hrun. injection Hrun as <-.
  cbn [out_image_bytes out_metadata sc_sections].
  assert (0 <= actual <= planned) as Hactual by (unfold actual; lia).
  assert (Z.of_nat (length (slice (hdr_data res) 0 actual)) = actual)
    as Hslice by (apply slice_length; unfold actual; lia).
  assert (length img0 = Z.to_nat (total_size l)) as Hlen0
    by apply length_replicate.
  assert (length img1 = length img0) as Hlen1.
  { unfold img1. apply slice_assign_length; lia. }
  cbn [contiguous_from] in Hcont.
  change (offset hdr) with 0 in Hcont. change (sec_size hdr) with planned
    in Hcont.
  destruct (Z.ltb_spec 0 planned); [|lia].
  cbn [Z.eqb andb] in Hcont. rewrite Z.add_0_l in Hcont.
  pose proof Hrest as Hrest'.
  apply assemble_sections_frame with (start := planned) (stop := e)
    in Hrest as (Hl2 & _ & Hk2); [|done|lia].
  pose proof Htr as Htr'.
  apply write_trailer_frame in Htr as (Hl3 & _ & Hk3); [|lia].
  cbn [asm_image] in Hl2, Hk2.
  split.
  - apply take_ext_lookup. intros k Hk.
    rewrite Hk3 by lia. rewrite Hk2 by lia. unfold img1.
    transitivity (slice (hdr_data res) 0 actual !! k).
    + change k with (Z.to_nat 0 + k)%nat at 1.
      apply slice_assign_lookup_in; lia.
    + rewrite slice_take by lia. apply lookup_take_lt. lia.
  - intros _.
    apply assemble_sections_entries in Hrest' as [m2 Hm2].
    apply write_trailer_entries in Htr' as [m3 Hm3].
    rewrite Hm3, Hm2. cbn [asm_sections app]. reflexivity.
Qed.

(** A thumb layout of 256 bytes with a Cortex-M vector table, for which
    the worker draws 64 vectors: a header of 256 bytes for 64 planned. *)
Definition cortexm_cut_layout : ImageLayout :=
  match generate_layout log2_exact exp2_exact example_engine [2 ^ 52; 0] 0
          (Some "thumb") None with
  | Ok l => l
  | Raised _ => mkImageLayout "" 0 "" "" "" [] [] 0
  end.

Lemma image_begins_with_header_witness :
  exists out res rng',
    generate_single_image (mkFileTree [] []) "firmware"
      (mkClock 1000000000 5) (fun _ => [3]) cortexm_cut_layout = Ok out /\
    header_call cortexm_cut_layout [3] 1000000000 = Ok (res, rng') /\
    length (hdr_data res) = 256%nat /\
    let planned :=
      default 64 (dict_get header_sizes (header_type cortexm_cut_layout)) in
    let actual := Z.min (Z.of_nat (length (hdr_data res))) planned in
    take (Z.to_nat actual) (out_image_bytes out)
    = take (Z.to_nat actual) (hdr_data res) /\
    (0 < planned ->
     head (sc_sections (out_metadata out))
     = Some (mkActualSection 0 actual "header" None
               (Some (hdr_metadata res)) None None None)).
Proof.
  eexists _, _, _. split; [vm_compute; reflexivity|].
  split; [vm_compute; reflexivity|]. split; [vm_compute; reflexivity|].
  eapply (image_begins_with_header log2_exact exp2_exact example_engine
           [2 ^ 52; 0] 0 "thumb" None (mkFileTree [] []) "firmware"
           (mkClock 1000000000 5) (fun _ => [3]) cortexm_cut_layout).
  - vm_compute. reflexivity.
  - vm_compute. reflexivity.
  - vm_compute. reflexivity.
Defined.

(** ** A Code section in the image *)

Lemma assemble_section_blob tree now layout st section fam blob :
  section_type section = CODE -> isa_family section = Some fam ->
  read_bytes tree (blob_path_of section fam) = Some blob -> blob <> [] ->
  assemble_section tree now layout st section
  = Ok (mkAssembly
          (fill_code (Z.to_nat (sec_size section)) (asm_image st) blob
             (offset section) (sec_size section) 0)
          (asm_rng st)
          (asm_sections st ++ [missing_blob_entry section fam])).
Proof.
  intros Htype Hfam Hread Hne.
  pose proof (read_bytes_exists _ _ _ Hread) as Hex.
  unfold assemble_section. rewrite Htype, Hfam.
  fold (blob_path_of section fam). rewrite Hex, Hread.
  cbn [mbind result_bind rbind]. by destruct blob.
Qed.

(** X30: layout and worker together, for a Code section whose blob file
    exists and is not empty: in the image the worker writes, the bytes of
    the section are the blob repeated from its start, byte [k] of the
    section being byte [k mod len(blob)] of the blob, the sections being
    laid end to end and this one ending before the trailer's bytes: no
    later section and no trailer overwrites them. *)
Theorem code_section_in_image tree firmware_dir clock R layout
  pre section post fam blob stop out :
  sections layout = pre ++ section :: post ->
  section_type section = CODE -> isa_family section = Some fam ->
  read_bytes tree (blob_path_of section fam) = Some blob -> blob <> [] ->
  contiguous_from 0 (sections layout) = Some stop ->
  offset section + sec_size section
    <= total_size layout - get_trailer_size (trailer_type layout) ->
  generate_single_image tree firmware_dir clock R layout = Ok out ->
  forall k : nat, Z.of_nat k < sec_size section ->
    out_image_bytes out !! (Z.to_nat (offset section) + k)%nat
    = blob !! (k mod length blob)%nat.
Proof.
  intros Hsecs Htype Hfam Hread Hne Hcont Hend Hrun k Hk.
  unfold generate_single_image, assemble in Hrun.
  rewrite Hsecs, assemble_sections_app in Hrun.
  destruct (assemble_sections _ _ _ _ pre) as [st1|e] eqn:Hpre; [|done].
  cbn [mbind result_bind rbind assemble_sections] in Hrun.
  rewrite (assemble_section_blob _ _ _ _ _ fam blob) in Hrun by done.
  cbn [mbind result_bind rbind] in Hrun.
  destruct (assemble_sections _ _ _ _ post) as [st2|e] eqn:Hpost; [|done].
  cbn [mbind result_bind rbind] in Hrun.
  destruct (write_trailer layout st2) as [st3|e] eqn:Htr; [|done].
  cbn in Hrun. injection Hrun as <-. cbn [out_image_bytes].
  rewrite Hsecs in Hcont.
  apply contiguous_from_cons_inv in Hcont as (Hc1 & Hsize & Hc2).
  pose proof (contiguous_from_le _ _ _ Hc1) as Hofs.
  pose proof (get_trailer_size_range (trailer_type layout)) as Hts.
  apply assemble_sections_frame with (start := 0) (stop := offset section)
    in Hpre as (Hl1 & _ & _); [|done|lia].
  cbn [asm_image] in Hl1. rewrite length_replicate in Hl1.
  destruct (fill_code_frame (Z.to_nat (sec_size section)) (asm_image st1)
              blob (offset section) (sec_size section) 0 Hofs ltac:(lia))
    as (_ & Hlen & _).
  specialize (Hlen ltac:(lia)).
  apply assemble_sections_frame
    with (start := offset section + sec_size section) (stop := stop)
    in Hpost as (Hl2 & _ & Hk2); [|done|lia].
  apply write_trailer_frame in Htr as (_ & _ & Hk3); [|lia].
  cbn [asm_image] in Hl2, Hk2.
  rewrite Hk3, Hk2 by lia.
  apply fill_code_spec; first [done | lia | by left | intros j Hj; lia].
Qed.

(** The first Code section of the x86_64 layout above: 65 bytes at 512,
    after the header. *)
Definition x86_code_section : SectionSpec :=
  default (mkSectionSpec 0 0 TRAILER 1 None no_params)
    (sections x86_only_layout !! 1%nat).

Lemma code_section_in_image_witness :
  exists out,
    generate_single_image x86_arm_tree "firmware" (mkClock 1000000000 5)
      example_Random x86_only_layout = Ok out /\
    offset x86_code_section = 512 /\ sec_size x86_code_section = 65 /\
    forall k : nat, Z.of_nat k < sec_size x86_code_section ->
      out_image_bytes out !! (Z.to_nat (offset x86_code_section) + k)%nat
      = replicate 65 0x90 !! (k mod length (replicate 65 0x90))%nat.
Proof.
  eexists. split; [vm_compute; reflexivity|].
  split; [reflexivity|]. split; [reflexivity|].
  apply (code_section_in_image x86_arm_tree "firmware"
           (mkClock 1000000000 5) example_Random x86_only_layout
           (take 1 (sections x86_only_layout)) x86_code_section
           (drop 2 (sections x86_only_layout)) "x86_64" (replicate 65 0x90)
           1024).
  - vm_compute. reflexivity.
  - reflexivity.
  - reflexivity.
  - vm_compute. reflexivity.
  - discriminate.
  - vm_compute. reflexivity.
  - vm_compute. discriminate.
  - vm_compute. reflexivity.
Defined.

(** * Two runs of the pipeline, byte by byte *)

(** ** The same files, walked in another order *)

(** Two readings of one [objects_dir]: the same directories and the same
    files with the same contents, in whatever order each walk delivers
    them; a path names one file. *)
Definition same_files (tree1 tree2 : FileTree) : Prop :=
  ft_dirs tree1 ≡ₚ ft_dirs tree2 /\
  ft_files tree1 ≡ₚ ft_files tree2 /\
  NoDup (fmap fst (ft_files tree1)).





(** ** The blob of a Code section *)





Section LayoutIndexed.

Variable log2f : Z -> Q.
Variable exp2f : Q -> Q.
Variable eng : LayoutEngine.








End LayoutIndexed.

(** ** Two buffers that differ in some bytes *)







(** ** The step of a section that is no header *)











(** ** The two headers that read the clock *)











(** ** The trailer and the hashes *)





(** ** One image at two times, from two walks of the files *)









(** ** The pipeline at two times, on two walks of the files *)









(** Without the blobs on disk the walk decides: an index that lists an
    arm32 blob [b] whose file is gone, and two other [.bin] files under
    [arm32].  The worker falls back on the first file of the walk that is
    not empty, so two walks of the same files, at the same time, give
    different images. *)
Definition fallback_tree : FileTree :=
  mkFileTree
    [["arm32"]; ["arm32"; "arm-unknown-linux-gnueabi"];
     ["arm32"; "arm-unknown-linux-gnueabi"; "O2"]]
    [(["arm32"; "arm-unknown-linux-gnueabi"; "O2"; "x.bin"],
      replicate 100 0x11);
     (["arm32"; "arm-unknown-linux-gnueabi"; "O2"; "y.bin"],
      replicate 100 0x22)].

Definition fallback_tree_again : FileTree :=
  mkFileTree (ft_dirs fallback_tree) (reverse (ft_files fallback_tree)).

Lemma fallback_follows_the_walk :
  same_files fallback_tree fallback_tree_again /\
  exists l o1 o2,
    main log2_exact exp2_exact uboot_Random fallback_tree "firmware"
      (fun _ => mkClock 1000000000 5) arm32_only_index one_image_config
    = Ok [(l, Ok o1)] /\
    main log2_exact exp2_exact uboot_Random fallback_tree_again "firmware"
      (fun _ => mkClock 1000000000 5) arm32_only_index one_image_config
    = Ok [(l, Ok o2)] /\
    out_image_bytes o1 !! 64%nat = Some 0x11 /\
    out_image_bytes o2 !! 64%nat = Some 0x22.
Proof.
  split.
  - split; [done|]. split.
    + apply perm_swap.
    + apply (bool_decide_unpack _). by vm_compute.
  - do 3 eexists. split; [vm_compute; reflexivity|].
    split; [vm_compute; reflexivity|].
    split; vm_compute; reflexivity.
Qed.
